(** * AERO gateway: classifier, forwarding loop, order book, WebSocket
      session retry logic, UDP feed, exchange adapters and connection,
      WebSocket framing, market data parser and minimal TCP client.

    A shallow embedding of the C++ sources and the properties proved
    about them.  Machine integers are [Z] with their wrap-around written
    out, packet bytes are [Byte.byte], a [double] is its 64-bit IEEE-754
    pattern (decoded to [spec_float] where the code compares or
    multiplies), [std::map] is stdpp's [gmap]. *)

From Stdlib Require Import ZArith List Lia Bool String Ascii.
From Corelib Require Import SpecFloat.
From stdpp Require Import gmap strings list fin_maps.

Local Open Scope Z_scope.

(* ===================================================================== *)
(** ** Bytes and fixed-width integers                                     *)
(* ===================================================================== *)

Module Bytes.

(** A byte of a packet buffer read as an unsigned number. *)
Definition byte_to_Z (b : Byte.byte) : Z := Z.of_N (Byte.to_N b).

(** Builds buffer bytes from numbers (used for concrete packets). *)
Definition byte_of_Z (z : Z) : Byte.byte :=
  match Byte.of_N (Z.to_N (z mod 256)) with
  | Some b => b
  | None => Byte.x00
  end.

Definition bytes_of_Zs (l : list Z) : list Byte.byte := map byte_of_Z l.

(** The [n] bytes of [x] as they lie in the memory of a little-endian
    host (x86-64), lowest byte first. *)
Fixpoint le_bytes (n : nat) (x : Z) : list Z :=
  match n with
  | O => []
  | S n' => (x mod 256) :: le_bytes n' (x / 256)
  end.

(** The number a little-endian host reads back from bytes in memory. *)
Fixpoint of_le_bytes (l : list Z) : Z :=
  match l with
  | [] => 0
  | b :: l' => b + 256 * of_le_bytes l'
  end.

(** Network byte order: most significant byte first. *)
Definition be_bytes (n : nat) (x : Z) : list Z := rev (le_bytes n x).

(** Byte swap of an [n]-byte integer: [rte_cpu_to_be_16/64],
    [rte_be_to_cpu_16], [htons], [htonl] on a little-endian host. *)
Definition bswap (n : nat) (x : Z) : Z := of_le_bytes (rev (le_bytes n x)).

Definition is_byte (b : Z) : Prop := 0 <= b < 256.

(** *** Properties *)

Lemma byte_to_Z_range b : 0 <= byte_to_Z b < 256.
Proof.
  unfold byte_to_Z. pose proof (Byte.to_N_bounded b) as H.
  split; [apply N2Z.is_nonneg|]. apply N2Z.inj_le in H. simpl in H. lia.
Qed.

Lemma le_bytes_length n x : length (le_bytes n x) = n.
Proof. revert x. induction n as [|n IH]; intros x; simpl; [done|]. by rewrite IH. Qed.

Lemma le_bytes_are_bytes n x : Forall is_byte (le_bytes n x).
Proof.
  revert x. induction n as [|n IH]; intros x; simpl; constructor.
  - unfold is_byte. apply Z.mod_pos_bound. lia.
  - apply IH.
Qed.

(** Storing a number built from [n] bytes gives those bytes back. *)
Lemma le_bytes_of_le_bytes (l : list Z) :
  Forall is_byte l -> le_bytes (length l) (of_le_bytes l) = l.
Proof.
  induction 1 as [|b l Hb Hl IH]; simpl; [done|].
  unfold is_byte in Hb.
  assert (E1 : (b + 256 * of_le_bytes l) mod 256 = b).
  { symmetry. apply (Z.mod_unique _ _ (of_le_bytes l)); lia. }
  assert (E2 : (b + 256 * of_le_bytes l) / 256 = of_le_bytes l).
  { symmetry. apply (Z.div_unique _ _ _ b); lia. }
  by rewrite E1, E2, IH.
Qed.

(** A byte-swapped value stored by a little-endian host lies in memory
    in network byte order. *)
Lemma le_bytes_bswap n x : le_bytes n (bswap n x) = be_bytes n x.
Proof.
  unfold bswap, be_bytes.
  rewrite <- (le_bytes_length n x) at 1. rewrite <- length_rev.
  apply le_bytes_of_le_bytes. apply Forall_rev, le_bytes_are_bytes.
Qed.

Lemma of_le_bytes_two a b : of_le_bytes [a; b] = a + 256 * b.
Proof. simpl. lia. Qed.

(** Swapping the 16-bit little-endian load of bytes [a], [b] gives the
    big-endian number [256 a + b]. *)
Lemma bswap16_load a b :
  is_byte a -> is_byte b -> bswap 2 (of_le_bytes [a; b]) = 256 * a + b.
Proof.
  intros Ha Hb. unfold bswap.
  assert (E : le_bytes 2 (of_le_bytes [a; b]) = [a; b]).
  { apply (le_bytes_of_le_bytes [a; b]).
    constructor; [exact Ha|]. constructor; [exact Hb|]. constructor. }
  rewrite E. simpl. lia.
Qed.

End Bytes.

(* ===================================================================== *)
(** ** IEEE-754 binary64                                                  *)
(* ===================================================================== *)

Module Double.

(** A C++ [double] is its 64-bit pattern; [memcpy] to a [uint64_t] is
    the identity on this representation. *)
Definition double := Z.

Definition prec : Z := 53.

Definition emax : Z := 1024.

Definition sign_bit (b : double) : bool := Z.testbit b 63.

Definition exponent_field (b : double) : Z := Z.land (Z.shiftr b 52) 0x7ff.

Definition mantissa_field (b : double) : Z := Z.land b 0xfffffffffffff.

(** The value a bit pattern denotes. *)
Definition to_spec (b : double) : spec_float :=
  let s := sign_bit b in
  let e := exponent_field b in
  let m := mantissa_field b in
  if e =? 0 then
    match m with
    | Zpos p => S754_finite s p (-1074)
    | _ => S754_zero s
    end
  else if e =? 0x7ff then
    (if m =? 0 then S754_infinity s else S754_nan)
  else
    match m + 2 ^ 52 with
    | Zpos p => S754_finite s p (e - 1075)
    | _ => S754_nan
    end.

(** The bit pattern of a value in canonical form (a NaN gets the
    default quiet pattern). *)
Definition of_spec (x : spec_float) : double :=
  let sgn (s : bool) := if s then 2 ^ 63 else 0 in
  match x with
  | S754_zero s => sgn s
  | S754_infinity s => sgn s + 0x7ff0000000000000
  | S754_nan => 0x7ff8000000000000
  | S754_finite s m e =>
      if Zpos m <? 2 ^ 52 then sgn s + Zpos m
      else sgn s + (e + 1075) * 2 ^ 52 + (Zpos m - 2 ^ 52)
  end.

Definition zero : double := 0.

Definition is_nan (b : double) : bool :=
  match to_spec b with S754_nan => true | _ => false end.

(** [a <= b], [a < b], [a > b] on doubles (false when either is NaN). *)
Definition leb (a b : double) : bool := SFleb (to_spec a) (to_spec b).

Definition ltb (a b : double) : bool := SFltb (to_spec a) (to_spec b).

Definition gtb (a b : double) : bool := SFltb (to_spec b) (to_spec a).

(** [a * b], rounded to nearest even. *)
Definition mul (a b : double) : double :=
  of_spec (SFmul prec emax (to_spec a) (to_spec b)).

(** Conversion of an integer to [double] ([static_cast<double>], or
    the implicit conversion of an [int]). *)
Definition of_Z (n : Z) : double :=
  of_spec (binary_normalize prec emax n 0 false).

(** Truncation toward zero, as [(long)d] performs on a finite value
    in range; zero elsewhere, where C++ leaves the result undefined. *)
Definition trunc (d : double) : Z :=
  match to_spec d with
  | S754_finite s m e =>
      let a := if 0 <=? e then Zpos m * 2 ^ e else Zpos m / 2 ^ (- e) in
      if s then - a else a
  | _ => 0
  end.

(** [std::round]: the nearest integer, halfway cases away from zero. *)
Definition round (d : double) : double :=
  match to_spec d with
  | S754_finite s m e =>
      if 0 <=? e then d
      else
        let n := (Zpos m + 2 ^ (- e - 1)) / 2 ^ (- e) in
        of_spec (binary_normalize prec emax (if s then - n else n) 0 s)
  | _ => d
  end.

(** [static_cast<uint64_t>(d)]: truncation.  C++ leaves the result
    undefined when the value is outside the range of the type; that
    case is reduced modulo 2^64 here. *)
Definition to_u64 (d : double) : Z := trunc d mod 2 ^ 64.

(** *** Properties *)

Example one_bits : of_Z 1 = 0x3ff0000000000000.
Proof. reflexivity. Qed.

Example two_bits : of_Z 2 = 0x4000000000000000.
Proof. reflexivity. Qed.

Example thousand_roundtrip : trunc (of_Z 1000) = 1000.
Proof. reflexivity. Qed.

Example mul_example : mul (of_Z 1000) (of_Z 2) = of_Z 2000.
Proof. reflexivity. Qed.

(** 1.5e-8 * 1e8 is 1.4999999999999998 and rounds to 1; 2.5e-8 * 1e8
    is 2.5 and rounds to 3; 0.29 * 1e8 is just under 29000000. *)
Example mul_round_examples :
  mul 0x3e501b2b29a4692b (of_Z 100000000) = 0x3ff7ffffffffffff /\
  to_u64 (round (mul 0x3e501b2b29a4692b (of_Z 100000000))) = 1 /\
  to_u64 (round (mul 0x3e5ad7f29abcaf48 (of_Z 100000000))) = 3 /\
  mul 0x3fd28f5c28f5c28f (of_Z 100000000) = 0x417ba813ffffffff /\
  to_u64 (round (mul 0x3fd28f5c28f5c28f (of_Z 100000000))) = 29000000 /\
  to_u64 (round (mul 0x40ed4c1000000000 (of_Z 100000000))) = 6000050000000.
Proof. repeat split; vm_compute; reflexivity. Qed.

(** 2^53 + 1 is not representable: the conversion rounds to even. *)
Example of_Z_rounds : trunc (of_Z (2 ^ 53 + 1)) = 2 ^ 53.
Proof. vm_compute. reflexivity. Qed.

(** [q > 0] is [not (q <= 0)] for every number, and differs from it
    exactly on NaN. *)
Lemma gtb_zero_iff (q : double) :
  gtb q zero = true <-> leb q zero = false /\ is_nan q = false.
Proof.
  unfold gtb, leb, is_nan, zero.
  change (to_spec 0) with (S754_zero false).
  unfold SFltb, SFleb, SFcompare.
  destruct (to_spec q) as [s|s| |s m e]; try destruct s; simpl;
    intuition congruence.
Qed.

End Double.

(** Floating-point values are computed with [vm_compute] only. *)
Global Opaque Double.to_spec Double.of_spec.

(* ===================================================================== *)
(** ** Packet classifier (modules/classifier)                             *)
(* ===================================================================== *)

Module Classifier.

(** [core/types.h] *)
Inductive TrafficType :=
| TRAFFIC_TYPE_STANDARD   (* slow path *)
| TRAFFIC_TYPE_HFT        (* fast path *)
| TRAFFIC_TYPE_IGNORE.    (* drop *)

Global Instance TrafficType_eq_dec : EqDecision TrafficType.
Proof. solve_decision. Defined.

(** What [classify] sees of an [rte_mbuf]: the bytes of the buffer from
    the data pointer ([rte_pktmbuf_mtod]) to the end of the data room,
    and the length of the received frame.  Bytes at offsets
    [>= data_len] are whatever the buffer held before the frame was
    written into it. *)
Record rte_mbuf := {
  buf : list Byte.byte;
  data_len : Z
}.

Definition RTE_ETHER_TYPE_IPV4 : Z := 0x0800.

Definition IPPROTO_TCP : Z := 6.

Definition IPPROTO_UDP : Z := 17.

(** A [uint8_t] field at byte offset [off] from the data pointer. *)
Definition load8 (m : rte_mbuf) (off : Z) : Z :=
  Bytes.byte_to_Z (nth (Z.to_nat off) (buf m) Byte.x00).

(** A [uint16_t] field as the (little-endian) host loads it. *)
Definition load16 (m : rte_mbuf) (off : Z) : Z :=
  Bytes.of_le_bytes [load8 m off; load8 m (off + 1)].

Definition rte_be_to_cpu_16 (x : Z) : Z := Bytes.bswap 2 x.

(** Field offsets of [rte_ether_hdr], [rte_ipv4_hdr], [rte_tcp_hdr]. *)
Definition sizeof_ether_hdr : Z := 14.

Definition off_ether_type : Z := 12.

Definition off_version_ihl : Z := 0.

Definition off_next_proto_id : Z := 9.

Definition off_src_port : Z := 0.

Definition off_dst_port : Z := 2.

(** [HftClassifier::classify].  The debug printing (and its counter)
    does not influence the verdict and is left out. *)
Definition classify (m : rte_mbuf) : TrafficType :=
  let eth_hdr := 0 in
  let ether_type := rte_be_to_cpu_16 (load16 m (eth_hdr + off_ether_type)) in
  if negb (ether_type =? RTE_ETHER_TYPE_IPV4) then TRAFFIC_TYPE_STANDARD
  else
    let ip_hdr := eth_hdr + sizeof_ether_hdr in
    let next_proto_id := load8 m (ip_hdr + off_next_proto_id) in
    if next_proto_id =? IPPROTO_UDP then TRAFFIC_TYPE_STANDARD
    else if next_proto_id =? IPPROTO_TCP then
      let version_ihl := load8 m (ip_hdr + off_version_ihl) in
      let tcp_hdr := ip_hdr + Z.land version_ihl 0xf * 4 in
      let src_port := rte_be_to_cpu_16 (load16 m (tcp_hdr + off_src_port)) in
      let dst_port := rte_be_to_cpu_16 (load16 m (tcp_hdr + off_dst_port)) in
      if (src_port =? 8443) || (dst_port =? 8443) then TRAFFIC_TYPE_HFT
      else if (src_port =? 443) || (dst_port =? 443) then TRAFFIC_TYPE_HFT
      else TRAFFIC_TYPE_STANDARD
    else TRAFFIC_TYPE_STANDARD.

(** *** The rules as the specification words them *)

Inductive Verdict := FAST | SLOW | DROP.

Definition traffic_of_verdict (v : Verdict) : TrafficType :=
  match v with
  | FAST => TRAFFIC_TYPE_HFT
  | SLOW => TRAFFIC_TYPE_STANDARD
  | DROP => TRAFFIC_TYPE_IGNORE
  end.

(** A big-endian 16-bit wire field at offset [off]. *)
Definition wire16 (m : rte_mbuf) (off : Z) : Z :=
  256 * load8 m off + load8 m (off + 1).

Definition ether_type_of (m : rte_mbuf) : Z := wire16 m 12.

Definition protocol_of (m : rte_mbuf) : Z := load8 m 23.

Definition ihl_of (m : rte_mbuf) : Z := load8 m 14 mod 16.

Definition tcp_offset_of (m : rte_mbuf) : Z := 14 + 4 * ihl_of m.

Definition src_port_of (m : rte_mbuf) : Z := wire16 m (tcp_offset_of m).

Definition dst_port_of (m : rte_mbuf) : Z := wire16 m (tcp_offset_of m + 2).

Definition target_port (p : Z) : bool := (p =? 8443) || (p =? 443).

(** The ordered verdict rules of the specification. *)
Definition spec_rules (ether_type protocol src_port dst_port : Z) : Verdict :=
  if negb (ether_type =? 0x0800) then SLOW
  else if protocol =? 17 then SLOW
  else if (protocol =? 6) && (target_port src_port || target_port dst_port)
       then FAST
  else SLOW.

(** *** Frames too short for the headers that are read *)

(** The bounds that a checked reader would require: the Ethernet
    header, then (for IPv4) the fixed IPv4 header, then (for TCP) the
    two port fields at the offset given by IHL. *)
Definition truncated (m : rte_mbuf) : bool :=
  (data_len m <? 14)
  || ((ether_type_of m =? 0x0800) && (data_len m <? 14 + 20))
  || ((ether_type_of m =? 0x0800) && (protocol_of m =? 6)
      && (data_len m <? tcp_offset_of m + 4)).

Definition with_data_len (m : rte_mbuf) (n : Z) : rte_mbuf :=
  {| buf := buf m; data_len := n |}.

(** *** Concrete packets *)

(** Ethernet/IPv4/TCP, destination port 8443, IHL 5. *)
Definition pkt_tcp_8443 : rte_mbuf :=
  {| buf := Bytes.bytes_of_Zs
       ([0;1;2;3;4;5; 6;7;8;9;10;11; 0x08;0x00] ++
        [0x45;0;0;140; 0;0;0;0; 64;6;0;0; 10;0;0;1; 10;0;0;2] ++
        [0xc0;0x00; 0x20;0xfb] ++ repeat 0 16 ++ repeat 0 100);
     data_len := 154 |}.

(** Ethernet/IPv4/ICMP. *)
Definition pkt_icmp : rte_mbuf :=
  {| buf := Bytes.bytes_of_Zs
       ([0;1;2;3;4;5; 6;7;8;9;10;11; 0x08;0x00] ++
        [0x45;0;0;28; 0;0;0;0; 64;1;0;0; 10;0;0;1; 10;0;0;2] ++
        [8;0;0;0;0;0;0;0]);
     data_len := 42 |}.

(** A frame cut after the IPv4 header (34 bytes); the buffer still
    holds, behind the frame, bytes of an earlier packet that read as
    destination port 443. *)
Definition pkt_truncated : rte_mbuf :=
  {| buf := Bytes.bytes_of_Zs
       ([0;1;2;3;4;5; 6;7;8;9;10;11; 0x08;0x00] ++
        [0x45;0;0;20; 0;0;0;0; 64;6;0;0; 10;0;0;1; 10;0;0;2] ++
        [0xc0;0x00; 0x01;0xbb] ++ repeat 0 16);
     data_len := 34 |}.

(** *** Properties *)

Lemma load8_range m off : Bytes.is_byte (load8 m off).
Proof. apply Bytes.byte_to_Z_range. Qed.

Lemma be16_load m off : rte_be_to_cpu_16 (load16 m off) = wire16 m off.
Proof.
  unfold rte_be_to_cpu_16, load16, wire16.
  apply Bytes.bswap16_load; apply load8_range.
Qed.

Lemma land_0xf b : Z.land b 0xf = b mod 16.
Proof. change 0xf with (Z.ones 4). by rewrite Z.land_ones by lia. Qed.

Lemma tcp_hdr_offset m :
  0 + sizeof_ether_hdr + Z.land (load8 m (0 + sizeof_ether_hdr + off_version_ihl)) 0xf * 4
  = tcp_offset_of m.
Proof.
  rewrite land_0xf. unfold tcp_offset_of, ihl_of, sizeof_ether_hdr, off_version_ihl.
  change (0 + 14 + 0) with 14. lia.
Qed.

(** The verdict in terms of the wire fields. *)
Lemma classify_unfold m :
  classify m =
    if negb (ether_type_of m =? 0x0800) then TRAFFIC_TYPE_STANDARD
    else if protocol_of m =? 17 then TRAFFIC_TYPE_STANDARD
    else if protocol_of m =? 6 then
      if (src_port_of m =? 8443) || (dst_port_of m =? 8443) then TRAFFIC_TYPE_HFT
      else if (src_port_of m =? 443) || (dst_port_of m =? 443) then TRAFFIC_TYPE_HFT
      else TRAFFIC_TYPE_STANDARD
    else TRAFFIC_TYPE_STANDARD.
Proof.
  unfold classify. cbv zeta. rewrite !be16_load, tcp_hdr_offset.
  unfold off_src_port. rewrite Z.add_0_r. reflexivity.
Qed.

(** C2: for every packet the verdict of [classify] is the one the
    ordered rules give on the packet's Ethernet type, IPv4 protocol and
    TCP ports, the ports being read at the offset computed from IHL:
    not IPv4 gives SLOW, UDP gives SLOW, TCP with source or destination
    port 8443 or 443 gives FAST, anything else SLOW. *)
Theorem classify_follows_rules (m : rte_mbuf) :
  classify m =
    traffic_of_verdict
      (spec_rules (ether_type_of m) (protocol_of m) (src_port_of m) (dst_port_of m)).
Proof.
  rewrite classify_unfold. unfold spec_rules, target_port.
  destruct (ether_type_of m =? 0x0800); simpl; [|done].
  destruct (protocol_of m =? 17) eqn:Hudp; simpl; [done|].
  destruct (protocol_of m =? 6); simpl; [|done].
  destruct (src_port_of m =? 8443), (dst_port_of m =? 8443),
    (src_port_of m =? 443), (dst_port_of m =? 443); reflexivity.
Qed.

(** The verdict does not depend on the frame length: no bound is
    checked. *)
Lemma classify_ignores_data_len m n : classify (with_data_len m n) = classify m.
Proof. reflexivity. Qed.

Lemma classify_never_ignore m : classify m <> TRAFFIC_TYPE_IGNORE.
Proof.
  rewrite classify_unfold.
  repeat match goal with |- context [if ?b then _ else _] => destruct b end;
    discriminate.
Qed.

Example classify_tcp_8443 : classify pkt_tcp_8443 = TRAFFIC_TYPE_HFT.
Proof. vm_compute. reflexivity. Qed.

Example classify_icmp : classify pkt_icmp = TRAFFIC_TYPE_STANDARD.
Proof. vm_compute. reflexivity. Qed.

(** C9, as stated, fails: this frame is too short to hold the TCP
    header whose ports are read, and it is classified FAST. *)
Lemma truncated_frame_classified_fast :
  truncated pkt_truncated = true /\
  classify pkt_truncated = TRAFFIC_TYPE_HFT.
Proof. split; vm_compute; reflexivity. Qed.

End Classifier.

(* ===================================================================== *)
(** ** Forwarding loop (core/forwarding.cpp)                              *)
(* ===================================================================== *)

Module Forwarding.
Import Classifier.

Definition BURST_SIZE : nat := 32.

Definition RING_SIZE : nat := 2048.

(** A packet handle: the address of an mbuf of the pool. *)
Abbreviation handle := nat.

(** An mbuf: the frame, the reference count, and the first dynamic
    field, which the loop uses for the arrival time stamp. *)
Record mbuf := {
  pkt : rte_mbuf;
  refcnt : Z;
  dynfield1_0 : Z
}.

(** What the loop does to handles, in program order. *)
Inductive event :=
| EvRefcntUpdate (h : handle) (v : Z)
| EvRingEnqueue (h : handle) (ok : bool)
| EvFree (h : handle).

(** The memory the loop works on: the mbuf pool, the HFT ring (with
    its capacity), the handles handed to the virtual port, the number
    of frees that hit an mbuf whose count was already zero, and the
    log of operations. *)
Record dataplane := {
  pool : gmap nat mbuf;
  hft_ring : list handle;
  ring_capacity : nat;
  virt_txq : list handle;
  double_frees : nat;
  trace : list event
}.

Definition with_pool (dp : dataplane) (p : gmap nat mbuf) : dataplane :=
  {| pool := p; hft_ring := hft_ring dp; ring_capacity := ring_capacity dp;
     virt_txq := virt_txq dp; double_frees := double_frees dp;
     trace := trace dp |}.

Definition log (e : event) (dp : dataplane) : dataplane :=
  {| pool := pool dp; hft_ring := hft_ring dp; ring_capacity := ring_capacity dp;
     virt_txq := virt_txq dp; double_frees := double_frees dp;
     trace := trace dp ++ [e] |}.

Definition refcnt_of (dp : dataplane) (h : handle) : Z :=
  match pool dp !! h with Some mb => refcnt mb | None => 0 end.

Definition pkt_of (dp : dataplane) (h : handle) : rte_mbuf :=
  match pool dp !! h with
  | Some mb => pkt mb
  | None => {| buf := []; data_len := 0 |}
  end.

(** *** The DPDK calls the loop makes

    DPDK itself is not part of the repository; these follow its
    documented behaviour. *)

(** [pkts_burst[i]->dynfield1[0] = rx_timestamp] *)
Definition set_timestamp (h : handle) (ts : Z) (dp : dataplane) : dataplane :=
  with_pool dp
    (alter (fun mb => {| pkt := pkt mb; refcnt := refcnt mb; dynfield1_0 := ts |})
           h (pool dp)).

(** [rte_pktmbuf_refcnt_update(m, v)]: adds [v] to the count. *)
Definition rte_pktmbuf_refcnt_update (h : handle) (v : Z) (dp : dataplane)
  : dataplane :=
  log (EvRefcntUpdate h v)
    (with_pool dp
       (alter (fun mb => {| pkt := pkt mb; refcnt := refcnt mb + v;
                            dynfield1_0 := dynfield1_0 mb |})
              h (pool dp))).

(** [rte_ring_sp_enqueue(r, obj)]: 0 and the object is queued, or a
    negative error ([-ENOBUFS]) and the ring is unchanged. *)
Definition rte_ring_sp_enqueue (h : handle) (dp : dataplane) : Z * dataplane :=
  if (length (hft_ring dp) <? ring_capacity dp)%nat then
    (0, log (EvRingEnqueue h true)
          {| pool := pool dp; hft_ring := hft_ring dp ++ [h];
             ring_capacity := ring_capacity dp; virt_txq := virt_txq dp;
             double_frees := double_frees dp; trace := trace dp |})
  else (-105, log (EvRingEnqueue h false) dp).

(** [rte_pktmbuf_free(m)]: drops one reference; at zero the mbuf is
    back in the pool.  Freeing an mbuf that holds no reference is
    counted as a double free. *)
Definition rte_pktmbuf_free (h : handle) (dp : dataplane) : dataplane :=
  log (EvFree h)
    (if refcnt_of dp h <=? 0 then
       {| pool := pool dp; hft_ring := hft_ring dp;
          ring_capacity := ring_capacity dp; virt_txq := virt_txq dp;
          double_frees := S (double_frees dp); trace := trace dp |}
     else
       with_pool dp
         (alter (fun mb => {| pkt := pkt mb; refcnt := refcnt mb - 1;
                              dynfield1_0 := dynfield1_0 mb |})
                h (pool dp))).

(** *** The loop *)

(** The body of [for (i = 0; i < nb_rx; i++)] for [pkts_burst[i] = h];
    [kernel_tx_burst[k_idx++] = h] appends to the batch. *)
Definition ingress_packet (rx_timestamp : Z)
    (st : dataplane * list handle) (h : handle) : dataplane * list handle :=
  let '(dp, kernel_tx_burst) := st in
  let dp := set_timestamp h rx_timestamp dp in
  match classify (pkt_of dp h) with
  | TRAFFIC_TYPE_HFT =>
      let dp := rte_pktmbuf_refcnt_update h 1 dp in
      let '(rc, dp) := rte_ring_sp_enqueue h dp in
      let dp := if rc <? 0 then rte_pktmbuf_free h dp else dp in
      (dp, kernel_tx_burst ++ [h])
  | _ => (dp, kernel_tx_burst ++ [h])
  end.

Definition ingress_loop (rx_timestamp : Z) (pkts_burst : list handle)
    (dp : dataplane) : dataplane * list handle :=
  fold_left (ingress_packet rx_timestamp) pkts_burst (dp, []).

Definition free_all (hs : list handle) (dp : dataplane) : dataplane :=
  fold_left (fun d h => rte_pktmbuf_free h d) hs dp.

(** Batch TX to the virtual port.  [virt_present] is
    [virt_port_id != RTE_MAX_ETHPORTS]; [accepted] is what the driver
    takes of the batch ([rte_eth_tx_burst] returns at most the number
    offered, and owns the handles it took). *)
Definition kernel_tx (virt_present : bool) (accepted : nat)
    (st : dataplane * list handle) : dataplane :=
  let '(dp, kernel_tx_burst) := st in
  let k_idx := length kernel_tx_burst in
  if (0 <? k_idx)%nat then
    if virt_present then
      let nb_tx := Nat.min accepted k_idx in
      let dp := {| pool := pool dp; hft_ring := hft_ring dp;
                   ring_capacity := ring_capacity dp;
                   virt_txq := virt_txq dp ++ firstn nb_tx kernel_tx_burst;
                   double_frees := double_frees dp; trace := trace dp |} in
      free_all (skipn nb_tx kernel_tx_burst) dp
    else free_all kernel_tx_burst dp
  else dp.

(** Section 1 of one iteration of [lcore_forward_loop], given the
    received burst. *)
Definition ingress (rx_timestamp : Z) (pkts_burst : list handle)
    (virt_present : bool) (accepted : nat) (dp : dataplane) : dataplane :=
  kernel_tx virt_present accepted (ingress_loop rx_timestamp pkts_burst dp).

(** *** Counting in the log and in the queues *)

Definition is_refcnt_inc (h : handle) (e : event) : bool :=
  match e with EvRefcntUpdate h' v => (h' =? h)%nat && (v =? 1) | _ => false end.

Definition is_enqueue (h : handle) (ok : bool) (e : event) : bool :=
  match e with EvRingEnqueue h' ok' => (h' =? h)%nat && eqb ok' ok | _ => false end.

Definition is_free (h : handle) (e : event) : bool :=
  match e with EvFree h' => (h' =? h)%nat | _ => false end.

Definition count_ev (f : event -> bool) (tr : list event) : nat :=
  length (List.filter f tr).

Definition occurrences (h : handle) (l : list handle) : nat :=
  count_occ Nat.eq_dec l h.

(** *** A concrete burst *)

Definition fresh (p : rte_mbuf) : mbuf :=
  {| pkt := p; refcnt := 1; dynfield1_0 := 0 |}.

Definition dp_example (cap : nat) : dataplane :=
  {| pool := <[7%nat := fresh pkt_tcp_8443]> (<[9%nat := fresh pkt_icmp]> ∅);
     hft_ring := []; ring_capacity := cap; virt_txq := [];
     double_frees := 0; trace := [] |}.

(** *** What one handle [h] can observe *)

Definition live (dp : dataplane) (h : handle) : Prop := is_Some (pool dp !! h).

Definition in_ring (h : handle) (dp : dataplane) : nat := occurrences h (hft_ring dp).

Definition in_virt (h : handle) (dp : dataplane) : nat := occurrences h (virt_txq dp).

Definition incs (h : handle) (dp : dataplane) : nat := count_ev (is_refcnt_inc h) (trace dp).

Definition frees (h : handle) (dp : dataplane) : nat := count_ev (is_free h) (trace dp).

Definition enq_fails (h : handle) (dp : dataplane) : nat :=
  count_ev (is_enqueue h false) (trace dp).

(** Everything the statements below say about a handle. *)
Record view := {
  v_refcnt : Z; v_ring : nat; v_virt : nat;
  v_incs : nat; v_frees : nat; v_enq_fails : nat
}.

Definition view_of (h : handle) (dp : dataplane) : view :=
  {| v_refcnt := refcnt_of dp h; v_ring := in_ring h dp; v_virt := in_virt h dp;
     v_incs := incs h dp; v_frees := frees h dp; v_enq_fails := enq_fails h dp |}.

(** The parts of the state the ingress body never changes: the frames,
    which handles are live, the capacity and the virtual port queue. *)
Definition same_frame (dp dp' : dataplane) : Prop :=
  ring_capacity dp' = ring_capacity dp /\
  virt_txq dp' = virt_txq dp /\
  (forall h, live dp' h <-> live dp h) /\
  (forall h, pkt_of dp' h = pkt_of dp h).

(** *** Outcomes for one packet of the burst *)

(** The ring had room: one more reference, held by the ring. *)
Definition enqueued (v : view) : view :=
  {| v_refcnt := v_refcnt v + 1; v_ring := S (v_ring v); v_virt := v_virt v;
     v_incs := S (v_incs v); v_frees := v_frees v;
     v_enq_fails := v_enq_fails v |}.

(** The ring was full: the extra reference was taken and given back. *)
Definition rejected (v : view) : view :=
  {| v_refcnt := v_refcnt v; v_ring := v_ring v; v_virt := v_virt v;
     v_incs := S (v_incs v); v_frees := S (v_frees v);
     v_enq_fails := S (v_enq_fails v) |}.

Definition verdict_effect (t : TrafficType) (v v' : view) : Prop :=
  match t with
  | TRAFFIC_TYPE_HFT => v' = enqueued v \/ v' = rejected v
  | _ => v' = v
  end.

(** A refused handle loses the reference the batch held. *)
Definition released (v : view) : view :=
  {| v_refcnt := v_refcnt v - 1; v_ring := v_ring v; v_virt := v_virt v;
     v_incs := v_incs v; v_frees := S (v_frees v);
     v_enq_fails := v_enq_fails v |}.

(** A handle as [rte_eth_rx_burst] delivers it: allocated, one
    reference, in no queue. *)
Definition just_received (dp : dataplane) (h : handle) : Prop :=
  live dp h /\ refcnt_of dp h = 1 /\ in_ring h dp = 0%nat /\ in_virt h dp = 0%nat.

(** *** Properties *)

Example ingress_example_room :
  let dp := ingress 1000 [7%nat; 9%nat] true 2 (dp_example 4) in
  hft_ring dp = [7%nat] /\ virt_txq dp = [7%nat; 9%nat] /\
  refcnt_of dp 7 = 2 /\ refcnt_of dp 9 = 1 /\ double_frees dp = 0%nat.
Proof. vm_compute. repeat split; reflexivity. Qed.

Example ingress_example_full :
  let dp := ingress 1000 [7%nat; 9%nat] true 1 (dp_example 0) in
  hft_ring dp = [] /\ virt_txq dp = [7%nat] /\
  refcnt_of dp 7 = 1 /\ refcnt_of dp 9 = 0 /\ double_frees dp = 0%nat /\
  trace dp = [EvRefcntUpdate 7 1; EvRingEnqueue 7 false; EvFree 7; EvFree 9].
Proof. vm_compute. repeat split; reflexivity. Qed.

Lemma count_ev_snoc f tr e :
  count_ev f (tr ++ [e]) = (count_ev f tr + if f e then 1 else 0)%nat.
Proof.
  unfold count_ev. rewrite List.filter_app, length_app. simpl.
  destruct (f e); reflexivity.
Qed.

Lemma occurrences_snoc h l h' :
  occurrences h (l ++ [h']) = (occurrences h l + if (h' =? h)%nat then 1 else 0)%nat.
Proof.
  unfold occurrences. rewrite count_occ_app. simpl.
  destruct (Nat.eq_dec h' h) as [->|Hne].
  - by rewrite Nat.eqb_refl.
  - apply Nat.eqb_neq in Hne. by rewrite Hne.
Qed.

Lemma occurrences_app h l1 l2 :
  occurrences h (l1 ++ l2) = (occurrences h l1 + occurrences h l2)%nat.
Proof. apply count_occ_app. Qed.

Lemma occurrences_not_in h l : h ∉ l -> occurrences h l = 0%nat.
Proof. intros H. apply count_occ_not_In. by rewrite <- list_elem_of_In. Qed.

Lemma occurrences_NoDup h l : NoDup l -> h ∈ l -> occurrences h l = 1%nat.
Proof.
  intros Hnd Hin. apply NoDup_ListNoDup in Hnd.
  apply list_elem_of_In in Hin.
  pose proof (proj1 (List.NoDup_count_occ Nat.eq_dec l) Hnd h) as Hle.
  pose proof (proj1 (count_occ_In Nat.eq_dec l h) Hin) as Hgt.
  unfold occurrences. lia.
Qed.

Lemma refcnt_of_alter_ne f h h' dp :
  h' <> h -> refcnt_of (with_pool dp (alter f h' (pool dp))) h = refcnt_of dp h.
Proof. intros Hne. unfold refcnt_of. simpl. by rewrite lookup_alter_ne. Qed.

Lemma view_set_timestamp h h' ts dp :
  view_of h (set_timestamp h' ts dp) = view_of h dp.
Proof.
  unfold view_of, set_timestamp, refcnt_of, in_ring, in_virt, incs, frees, enq_fails.
  simpl. f_equal. rewrite lookup_alter.
  destruct (decide (h' = h)) as [->|]; [|done].
  by destruct (pool dp !! h).
Qed.

Lemma pkt_of_set_timestamp h h' ts dp :
  pkt_of (set_timestamp h' ts dp) h = pkt_of dp h.
Proof.
  unfold pkt_of, set_timestamp. simpl. rewrite lookup_alter.
  destruct (decide (h' = h)) as [->|]; [|done].
  by destruct (pool dp !! h).
Qed.

Lemma view_refcnt_update_ne h h' v dp :
  h' <> h -> view_of h (rte_pktmbuf_refcnt_update h' v dp) = view_of h dp.
Proof.
  intros Hne. apply Nat.eqb_neq in Hne as Hb.
  unfold view_of, rte_pktmbuf_refcnt_update, refcnt_of, in_ring, in_virt,
    incs, frees, enq_fails. simpl.
  rewrite lookup_alter_ne by done. rewrite !count_ev_snoc. simpl. rewrite Hb. simpl.
  f_equal; lia.
Qed.

Lemma view_refcnt_inc_eq h dp :
  live dp h ->
  view_of h (rte_pktmbuf_refcnt_update h 1 dp) =
    {| v_refcnt := refcnt_of dp h + 1; v_ring := in_ring h dp;
       v_virt := in_virt h dp; v_incs := S (incs h dp);
       v_frees := frees h dp; v_enq_fails := enq_fails h dp |}.
Proof.
  intros [mb Hmb].
  unfold view_of, rte_pktmbuf_refcnt_update, refcnt_of, in_ring, in_virt,
    incs, frees, enq_fails. simpl.
  rewrite lookup_alter_eq, Hmb. rewrite !count_ev_snoc. simpl.
  rewrite Nat.eqb_refl. simpl. f_equal; lia.
Qed.

Lemma view_free_ne h h' dp :
  h' <> h -> view_of h (rte_pktmbuf_free h' dp) = view_of h dp.
Proof.
  intros Hne. apply Nat.eqb_neq in Hne as Hb.
  unfold view_of, rte_pktmbuf_free, refcnt_of, in_ring, in_virt,
    incs, frees, enq_fails.
  destruct (_ <=? 0); simpl; rewrite ?lookup_alter_ne by done;
    rewrite !count_ev_snoc; simpl; rewrite Hb; f_equal; lia.
Qed.

Lemma view_free_eq h dp :
  0 < refcnt_of dp h ->
  view_of h (rte_pktmbuf_free h dp) =
    {| v_refcnt := refcnt_of dp h - 1; v_ring := in_ring h dp;
       v_virt := in_virt h dp; v_incs := incs h dp;
       v_frees := S (frees h dp); v_enq_fails := enq_fails h dp |}
  /\ double_frees (rte_pktmbuf_free h dp) = double_frees dp.
Proof.
  intros Hpos.
  unfold view_of, rte_pktmbuf_free, in_ring, in_virt, incs, frees, enq_fails.
  destruct (refcnt_of dp h <=? 0) eqn:E; [lia|]. simpl. split; [|done].
  unfold refcnt_of in *. simpl. rewrite lookup_alter_eq.
  destruct (pool dp !! h); simpl; [|lia].
  rewrite !count_ev_snoc. simpl. rewrite Nat.eqb_refl. f_equal; lia.
Qed.

Lemma view_enqueue_ne h h' dp :
  h' <> h -> view_of h (rte_ring_sp_enqueue h' dp).2 = view_of h dp.
Proof.
  intros Hne. apply Nat.eqb_neq in Hne as Hb.
  unfold view_of, rte_ring_sp_enqueue, refcnt_of, in_ring, in_virt,
    incs, frees, enq_fails.
  destruct (_ <? _)%nat; simpl; rewrite ?occurrences_snoc, !count_ev_snoc;
    simpl; rewrite Hb; simpl; f_equal; lia.
Qed.

Lemma view_enqueue_eq h dp :
  let r := rte_ring_sp_enqueue h dp in
  (r.1 = 0 /\
   view_of h r.2 =
     {| v_refcnt := refcnt_of dp h; v_ring := S (in_ring h dp);
        v_virt := in_virt h dp; v_incs := incs h dp;
        v_frees := frees h dp; v_enq_fails := enq_fails h dp |})
  \/
  (r.1 < 0 /\
   view_of h r.2 =
     {| v_refcnt := refcnt_of dp h; v_ring := in_ring h dp;
        v_virt := in_virt h dp; v_incs := incs h dp;
        v_frees := frees h dp; v_enq_fails := S (enq_fails h dp) |}).
Proof.
  unfold view_of, rte_ring_sp_enqueue, refcnt_of, in_ring, in_virt,
    incs, frees, enq_fails.
  destruct (_ <? _)%nat; simpl; [left|right]; (split; [lia|]);
    rewrite ?occurrences_snoc, !count_ev_snoc; simpl;
    rewrite ?Nat.eqb_refl; simpl; f_equal; lia.
Qed.

Lemma same_frame_refl dp : same_frame dp dp.
Proof. by repeat split. Qed.

Lemma same_frame_trans dp1 dp2 dp3 :
  same_frame dp1 dp2 -> same_frame dp2 dp3 -> same_frame dp1 dp3.
Proof.
  intros (A1 & A2 & A3 & A4) (B1 & B2 & B3 & B4). repeat split.
  - congruence.
  - congruence.
  - intros H. apply A3, B3, H.
  - intros H. apply B3, A3, H.
  - intros h. by rewrite B4, A4.
Qed.

Lemma same_frame_alter dp f h :
  (forall mb, pkt (f mb) = pkt mb) ->
  same_frame dp (with_pool dp (alter f h (pool dp))).
Proof.
  intros Hf. repeat split; simpl.
  - unfold live. simpl. rewrite lookup_alter.
    destruct (decide (h = h0)) as [->|]; [|done]. by rewrite fmap_is_Some.
  - unfold live. simpl. rewrite lookup_alter.
    destruct (decide (h = h0)) as [->|]; [|done]. by rewrite fmap_is_Some.
  - intros h0. unfold pkt_of. simpl. rewrite lookup_alter.
    destruct (decide (h = h0)) as [->|]; [|done].
    destruct (pool dp !! h0); simpl; [apply Hf|done].
Qed.

Lemma same_frame_log dp e : same_frame dp (log e dp).
Proof. by repeat split. Qed.

Lemma same_frame_set_timestamp h ts dp : same_frame dp (set_timestamp h ts dp).
Proof. apply same_frame_alter. done. Qed.

Lemma same_frame_refcnt_update h v dp :
  same_frame dp (rte_pktmbuf_refcnt_update h v dp).
Proof.
  unfold rte_pktmbuf_refcnt_update.
  eapply same_frame_trans; [|apply same_frame_log].
  apply same_frame_alter. done.
Qed.

Lemma same_frame_enqueue h dp : same_frame dp (rte_ring_sp_enqueue h dp).2.
Proof. unfold rte_ring_sp_enqueue. destruct (_ <? _)%nat; by repeat split. Qed.

Lemma same_frame_free h dp : same_frame dp (rte_pktmbuf_free h dp).
Proof.
  unfold rte_pktmbuf_free.
  eapply same_frame_trans; [|apply same_frame_log].
  destruct (_ <=? 0); [by repeat split|]. apply same_frame_alter. done.
Qed.

Lemma double_frees_set_timestamp h ts dp :
  double_frees (set_timestamp h ts dp) = double_frees dp.
Proof. reflexivity. Qed.

Lemma double_frees_refcnt_update h v dp :
  double_frees (rte_pktmbuf_refcnt_update h v dp) = double_frees dp.
Proof. reflexivity. Qed.

Lemma double_frees_enqueue h dp :
  double_frees (rte_ring_sp_enqueue h dp).2 = double_frees dp.
Proof. unfold rte_ring_sp_enqueue. by destruct (_ <? _)%nat. Qed.

Lemma ingress_packet_batch ts dp k h :
  (ingress_packet ts (dp, k) h).2 = k ++ [h].
Proof.
  unfold ingress_packet.
  destruct (classify _); try done.
  by destruct (rte_ring_sp_enqueue _ _).
Qed.

Lemma ingress_packet_frame ts dp k h :
  same_frame dp (ingress_packet ts (dp, k) h).1.
Proof.
  unfold ingress_packet.
  pose proof (same_frame_set_timestamp h ts dp) as H0.
  destruct (classify _); try done.
  set (dp1 := rte_pktmbuf_refcnt_update h 1 (set_timestamp h ts dp)).
  pose proof (same_frame_refcnt_update h 1 (set_timestamp h ts dp)) as H1.
  pose proof (same_frame_enqueue h dp1) as H2.
  destruct (rte_ring_sp_enqueue h dp1) as [rc dp2]. simpl in *.
  assert (H02 : same_frame dp dp2).
  { eapply same_frame_trans; [|exact H2].
    eapply same_frame_trans; [exact H0|exact H1]. }
  destruct (rc <? 0); [|done].
  eapply same_frame_trans; [exact H02|apply same_frame_free].
Qed.

Lemma ingress_packet_other ts dp k h h' :
  h' <> h -> view_of h (ingress_packet ts (dp, k) h').1 = view_of h dp.
Proof.
  intros Hne. unfold ingress_packet.
  destruct (classify _); simpl; rewrite ?view_set_timestamp; try done.
  set (dp1 := rte_pktmbuf_refcnt_update h' 1 (set_timestamp h' ts dp)).
  assert (H1 : view_of h dp1 = view_of h dp).
  { unfold dp1. by rewrite view_refcnt_update_ne, view_set_timestamp. }
  pose proof (view_enqueue_ne h h' dp1 Hne) as H2.
  destruct (rte_ring_sp_enqueue h' dp1) as [rc dp2]. simpl in *.
  destruct (rc <? 0); simpl; rewrite ?view_free_ne by done; congruence.
Qed.

Lemma ingress_packet_self ts dp k h :
  live dp h -> 0 <= refcnt_of dp h ->
  let dp' := (ingress_packet ts (dp, k) h).1 in
  double_frees dp' = double_frees dp /\
  match classify (pkt_of dp h) with
  | TRAFFIC_TYPE_HFT =>
      view_of h dp' = enqueued (view_of h dp) \/
      view_of h dp' = rejected (view_of h dp)
  | _ => view_of h dp' = view_of h dp
  end.
Proof.
  intros Hlive Hpos. unfold ingress_packet.
  rewrite pkt_of_set_timestamp.
  set (dp0 := set_timestamp h ts dp).
  assert (V0 : view_of h dp0 = view_of h dp) by apply view_set_timestamp.
  assert (L0 : live dp0 h).
  { by apply (same_frame_set_timestamp h ts dp). }
  destruct (classify (pkt_of dp h)); simpl; try done.
  pose proof (view_refcnt_inc_eq h dp0 L0) as V1.
  set (dp1 := rte_pktmbuf_refcnt_update h 1 dp0) in *.
  pose proof (view_enqueue_eq h dp1) as V2.
  pose proof (double_frees_enqueue h dp1) as D2.
  destruct (rte_ring_sp_enqueue h dp1) as [rc dp2]. simpl in *.
  assert (R0 : refcnt_of dp0 h = refcnt_of dp h)
    by exact (f_equal v_refcnt V0).
  assert (R1 : refcnt_of dp1 h = refcnt_of dp h + 1).
  { pose proof (f_equal v_refcnt V1) as E. simpl in E. lia. }
  destruct V2 as [[Hrc V2]|[Hrc V2]].
  - replace (rc <? 0) with false by lia. split; [done|]. left.
    rewrite V2. unfold enqueued. rewrite <- V0.
    pose proof (f_equal v_ring V1) as E1. pose proof (f_equal v_virt V1) as E2.
    pose proof (f_equal v_incs V1) as E3. pose proof (f_equal v_frees V1) as E4.
    pose proof (f_equal v_enq_fails V1) as E5. simpl in *.
    f_equal; try lia; congruence.
  - replace (rc <? 0) with true by lia.
    assert (R2 : refcnt_of dp2 h = refcnt_of dp h + 1).
    { pose proof (f_equal v_refcnt V2) as E. simpl in E. lia. }
    destruct (view_free_eq h dp2) as [V3 D3]; [lia|].
    split; [congruence|]. right.
    rewrite V3. unfold rejected. rewrite <- V0.
    pose proof (f_equal v_ring V1) as E1. pose proof (f_equal v_virt V1) as E2.
    pose proof (f_equal v_incs V1) as E3. pose proof (f_equal v_frees V1) as E4.
    pose proof (f_equal v_enq_fails V1) as E5.
    pose proof (f_equal v_ring V2) as G1. pose proof (f_equal v_virt V2) as G2.
    pose proof (f_equal v_incs V2) as G3. pose proof (f_equal v_frees V2) as G4.
    pose proof (f_equal v_enq_fails V2) as G5. simpl in *.
    f_equal; try lia; congruence.
Qed.

Lemma ingress_fold_spec ts (l : list nat) :
  forall dp k,
    NoDup l ->
    (forall h, h ∈ l -> live dp h /\ 0 <= refcnt_of dp h) ->
    let r := fold_left (ingress_packet ts) l (dp, k) in
    r.2 = k ++ l /\
    same_frame dp r.1 /\
    double_frees r.1 = double_frees dp /\
    (forall h, h ∉ l -> view_of h r.1 = view_of h dp) /\
    (forall h, h ∈ l ->
       verdict_effect (classify (pkt_of dp h)) (view_of h dp) (view_of h r.1)).
Proof.
  induction l as [|a l IH]; intros dp k Hnd Hpre; cbv zeta.
  - simpl. repeat split; try done.
    + by rewrite app_nil_r.
    + intros h Hin. by apply elem_of_nil in Hin.
  - change (fold_left (ingress_packet ts) (a :: l) (dp, k))
      with (fold_left (ingress_packet ts) l (ingress_packet ts (dp, k) a)).
    apply NoDup_cons in Hnd as [Ha Hnd].
    pose proof (ingress_packet_batch ts dp k a) as Hk.
    pose proof (ingress_packet_frame ts dp k a) as Hf.
    destruct (Hpre a) as [La Ra]; [by left|].
    pose proof (ingress_packet_self ts dp k a La Ra) as [Hd Hself].
    assert (Hoth : forall h, h <> a ->
              view_of h (ingress_packet ts (dp, k) a).1 = view_of h dp).
    { intros h Hne. by apply ingress_packet_other. }
    destruct (ingress_packet ts (dp, k) a) as [dp1 k1]. simpl in *. subst k1.
    destruct (IH dp1 (k ++ [a]) Hnd) as (I1 & I2 & I3 & I4 & I5).
    { intros h Hin. assert (h <> a) by (intros ->; done).
      destruct (Hpre h) as [Lh Rh]; [by right|]. split.
      - by apply Hf.
      - pose proof (f_equal v_refcnt (Hoth h H)) as E. simpl in E. lia. }
    split; [by rewrite I1, <- app_assoc|].
    split; [by eapply same_frame_trans|].
    split; [congruence|]. split.
    + intros h Hnin. apply not_elem_of_cons in Hnin as [Hne Hnin].
      by rewrite I4, Hoth.
    + intros h Hin. apply elem_of_cons in Hin as [->|Hin].
      * rewrite (I4 a Ha). unfold verdict_effect.
        destruct (classify (pkt_of dp a)); done.
      * assert (h <> a) by (intros ->; done).
        specialize (I5 h Hin).
        destruct Hf as (_ & _ & _ & Hp). by rewrite Hp, Hoth in I5.
Qed.

Lemma free_all_spec (l : list nat) :
  forall dp,
    NoDup l ->
    (forall h, h ∈ l -> 0 < refcnt_of dp h) ->
    let dp' := free_all l dp in
    double_frees dp' = double_frees dp /\
    (forall h, h ∉ l -> view_of h dp' = view_of h dp) /\
    (forall h, h ∈ l -> view_of h dp' = released (view_of h dp)).
Proof.
  induction l as [|a l IH]; intros dp Hnd Hpre; cbv zeta.
  - simpl. repeat split; try done. intros h Hin. by apply elem_of_nil in Hin.
  - change (free_all (a :: l) dp) with (free_all l (rte_pktmbuf_free a dp)).
    apply NoDup_cons in Hnd as [Ha Hnd].
    destruct (view_free_eq a dp) as [Va Da]; [apply Hpre; by left|].
    destruct (IH (rte_pktmbuf_free a dp) Hnd) as (I1 & I2 & I3).
    { intros h Hin. assert (a <> h) by (intros ->; done).
      pose proof (f_equal v_refcnt (view_free_ne h a dp H)) as E. simpl in E.
      rewrite E. apply Hpre. by right. }
    split; [congruence|]. split.
    + intros h Hnin. apply not_elem_of_cons in Hnin as [Hne Hnin].
      rewrite I2 by done. by apply view_free_ne.
    + intros h Hin. apply elem_of_cons in Hin as [->|Hin].
      * rewrite (I2 a Ha). exact Va.
      * assert (a <> h) by (intros ->; done).
        rewrite (I3 h Hin). by rewrite view_free_ne.
Qed.

(** Handing the batch to the virtual port: every handle of the batch
    is either taken by the driver, which now holds its reference, or
    refused and freed. *)
Lemma kernel_tx_spec virt_present accepted dp (batch : list nat) :
  NoDup batch ->
  (forall h, h ∈ batch -> 0 < refcnt_of dp h /\ in_virt h dp = 0%nat) ->
  let dp' := kernel_tx virt_present accepted (dp, batch) in
  double_frees dp' = double_frees dp /\
  forall h, h ∈ batch ->
    in_ring h dp' = in_ring h dp /\
    ((refcnt_of dp' h = refcnt_of dp h /\ in_virt h dp' = 1%nat) \/
     (refcnt_of dp' h = refcnt_of dp h - 1 /\ in_virt h dp' = 0%nat)).
Proof.
  intros Hnd Hpre. cbv zeta. unfold kernel_tx.
  destruct (0 <? length batch)%nat eqn:Hlen.
  2:{ split; [done|]. intros h Hin.
      apply Nat.ltb_ge in Hlen. destruct batch; [by apply elem_of_nil in Hin|].
      simpl in Hlen. lia. }
  destruct virt_present.
  - set (nb_tx := Nat.min accepted (length batch)).
    set (dpv := {| pool := pool dp; hft_ring := hft_ring dp;
                   ring_capacity := ring_capacity dp;
                   virt_txq := virt_txq dp ++ take nb_tx batch;
                   double_frees := double_frees dp; trace := trace dp |}).
    pose proof (take_drop nb_tx batch) as Hsplit.
    rewrite <- Hsplit in Hnd. apply NoDup_app in Hnd as (Hnd1 & Hdisj & Hnd2).
    destruct (free_all_spec (drop nb_tx batch) dpv Hnd2) as (D & Vout & Vin).
    { intros h Hin. apply (Hpre h). rewrite <- Hsplit. apply elem_of_app. by right. }
    split; [exact D|]. intros h Hin.
    rewrite <- Hsplit in Hin. apply elem_of_app in Hin as [Hin|Hin].
    + specialize (Vout h (Hdisj h Hin)).
      destruct (Hpre h) as [_ Hv]; [rewrite <- Hsplit; apply elem_of_app; by left|].
      split; [exact (f_equal v_ring Vout)|]. left. split.
      * exact (f_equal v_refcnt Vout).
      * pose proof (f_equal v_virt Vout) as E. simpl in E. rewrite E.
        unfold in_virt in *. simpl. rewrite occurrences_app, Hv.
        by rewrite (occurrences_NoDup h _ Hnd1 Hin).
    + specialize (Vin h Hin).
      assert (Hnin : h ∉ take nb_tx batch).
      { intros Hin'. by apply (Hdisj h Hin'). }
      destruct (Hpre h) as [_ Hv]; [rewrite <- Hsplit; apply elem_of_app; by right|].
      split; [exact (f_equal v_ring Vin)|]. right. split.
      * exact (f_equal v_refcnt Vin).
      * pose proof (f_equal v_virt Vin) as E. simpl in E. rewrite E.
        unfold in_virt in *. simpl. rewrite occurrences_app, Hv.
        by rewrite (occurrences_not_in h _ Hnin).
  - destruct (free_all_spec batch dp Hnd) as (D & Vout & Vin).
    { intros h Hin. by apply Hpre. }
    split; [exact D|]. intros h Hin. specialize (Vin h Hin).
    destruct (Hpre h Hin) as [_ Hv].
    split; [exact (f_equal v_ring Vin)|]. right. split.
    + exact (f_equal v_refcnt Vin).
    + pose proof (f_equal v_virt Vin) as E. simpl in E. by rewrite E.
Qed.

(** State of every handle of the burst when the [for] loop is done. *)
Lemma ingress_loop_views ts (pkts_burst : list nat) dp :
  NoDup pkts_burst ->
  (forall h, h ∈ pkts_burst -> just_received dp h) ->
  (ingress_loop ts pkts_burst dp).2 = pkts_burst /\
  double_frees (ingress_loop ts pkts_burst dp).1 = double_frees dp /\
  forall h, h ∈ pkts_burst ->
    verdict_effect (classify (pkt_of dp h)) (view_of h dp)
      (view_of h (ingress_loop ts pkts_burst dp).1).
Proof.
  intros Hnd Hrx. unfold ingress_loop.
  destruct (ingress_fold_spec ts pkts_burst dp [] Hnd) as (K & _ & D & _ & V).
  { intros h Hin. destruct (Hrx h Hin) as (L & R & _). split; [done|lia]. }
  done.
Qed.

(** C1: a packet of the burst that the classifier marks FAST has its
    reference count incremented exactly once; it is at most once in
    the HFT ring and exactly once in the kernel-TX batch; either the
    enqueue succeeded and the ring holds the second reference, or it
    failed and the second reference was freed, the packet being in the
    kernel-TX batch all the same.  After the batch is handed to the
    virtual port no free has hit a handle without reference, and every
    handle of the burst has exactly as many references as queues
    holding it. *)
Theorem fast_packet_refcount_accounting
    ts (pkts_burst : list nat) virt_present accepted dp (h : nat) :
  NoDup pkts_burst ->
  (forall h', h' ∈ pkts_burst -> just_received dp h') ->
  h ∈ pkts_burst ->
  classify (pkt_of dp h) = TRAFFIC_TYPE_HFT ->
  let looped := ingress_loop ts pkts_burst dp in
  let dp1 := looped.1 in
  let kernel_tx_burst := looped.2 in
  let dp2 := kernel_tx virt_present accepted looped in
  incs h dp1 = S (incs h dp) /\
  (in_ring h dp1 <= 1)%nat /\
  occurrences h kernel_tx_burst = 1%nat /\
  ((enq_fails h dp1 = enq_fails h dp /\ in_ring h dp1 = 1%nat /\
    frees h dp1 = frees h dp /\ refcnt_of dp1 h = 2)
   \/
   (enq_fails h dp1 = S (enq_fails h dp) /\ in_ring h dp1 = 0%nat /\
    frees h dp1 = S (frees h dp) /\ refcnt_of dp1 h = 1)) /\
  double_frees dp2 = double_frees dp /\
  (forall h', h' ∈ pkts_burst ->
     refcnt_of dp1 h' = 1 + Z.of_nat (in_ring h' dp1) /\
     refcnt_of dp2 h' = Z.of_nat (in_ring h' dp2 + in_virt h' dp2)).
Proof.
  intros Hnd Hrx Hin Hfast. cbv zeta.
  destruct (ingress_loop_views ts pkts_burst dp Hnd Hrx) as (K & D & V).
  assert (Hall : forall h', h' ∈ pkts_burst ->
            refcnt_of (ingress_loop ts pkts_burst dp).1 h'
            = 1 + Z.of_nat (in_ring h' (ingress_loop ts pkts_burst dp).1)
            /\ in_virt h' (ingress_loop ts pkts_burst dp).1 = 0%nat).
  { intros h' Hin'. specialize (V h' Hin').
    destruct (Hrx h' Hin') as (_ & R & Q & W).
    unfold verdict_effect in V.
    destruct (classify (pkt_of dp h')); [| destruct V as [V|V] |];
      pose proof (f_equal v_refcnt V) as E1; pose proof (f_equal v_ring V) as E2;
      pose proof (f_equal v_virt V) as E3; simpl in *; split; lia. }
  pose proof (V h Hin) as Vh. unfold verdict_effect in Vh. rewrite Hfast in Vh.
  destruct (Hrx h Hin) as (_ & R & Q & W).
  destruct (ingress_loop ts pkts_burst dp) as [dp1 batch] eqn:Hloop.
  simpl in *. subst batch.
  destruct (kernel_tx_spec virt_present accepted dp1 pkts_burst Hnd) as (D2 & T).
  { intros h' Hin'. destruct (Hall h' Hin') as [E1 E2]. split; [lia|done]. }
  split; [|split; [|split; [|split; [|split]]]].
  - destruct Vh as [Vh|Vh]; exact (f_equal v_incs Vh).
  - destruct Vh as [Vh|Vh]; pose proof (f_equal v_ring Vh) as E; simpl in E; lia.
  - by apply occurrences_NoDup.
  - destruct Vh as [Vh|Vh];
      pose proof (f_equal v_refcnt Vh) as E1; pose proof (f_equal v_ring Vh) as E2;
      pose proof (f_equal v_frees Vh) as E3;
      pose proof (f_equal v_enq_fails Vh) as E4; simpl in *;
      [left|right]; repeat split; lia.
  - etransitivity; [exact D2|exact D].
  - intros h' Hin'. destruct (Hall h' Hin') as [E1 E2]. split; [exact E1|].
    change (refcnt_of (kernel_tx virt_present accepted (dp1, pkts_burst)) h' =
            Z.of_nat (in_ring h' (kernel_tx virt_present accepted (dp1, pkts_burst))
                      + in_virt h' (kernel_tx virt_present accepted (dp1, pkts_burst)))).
    destruct (T h' Hin') as (Tq & [[Tr Tv]|[Tr Tv]]); lia.
Qed.

Lemma burst_example_NoDup : NoDup [7%nat; 9%nat].
Proof.
  apply NoDup_cons. split; [|apply NoDup_singleton].
  intros H. apply list_elem_of_singleton in H. discriminate.
Defined.

(** The theorem at a burst of two packets, a full ring and a driver
    that takes one handle. *)
Lemma fast_packet_refcount_accounting_witness :
  let dp := dp_example 0 in
  let looped := ingress_loop 1000 [7%nat; 9%nat] dp in
  let dp2 := kernel_tx true 1 looped in
  incs 7 looped.1 = 1%nat /\
  (in_ring 7 looped.1 <= 1)%nat /\
  occurrences 7 looped.2 = 1%nat /\
  ((enq_fails 7 looped.1 = 0%nat /\ in_ring 7 looped.1 = 1%nat /\
    frees 7 looped.1 = 0%nat /\ refcnt_of looped.1 7 = 2)
   \/
   (enq_fails 7 looped.1 = 1%nat /\ in_ring 7 looped.1 = 0%nat /\
    frees 7 looped.1 = 1%nat /\ refcnt_of looped.1 7 = 1)) /\
  double_frees dp2 = 0%nat /\
  (forall h', h' ∈ [7%nat; 9%nat] ->
     refcnt_of looped.1 h' = 1 + Z.of_nat (in_ring h' looped.1) /\
     refcnt_of dp2 h' = Z.of_nat (in_ring h' dp2 + in_virt h' dp2)).
Proof.
  apply (fast_packet_refcount_accounting 1000 [7%nat; 9%nat] true 1
           (dp_example 0) 7%nat).
  - exact burst_example_NoDup.
  - intros h' Hin. apply elem_of_cons in Hin as [->|Hin].
    + repeat split; try reflexivity. by eexists.
    + apply list_elem_of_singleton in Hin as ->.
      repeat split; try reflexivity. by eexists.
  - by left.
  - vm_compute. reflexivity.
Defined.

(** *** Packets that are too short *)

Lemma classify_fast_fields m :
  classify m = TRAFFIC_TYPE_HFT ->
  ether_type_of m = 0x0800 /\ protocol_of m = 6 /\
  target_port (src_port_of m) || target_port (dst_port_of m) = true.
Proof.
  rewrite classify_unfold. unfold target_port.
  destruct (ether_type_of m =? 0x0800) eqn:E1; simpl; [|discriminate].
  destruct (protocol_of m =? 17) eqn:E2; [discriminate|].
  destruct (protocol_of m =? 6) eqn:E3; [|discriminate].
  apply Z.eqb_eq in E1, E3.
  destruct (src_port_of m =? 8443), (dst_port_of m =? 8443),
    (src_port_of m =? 443), (dst_port_of m =? 443); simpl;
    intros; try discriminate; done.
Qed.

(** The verdict is FAST exactly when these fields match. *)
Lemma classify_fast_iff m :
  classify m = TRAFFIC_TYPE_HFT <->
  ether_type_of m = 0x0800 /\ protocol_of m = 6 /\
  target_port (src_port_of m) || target_port (dst_port_of m) = true.
Proof.
  split; [apply classify_fast_fields|].
  intros (He & Hp & Ht). rewrite classify_unfold, He, Hp. cbn.
  unfold target_port in Ht.
  destruct (src_port_of m =? 8443), (dst_port_of m =? 8443),
    (src_port_of m =? 443), (dst_port_of m =? 443); done.
Qed.

(** The [for] loop puts the whole burst in the batch, in order, and
    leaves the frames and the virtual port's queue alone. *)
Lemma ingress_fold_batch ts (l : list handle) :
  forall dp k,
    (fold_left (ingress_packet ts) l (dp, k)).2 = k ++ l /\
    same_frame dp (fold_left (ingress_packet ts) l (dp, k)).1.
Proof.
  induction l as [|h l IH]; intros dp k.
  - cbn [fold_left fst snd]. rewrite app_nil_r. split; [done|apply same_frame_refl].
  - change (fold_left (ingress_packet ts) (h :: l) (dp, k))
      with (fold_left (ingress_packet ts) l (ingress_packet ts (dp, k) h)).
    pose proof (ingress_packet_batch ts dp k h) as Hb.
    pose proof (ingress_packet_frame ts dp k h) as Hf.
    destruct (ingress_packet ts (dp, k) h) as [dp1 k1]. cbn [fst snd] in *.
    subst k1. destruct (IH dp1 (k ++ [h])) as [I1 I2].
    split; [by rewrite I1, <- app_assoc|by eapply same_frame_trans].
Qed.

Lemma free_all_virt_txq hs :
  forall dp, virt_txq (free_all hs dp) = virt_txq dp.
Proof.
  induction hs as [|h hs IH]; intros dp; [done|].
  change (free_all (h :: hs) dp) with (free_all hs (rte_pktmbuf_free h dp)).
  rewrite IH. apply (same_frame_free h dp).
Qed.

(** [free_all] does nothing but free the handles, in order. *)
Lemma free_all_trace hs :
  forall dp, trace (free_all hs dp) = trace dp ++ map EvFree hs.
Proof.
  induction hs as [|h hs IH]; intros dp; [by rewrite app_nil_r|].
  change (free_all (h :: hs) dp) with (free_all hs (rte_pktmbuf_free h dp)).
  rewrite IH. cbn [map].
  change (EvFree h :: map EvFree hs) with ([EvFree h] ++ map EvFree hs).
  rewrite app_assoc. f_equal.
  unfold rte_pktmbuf_free. by destruct (_ <=? 0).
Qed.

(** C9 (amended): [classify] checks no bound.  Its verdict is the same
    whatever the frame length; it is never IGNORE; it is FAST exactly
    when the buffer bytes at the offsets it reads, inside the frame or
    behind it, spell IPv4, TCP and port 8443 or 443, and SLOW exactly
    when they do not.  Whatever the verdicts, the loop puts every
    packet of the burst, in arrival order, in the kernel-TX batch and
    offers the batch to the virtual port: the handles the driver
    accepts are appended to the port's queue, and after the [for]
    loop the loop does nothing but free the handles the driver
    refused, or the whole batch when there is no virtual port. *)
Theorem unchecked_packet_verdict_and_forwarding
    (m : rte_mbuf) (n : Z) (ts : Z) (pkts_burst : list handle)
    (virt_present : bool) (accepted : nat) (dp : dataplane) :
  classify (with_data_len m n) = classify m /\
  classify m <> TRAFFIC_TYPE_IGNORE /\
  (classify m = TRAFFIC_TYPE_HFT <->
   ether_type_of m = 0x0800 /\ protocol_of m = 6 /\
   target_port (src_port_of m) || target_port (dst_port_of m) = true) /\
  (classify m = TRAFFIC_TYPE_STANDARD <->
   ~ (ether_type_of m = 0x0800 /\ protocol_of m = 6 /\
      target_port (src_port_of m) || target_port (dst_port_of m) = true)) /\
  let looped := ingress_loop ts pkts_burst dp in
  let dp' := kernel_tx virt_present accepted looped in
  looped.2 = pkts_burst /\
  virt_txq dp' =
    virt_txq dp ++ (if virt_present then take accepted pkts_burst else []) /\
  trace dp' =
    trace looped.1
    ++ map EvFree (if virt_present then drop accepted pkts_burst
                   else pkts_burst).
Proof.
  split; [apply classify_ignores_data_len|].
  split; [apply classify_never_ignore|].
  split; [apply classify_fast_iff|].
  split.
  { rewrite <- classify_fast_iff. pose proof (classify_never_ignore m) as Hn.
    destruct (classify m); split; done. }
  cbv zeta. unfold ingress_loop.
  destruct (ingress_fold_batch ts pkts_burst dp []) as [K F].
  destruct (fold_left _ _ _) as [dp1 batch]. cbn [fst snd app] in *.
  subst batch. destruct F as (_ & Fv & _).
  split; [done|]. unfold kernel_tx.
  destruct (Nat.ltb_spec 0 (length pkts_burst)) as [Hlen|Hlen].
  - destruct virt_present.
    + rewrite free_all_virt_txq, free_all_trace. cbn [virt_txq trace].
      rewrite Fv.
      destruct (Nat.le_gt_cases accepted (length pkts_burst)).
      * by rewrite Nat.min_l.
      * rewrite Nat.min_r by lia. by rewrite !take_ge, !drop_ge by lia.
    + rewrite free_all_virt_txq, free_all_trace, Fv. by rewrite app_nil_r.
  - destruct pkts_burst; [|cbn in Hlen; lia].
    rewrite Fv, take_nil, drop_nil. destruct virt_present; by rewrite !app_nil_r.
Qed.

End Forwarding.

(* ===================================================================== *)
(** ** Order book (modules/market_data/order_book)                        *)
(* ===================================================================== *)

Module OrderBookEngine.
Import Double.

(** [parser/json_parser.h] *)
Inductive Side := BID | ASK.

Global Instance Side_eq_dec : EqDecision Side.
Proof. solve_decision. Defined.

Record OrderBookUpdate := {
  price_int : Z;       (* uint64_t, price scaled by 1e8 *)
  quantity : double;
  side : Side;
  is_delete : bool
}.

(** [bids_] is a [std::map] ordered by [std::greater], [asks_] one
    ordered by [std::less]; the order only matters for [begin()]. *)
Record OrderBook := {
  bids_ : gmap Z Z;
  asks_ : gmap Z Z
}.

(** A default-constructed [OrderBook]. *)
Definition empty_book : OrderBook := {| bids_ := ∅; asks_ := ∅ |}.

(** The member functions, as they act on the two maps while the lock is
    held. *)
Definition clear (b : OrderBook) : OrderBook :=
  {| bids_ := ∅; asks_ := ∅ |}.

(** [is_delete = update.is_delete || (update.quantity <= 0.0)], then
    [erase] or [operator[]] assignment on the side the update names. *)
Definition apply_update_internal (b : OrderBook) (update : OrderBookUpdate)
  : OrderBook :=
  let is_delete := is_delete update || leb (quantity update) zero in
  match side update with
  | BID =>
      if is_delete
      then {| bids_ := delete (price_int update) (bids_ b); asks_ := asks_ b |}
      else {| bids_ := <[price_int update := quantity update]> (bids_ b);
              asks_ := asks_ b |}
  | ASK =>
      if is_delete
      then {| bids_ := bids_ b; asks_ := delete (price_int update) (asks_ b) |}
      else {| bids_ := bids_ b;
              asks_ := <[price_int update := quantity update]> (asks_ b) |}
  end.

Definition apply_snapshot (updates : list OrderBookUpdate) (b : OrderBook)
  : OrderBook :=
  fold_left apply_update_internal updates (clear b).

Definition apply_updates (updates : list OrderBookUpdate) (b : OrderBook)
  : OrderBook :=
  fold_left apply_update_internal updates b.

Definition apply_update (update : OrderBookUpdate) (b : OrderBook) : OrderBook :=
  apply_update_internal b update.

(** [m.begin()] of a [std::map] whose comparator is [before]: the
    entry no other key comes before. *)
Definition pick (before : Z -> Z -> bool) (kv : Z * Z) (acc : option (Z * Z))
  : option (Z * Z) :=
  match acc with
  | None => Some kv
  | Some kv' => if before kv.1 kv'.1 then Some kv else Some kv'
  end.

Definition map_begin (before : Z -> Z -> bool) (m : gmap Z Z) : option (Z * Z) :=
  foldr (pick before) None (map_to_list m).

Record BestBidOffer := {
  bid_price : Z;
  bid_qty : double;
  ask_price : Z;
  ask_qty : double
}.

(** [OrderBook::get_bbo]: the flag returned and the output parameter. *)
Definition get_bbo (b : OrderBook) (bbo : BestBidOffer) : bool * BestBidOffer :=
  if bool_decide (bids_ b = ∅) || bool_decide (asks_ b = ∅) then (false, bbo)
  else
    match map_begin Z.gtb (bids_ b), map_begin Z.ltb (asks_ b) with
    | Some best_bid, Some best_ask =>
        (true, {| bid_price := best_bid.1; bid_qty := best_bid.2;
                  ask_price := best_ask.1; ask_qty := best_ask.2 |})
    | _, _ => (false, bbo)
    end.

(** [common/aero_types.h] *)
Inductive ExchangeId := OKX | BYBIT | BINANCE | GATE | BITGET | MEXC | UNKNOWN.

Definition exchange_code (e : ExchangeId) : Z :=
  match e with
  | OKX => 0 | BYBIT => 1 | BINANCE => 2 | GATE => 3
  | BITGET => 4 | MEXC => 5 | UNKNOWN => 255
  end.

(** [std::map<ExchangeId, std::map<std::string, OrderBook>>], keyed by
    the enumerator's value. *)
Record OrderBookManager := {
  books_ : gmap Z (gmap string OrderBook)
}.

(** [books_[exchange][instrument]]: the book, created empty on first
    touch. *)
Definition get_book (mgr : OrderBookManager) (exchange : ExchangeId)
    (instrument : string) : OrderBook * OrderBookManager :=
  let inner := default ∅ (books_ mgr !! exchange_code exchange) in
  let book := default empty_book (inner !! instrument) in
  (book,
   {| books_ := <[exchange_code exchange := <[instrument := book]> inner]>
                  (books_ mgr) |}).

(** The book [books_] holds for the venue and instrument, if any. *)
Definition lookup_book (mgr : OrderBookManager) (exchange : ExchangeId)
    (instrument : string) : option OrderBook :=
  match books_ mgr !! exchange_code exchange with
  | Some inner => inner !! instrument
  | None => None
  end.

(** The four [double&] output parameters of [get_best_prices]. *)
Record BestPrices := {
  out_bid_price : double;
  out_bid_qty : double;
  out_ask_price : double;
  out_ask_qty : double
}.

(** [OrderBookManager::get_best_prices]: the flag returned, the output
    parameters and the manager (which [get_book] may have extended).
    The local [BestBidOffer bbo] is only read after [get_bbo] filled
    it. *)
Definition get_best_prices (mgr : OrderBookManager) (exchange : ExchangeId)
    (instrument : string) (out : BestPrices)
  : bool * BestPrices * OrderBookManager :=
  let '(book, mgr) := get_book mgr exchange instrument in
  let bbo0 := {| bid_price := 0; bid_qty := 0; ask_price := 0; ask_qty := 0 |} in
  let '(found, bbo) := get_bbo book bbo0 in
  if found then
    (true,
     {| out_bid_price := of_Z (bid_price bbo);
        out_bid_qty := bid_qty bbo;
        out_ask_price := of_Z (ask_price bbo);
        out_ask_qty := ask_qty bbo |},
     mgr)
  else (false, out, mgr).

(** *** Reading a book *)

Definition side_map (s : Side) (b : OrderBook) : gmap Z Z :=
  match s with BID => bids_ b | ASK => asks_ b end.

(** What one update leaves at its price: nothing when it deletes. *)
Definition level_of (u : OrderBookUpdate) : option double :=
  if is_delete u || leb (quantity u) zero then None else Some (quantity u).

Definition addresses (s : Side) (p : Z) (u : OrderBookUpdate) : bool :=
  bool_decide (side u = s) && (price_int u =? p).

(** The last update of the list for side [s] and price [p]. *)
Fixpoint last_update (s : Side) (p : Z) (updates : list OrderBookUpdate)
  : option OrderBookUpdate :=
  match updates with
  | [] => None
  | u :: rest =>
      match last_update s p rest with
      | Some u' => Some u'
      | None => if addresses s p u then Some u else None
      end
  end.

(** *** Concrete books *)

Definition d_0 : double := zero.

Definition d_0_5 : double := 0x3fe0000000000000.

Definition d_1 : double := of_Z 1.

Definition d_1_5 : double := 0x3ff8000000000000.

Definition d_2 : double := of_Z 2.

Definition d_5 : double := of_Z 5.

Definition d_nan : double := 0x7ff8000000000000.

Definition upd (p : Z) (q : double) (s : Side) : OrderBookUpdate :=
  {| price_int := p; quantity := q; side := s; is_delete := false |}.

(** Scenario 5 of the specification. *)
Definition snapshot_5 : list OrderBookUpdate :=
  [ upd 6000050000000 d_1_5 BID; upd 6000000000000 d_2 BID;
    upd 6000100000000 d_0_5 ASK; upd 6000150000000 d_1 ASK ].

(** *** Invariants *)

Definition sides_disjoint (b : OrderBook) : Prop :=
  forall p, bids_ b !! p = None \/ asks_ b !! p = None.

Definition sizes_positive (b : OrderBook) : Prop :=
  forall s p q, side_map s b !! p = Some q -> gtb q zero = true.

(** What the delete test of [apply_update_internal] does guarantee of
    a stored size: it is not [<= 0]. *)
Definition sizes_not_le_zero (b : OrderBook) : Prop :=
  forall s p q, side_map s b !! p = Some q -> leb q zero = false.

Definition book_one_bid : OrderBook := apply_update (upd 100 d_1 BID) empty_book.

Definition manager_5 : OrderBookManager :=
  {| books_ := {[ exchange_code OKX :=
                  {[ "BTC-USDT"%string := apply_snapshot snapshot_5 empty_book ]} ]} |}.

Definition out_0 : BestPrices :=
  {| out_bid_price := 0; out_bid_qty := 0; out_ask_price := 0; out_ask_qty := 0 |}.

(** *** Properties *)

Example snapshot_5_bbo :
  get_bbo (apply_snapshot snapshot_5 empty_book)
          {| bid_price := 0; bid_qty := 0; ask_price := 0; ask_qty := 0 |}
  = (true, {| bid_price := 6000050000000; bid_qty := d_1_5;
              ask_price := 6000100000000; ask_qty := d_0_5 |}).
Proof. vm_compute. reflexivity. Qed.

(** Scenario 6: a delta with size 0 removes the level. *)
Example delete_level :
  bids_ (apply_updates [upd 6000000000000 d_0 BID]
           (apply_snapshot snapshot_5 empty_book))
  = {[ 6000050000000 := d_1_5 ]}.
Proof. vm_compute. reflexivity. Qed.

(** *** Snapshots *)

Lemma addresses_true s p u :
  addresses s p u = true <-> side u = s /\ price_int u = p.
Proof.
  unfold addresses. rewrite andb_true_iff, bool_decide_eq_true, Z.eqb_eq. done.
Qed.

(** The level one update leaves at the price and side it addresses. *)
Lemma apply_update_internal_addressed b u :
  side_map (side u) (apply_update_internal b u) !! price_int u = level_of u.
Proof.
  unfold apply_update_internal, level_of.
  destruct (side u); destruct (is_delete u || leb (quantity u) zero); simpl;
    by rewrite ?lookup_delete_eq, ?lookup_insert_eq.
Qed.

(** Every other price and the other side are left as they were. *)
Lemma apply_update_internal_other b u s p :
  addresses s p u = false ->
  side_map s (apply_update_internal b u) !! p = side_map s b !! p.
Proof.
  intros Hno. unfold apply_update_internal.
  assert (Hcases : side u <> s \/ price_int u <> p).
  { destruct (decide (side u = s)) as [Hs|Hs]; [|by left]. right. intros Hp.
    assert (addresses s p u = true) by (by apply addresses_true). congruence. }
  destruct (side u) eqn:Es, s; simpl;
    destruct (is_delete u || leb (quantity u) zero); simpl; try done;
    destruct Hcases as [?|Hp]; try done;
    by rewrite ?lookup_delete_ne, ?lookup_insert_ne.
Qed.

Lemma fold_updates_lookup (updates : list OrderBookUpdate) :
  forall b s p,
    side_map s (fold_left apply_update_internal updates b) !! p =
      match last_update s p updates with
      | Some u => level_of u
      | None => side_map s b !! p
      end.
Proof.
  induction updates as [|u rest IH]; intros b s p; simpl; [done|].
  rewrite IH. destruct (last_update s p rest); [done|].
  destruct (addresses s p u) eqn:E.
  - apply addresses_true in E as [<- <-]. apply apply_update_internal_addressed.
  - by apply apply_update_internal_other.
Qed.

(** C3 (amended): after [apply_snapshot(U)] each side holds, at each
    price, what the last update of [U] for that side and price says:
    the level with that update's size when the update is not flagged
    [is_delete] and its size is not [<= 0], no level otherwise; a
    price with no update in [U] has no level.  Nothing of the book's
    earlier content remains. *)
Theorem apply_snapshot_levels (U : list OrderBookUpdate) (b : OrderBook)
    (s : Side) (p : Z) :
  side_map s (apply_snapshot U b) !! p =
    match last_update s p U with
    | Some u => level_of u
    | None => None
    end.
Proof.
  unfold apply_snapshot. rewrite fold_updates_lookup.
  destruct (last_update s p U); [done|]. by destruct s.
Qed.

(** When the last update of [U] for a side and price has a positive
    size and no delete flag, the book holds exactly that level. *)
Lemma apply_snapshot_single U b u :
  last_update (side u) (price_int u) U = Some u ->
  is_delete u = false -> gtb (quantity u) zero = true ->
  side_map (side u) (apply_snapshot U b) !! price_int u = Some (quantity u).
Proof.
  intros Hlast Hdel Hpos. unfold apply_snapshot.
  rewrite fold_updates_lookup, Hlast.
  unfold level_of. apply gtb_zero_iff in Hpos as [Hle _].
  by rewrite Hdel, Hle.
Qed.

(** C3, as stated, fails: price 100 occurs in the list with size 5,
    yet the snapshot leaves no bid at 100, because a later update of
    the same list deletes it. *)
Lemma snapshot_later_update_wins :
  let U := [upd 100 d_5 BID; upd 100 d_0 BID] in
  In (upd 100 d_5 BID) U /\
  gtb (quantity (upd 100 d_5 BID)) zero = true /\
  bids_ (apply_snapshot U empty_book) !! 100 = None.
Proof. cbv zeta. split; [by left|]. split; vm_compute; reflexivity. Qed.

Lemma sizes_positive_not_le_zero b : sizes_positive b -> sizes_not_le_zero b.
Proof. intros H s p q Hq. by apply gtb_zero_iff, (H s p q). Qed.

Lemma sizes_not_le_zero_positive b :
  sizes_not_le_zero b ->
  forall s p q, side_map s b !! p = Some q -> is_nan q = false ->
                gtb q zero = true.
Proof. intros H s p q Hq Hn. apply gtb_zero_iff. split; [by apply (H s p q)|done]. Qed.

Lemma level_of_not_le_zero u q : level_of u = Some q -> leb q zero = false.
Proof.
  unfold level_of. destruct (is_delete u); simpl; [done|].
  destruct (leb (quantity u) zero) eqn:E; [done|]. by intros [= <-].
Qed.

Lemma apply_update_internal_sizes b u :
  sizes_not_le_zero b -> sizes_not_le_zero (apply_update_internal b u).
Proof.
  intros Hb s p q Hq.
  destruct (addresses s p u) eqn:E.
  - apply addresses_true in E as [<- <-].
    rewrite apply_update_internal_addressed in Hq.
    by apply (level_of_not_le_zero u).
  - rewrite apply_update_internal_other in Hq by done. by apply (Hb s p q).
Qed.

Lemma fold_updates_sizes (updates : list OrderBookUpdate) :
  forall b, sizes_not_le_zero b ->
            sizes_not_le_zero (fold_left apply_update_internal updates b).
Proof.
  induction updates as [|u rest IH]; intros b Hb; simpl; [done|].
  by apply IH, apply_update_internal_sizes.
Qed.

Lemma clear_sizes b : sizes_not_le_zero (clear b).
Proof. intros s p q. destruct s; simpl; by rewrite lookup_empty. Qed.

Lemma clear_disjoint b : sides_disjoint (clear b).
Proof. intros p. left. apply lookup_empty. Qed.

(** An update never touches the side it does not name. *)
Lemma apply_update_internal_other_side b u :
  match side u with
  | BID => asks_ (apply_update_internal b u) = asks_ b
  | ASK => bids_ (apply_update_internal b u) = bids_ b
  end.
Proof.
  unfold apply_update_internal.
  destruct (side u); by destruct (is_delete u || leb (quantity u) zero).
Qed.

(** C7 (amended): [apply_snapshot], [apply_updates], [apply_update]
    and [clear] keep every stored size away from [<= 0] (so strictly
    positive unless it is NaN); [clear] leaves the two sides without a
    common price; and an update changes only the side it names, so the
    other operations do not keep the sides apart. *)
Theorem operations_preserve_stored_sizes
    (b : OrderBook) (U : list OrderBookUpdate) (u : OrderBookUpdate) :
  sizes_not_le_zero b ->
  sizes_not_le_zero (apply_snapshot U b) /\
  sizes_not_le_zero (apply_updates U b) /\
  sizes_not_le_zero (apply_update u b) /\
  sizes_not_le_zero (clear b) /\
  sides_disjoint (clear b) /\
  (forall s p q, side_map s (apply_update u b) !! p = Some q ->
                 is_nan q = false -> gtb q zero = true) /\
  match side u with
  | BID => asks_ (apply_update u b) = asks_ b
  | ASK => bids_ (apply_update u b) = bids_ b
  end.
Proof.
  intros Hb. repeat split.
  - apply fold_updates_sizes, clear_sizes.
  - by apply fold_updates_sizes.
  - by apply apply_update_internal_sizes.
  - apply clear_sizes.
  - apply clear_disjoint.
  - apply sizes_not_le_zero_positive. by apply apply_update_internal_sizes.
  - apply apply_update_internal_other_side.
Qed.

Lemma book_one_bid_sizes : sizes_not_le_zero book_one_bid.
Proof. apply apply_update_internal_sizes, (clear_sizes empty_book). Defined.

Lemma operations_preserve_stored_sizes_witness :
  sizes_not_le_zero (apply_snapshot snapshot_5 book_one_bid) /\
  sizes_not_le_zero (apply_updates snapshot_5 book_one_bid) /\
  sizes_not_le_zero (apply_update (upd 100 d_1 ASK) book_one_bid) /\
  sizes_not_le_zero (clear book_one_bid) /\
  sides_disjoint (clear book_one_bid) /\
  (forall s p q,
     side_map s (apply_update (upd 100 d_1 ASK) book_one_bid) !! p = Some q ->
     is_nan q = false -> gtb q zero = true) /\
  bids_ (apply_update (upd 100 d_1 ASK) book_one_bid) = bids_ book_one_bid.
Proof.
  exact (operations_preserve_stored_sizes book_one_bid snapshot_5
           (upd 100 d_1 ASK) book_one_bid_sizes).
Defined.

(** C7, as stated, fails.  A book with one bid at 100 has disjoint
    sides and positive sizes; an ask update at 100 puts the price on
    both sides.  And an update whose size is NaN is stored, although
    NaN is not greater than 0. *)
Lemma update_breaks_invariants :
  (sides_disjoint book_one_bid /\ sizes_positive book_one_bid /\
   bids_ (apply_update (upd 100 d_1 ASK) book_one_bid) !! 100 = Some d_1 /\
   asks_ (apply_update (upd 100 d_1 ASK) book_one_bid) !! 100 = Some d_1)
  /\
  (asks_ (apply_update (upd 100 d_nan ASK) empty_book) !! 100 = Some d_nan /\
   gtb d_nan zero = false).
Proof.
  split; [|split; vm_compute; reflexivity].
  split; [intros p; right; apply lookup_empty|].
  split; [|split; vm_compute; reflexivity].
  assert (E : book_one_bid = {| bids_ := <[100 := d_1]> ∅; asks_ := ∅ |})
    by (vm_compute; reflexivity).
  rewrite E. intros s p q. destruct s; simpl.
  - intros Hq. apply lookup_insert_Some in Hq as [[_ <-]|[_ Hq]].
    + vm_compute. reflexivity.
    + by rewrite lookup_empty in Hq.
  - by rewrite lookup_empty.
Qed.

(** *** Best prices *)

Section MapBegin.
Variable before : Z -> Z -> bool.
Hypothesis before_irrefl : forall x, before x x = false.
Hypothesis before_trans :
  forall x y z, before x y = true -> before y z = true -> before x z = true.

Lemma foldr_pick_nil (l : list (Z * Z)) :
  foldr (pick before) None l = None -> l = [].
Proof.
  destruct l as [|kv l]; [done|]. simpl. unfold pick.
  destruct (foldr _ _ l); [|done]. by destruct (before _ _).
Qed.

Lemma foldr_pick_first (l : list (Z * Z)) kv :
  foldr (pick before) None l = Some kv ->
  kv ∈ l /\ forall kv', kv' ∈ l -> before kv'.1 kv.1 = false.
Proof.
  revert kv. induction l as [|a l IH]; intros kv; simpl; [done|].
  unfold pick at 1. destruct (foldr (pick before) None l) as [m|] eqn:E.
  - destruct (IH m eq_refl) as [Hin Hmin].
    destruct (before a.1 m.1) eqn:Hb; intros [= <-].
    + split; [by left|]. intros kv' Hkv'.
      apply elem_of_cons in Hkv' as [->|Hkv']; [apply before_irrefl|].
      destruct (before kv'.1 a.1) eqn:Hc; [|done].
      rewrite <- (Hmin kv' Hkv'). symmetry. by apply (before_trans _ a.1).
    + split; [by right|]. intros kv' Hkv'.
      apply elem_of_cons in Hkv' as [->|Hkv']; [done|]. by apply Hmin.
  - intros [= <-]. apply foldr_pick_nil in E as ->.
    split; [by left|]. intros kv' Hkv'.
    apply list_elem_of_singleton in Hkv' as ->. apply before_irrefl.
Qed.

(** [begin()] of a non-empty map is an entry of the map that no key
    of the map comes before. *)
Lemma map_begin_first (m : gmap Z Z) :
  m <> ∅ ->
  exists k v, map_begin before m = Some (k, v) /\ m !! k = Some v /\
              forall k', is_Some (m !! k') -> before k' k = false.
Proof.
  intros Hne. unfold map_begin.
  destruct (foldr (pick before) None (map_to_list m)) as [[k v]|] eqn:E.
  - destruct (foldr_pick_first _ _ E) as [Hin Hmin].
    exists k, v. split; [done|]. split; [by apply elem_of_map_to_list|].
    intros k' [v' Hv']. apply (Hmin (k', v')). by apply elem_of_map_to_list.
  - apply foldr_pick_nil, map_to_list_empty_iff in E. done.
Qed.
End MapBegin.

Lemma gtb_irrefl x : Z.gtb x x = false.
Proof. rewrite Z.gtb_ltb. apply Z.ltb_irrefl. Qed.

Lemma gtb_trans x y z : Z.gtb x y = true -> Z.gtb y z = true -> Z.gtb x z = true.
Proof. rewrite !Z.gtb_ltb, !Z.ltb_lt. lia. Qed.

Lemma ltb_trans x y z : Z.ltb x y = true -> Z.ltb y z = true -> Z.ltb x z = true.
Proof. rewrite !Z.ltb_lt. lia. Qed.

Lemma get_book_creates mgr exchange instrument :
  (get_book mgr exchange instrument).1 =
    default empty_book
      (default ∅ (books_ mgr !! exchange_code exchange) !! instrument).
Proof. reflexivity. Qed.

(** Reading a book that is stored leaves [books_] as it is. *)
Lemma get_book_stored_book mgr exchange instrument book :
  lookup_book mgr exchange instrument = Some book ->
  get_book mgr exchange instrument = (book, mgr).
Proof.
  unfold lookup_book, get_book. destruct mgr as [books]. cbn [books_].
  destruct (books !! exchange_code exchange) as [inner|] eqn:Ei; [|done].
  intros Hb. cbn [default]. unfold id. rewrite Hb. cbn [default]. unfold id.
  f_equal. f_equal. by rewrite (insert_id inner), (insert_id books).
Qed.

(** C10: when [books_] holds a book for the venue and instrument and
    both its sides are non-empty, [get_best_prices] returns true and
    writes the highest bid key and the lowest ask key of that book,
    each converted from integer to double as it is stored (the 1e8
    scale is not divided out), with their sizes; when a side of the
    stored book is empty it returns false and leaves the four outputs
    as they were; in both cases the manager is unchanged.  When
    [books_] holds no such book, the call creates an empty one,
    returns false and leaves the outputs as they were. *)
Theorem get_best_prices_outputs
    (mgr : OrderBookManager) (exchange : ExchangeId) (instrument : string)
    (out : BestPrices) :
  (forall book,
     lookup_book mgr exchange instrument = Some book ->
     bids_ book <> ∅ /\ asks_ book <> ∅ ->
     exists bp bq ap aq,
       bids_ book !! bp = Some bq /\
       (forall p, is_Some (bids_ book !! p) -> p <= bp) /\
       asks_ book !! ap = Some aq /\
       (forall p, is_Some (asks_ book !! p) -> ap <= p) /\
       get_best_prices mgr exchange instrument out =
         (true,
          {| out_bid_price := of_Z bp; out_bid_qty := bq;
             out_ask_price := of_Z ap; out_ask_qty := aq |},
          mgr))
  /\
  (forall book,
     lookup_book mgr exchange instrument = Some book ->
     bids_ book = ∅ \/ asks_ book = ∅ ->
     get_best_prices mgr exchange instrument out = (false, out, mgr))
  /\
  (lookup_book mgr exchange instrument = None ->
   exists mgr',
     get_best_prices mgr exchange instrument out = (false, out, mgr') /\
     lookup_book mgr' exchange instrument = Some empty_book /\
     forall exchange' instrument',
       (exchange_code exchange', instrument')
         <> (exchange_code exchange, instrument) ->
       lookup_book mgr' exchange' instrument'
         = lookup_book mgr exchange' instrument').
Proof.
  split; [|split].
  - intros book Hstored [Hb Ha]. unfold get_best_prices.
    rewrite (get_book_stored_book _ _ _ _ Hstored). unfold get_bbo.
    rewrite (bool_decide_eq_false_2 _ Hb), (bool_decide_eq_false_2 _ Ha). simpl.
    destruct (map_begin_first Z.gtb gtb_irrefl gtb_trans (bids_ book) Hb)
      as (bp & bq & Eb & Lb & Mb).
    destruct (map_begin_first Z.ltb Z.ltb_irrefl ltb_trans (asks_ book) Ha)
      as (ap & aq & Ea & La & Ma).
    exists bp, bq, ap, aq. rewrite Eb, Ea. simpl.
    repeat split; try done.
    + intros p Hp. specialize (Mb p Hp). rewrite Z.gtb_ltb in Mb.
      apply Z.ltb_ge in Mb. lia.
    + intros p Hp. specialize (Ma p Hp). apply Z.ltb_ge in Ma. lia.
  - intros book Hstored Hempty. unfold get_best_prices.
    rewrite (get_book_stored_book _ _ _ _ Hstored). unfold get_bbo.
    destruct Hempty as [Hb|Ha].
    + by rewrite (bool_decide_eq_true_2 _ Hb).
    + rewrite (bool_decide_eq_true_2 _ Ha), orb_true_r. done.
  - intros Hnone. unfold get_best_prices, get_book.
    assert (Hbook : default empty_book
                      (default ∅ (books_ mgr !! exchange_code exchange)
                         !! instrument) = empty_book).
    { unfold lookup_book in Hnone.
      destruct (books_ mgr !! exchange_code exchange) as [inner|];
        cbn [default]; unfold id.
      - by rewrite Hnone.
      - by rewrite lookup_empty. }
    rewrite Hbook. cbn.
    eexists. split; [reflexivity|]. unfold lookup_book. cbn [books_]. split.
    + by rewrite !lookup_insert_eq.
    + intros exchange' instrument' Hne.
      destruct (decide (exchange_code exchange' = exchange_code exchange))
        as [He|He].
      * rewrite He, lookup_insert_eq.
        assert (Hi : instrument' <> instrument) by congruence.
        rewrite lookup_insert_ne by done.
        destruct (books_ mgr !! exchange_code exchange); [done|].
        cbn [default]. apply lookup_empty.
      * by rewrite lookup_insert_ne.
Qed.

(** The price written is the key 6000050000000 as a double, not
    60000.5. *)
Example best_prices_scaled :
  (get_best_prices manager_5 OKX "BTC-USDT" out_0).1 =
    (true, {| out_bid_price := of_Z 6000050000000; out_bid_qty := d_1_5;
              out_ask_price := of_Z 6000100000000; out_ask_qty := d_0_5 |})
  /\ trunc (of_Z 6000050000000) = 6000050000000.
Proof. split; vm_compute; reflexivity. Qed.

Example best_prices_untouched :
  (get_best_prices manager_5 BYBIT "BTC-USDT" out_0).1 = (false, out_0).
Proof. vm_compute. reflexivity. Qed.

End OrderBookEngine.

(* ===================================================================== *)
(** ** WebSocket session (modules/network/boost_websocket_client)         *)
(* ===================================================================== *)

Module WebSocketClient.
Import Double.

Inductive ConnectionState := Disconnected | Connecting | Connected | WaitingRetry.

(** A stream object behind [ws_]: its serial number, and whether
    [attempt_reconnect_async] created it (rather than [connect]). *)
Record stream := {
  sid : nat;
  via_reconnect : bool
}.

Global Instance stream_eq_dec : EqDecision stream.
Proof. solve_decision. Defined.

(** Asynchronous operations that are posted and complete later. *)
Inductive async_op :=
| OpResolve (s : stream)
| OpConnect (s : stream)
| OpSslHandshake (s : stream)
| OpWsHandshake (s : stream)
| OpRead (s : stream).

Global Instance async_op_eq_dec : EqDecision async_op.
Proof. solve_decision. Defined.

(** What the session does that the outside can observe. *)
Inductive session_event :=
| EvTimerSet (delay_ms : Z)          (* retry timer armed *)
| EvGiveUp                           (* "Max retry attempts reached" *)
| EvHandshakeDone (s : stream)       (* on_handshake called without error *)
| EvReconnectCallback (s : stream)   (* on_reconnect_() *)
| EvReadPosted (s : stream)          (* ws_->async_read *)
| EvEnqueued (s : stream) (msg : string)
| EvDropped (s : stream) (msg : string).

Record retry_config := {
  retry_enabled_ : bool;
  retry_max_attempts_ : Z;
  retry_initial_delay_ms_ : Z;
  retry_max_delay_ms_ : Z;
  retry_backoff_multiplier_ : double
}.

Record client := {
  cfg : retry_config;
  has_on_reconnect : bool;           (* on_reconnect_ holds a callable *)
  connected_ : bool;
  connection_state_ : ConnectionState;
  retry_count_ : Z;
  reconnect_attempts : Z;            (* stats_ *)
  reconnect_success : Z;
  incoming_queue_ : list string;
  ws_ : option stream;
  next_sid : nat;
  pending : list async_op;           (* posted, not yet completed *)
  retry_timer_ : option Z;           (* armed, with its delay in ms *)
  stopped : bool;                    (* ioc_.stop() was called *)
  trace : list session_event         (* newest first *)
}.

Definition MAX_INCOMING_QUEUE_SIZE : Z := 10000.

(** The values in [boost_websocket_client.h] and the configuration
    defaults. *)
Definition reference_config : retry_config :=
  {| retry_enabled_ := true; retry_max_attempts_ := 10;
     retry_initial_delay_ms_ := 1000; retry_max_delay_ms_ := 30000;
     retry_backoff_multiplier_ := of_Z 2 |}.

Definition new_client (config : retry_config) (callback : bool) : client :=
  {| cfg := config; has_on_reconnect := callback; connected_ := false;
     connection_state_ := Disconnected; retry_count_ := 0;
     reconnect_attempts := 0; reconnect_success := 0; incoming_queue_ := [];
     ws_ := None; next_sid := 0; pending := []; retry_timer_ := None;
     stopped := false; trace := [] |}.

(** *** Field updates *)

Definition set_state (st : ConnectionState) (c : client) : client :=
  {| cfg := cfg c; has_on_reconnect := has_on_reconnect c;
     connected_ := connected_ c; connection_state_ := st;
     retry_count_ := retry_count_ c; reconnect_attempts := reconnect_attempts c;
     reconnect_success := reconnect_success c;
     incoming_queue_ := incoming_queue_ c; ws_ := ws_ c; next_sid := next_sid c;
     pending := pending c; retry_timer_ := retry_timer_ c; stopped := stopped c;
     trace := trace c |}.

Definition set_connected (b : bool) (c : client) : client :=
  {| cfg := cfg c; has_on_reconnect := has_on_reconnect c;
     connected_ := b; connection_state_ := connection_state_ c;
     retry_count_ := retry_count_ c; reconnect_attempts := reconnect_attempts c;
     reconnect_success := reconnect_success c;
     incoming_queue_ := incoming_queue_ c; ws_ := ws_ c; next_sid := next_sid c;
     pending := pending c; retry_timer_ := retry_timer_ c; stopped := stopped c;
     trace := trace c |}.

Definition set_retry_count (n : Z) (c : client) : client :=
  {| cfg := cfg c; has_on_reconnect := has_on_reconnect c;
     connected_ := connected_ c; connection_state_ := connection_state_ c;
     retry_count_ := n; reconnect_attempts := reconnect_attempts c;
     reconnect_success := reconnect_success c;
     incoming_queue_ := incoming_queue_ c; ws_ := ws_ c; next_sid := next_sid c;
     pending := pending c; retry_timer_ := retry_timer_ c; stopped := stopped c;
     trace := trace c |}.

Definition set_stats (attempts success : Z) (c : client) : client :=
  {| cfg := cfg c; has_on_reconnect := has_on_reconnect c;
     connected_ := connected_ c; connection_state_ := connection_state_ c;
     retry_count_ := retry_count_ c; reconnect_attempts := attempts;
     reconnect_success := success;
     incoming_queue_ := incoming_queue_ c; ws_ := ws_ c; next_sid := next_sid c;
     pending := pending c; retry_timer_ := retry_timer_ c; stopped := stopped c;
     trace := trace c |}.

Definition set_queue (q : list string) (c : client) : client :=
  {| cfg := cfg c; has_on_reconnect := has_on_reconnect c;
     connected_ := connected_ c; connection_state_ := connection_state_ c;
     retry_count_ := retry_count_ c; reconnect_attempts := reconnect_attempts c;
     reconnect_success := reconnect_success c;
     incoming_queue_ := q; ws_ := ws_ c; next_sid := next_sid c;
     pending := pending c; retry_timer_ := retry_timer_ c; stopped := stopped c;
     trace := trace c |}.

Definition set_pending (p : list async_op) (c : client) : client :=
  {| cfg := cfg c; has_on_reconnect := has_on_reconnect c;
     connected_ := connected_ c; connection_state_ := connection_state_ c;
     retry_count_ := retry_count_ c; reconnect_attempts := reconnect_attempts c;
     reconnect_success := reconnect_success c;
     incoming_queue_ := incoming_queue_ c; ws_ := ws_ c; next_sid := next_sid c;
     pending := p; retry_timer_ := retry_timer_ c; stopped := stopped c;
     trace := trace c |}.

Definition set_timer (t : option Z) (c : client) : client :=
  {| cfg := cfg c; has_on_reconnect := has_on_reconnect c;
     connected_ := connected_ c; connection_state_ := connection_state_ c;
     retry_count_ := retry_count_ c; reconnect_attempts := reconnect_attempts c;
     reconnect_success := reconnect_success c;
     incoming_queue_ := incoming_queue_ c; ws_ := ws_ c; next_sid := next_sid c;
     pending := pending c; retry_timer_ := t; stopped := stopped c;
     trace := trace c |}.

Definition set_stopped (c : client) : client :=
  {| cfg := cfg c; has_on_reconnect := has_on_reconnect c;
     connected_ := connected_ c; connection_state_ := connection_state_ c;
     retry_count_ := retry_count_ c; reconnect_attempts := reconnect_attempts c;
     reconnect_success := reconnect_success c;
     incoming_queue_ := incoming_queue_ c; ws_ := ws_ c; next_sid := next_sid c;
     pending := pending c; retry_timer_ := retry_timer_ c; stopped := true;
     trace := trace c |}.

Definition emit (e : session_event) (c : client) : client :=
  {| cfg := cfg c; has_on_reconnect := has_on_reconnect c;
     connected_ := connected_ c; connection_state_ := connection_state_ c;
     retry_count_ := retry_count_ c; reconnect_attempts := reconnect_attempts c;
     reconnect_success := reconnect_success c;
     incoming_queue_ := incoming_queue_ c; ws_ := ws_ c; next_sid := next_sid c;
     pending := pending c; retry_timer_ := retry_timer_ c; stopped := stopped c;
     trace := e :: trace c |}.

(** [ws_ = std::make_unique<...>(...)]: a fresh stream object. *)
Definition new_stream (reconnect : bool) (c : client) : client :=
  {| cfg := cfg c; has_on_reconnect := has_on_reconnect c;
     connected_ := connected_ c; connection_state_ := connection_state_ c;
     retry_count_ := retry_count_ c; reconnect_attempts := reconnect_attempts c;
     reconnect_success := reconnect_success c;
     incoming_queue_ := incoming_queue_ c;
     ws_ := Some {| sid := next_sid c; via_reconnect := reconnect |};
     next_sid := S (next_sid c);
     pending := pending c; retry_timer_ := retry_timer_ c; stopped := stopped c;
     trace := trace c |}.

Definition post (op : async_op) (c : client) : client :=
  set_pending (op :: pending c) c.

(** *** The member functions *)

(** The delay of [schedule_reconnect], for the already incremented
    [retry_count_]: [double delay = initial; for (i = 1; i <
    retry_count_; ++i) delay *= multiplier; if (delay > max) delay =
    max;] and the cast [(long)delay]. *)
Definition backoff_delay (config : retry_config) (retry_count : Z) : Z :=
  let delay := of_Z (retry_initial_delay_ms_ config) in
  let delay :=
    Nat.iter (Z.to_nat (retry_count - 1))
             (fun d => mul d (retry_backoff_multiplier_ config)) delay in
  let delay :=
    if gtb delay (of_Z (retry_max_delay_ms_ config))
    then of_Z (retry_max_delay_ms_ config) else delay in
  trunc delay.

Definition schedule_reconnect (c : client) : client :=
  if retry_max_attempts_ (cfg c) <=? retry_count_ c then
    emit EvGiveUp (set_state Disconnected c)
  else
    let c := set_state WaitingRetry c in
    let c := set_retry_count (retry_count_ c + 1) c in
    let c := set_stats (reconnect_attempts c + 1) (reconnect_success c) c in
    let delay := backoff_delay (cfg c) (retry_count_ c) in
    emit (EvTimerSet delay) (set_timer (Some delay) c).

(** [do_read]: posts one [async_read] on the current stream. *)
Definition do_read (c : client) : client :=
  match ws_ c with
  | Some s => post (OpRead s) (emit (EvReadPosted s) c)
  | None => c
  end.

(** [close()], as far as the session's own state goes: not connected,
    and the I/O context stopped, so no handler runs any more. *)
Definition close (c : client) : client :=
  set_stopped (set_connected false c).

(** [connect(host, port, target)]; [ok] tells whether resolve, TCP
    connect and both handshakes go through. *)
Definition connect (ok : bool) (c : client) : client :=
  let c := set_connected false (set_state Connecting c) in
  let c := new_stream false c in
  if ok then
    let c := set_connected true c in
    let c := set_state Connected c in
    let c := set_retry_count 0 c in
    do_read c
  else if retry_enabled_ (cfg c) then schedule_reconnect c
  else set_state Disconnected c.

(** [attempt_reconnect_async]; [sni_ok] is the result of
    [SSL_set_tlsext_host_name]. *)
Definition attempt_reconnect_async (sni_ok : bool) (c : client) : client :=
  let c := set_state Connecting c in
  let c := new_stream true c in
  if negb sni_ok then schedule_reconnect c
  else match ws_ c with
       | Some s => post (OpResolve s) c
       | None => c
       end.

Definition on_resolve (ok : bool) (c : client) : client :=
  if negb ok then schedule_reconnect c
  else match ws_ c with
       | Some s => post (OpConnect s) c
       | None => c
       end.

Definition on_connect (ok : bool) (c : client) : client :=
  if negb ok then schedule_reconnect c
  else match ws_ c with
       | Some s => post (OpSslHandshake s) c
       | None => c
       end.

Definition on_ssl_handshake (ok : bool) (c : client) : client :=
  if negb ok then schedule_reconnect c
  else match ws_ c with
       | Some s => post (OpWsHandshake s) c
       | None => c
       end.

Definition on_handshake (s : stream) (ok : bool) (c : client) : client :=
  if negb ok then schedule_reconnect c
  else
    let c := emit (EvHandshakeDone s) c in
    let c := set_connected true c in
    let c := set_state Connected c in
    let c := set_retry_count 0 c in
    let c := set_stats (reconnect_attempts c) (reconnect_success c + 1) c in
    let c := if has_on_reconnect c then emit (EvReconnectCallback s) c else c in
    do_read c.

(** The completion handler given to [async_read] in [do_read]; [s] is
    the stream the read was posted on. *)
Definition read_handler (s : stream) (ok : bool) (msg : string) (c : client)
  : client :=
  if negb ok then
    if retry_enabled_ (cfg c)
    then schedule_reconnect (set_connected false c)
    else close c
  else
    let c :=
      if Z.of_nat (length (incoming_queue_ c)) <? MAX_INCOMING_QUEUE_SIZE
      then emit (EvEnqueued s msg) (set_queue (incoming_queue_ c ++ [msg]) c)
      else emit (EvDropped s msg) c in
    do_read c.

(** The function posted by [send] when its write throws. *)
Definition write_failed (c : client) : client :=
  if negb (connected_ c) then c
  else if retry_enabled_ (cfg c)
       then schedule_reconnect (set_connected false c)
       else close c.

(** [get_next_message] *)
Definition get_next_message (c : client) : option string * client :=
  match incoming_queue_ c with
  | [] => (None, c)
  | msg :: rest => (Some msg, set_queue rest c)
  end.

(** *** The driver

    What can happen to a session: the application calls [connect] or
    [get_next_message], the retry timer expires, a posted operation
    completes, a posted write throws. *)
Inductive input :=
| InConnect (ok : bool)
| InTimer (sni_ok : bool)
| InComplete (op : async_op) (ok : bool) (msg : string)
| InWriteFailed
| InDequeue.

Definition remove_op (op : async_op) (l : list async_op) : list async_op :=
  List.remove async_op_eq_dec op l.

Definition is_current (s : stream) (c : client) : bool :=
  bool_decide (ws_ c = Some s).

(** An operation on a stream object that has been replaced can only
    complete with an error (it is aborted when the object is
    destroyed); a resolve does not belong to the stream. *)
Definition complete (op : async_op) (ok : bool) (msg : string) (c : client)
  : client :=
  match op with
  | OpResolve s => on_resolve ok c
  | OpConnect s => on_connect (ok && is_current s c) c
  | OpSslHandshake s => on_ssl_handshake (ok && is_current s c) c
  | OpWsHandshake s => on_handshake s (ok && is_current s c) c
  | OpRead s => read_handler s (ok && is_current s c) msg c
  end.

Definition step (c : client) (i : input) : client :=
  match i with
  | InConnect ok => connect ok c
  | InDequeue => (get_next_message c).2
  | InTimer sni_ok =>
      if stopped c then c
      else match retry_timer_ c with
           | Some _ => attempt_reconnect_async sni_ok (set_timer None c)
           | None => c
           end
  | InComplete op ok msg =>
      if stopped c then c
      else if bool_decide (op ∈ pending c)
           then complete op ok msg (set_pending (remove_op op (pending c)) c)
           else c
  | InWriteFailed => if stopped c then c else write_failed c
  end.

Definition run (inputs : list input) (c : client) : client :=
  fold_left step inputs c.

(** The events in the order in which they happened. *)
Definition history (c : client) : list session_event := rev (trace c).

Definition timer_delays (c : client) : list Z :=
  omap (fun e => match e with EvTimerSet d => Some d | _ => None end) (history c).

(** *** Scenarios *)

Definition stream_n (n : nat) : stream := {| sid := n; via_reconnect := true |}.

(** The first connect fails, and so does the resolve of every retry. *)
Definition all_attempts_fail (n : nat) : list input :=
  InConnect false ::
  flat_map (fun k => [InTimer true; InComplete (OpResolve (stream_n (S k))) false ""])
           (seq 0 n).

(** Connect, lose the connection, reconnect, receive a message. *)
Definition reconnect_inputs : list input :=
  [ InConnect true;
    InComplete (OpRead {| sid := 0; via_reconnect := false |}) false "";
    InTimer true;
    InComplete (OpResolve (stream_n 1)) true "";
    InComplete (OpConnect (stream_n 1)) true "";
    InComplete (OpSslHandshake (stream_n 1)) true "";
    InComplete (OpWsHandshake (stream_n 1)) true "";
    InComplete (OpRead (stream_n 1)) true "book" ].

(** *** Order of handshake, callback and delivery *)

(** In a trace (newest first): the callback for [s] was invoked, and
    before it the handshake of [s] had completed. *)
Fixpoint callback_after_handshake (s : stream) (tr : list session_event) : Prop :=
  match tr with
  | [] => False
  | e :: older =>
      (e = EvReconnectCallback s /\ In (EvHandshakeDone s) older)
      \/ callback_after_handshake s older
  end.

Definition delivery_ok (e : session_event) (older : list session_event) : Prop :=
  match e with
  | EvEnqueued s _ => via_reconnect s = true -> callback_after_handshake s older
  | _ => True
  end.

(** Every message enqueued from a reconnected stream comes after that
    stream's callback. *)
Fixpoint trace_ok (tr : list session_event) : Prop :=
  match tr with
  | [] => True
  | e :: older => delivery_ok e older /\ trace_ok older
  end.

Definition not_enqueue (e : session_event) : Prop :=
  match e with EvEnqueued _ _ => False | _ => True end.

(** The invariant of the session: a callback is registered, the trace
    is in order, and a read is only pending on a reconnected stream
    whose callback has run. *)
Definition inv (c : client) : Prop :=
  has_on_reconnect c = true /\
  trace_ok (trace c) /\
  forall s, In (OpRead s) (pending c) -> via_reconnect s = true ->
            callback_after_handshake s (trace c).

(** [c'] comes from [c] by steps that deliver nothing and post no
    read. *)
Definition quiet (c c' : client) : Prop :=
  has_on_reconnect c' = has_on_reconnect c /\
  (exists new, trace c' = new ++ trace c /\ Forall not_enqueue new) /\
  (forall s, In (OpRead s) (pending c') -> In (OpRead s) (pending c)).

(** *** Properties *)

Example backoff_run :
  let c := run (all_attempts_fail 10) (new_client reference_config true) in
  timer_delays c = [1000; 2000; 4000; 8000; 16000; 30000; 30000; 30000; 30000; 30000]
  /\ connection_state_ c = Disconnected
  /\ retry_timer_ c = None /\ pending c = [] /\ retry_count_ c = 10.
Proof. vm_compute. repeat split; reflexivity. Qed.

Example reconnect_run :
  history (run reconnect_inputs (new_client reference_config true)) =
    [ EvReadPosted {| sid := 0; via_reconnect := false |};
      EvTimerSet 1000;
      EvHandshakeDone (stream_n 1);
      EvReconnectCallback (stream_n 1);
      EvReadPosted (stream_n 1);
      EvEnqueued (stream_n 1) "book";
      EvReadPosted (stream_n 1) ].
Proof. vm_compute. reflexivity. Qed.

(** *** Backoff *)

Lemma backoff_delay_reference (k : Z) :
  1 <= k <= 10 ->
  backoff_delay reference_config k = Z.min (1000 * 2 ^ (k - 1)) 30000.
Proof.
  intros Hk.
  assert (Hcases : k = 1 \/ k = 2 \/ k = 3 \/ k = 4 \/ k = 5 \/
                   k = 6 \/ k = 7 \/ k = 8 \/ k = 9 \/ k = 10) by lia.
  repeat (destruct Hcases as [->|Hcases]); try subst k;
    vm_compute; reflexivity.
Qed.

Lemma schedule_reconnect_retry c :
  retry_count_ c < retry_max_attempts_ (cfg c) ->
  let d := backoff_delay (cfg c) (retry_count_ c + 1) in
  retry_timer_ (schedule_reconnect c) = Some d /\
  trace (schedule_reconnect c) = EvTimerSet d :: trace c /\
  connection_state_ (schedule_reconnect c) = WaitingRetry /\
  retry_count_ (schedule_reconnect c) = retry_count_ c + 1.
Proof.
  intros Hlt. unfold schedule_reconnect.
  destruct (retry_max_attempts_ (cfg c) <=? retry_count_ c) eqn:E; [lia|].
  repeat split.
Qed.

Lemma schedule_reconnect_give_up c :
  retry_max_attempts_ (cfg c) <= retry_count_ c ->
  schedule_reconnect c = emit EvGiveUp (set_state Disconnected c).
Proof.
  intros Hge. unfold schedule_reconnect.
  destruct (retry_max_attempts_ (cfg c) <=? retry_count_ c) eqn:E; [done|lia].
Qed.

Lemma timer_delays_give_up c :
  timer_delays (emit EvGiveUp c) = timer_delays c.
Proof.
  unfold timer_delays, history. simpl. rewrite omap_app. simpl.
  by rewrite app_nil_r.
Qed.

(** C4: with initial delay 1000 ms, multiplier 2.0, ceiling 30000 ms
    and 10 attempts, the k-th consecutive failure ([k] from 1 to 10)
    arms the retry timer with min(1000 * 2^(k-1), 30000) ms; a failure
    after that arms no timer and leaves the session Disconnected, and
    every further failure finds it so.  When the connect and every
    retry fail, the delays are 1000, 2000, 4000, 8000, 16000 and five
    times 30000, after which nothing is pending and the state is
    Disconnected. *)
Theorem backoff_schedule (c : client) (k : Z) :
  cfg c = reference_config ->
  (1 <= k <= 10 -> retry_count_ c = k - 1 ->
   retry_timer_ (schedule_reconnect c) = Some (Z.min (1000 * 2 ^ (k - 1)) 30000) /\
   trace (schedule_reconnect c)
     = EvTimerSet (Z.min (1000 * 2 ^ (k - 1)) 30000) :: trace c /\
   connection_state_ (schedule_reconnect c) = WaitingRetry /\
   retry_count_ (schedule_reconnect c) = k)
  /\
  (10 <= retry_count_ c ->
   connection_state_ (schedule_reconnect c) = Disconnected /\
   retry_timer_ (schedule_reconnect c) = retry_timer_ c /\
   timer_delays (schedule_reconnect c) = timer_delays c /\
   retry_count_ (schedule_reconnect c) = retry_count_ c /\
   connection_state_ (schedule_reconnect (schedule_reconnect c)) = Disconnected)
  /\
  (forall callback,
     let c' := run (all_attempts_fail 10) (new_client reference_config callback) in
     timer_delays c' =
       [1000; 2000; 4000; 8000; 16000; 30000; 30000; 30000; 30000; 30000] /\
     connection_state_ c' = Disconnected /\
     retry_timer_ c' = None /\ pending c' = []).
Proof.
  intros Hcfg. split; [|split].
  - intros Hk Hcount.
    destruct (schedule_reconnect_retry c) as (H1 & H2 & H3 & H4).
    { rewrite Hcfg, Hcount. simpl. lia. }
    rewrite H1, H2, H3, H4, Hcfg, Hcount.
    replace (k - 1 + 1) with k by lia.
    rewrite (backoff_delay_reference k Hk). repeat split; lia.
  - intros Hge.
    assert (Hmax : retry_max_attempts_ (cfg c) <= retry_count_ c).
    { rewrite Hcfg. simpl. lia. }
    rewrite (schedule_reconnect_give_up c Hmax).
    rewrite schedule_reconnect_give_up by exact Hmax.
    rewrite timer_delays_give_up. repeat split.
  - intros callback. destruct callback; vm_compute; repeat split; reflexivity.
Qed.

Lemma backoff_schedule_witness :
  let c := set_retry_count 5 (new_client reference_config true) in
  retry_timer_ (schedule_reconnect c) = Some 30000 /\
  connection_state_ (schedule_reconnect c) = WaitingRetry /\
  retry_count_ (schedule_reconnect c) = 6.
Proof.
  cbv zeta.
  destruct (backoff_schedule (set_retry_count 5 (new_client reference_config true))
              6 eq_refl) as [H _].
  destruct H as (H1 & _ & H3 & H4); [lia|reflexivity|].
  exact (conj H1 (conj H3 H4)).
Defined.

Lemma callback_after_handshake_app s new tr :
  callback_after_handshake s tr -> callback_after_handshake s (new ++ tr).
Proof. induction new as [|e new IH]; simpl; [done|]. intros H. right. by apply IH. Qed.

Lemma trace_ok_app new tr :
  Forall not_enqueue new -> trace_ok tr -> trace_ok (new ++ tr).
Proof.
  induction 1 as [|e new He Hnew IH]; simpl; [done|].
  intros Htr. split; [|by apply IH]. by destruct e.
Qed.

Lemma quiet_refl c : quiet c c.
Proof. repeat split; try done. exists []. split; [done|constructor]. Qed.

Lemma quiet_trans c1 c2 c3 : quiet c1 c2 -> quiet c2 c3 -> quiet c1 c3.
Proof.
  intros (A1 & (n1 & T1 & F1) & P1) (A2 & (n2 & T2 & F2) & P2).
  repeat split.
  - congruence.
  - exists (n2 ++ n1). split; [by rewrite T2, T1, app_assoc|].
    apply Forall_app. done.
  - intros s Hs. by apply P1, P2.
Qed.

Lemma inv_quiet c c' : inv c -> quiet c c' -> inv c'.
Proof.
  intros (Hcb & Htr & Hrd) (A & (new & T & F) & P). repeat split.
  - congruence.
  - rewrite T. by apply trace_ok_app.
  - intros s Hs Hv. rewrite T. apply callback_after_handshake_app.
    apply Hrd; [by apply P|done].
Qed.

Lemma quiet_schedule_reconnect c : quiet c (schedule_reconnect c).
Proof.
  unfold schedule_reconnect.
  destruct (_ <=? _); (split; [done|split; [|done]]).
  - exists [EvGiveUp]. split; [done|]. by repeat constructor.
  - eexists [EvTimerSet _]. split; [done|]. by repeat constructor.
Qed.

Ltac quiet_same :=
  split; [done|split; [exists []; split; [done|constructor]|done]].

Lemma quiet_close c : quiet c (close c).
Proof. quiet_same. Qed.

Lemma quiet_set_connected b c : quiet c (set_connected b c).
Proof. quiet_same. Qed.

Lemma quiet_post_other op c :
  (forall s, op <> OpRead s) -> quiet c (post op c).
Proof.
  intros Hop. split; [done|split; [exists []; split; [done|constructor]|]].
  intros s [Hs|Hs]; [by apply Hop in Hs|done].
Qed.

Lemma quiet_remove op c : quiet c (set_pending (remove_op op (pending c)) c).
Proof.
  split; [done|split; [exists []; split; [done|constructor]|]].
  intros s Hs. simpl in Hs. unfold remove_op in Hs.
  by apply List.in_remove in Hs as [Hs _].
Qed.

(** Posting a read on a stream whose callback has run (or that is not
    a reconnected one) keeps the invariant. *)
Lemma inv_do_read c :
  inv c ->
  (forall s, ws_ c = Some s -> via_reconnect s = true ->
             callback_after_handshake s (trace c)) ->
  inv (do_read c).
Proof.
  intros (Hcb & Htr & Hrd) Hcur. unfold do_read.
  destruct (ws_ c) as [s|] eqn:E; [|done]. repeat split; simpl; try done.
  intros s' [[= <-]|Hs] Hv; right; [by apply Hcur|by apply Hrd].
Qed.

Lemma inv_connect ok c : inv c -> inv (connect ok c).
Proof.
  intros Hinv. unfold connect.
  set (c1 := new_stream false (set_connected false (set_state Connecting c))).
  assert (H1 : inv c1) by exact Hinv.
  destruct ok.
  - apply inv_do_read; [exact Hinv|]. intros s [= <-]. discriminate.
  - destruct (retry_enabled_ (cfg c1)).
    + eapply inv_quiet; [exact H1|apply quiet_schedule_reconnect].
    + exact Hinv.
Qed.

Lemma quiet_chain_step (k : stream -> async_op) ok c :
  (forall s s', k s <> OpRead s') ->
  quiet c (if negb ok then schedule_reconnect c
           else match ws_ c with Some s => post (k s) c | None => c end).
Proof.
  intros Hk. destruct ok; simpl; [|apply quiet_schedule_reconnect].
  destruct (ws_ c); [|apply quiet_refl]. by apply quiet_post_other.
Qed.

Lemma inv_on_handshake s ok c :
  inv c -> (ok = true -> ws_ c = Some s) -> inv (on_handshake s ok c).
Proof.
  intros Hinv Hcur. unfold on_handshake. destruct ok; simpl.
  2:{ eapply inv_quiet; [exact Hinv|apply quiet_schedule_reconnect]. }
  destruct Hinv as (Hcb & Htr & Hrd). simpl. rewrite Hcb.
  apply inv_do_read.
  - repeat split; simpl; try done.
    intros s' Hs Hv. right. right. by apply Hrd.
  - simpl. rewrite (Hcur eq_refl). intros s' [= <-] _. left. split; [done|by left].
Qed.

Lemma inv_read_handler s ok msg c :
  inv c ->
  (via_reconnect s = true -> callback_after_handshake s (trace c)) ->
  (ok = true -> ws_ c = Some s) ->
  inv (read_handler s ok msg c).
Proof.
  intros Hinv Hs Hcur. unfold read_handler. destruct ok; simpl.
  2:{ destruct (retry_enabled_ (cfg c)).
      - eapply inv_quiet; [exact Hinv|].
        eapply quiet_trans; [apply (quiet_set_connected false)|].
        apply quiet_schedule_reconnect.
      - eapply inv_quiet; [exact Hinv|apply quiet_close]. }
  destruct Hinv as (Hcb & Htr & Hrd).
  destruct (_ <? _); apply inv_do_read.
  - repeat split; simpl; try done. intros s' Hs' Hv. right. by apply Hrd.
  - simpl. rewrite (Hcur eq_refl). intros s' [= <-] Hv. right. by apply Hs.
  - repeat split; simpl; try done. intros s' Hs' Hv. right. by apply Hrd.
  - simpl. rewrite (Hcur eq_refl). intros s' [= <-] Hv. right. by apply Hs.
Qed.

Lemma andb_current ok s c : ok && is_current s c = true -> ws_ c = Some s.
Proof.
  intros H. apply andb_true_iff in H as [_ H].
  unfold is_current in H. by apply bool_decide_eq_true in H.
Qed.

Lemma inv_step c i : inv c -> inv (step c i).
Proof.
  intros Hinv. destruct i as [ok|sni_ok|op ok msg| |]; simpl.
  - by apply inv_connect.
  - destruct (stopped c); [done|]. destruct (retry_timer_ c); [|done].
    unfold attempt_reconnect_async.
    set (c1 := new_stream true (set_state Connecting (set_timer None c))).
    assert (H1 : inv c1) by exact Hinv.
    eapply inv_quiet; [exact H1|].
    destruct sni_ok; simpl; [|apply quiet_schedule_reconnect].
    by apply quiet_post_other.
  - destruct (stopped c); [done|].
    destruct (bool_decide (op ∈ pending c)) eqn:Hop; [|done].
    apply bool_decide_eq_true, list_elem_of_In in Hop.
    set (c1 := set_pending (remove_op op (pending c)) c).
    assert (H1 : inv c1).
    { eapply inv_quiet; [exact Hinv|apply quiet_remove]. }
    destruct op as [s|s|s|s|s]; simpl.
    + eapply inv_quiet; [exact H1|]. unfold on_resolve.
      by apply (quiet_chain_step OpConnect).
    + eapply inv_quiet; [exact H1|]. unfold on_connect.
      by apply (quiet_chain_step OpSslHandshake).
    + eapply inv_quiet; [exact H1|]. unfold on_ssl_handshake.
      by apply (quiet_chain_step OpWsHandshake).
    + apply inv_on_handshake; [exact H1|]. apply andb_current.
    + apply inv_read_handler; [exact H1| |apply andb_current].
      destruct Hinv as (_ & _ & Hrd). intros Hv. by apply Hrd.
  - destruct (stopped c); [done|]. unfold write_failed.
    destruct (connected_ c); simpl; [|done].
    destruct (retry_enabled_ (cfg c)).
    + eapply inv_quiet; [exact Hinv|].
      eapply quiet_trans; [apply (quiet_set_connected false)|].
      apply quiet_schedule_reconnect.
    + eapply inv_quiet; [exact Hinv|apply quiet_close].
  - unfold get_next_message. by destruct (incoming_queue_ c).
Qed.

Lemma inv_run inputs : forall c, inv c -> inv (run inputs c).
Proof.
  unfold run. induction inputs as [|i inputs IH]; intros c Hinv; simpl; [done|].
  by apply IH, inv_step.
Qed.

Lemma inv_new_client config : inv (new_client config true).
Proof. repeat split. intros s []. Qed.

Lemma trace_ok_split l1 e l2 : trace_ok (l1 ++ e :: l2) -> delivery_ok e l2.
Proof. induction l1 as [|a l1 IH]; simpl; intros [H1 H2]; [done|by apply IH]. Qed.

Lemma callback_after_handshake_split s l :
  callback_after_handshake s l ->
  exists l1 l3 l4,
    l = l1 ++ EvReconnectCallback s :: l3 ++ EvHandshakeDone s :: l4.
Proof.
  induction l as [|e l IH]; simpl; [done|]. intros [[-> Hin]|H].
  - apply in_split in Hin as (l3 & l4 & ->). by exists [], l3, l4.
  - destruct (IH H) as (l1 & l3 & l4 & ->). by exists (e :: l1), l3, l4.
Qed.

(** The invariant, read in the order of time. *)
Lemma inv_history c pre s msg post :
  inv c ->
  history c = pre ++ EvEnqueued s msg :: post ->
  via_reconnect s = true ->
  exists a b d,
    pre = a ++ EvHandshakeDone s :: b ++ EvReconnectCallback s :: d.
Proof.
  intros (_ & Htr & _) Hh Hv. unfold history in Hh.
  assert (Ht : trace c = rev post ++ EvEnqueued s msg :: rev pre).
  { rewrite <- (rev_involutive (trace c)), Hh, rev_app_distr. simpl.
    by rewrite <- app_assoc. }
  rewrite Ht in Htr. apply trace_ok_split in Htr. simpl in Htr.
  destruct (callback_after_handshake_split s _ (Htr Hv)) as (l1 & l3 & l4 & E).
  exists (rev l4), (rev l3), (rev l1).
  rewrite <- (rev_involutive pre), E.
  rewrite rev_app_distr. simpl. rewrite rev_app_distr. simpl.
  by rewrite <- !app_assoc.
Qed.

(** *** The retry counter *)

Lemma retry_count_schedule_reconnect c :
  retry_count_ c <= retry_count_ (schedule_reconnect c).
Proof. unfold schedule_reconnect. destruct (_ <=? _); simpl; lia. Qed.

Lemma retry_count_do_read c : retry_count_ (do_read c) = retry_count_ c.
Proof. unfold do_read. by destruct (ws_ c). Qed.

Lemma retry_count_chain_step (k : stream -> async_op) ok c :
  retry_count_ c <=
  retry_count_ (if negb ok then schedule_reconnect c
                else match ws_ c with Some s => post (k s) c | None => c end).
Proof.
  destruct ok; simpl; [|apply retry_count_schedule_reconnect].
  destruct (ws_ c); simpl; lia.
Qed.

(** The counter only goes down when a WebSocket handshake has
    completed: in [connect], or in [on_handshake] for the current
    stream. *)
Lemma retry_count_reset_only_at_handshake c i :
  retry_count_ (step c i) < retry_count_ c ->
  i = InConnect true \/
  exists s msg, i = InComplete (OpWsHandshake s) true msg /\ ws_ c = Some s.
Proof.
  destruct i as [ok|sni_ok|op ok msg| |]; simpl.
  - destruct ok; [by left|]. unfold connect. simpl.
    destruct (retry_enabled_ (cfg c)); simpl; [|lia].
    match goal with |- context [schedule_reconnect ?x] =>
      pose proof (retry_count_schedule_reconnect x) as H end.
    simpl in H. lia.
  - destruct (stopped c); [lia|]. destruct (retry_timer_ c); [|lia].
    unfold attempt_reconnect_async. destruct sni_ok; simpl; [lia|].
    match goal with |- context [schedule_reconnect ?x] =>
      pose proof (retry_count_schedule_reconnect x) as H end.
    simpl in H. lia.
  - destruct (stopped c); [lia|].
    destruct (bool_decide (op ∈ pending c)); [|lia].
    set (c1 := set_pending (remove_op op (pending c)) c).
    assert (R1 : retry_count_ c1 = retry_count_ c) by done.
    destruct op as [s|s|s|s|s]; simpl.
    + pose proof (retry_count_chain_step OpConnect ok c1) as H.
      unfold on_resolve. lia.
    + pose proof (retry_count_chain_step OpSslHandshake (ok && is_current s c1) c1) as H.
      unfold on_connect. lia.
    + pose proof (retry_count_chain_step OpWsHandshake (ok && is_current s c1) c1) as H.
      unfold on_ssl_handshake. lia.
    + destruct (ok && is_current s c1) eqn:E.
      * intros _. right. exists s, msg.
        apply andb_true_iff in E as [-> E].
        unfold is_current in E. apply bool_decide_eq_true in E. done.
      * unfold on_handshake. simpl.
        pose proof (retry_count_schedule_reconnect c1) as H. lia.
    + unfold read_handler.
      destruct (ok && is_current s c1); simpl.
      * rewrite retry_count_do_read. destruct (_ <? _); simpl; lia.
      * destruct (retry_enabled_ (cfg c)); simpl; [|lia].
        match goal with |- context [schedule_reconnect ?x] =>
          pose proof (retry_count_schedule_reconnect x) as H end.
        simpl in H. lia.
  - destruct (stopped c); [lia|]. unfold write_failed.
    destruct (connected_ c); simpl; [|lia].
    destruct (retry_enabled_ (cfg c)); simpl; [|lia].
    match goal with |- context [schedule_reconnect ?x] =>
      pose proof (retry_count_schedule_reconnect x) as H end.
    simpl in H. lia.
  - unfold get_next_message. destruct (incoming_queue_ c); simpl; lia.
Qed.

(** What a completed handshake of the current stream does, in order:
    reset the counter, call the callback, post the first read. *)
Lemma on_handshake_success s c :
  has_on_reconnect c = true -> ws_ c = Some s ->
  retry_count_ (on_handshake s true c) = 0 /\
  connection_state_ (on_handshake s true c) = Connected /\
  trace (on_handshake s true c) =
    EvReadPosted s :: EvReconnectCallback s :: EvHandshakeDone s :: trace c.
Proof.
  intros Hcb Hws. unfold on_handshake, do_read. simpl. rewrite Hcb. simpl.
  rewrite Hws. done.
Qed.

(** C6: in every run of a session with a registered callback, a
    message read on a reconnected stream is enqueued only after that
    stream's handshake has completed and, after that, the reconnect
    callback has been invoked; the retry counter goes down in no step
    other than the completion of a WebSocket handshake (in [connect]
    or in [on_handshake]), and [on_handshake] resets it, then invokes
    the callback, then posts the first read. *)
Theorem reconnect_callback_before_delivery
    (config : retry_config) (inputs : list input) :
  let c := run inputs (new_client config true) in
  (forall pre s msg post,
     history c = pre ++ EvEnqueued s msg :: post ->
     via_reconnect s = true ->
     exists a b d,
       pre = a ++ EvHandshakeDone s :: b ++ EvReconnectCallback s :: d)
  /\
  (forall c0 i,
     retry_count_ (step c0 i) < retry_count_ c0 ->
     i = InConnect true \/
     exists s msg, i = InComplete (OpWsHandshake s) true msg /\ ws_ c0 = Some s)
  /\
  (forall c0 s,
     has_on_reconnect c0 = true -> ws_ c0 = Some s ->
     retry_count_ (on_handshake s true c0) = 0 /\
     connection_state_ (on_handshake s true c0) = Connected /\
     trace (on_handshake s true c0) =
       EvReadPosted s :: EvReconnectCallback s :: EvHandshakeDone s :: trace c0).
Proof.
  cbv zeta. split; [|split].
  - intros pre s msg post. apply inv_history, inv_run, inv_new_client.
  - apply retry_count_reset_only_at_handshake.
  - intros c0 s. apply on_handshake_success.
Qed.

End WebSocketClient.

(* ===================================================================== *)
(** ** Parsed order books (modules/exchange/exchange_adapter.h)           *)
(* ===================================================================== *)

Module ExchangeAdapter.
Import Double.

Record PriceLevel := {
  price_int : Z;     (* uint64_t, price scaled by PRICE_SCALE *)
  size : double
}.

Record ParsedOrderBook := {
  instrument : string;
  bids : list PriceLevel;
  asks : list PriceLevel;
  is_snapshot : bool;
  timestamp_ms : Z
}.

Definition PRICE_SCALE : Z := 100000000.

End ExchangeAdapter.

(* ===================================================================== *)
(** ** UDP publisher (modules/network/udp_publisher)                      *)
(* ===================================================================== *)

Module UdpPublisher.
Import Bytes Double ExchangeAdapter.
Import OrderBookEngine (ExchangeId, exchange_code).

Definition UDP_FEED_MAGIC : Z := 0x48465444.

Definition UDP_FEED_VERSION : Z := 1.

(** Casts to the unsigned types of the header fields. *)
Definition u8 (x : Z) : Z := x mod 2 ^ 8.

Definition u16 (x : Z) : Z := x mod 2 ^ 16.

Definition u32 (x : Z) : Z := x mod 2 ^ 32.

Definition u64 (x : Z) : Z := x mod 2 ^ 64.

(** On the little-endian host these swap the bytes. *)
Definition htons (x : Z) : Z := bswap 2 x.

Definition htonl (x : Z) : Z := bswap 4 x.

Definition rte_cpu_to_be_64 (x : Z) : Z := bswap 8 x.

(** [struct __attribute__((packed)) UdpMarketHeader]: the values its
    fields hold. *)
Record UdpMarketHeader := {
  magic : Z;          (* uint32_t *)
  version : Z;        (* uint16_t *)
  msg_type : Z;       (* uint8_t *)
  exchange_id : Z;    (* uint8_t *)
  timestamp_ns : Z;   (* uint64_t *)
  symbol_len : Z;     (* uint32_t *)
  bid_count : Z;      (* uint16_t *)
  ask_count : Z       (* uint16_t *)
}.

(** [struct __attribute__((packed)) UdpPriceLevel] *)
Record UdpPriceLevel := {
  level_price_int : Z;   (* uint64_t *)
  level_quantity : Z     (* the eight bytes of the double *)
}.

(** The object representation: the bytes from [&header] to
    [&header + sizeof(header)], fields in declaration order without
    padding, each stored low byte first. *)
Definition header_bytes (h : UdpMarketHeader) : list Z :=
  le_bytes 4 (magic h) ++ le_bytes 2 (version h) ++
  le_bytes 1 (msg_type h) ++ le_bytes 1 (exchange_id h) ++
  le_bytes 8 (timestamp_ns h) ++ le_bytes 4 (symbol_len h) ++
  le_bytes 2 (bid_count h) ++ le_bytes 2 (ask_count h).

Definition level_bytes (l : UdpPriceLevel) : list Z :=
  le_bytes 8 (level_price_int l) ++ le_bytes 8 (level_quantity l).

(** The bytes of a [std::string]. *)
Definition string_bytes (s : string) : list Z :=
  map (fun a => Z.of_N (N_of_ascii a)) (list_ascii_of_string s).

Record publisher := {
  socket_fd_ : Z;
  target_address_ : string;
  target_port_ : Z
}.

(** One call of [sendto]. *)
Record datagram := {
  dest_addr : Z;     (* sin_addr, as inet_pton filled it *)
  dest_port : Z;     (* the port, host order *)
  payload : list Z
}.

Definition is_initialized (p : publisher) : bool := 0 <=? socket_fd_ p.

(** One iteration of the loops over [book.bids] and [book.asks]. *)
Definition push_level (buffer : list Z) (level : PriceLevel) : list Z :=
  let p_level :=
    {| level_price_int := rte_cpu_to_be_64 (price_int level);
       level_quantity :=
         let qty_bits := size level in       (* memcpy from the double *)
         rte_cpu_to_be_64 qty_bits |} in
  buffer ++ level_bytes p_level.

(** Steps 1 to 5 of [serialize_and_send]: the buffer handed to
    [sendto].  [now_ns] is the reading of the steady clock. *)
Definition serialize (book : ParsedOrderBook) (venue : ExchangeId) (now_ns : Z)
  : list Z :=
  let buffer := [] in
  let symbol := instrument book in
  let header :=
    {| magic := htonl UDP_FEED_MAGIC;
       version := htons UDP_FEED_VERSION;
       msg_type := if is_snapshot book then 1 else 2;
       exchange_id := u8 (exchange_code venue);
       timestamp_ns := rte_cpu_to_be_64 (u64 now_ns);
       symbol_len := htonl (u32 (Z.of_nat (String.length symbol)));
       bid_count := htons (u16 (Z.of_nat (length (bids book))));
       ask_count := htons (u16 (Z.of_nat (length (asks book)))) |} in
  let buffer := buffer ++ header_bytes header in
  let buffer :=
    if negb (String.length symbol =? 0)%nat
    then buffer ++ string_bytes symbol else buffer in
  let buffer := fold_left push_level (bids book) buffer in
  let buffer := fold_left push_level (asks book) buffer in
  buffer.

Section Publish.
(** [inet_pton(AF_INET, ...)]: the address, or nothing when the text
    is not a dotted quad. *)
Variable inet_pton : string -> option Z.

(** Step 6: the calls of [sendto] made. *)
Definition serialize_and_send (p : publisher) (book : ParsedOrderBook)
    (venue : ExchangeId) (now_ns : Z) : list datagram :=
  let buffer := serialize book venue now_ns in
  match inet_pton (target_address_ p) with
  | None => []
  | Some addr =>
      [ {| dest_addr := addr; dest_port := u16 (target_port_ p);
           payload := buffer |} ]
  end.

Definition publish (p : publisher) (book : ParsedOrderBook)
    (venue : ExchangeId) (now_ns : Z) : list datagram :=
  if socket_fd_ p <? 0 then []
  else serialize_and_send p book venue now_ns.
End Publish.

(** *** The frame as the specification lays it out *)

Definition level_layout (l : PriceLevel) : list Z :=
  be_bytes 8 (price_int l) ++ be_bytes 8 (size l).

Definition frame_layout (symbol_len bid_count ask_count : Z)
    (book : ParsedOrderBook) (venue : ExchangeId) (now_ns : Z) : list Z :=
  be_bytes 4 0x48465444 ++
  be_bytes 2 1 ++
  [if is_snapshot book then 1 else 2] ++
  [exchange_code venue] ++
  be_bytes 8 now_ns ++
  be_bytes 4 symbol_len ++
  be_bytes 2 bid_count ++
  be_bytes 2 ask_count ++
  string_bytes (instrument book) ++
  flat_map level_layout (bids book) ++
  flat_map level_layout (asks book).

(** *** A concrete book *)

Definition book_example : ParsedOrderBook :=
  {| instrument := "BTC"; bids := [ {| price_int := 258; size := of_Z 1 |} ];
     asks := []; is_snapshot := true; timestamp_ms := 0 |}.

Definition loopback (address : string) : option Z := Some 0x7f000001.

(** An [inet_pton] that rejects the text. *)
Definition not_an_address (address : string) : option Z := None.

Definition publisher_example : publisher :=
  {| socket_fd_ := 3; target_address_ := "127.0.0.1"; target_port_ := 13988 |}.

Definition publisher_closed : publisher :=
  {| socket_fd_ := -1; target_address_ := "127.0.0.1"; target_port_ := 13988 |}.

Definition book_many_bids : ParsedOrderBook :=
  {| instrument := "BTC";
     bids := repeat {| price_int := 258; size := of_Z 1 |} (Z.to_nat 65536);
     asks := []; is_snapshot := true; timestamp_ms := 0 |}.

(** *** Properties *)

Example serialize_example :
  serialize book_example OrderBookEngine.BYBIT 5 =
    [0x48; 0x46; 0x54; 0x44;  0; 1;  1;  1;
     0; 0; 0; 0; 0; 0; 0; 5;  0; 0; 0; 3;  0; 1;  0; 0;
     66; 84; 67;
     0; 0; 0; 0; 0; 0; 1; 2;  0x3f; 0xf0; 0; 0; 0; 0; 0; 0].
Proof. vm_compute. reflexivity. Qed.

(** *** Layout of the buffer *)

Lemma le_bytes_mod n x : le_bytes n (x mod 2 ^ (8 * Z.of_nat n)) = le_bytes n x.
Proof.
  revert x. induction n as [|n IH]; intros x; [done|].
  replace (8 * Z.of_nat (S n)) with (8 + 8 * Z.of_nat n) by lia.
  rewrite Z.pow_add_r by lia. change (2 ^ 8) with 256.
  assert (Hpos : 0 < 2 ^ (8 * Z.of_nat n)) by (apply Z.pow_pos_nonneg; lia).
  rewrite Z.rem_mul_r by lia.
  pose proof (Z.mod_pos_bound x 256 ltac:(lia)) as Hr.
  set (r := x mod 256) in *. set (q := (x / 256) mod 2 ^ (8 * Z.of_nat n)).
  assert (E1 : (r + 256 * q) mod 256 = r).
  { symmetry. apply (Z.mod_unique _ _ q); lia. }
  assert (E2 : (r + 256 * q) / 256 = q).
  { symmetry. apply (Z.div_unique _ _ _ r); lia. }
  cbn [le_bytes]. rewrite E1, E2. unfold q. by rewrite IH.
Qed.

Lemma be_bytes_mod n x : be_bytes n (x mod 2 ^ (8 * Z.of_nat n)) = be_bytes n x.
Proof. unfold be_bytes. by rewrite le_bytes_mod. Qed.

Lemma exchange_code_byte venue : le_bytes 1 (u8 (exchange_code venue)) = [exchange_code venue].
Proof. by destruct venue. Qed.

Lemma push_level_layout buffer level :
  push_level buffer level = buffer ++ level_layout level.
Proof.
  unfold push_level, level_layout, level_bytes, rte_cpu_to_be_64.
  cbv zeta. cbn [level_price_int level_quantity].
  by rewrite !le_bytes_bswap.
Qed.

Lemma fold_push_level levels :
  forall buffer,
    fold_left push_level levels buffer = buffer ++ flat_map level_layout levels.
Proof.
  induction levels as [|l levels IH]; intros buffer.
  - simpl. by rewrite app_nil_r.
  - cbn [fold_left flat_map]. by rewrite IH, push_level_layout, <- app_assoc.
Qed.

Lemma string_bytes_empty s : String.length s = 0%nat -> string_bytes s = [].
Proof. by destruct s. Qed.

Lemma push_symbol (buffer : list Z) s :
  (if negb (String.length s =? 0)%nat then buffer ++ string_bytes s else buffer)
  = buffer ++ string_bytes s.
Proof.
  destruct (String.length s =? 0)%nat eqn:E; cbn [negb]; [|done].
  apply Nat.eqb_eq in E. by rewrite (string_bytes_empty _ E), app_nil_r.
Qed.

(** The buffer is the frame of the specification, with the three
    length fields reduced to the width of their type. *)
Lemma serialize_layout book venue now_ns :
  serialize book venue now_ns =
    frame_layout (u32 (Z.of_nat (String.length (instrument book))))
                 (u16 (Z.of_nat (length (bids book))))
                 (u16 (Z.of_nat (length (asks book))))
                 book venue (u64 now_ns).
Proof.
  unfold serialize, frame_layout, header_bytes, htonl, htons, rte_cpu_to_be_64.
  cbv zeta. cbn [magic version msg_type exchange_id timestamp_ns symbol_len
                 bid_count ask_count].
  rewrite push_symbol, !fold_push_level, !le_bytes_bswap, exchange_code_byte.
  assert (Hty : le_bytes 1 (if is_snapshot book then 1 else 2)
                = [if is_snapshot book then 1 else 2]) by (by destruct (is_snapshot book)).
  rewrite Hty. unfold UDP_FEED_MAGIC, UDP_FEED_VERSION.
  rewrite app_nil_l. repeat rewrite <- app_assoc. reflexivity.
Qed.

(** C5 (amended): when the socket is open and the target address
    parses, [publish] makes exactly one [sendto], and its buffer is
    the frame: magic 0x48465444, version 1, type 1 for a snapshot and
    2 otherwise, the venue id, the clock reading, then the symbol
    length modulo 2^32 and the bid and ask counts modulo 2^16, all
    big-endian, followed by all symbol bytes, all bid levels and all
    ask levels, a level being the big-endian price and the big-endian
    bits of the size.  For a book with fewer than 2^16 levels a side
    the three length fields are the lengths themselves.  Otherwise,
    that is when the descriptor is negative or the address does not
    parse, it sends nothing. *)
Theorem publish_sends_frame
    (inet_pton : string -> option Z) (p : publisher) (book : ParsedOrderBook)
    (venue : ExchangeId) (now_ns : Z) :
  (forall addr,
     0 <= socket_fd_ p ->
     inet_pton (target_address_ p) = Some addr ->
     publish inet_pton p book venue now_ns =
       [ {| dest_addr := addr; dest_port := u16 (target_port_ p);
            payload :=
              frame_layout (u32 (Z.of_nat (String.length (instrument book))))
                           (u16 (Z.of_nat (length (bids book))))
                           (u16 (Z.of_nat (length (asks book))))
                           book venue (u64 now_ns) |} ]
     /\
     (Z.of_nat (String.length (instrument book)) < 2 ^ 32 ->
      Z.of_nat (length (bids book)) < 2 ^ 16 ->
      Z.of_nat (length (asks book)) < 2 ^ 16 ->
      0 <= now_ns < 2 ^ 64 ->
      publish inet_pton p book venue now_ns =
        [ {| dest_addr := addr; dest_port := u16 (target_port_ p);
             payload :=
               frame_layout (Z.of_nat (String.length (instrument book)))
                            (Z.of_nat (length (bids book)))
                            (Z.of_nat (length (asks book)))
                            book venue now_ns |} ]))
  /\
  (socket_fd_ p < 0 \/ inet_pton (target_address_ p) = None ->
   publish inet_pton p book venue now_ns = []).
Proof.
  split.
  - intros addr Hfd Haddr.
    assert (Hpub : publish inet_pton p book venue now_ns =
      [ {| dest_addr := addr; dest_port := u16 (target_port_ p);
           payload :=
             frame_layout (u32 (Z.of_nat (String.length (instrument book))))
                          (u16 (Z.of_nat (length (bids book))))
                          (u16 (Z.of_nat (length (asks book))))
                          book venue (u64 now_ns) |} ]).
    { unfold publish, serialize_and_send.
      destruct (socket_fd_ p <? 0) eqn:E; [lia|].
      by rewrite Haddr, serialize_layout. }
    split; [exact Hpub|]. intros Hs Hb Ha Hn. rewrite Hpub.
    unfold u32, u16, u64.
    rewrite (Z.mod_small _ (2 ^ 32)) by (split; [lia|exact Hs]).
    rewrite (Z.mod_small (Z.of_nat (length (bids book)))) by (split; [lia|exact Hb]).
    rewrite (Z.mod_small (Z.of_nat (length (asks book)))) by (split; [lia|exact Ha]).
    by rewrite (Z.mod_small now_ns) by exact Hn.
  - unfold publish, serialize_and_send. intros [Hfd|Haddr].
    + destruct (socket_fd_ p <? 0) eqn:E; [done|lia].
    + rewrite Haddr. by destruct (socket_fd_ p <? 0).
Qed.

(** The theorem at an open publisher, and at the same publisher when
    the address does not parse. *)
Lemma publish_sends_frame_witness :
  publish loopback publisher_example book_example OrderBookEngine.BYBIT 5 =
    [ {| dest_addr := 0x7f000001; dest_port := 13988;
         payload := frame_layout 3 1 0 book_example OrderBookEngine.BYBIT 5 |} ]
  /\
  publish not_an_address publisher_example book_example OrderBookEngine.BYBIT 5
    = [].
Proof.
  split.
  - destruct (proj1 (publish_sends_frame loopback publisher_example book_example
                       OrderBookEngine.BYBIT 5) 0x7f000001) as [_ H];
      [vm_compute; discriminate|reflexivity|].
    apply H; vm_compute; try reflexivity. split; [discriminate|reflexivity].
  - apply (proj2 (publish_sends_frame not_an_address publisher_example
                    book_example OrderBookEngine.BYBIT 5)).
    right. reflexivity.
Defined.

Lemma be_bytes_length n x : length (be_bytes n x) = n.
Proof. unfold be_bytes. by rewrite length_rev, le_bytes_length. Qed.

(** Bytes 20 and 21 of a frame are its bid count. *)
Lemma frame_bid_count_field sl bc ac book venue now_ns :
  take 2 (drop 20 (frame_layout sl bc ac book venue now_ns)) = be_bytes 2 bc.
Proof.
  unfold frame_layout.
  rewrite !(app_assoc _ _ (be_bytes 2 bc ++ _)).
  rewrite drop_app_length'.
  - apply take_app_length'. by rewrite be_bytes_length.
  - rewrite !length_app, !be_bytes_length. reflexivity.
Qed.

Lemma level_layout_length l : length (level_layout l) = 16%nat.
Proof. unfold level_layout. by rewrite length_app, !be_bytes_length. Qed.

Lemma levels_layout_length (levels : list PriceLevel) :
  length (flat_map level_layout levels) = (16 * length levels)%nat.
Proof.
  induction levels as [|l levels IH]; [done|].
  cbn [flat_map]. rewrite length_app, level_layout_length, IH. simpl. lia.
Qed.

(** C5, as stated, fails.  A publisher whose socket is not open sends
    nothing; and for a book with 65536 bids the count field of the
    header reads 0 while 65536 levels, of 16 bytes each, follow the
    header and the symbol. *)
Lemma publish_not_always_one_frame :
  (forall inet_pton book venue now_ns,
     publish inet_pton publisher_closed book venue now_ns = [])
  /\
  (Z.of_nat (length (bids book_many_bids)) = 65536 /\
   take 2 (drop 20 (serialize book_many_bids OrderBookEngine.OKX 0)) = [0; 0] /\
   exists header_and_symbol,
     length header_and_symbol = 27%nat /\
     serialize book_many_bids OrderBookEngine.OKX 0 =
       header_and_symbol ++ flat_map level_layout (bids book_many_bids) /\
     Z.of_nat (length (flat_map level_layout (bids book_many_bids)))
       = 16 * 65536).
Proof.
  assert (Hlen : Z.of_nat (length (bids book_many_bids)) = 65536).
  { unfold book_many_bids. cbn [bids]. rewrite repeat_length. reflexivity. }
  split; [reflexivity|]. split; [exact Hlen|]. split.
  - rewrite serialize_layout, frame_bid_count_field, Hlen. reflexivity.
  - rewrite serialize_layout. unfold frame_layout.
    eexists (be_bytes 4 _ ++ be_bytes 2 _ ++ [_] ++ [_] ++ be_bytes 8 _ ++
             be_bytes 4 _ ++ be_bytes 2 _ ++ be_bytes 2 _ ++
             string_bytes (instrument book_many_bids)).
    split; [|split].
    + rewrite !length_app, !be_bytes_length. reflexivity.
    + cbn [asks book_many_bids flat_map]. rewrite app_nil_r.
      repeat rewrite <- app_assoc. reflexivity.
    + rewrite levels_layout_length. lia.
Qed.

End UdpPublisher.

(* ===================================================================== *)
(** ** Bybit adapter (modules/exchange/bybit_adapter)                     *)
(* ===================================================================== *)

Module BybitAdapter.
Import Double ExchangeAdapter.

(** A parsed document ([simdjson::dom::element]).  Integers are
    [int64_t] when they fit, [uint64_t] above that. *)
Local Unset Elimination Schemes.

Inductive json :=
| JNull
| JBool (b : bool)
| JInt64 (n : Z)
| JUint64 (n : Z)
| JDouble (d : double)
| JString (s : string)
| JArray (items : list json)
| JObject (fields : list (string * json)).

Local Set Elimination Schemes.

(** *** simdjson accessors; [None] is an error code other than SUCCESS *)

(** [object::at_key]: the first member with that key. *)
Definition at_key (key : string) (e : json) : option json :=
  match e with
  | JObject fields =>
      match List.find (fun kv => String.eqb (fst kv) key) fields with
      | Some kv => Some (snd kv)
      | None => None
      end
  | _ => None
  end.

(** [simdjson_result<element>::operator[](key)] *)
Definition field (key : string) (r : option json) : option json :=
  match r with Some e => at_key key e | None => None end.

(** [element::at(index)] *)
Definition at_index (i : nat) (e : json) : option json :=
  match e with JArray items => nth_error items i | _ => None end.

Definition get_string (r : option json) : option string :=
  match r with Some (JString s) => Some s | _ => None end.

Definition get_uint64 (r : option json) : option Z :=
  match r with
  | Some (JUint64 n) => Some n
  | Some (JInt64 n) => if n <? 0 then None else Some n
  | _ => None
  end.

(** *** [std::string_view] members *)

(** [s.find(needle)]: position of the first occurrence. *)
Definition find (needle s : string) : option nat := String.index 0 needle s.

(** [s.rfind(c)]: position of the last occurrence. *)
Fixpoint rfind (c : ascii) (s : string) : option nat :=
  match s with
  | EmptyString => None
  | String a rest =>
      match rfind c rest with
      | Some i => Some (S i)
      | None => if Ascii.eqb a c then Some 0%nat else None
      end
  end.

(** [s.substr(pos)] *)
Definition substr (pos : nat) (s : string) : string :=
  String.substring pos (String.length s - pos) s.

(** *** Field updates of the output parameter *)

Definition set_instrument (s : string) (b : ParsedOrderBook) : ParsedOrderBook :=
  {| instrument := s; bids := bids b; asks := asks b;
     is_snapshot := is_snapshot b; timestamp_ms := timestamp_ms b |}.

Definition set_is_snapshot (f : bool) (b : ParsedOrderBook) : ParsedOrderBook :=
  {| instrument := instrument b; bids := bids b; asks := asks b;
     is_snapshot := f; timestamp_ms := timestamp_ms b |}.

Definition set_bids (l : list PriceLevel) (b : ParsedOrderBook) : ParsedOrderBook :=
  {| instrument := instrument b; bids := l; asks := asks b;
     is_snapshot := is_snapshot b; timestamp_ms := timestamp_ms b |}.

Definition set_asks (l : list PriceLevel) (b : ParsedOrderBook) : ParsedOrderBook :=
  {| instrument := instrument b; bids := bids b; asks := l;
     is_snapshot := is_snapshot b; timestamp_ms := timestamp_ms b |}.

Definition set_timestamp_ms (t : Z) (b : ParsedOrderBook) : ParsedOrderBook :=
  {| instrument := instrument b; bids := bids b; asks := asks b;
     is_snapshot := is_snapshot b; timestamp_ms := t |}.

(** [static_cast<uint64_t>(std::round(price * PRICE_SCALE))] *)
Definition price_to_int (price : double) : Z :=
  to_u64 (round (mul price (of_Z PRICE_SCALE))).

Section Parse.
(** [std::stod]: the value, or nothing when it throws. *)
Variable stod : string -> option double.

(** The body of the loops over [data.b] and [data.a]: the level, or
    nothing when an access or a conversion throws. *)
Definition level_of_json (item : json) : option PriceLevel :=
  match get_string (at_index 0 item), get_string (at_index 1 item) with
  | Some price_str, Some size_str =>
      match stod price_str, stod size_str with
      | Some price, Some size =>
          Some {| price_int := price_to_int price; size := size |}
      | _, _ => None
      end
  | _, _ => None
  end.

(** [for (auto item : items) levels.push_back(...)]: whether the
    loop ran to its end, and the vector as it then is. *)
Fixpoint push_levels (items : list json) (levels : list PriceLevel)
  : bool * list PriceLevel :=
  match items with
  | [] => (true, levels)
  | item :: rest =>
      match level_of_json item with
      | Some l => push_levels rest (levels ++ [l])
      | None => (false, levels)
      end
  end.

(** One of the two blocks "auto bids = data["b"]; if (!bids.error())
    { for ... }": iterating something that is no array throws. *)
Definition push_side (side : option json) (levels : list PriceLevel)
  : bool * list PriceLevel :=
  match side with
  | None => (true, levels)
  | Some (JArray items) => push_levels items levels
  | Some _ => (false, levels)
  end.

(** [BybitAdapter::parse_orderbook_message], on the document the
    simdjson parser returned ([None] when it threw): the flag
    returned and [out_book] as the call leaves it. *)
Definition parse_orderbook_message (doc : option json)
    (out_book : ParsedOrderBook) : bool * ParsedOrderBook :=
  match doc with
  | None => (false, out_book)
  | Some _ =>
      match get_string (field "topic" doc) with
      | None => (false, out_book)
      | Some topic =>
          match find "orderbook" topic with
          | None => (false, out_book)
          | Some _ =>
              match rfind "." topic with
              | None => (false, out_book)
              | Some last_dot =>
                  let out_book :=
                    set_instrument (substr (last_dot + 1) topic) out_book in
                  let out_book :=
                    match get_string (field "type" doc) with
                    | Some type => set_is_snapshot (String.eqb type "snapshot") out_book
                    | None => set_is_snapshot false out_book
                    end in
                  let data := field "data" doc in
                  match data with
                  | None => (false, out_book)
                  | Some _ =>
                      let '(ok, l) := push_side (field "b" data) (bids out_book) in
                      let out_book := set_bids l out_book in
                      if negb ok then (false, out_book)
                      else
                        let '(ok, l) := push_side (field "a" data) (asks out_book) in
                        let out_book := set_asks l out_book in
                        if negb ok then (false, out_book)
                        else
                          let out_book :=
                            match get_uint64 (field "ts" data) with
                            | Some ts => set_timestamp_ms ts out_book
                            | None => out_book
                            end in
                          (true, out_book)
                  end
              end
          end
      end
  end.

(** The levels a side contributes, said without the loop. *)
Definition levels_of_side (side : option json) : option (list PriceLevel) :=
  match side with
  | None => Some []
  | Some (JArray items) => mapM level_of_json items
  | Some _ => None
  end.
End Parse.

(** *** Concrete messages *)

Definition blank_book : ParsedOrderBook :=
  {| instrument := ""; bids := []; asks := []; is_snapshot := false;
     timestamp_ms := 0 |}.

(** A conversion that knows the strings of the examples. *)
Definition stod_examples (s : string) : option double :=
  if String.eqb s "60000.5" then Some 0x40ed4c1000000000
  else if String.eqb s "60001.0" then Some 0x40ed4c2000000000
  else if String.eqb s "1.5" then Some 0x3ff8000000000000
  else if String.eqb s "0.5" then Some 0x3fe0000000000000
  else None.

Definition msg_snapshot : json :=
  JObject [ ("topic", JString "orderbook.50.BTCUSDT");
            ("type", JString "snapshot");
            ("data", JObject [ ("s", JString "BTCUSDT");
                               ("b", JArray [JArray [JString "60000.5"; JString "1.5"]]);
                               ("a", JArray [JArray [JString "60001.0"; JString "0.5"]]);
                               ("ts", JInt64 1702500000000) ]) ]%string.

(** The topic only contains "orderbook"; it does not start with it. *)
Definition msg_not_prefix : json :=
  JObject [ ("topic", JString "xorderbook.50.BTCUSDT");
            ("data", JObject []) ]%string.

(** The topic starts with "orderbook" but has no dot. *)
Definition msg_no_dot : json :=
  JObject [ ("topic", JString "orderbook"); ("data", JObject []) ]%string.

(** *** Properties *)

Example parse_snapshot :
  parse_orderbook_message stod_examples (Some msg_snapshot) blank_book =
    (true,
     {| instrument := "BTCUSDT";
        bids := [ {| price_int := 6000050000000; size := 0x3ff8000000000000 |} ];
        asks := [ {| price_int := 6000100000000; size := 0x3fe0000000000000 |} ];
        is_snapshot := true; timestamp_ms := 1702500000000 |}).
Proof. vm_compute. reflexivity. Qed.

(** *** What the loops compute *)

Lemma push_levels_ok stod (items : list json) :
  forall levels l,
    push_levels stod items levels = (true, l) <->
    exists ls, mapM (level_of_json stod) items = Some ls /\ l = levels ++ ls.
Proof.
  induction items as [|item rest IH]; intros levels l; simpl.
  - split.
    + intros [= <-]. exists []. by rewrite app_nil_r.
    + intros (ls & [= <-] & ->). by rewrite app_nil_r.
  - destruct (level_of_json stod item) as [lv|]; simpl.
    + rewrite IH. split.
      * intros (ls & Hm & ->). exists (lv :: ls). rewrite Hm. simpl.
        by rewrite <- app_assoc.
      * intros (ls & Hm & ->).
        destruct (mapM (level_of_json stod) rest) as [ls'|]; simpl in Hm; [|done].
        injection Hm as <-. exists ls'. by rewrite <- app_assoc.
    + split; [done|]. by intros (ls & Hm & _).
Qed.

Lemma push_side_ok stod side levels l :
  push_side stod side levels = (true, l) <->
  exists ls, levels_of_side stod side = Some ls /\ l = levels ++ ls.
Proof.
  unfold push_side, levels_of_side.
  destruct side as [[| | | | | |items|]|];
    try (split; [done|by intros (ls & Hm & _)]).
  - apply push_levels_ok.
  - split.
    + intros [= <-]. exists []. by rewrite app_nil_r.
    + intros (ls & [= <-] & ->). by rewrite app_nil_r.
Qed.

Lemma push_side_result stod side levels :
  (exists l, push_side stod side levels = (true, l)) \/
  (exists l, push_side stod side levels = (false, l)).
Proof. destruct (push_side stod side levels) as [[] l]; eauto. Qed.

(** [rfind] gives the last occurrence: the text after it holds no
    further [c], and [substr] returns that text. *)
Lemma rfind_last c s i :
  rfind c s = Some i ->
  exists pre post,
    s = (pre ++ String c post)%string /\ String.length pre = i /\
    rfind c post = None /\ substr (i + 1) s = post.
Proof.
  revert i. induction s as [|a rest IH]; intros i; simpl; [done|].
  destruct (rfind c rest) as [j|] eqn:E.
  - intros [= <-]. destruct (IH j eq_refl) as (pre & post & -> & <- & Hn & Hs).
    exists (String a pre), post. repeat split; try done.
    all: try (unfold substr in *; simpl; exact Hs).
  - destruct (Ascii.eqb a c) eqn:Ec; [|done]. intros [= <-].
    apply Ascii.eqb_eq in Ec as ->. exists EmptyString, rest.
    repeat split; try done.
    all: try (unfold substr; simpl; rewrite Nat.sub_0_r;
              clear; induction rest as [|b r IHr]; simpl; [done|by rewrite IHr]).
Qed.

Example instrument_of_topic :
  rfind "." "orderbook.50.BTCUSDT" = Some 12%nat /\
  substr 13 "orderbook.50.BTCUSDT" = "BTCUSDT"%string.
Proof. split; reflexivity. Qed.

(** C8 (amended): [parse_orderbook_message] succeeds exactly on
    documents whose [topic] is a string that contains "orderbook"
    (anywhere) and a dot, that have a [data] member, and whose
    [data.b] and [data.a], where present, are arrays of
    [[priceStr, sizeStr]] items that [stod] converts.  It then sets
    the instrument to the text after the last dot of the topic,
    [is_snapshot] to whether [type] is the string "snapshot" (false
    when absent), appends the bids and asks converted by
    round(stod(price) * 10^8) and stod(size), and sets the timestamp
    from [data.ts] when that is a non-negative integer. *)
Theorem parse_orderbook_message_success
    (stod : string -> option double) (doc : option json)
    (out_book b : ParsedOrderBook) :
  parse_orderbook_message stod doc out_book = (true, b) <->
  exists topic last_dot new_bids new_asks,
    get_string (field "topic" doc) = Some topic /\
    is_Some (find "orderbook" topic) /\
    rfind "." topic = Some last_dot /\
    is_Some (field "data" doc) /\
    levels_of_side stod (field "b" (field "data" doc)) = Some new_bids /\
    levels_of_side stod (field "a" (field "data" doc)) = Some new_asks /\
    b = {| instrument := substr (last_dot + 1) topic;
           bids := bids out_book ++ new_bids;
           asks := asks out_book ++ new_asks;
           is_snapshot :=
             match get_string (field "type" doc) with
             | Some type => String.eqb type "snapshot"
             | None => false
             end;
           timestamp_ms :=
             match get_uint64 (field "ts" (field "data" doc)) with
             | Some ts => ts
             | None => timestamp_ms out_book
             end |}.
Proof.
  unfold parse_orderbook_message.
  destruct doc as [d|].
  2:{ split; [done|]. by intros (t & i & nb & na & H & _). }
  destruct (get_string (field "topic" (Some d))) as [topic|] eqn:Et.
  2:{ split; [done|]. by intros (t & i & nb & na & H & _). }
  destruct (find "orderbook" topic) as [pos|] eqn:Ef.
  2:{ split; [done|]. intros (t & i & nb & na & [= <-] & [x Hx] & _). congruence. }
  destruct (rfind "." topic) as [last_dot|] eqn:Er.
  2:{ split; [done|]. intros (t & i & nb & na & [= <-] & _ & H & _). congruence. }
  cbv zeta.
  destruct (field "data" (Some d)) as [data|] eqn:Ed.
  2:{ split; [done|]. by intros (t & i & nb & na & _ & _ & _ & [x Hx] & _). }
  set (out1 := match get_string (field "type" (Some d)) with
               | Some type => set_is_snapshot (String.eqb type "snapshot")
                                (set_instrument (substr (last_dot + 1) topic) out_book)
               | None => set_is_snapshot false
                           (set_instrument (substr (last_dot + 1) topic) out_book)
               end).
  assert (Hb1 : bids out1 = bids out_book).
  { unfold out1. by destruct (get_string (field "type" (Some d))). }
  assert (Ha1 : asks out1 = asks out_book).
  { unfold out1. by destruct (get_string (field "type" (Some d))). }
  assert (Hi1 : instrument out1 = substr (last_dot + 1) topic).
  { unfold out1. by destruct (get_string (field "type" (Some d))). }
  assert (Hs1 : is_snapshot out1 =
                match get_string (field "type" (Some d)) with
                | Some type => String.eqb type "snapshot"
                | None => false
                end).
  { unfold out1. by destruct (get_string (field "type" (Some d))). }
  assert (Ht1 : timestamp_ms out1 = timestamp_ms out_book).
  { unfold out1. by destruct (get_string (field "type" (Some d))). }
  clearbody out1.
  destruct (push_side_result stod (field "b" (Some data)) (bids out1))
    as [[lb Hb]|[lb Hb]]; rewrite Hb; cbv beta iota;
    cbn [negb asks bids set_bids set_asks].
  2:{ split; [done|]. intros (t & i & nb & na & _ & _ & _ & _ & Hnb & _).
      assert (push_side stod (field "b" (Some data)) (bids out1)
              = (true, bids out1 ++ nb)) by (apply push_side_ok; eauto).
      congruence. }
  apply push_side_ok in Hb as (new_bids & Hnb & ->).
  destruct (push_side_result stod (field "a" (Some data)) (asks out1))
    as [[la Ha]|[la Ha]]; rewrite Ha; cbv beta iota;
    cbn [negb asks bids set_bids set_asks].
  2:{ split; [done|]. intros (t & i & nb & na & _ & _ & _ & _ & _ & Hna & _).
      assert (push_side stod (field "a" (Some data)) (asks out1)
              = (true, asks out1 ++ na)) by (apply push_side_ok; eauto).
      congruence. }
  apply push_side_ok in Ha as (new_asks & Hna & ->).
  assert (Hout :
    match get_uint64 (field "ts" (Some data)) with
    | Some ts =>
        set_timestamp_ms ts
          (set_asks (asks out1 ++ new_asks) (set_bids (bids out1 ++ new_bids) out1))
    | None =>
        set_asks (asks out1 ++ new_asks) (set_bids (bids out1 ++ new_bids) out1)
    end =
    {| instrument := substr (last_dot + 1) topic;
       bids := bids out_book ++ new_bids;
       asks := asks out_book ++ new_asks;
       is_snapshot :=
         match get_string (field "type" (Some d)) with
         | Some type => String.eqb type "snapshot"
         | None => false
         end;
       timestamp_ms :=
         match get_uint64 (field "ts" (Some data)) with
         | Some ts => ts
         | None => timestamp_ms out_book
         end |}).
  { destruct (get_uint64 (field "ts" (Some data)));
      unfold set_timestamp_ms, set_asks, set_bids;
      cbn [instrument bids asks is_snapshot timestamp_ms];
      by rewrite Hi1, Hb1, Ha1, Hs1, ?Ht1. }
  rewrite Hout. split.
  - intros [= <-]. exists topic, last_dot, new_bids, new_asks.
    split; [done|]. split; [by eexists|]. split; [done|].
    split; [by eexists|]. done.
  - intros (t & i & nb & na & [= <-] & _ & Hr & _ & Hnb' & Hna' & ->).
    rewrite Er in Hr. rewrite Hnb in Hnb'. rewrite Hna in Hna'.
    injection Hr as <-. injection Hnb' as <-. injection Hna' as <-.
    reflexivity.
Qed.

(** C8, as stated, fails in both directions: a topic that contains
    "orderbook" without starting with it is accepted, and the topic
    "orderbook", which has the prefix but no dot, is refused. *)
Lemma topic_prefix_not_decisive :
  (String.prefix "orderbook" "xorderbook.50.BTCUSDT" = false /\
   forall stod,
     parse_orderbook_message stod (Some msg_not_prefix) blank_book =
       (true, set_instrument "BTCUSDT" blank_book))
  /\
  (String.prefix "orderbook" "orderbook" = true /\
   forall stod,
     (parse_orderbook_message stod (Some msg_no_dot) blank_book).1 = false).
Proof. repeat split. Qed.

End BybitAdapter.

(* ===================================================================== *)
(** ** Byte buffers                                                       *)
(* ===================================================================== *)

Module Memory.
Import Bytes.

(** [p[off]] for a [const uint8_t *p]. *)
Definition load (data : list Byte.byte) (off : nat) : Z :=
  byte_to_Z (nth off data Byte.x00).

(** [p[off] = v], with the conversion of [v] to [uint8_t]. *)
Definition store8 (off : nat) (v : Z) (buffer : list Byte.byte)
  : list Byte.byte :=
  <[off := byte_of_Z v]> buffer.

(** [memcpy(p + off, src, n)] for the [n] bytes [src]. *)
Fixpoint memcpy (off : nat) (src : list Z) (buffer : list Byte.byte)
  : list Byte.byte :=
  match src with
  | [] => buffer
  | b :: rest => memcpy (S off) rest (store8 off b buffer)
  end.

(** The bytes at offsets [off], ..., [off + n - 1]. *)
Definition load_bytes (data : list Byte.byte) (off n : nat) : list Z :=
  map (fun i => load data (off + i)) (seq 0 n).

(** [size_t] and [uint64_t] arithmetic wraps at 2^64. *)
Definition size_t (x : Z) : Z := x mod 2 ^ 64.

(** *** Properties *)

Lemma byte_to_of_Z z : byte_to_Z (byte_of_Z z) = z mod 256.
Proof.
  unfold byte_to_Z, byte_of_Z.
  assert (Hr : 0 <= z mod 256 < 256) by (apply Z.mod_pos_bound; lia).
  destruct (Byte.of_N (Z.to_N (z mod 256))) as [b|] eqn:E.
  - apply Byte.to_of_N in E. rewrite E. lia.
  - apply Byte.of_N_None_iff in E. lia.
Qed.

Lemma byte_of_to_Z b : byte_of_Z (byte_to_Z b) = b.
Proof.
  unfold byte_of_Z. pose proof (byte_to_Z_range b) as Hr.
  rewrite Z.mod_small by lia. unfold byte_to_Z.
  rewrite N2Z.id, Byte.of_to_N. reflexivity.
Qed.

Lemma byte_to_of_Z_small z : 0 <= z < 256 -> byte_to_Z (byte_of_Z z) = z.
Proof. intros H. rewrite byte_to_of_Z. apply Z.mod_small. lia. Qed.

Lemma lxor_byte a b : 0 <= a < 256 -> 0 <= b < 256 -> 0 <= Z.lxor a b < 256.
Proof.
  intros Ha Hb. split; [apply Z.lxor_nonneg; lia|].
  destruct (Z.eq_dec (Z.lxor a b) 0) as [->|Hne]; [lia|].
  assert (Hpos : 0 < Z.lxor a b).
  { assert (0 <= Z.lxor a b) by (apply Z.lxor_nonneg; lia). lia. }
  apply (Z.log2_lt_pow2 _ 8 Hpos).
  pose proof (Z.log2_lxor a b ltac:(lia) ltac:(lia)) as Hl.
  assert (La : Z.log2 a < 8).
  { destruct (Z.eq_dec a 0) as [->|]; [simpl; lia|].
    apply Z.log2_lt_pow2; lia. }
  assert (Lb : Z.log2 b < 8).
  { destruct (Z.eq_dec b 0) as [->|]; [simpl; lia|].
    apply Z.log2_lt_pow2; lia. }
  lia.
Qed.

Lemma lor_byte a b : 0 <= a < 256 -> 0 <= b < 256 -> 0 <= Z.lor a b < 256.
Proof.
  intros Ha Hb. split; [apply Z.lor_nonneg; lia|].
  destruct (Z.eq_dec (Z.lor a b) 0) as [->|Hne]; [lia|].
  assert (Hpos : 0 < Z.lor a b).
  { assert (0 <= Z.lor a b) by (apply Z.lor_nonneg; lia). lia. }
  apply (Z.log2_lt_pow2 _ 8 Hpos).
  rewrite Z.log2_lor by lia.
  assert (La : Z.log2 a < 8).
  { destruct (Z.eq_dec a 0) as [->|]; [simpl; lia|].
    apply Z.log2_lt_pow2; lia. }
  assert (Lb : Z.log2 b < 8).
  { destruct (Z.eq_dec b 0) as [->|]; [simpl; lia|].
    apply Z.log2_lt_pow2; lia. }
  lia.
Qed.

(** A check run over every number below [n] holds for each of them. *)
Lemma range_check (P : Z -> bool) (n : nat) :
  forallb P (map Z.of_nat (seq 0 n)) = true ->
  forall z, 0 <= z < Z.of_nat n -> P z = true.
Proof.
  intros H z Hz. rewrite forallb_forall in H. apply H.
  apply in_map_iff. exists (Z.to_nat z). split; [lia|].
  apply in_seq. lia.
Qed.

Lemma of_le_bytes_le_bytes n x :
  of_le_bytes (le_bytes n x) = x mod 2 ^ (8 * Z.of_nat n).
Proof.
  revert x. induction n as [|n IH]; intros x.
  - simpl. by rewrite Z.mod_1_r.
  - cbn [le_bytes of_le_bytes]. rewrite IH.
    replace (8 * Z.of_nat (S n)) with (8 + 8 * Z.of_nat n) by lia.
    rewrite Z.pow_add_r by lia. change (2 ^ 8) with 256.
    assert (Hpos : 0 < 2 ^ (8 * Z.of_nat n)) by (apply Z.pow_pos_nonneg; lia).
    rewrite Z.rem_mul_r by lia. reflexivity.
Qed.

(** Swapping twice gives the value back, reduced to the width. *)
Lemma bswap_of_le_bytes_rev n x :
  bswap n (of_le_bytes (be_bytes n x)) = x mod 2 ^ (8 * Z.of_nat n).
Proof.
  unfold bswap, be_bytes.
  assert (E : le_bytes n (of_le_bytes (rev (le_bytes n x))) = rev (le_bytes n x)).
  { rewrite <- (le_bytes_length n x) at 1. rewrite <- length_rev.
    apply le_bytes_of_le_bytes, Forall_rev, le_bytes_are_bytes. }
  rewrite E, rev_involutive. apply of_le_bytes_le_bytes.
Qed.

Lemma memcpy_length src :
  forall off buffer, length (memcpy off src buffer) = length buffer.
Proof.
  induction src as [|b rest IH]; intros off buffer; simpl; [done|].
  rewrite IH. unfold store8. by rewrite length_insert.
Qed.

Lemma memcpy_middle src :
  forall (pre mid post : list Byte.byte),
    length mid = length src ->
    memcpy (length pre) src (pre ++ mid ++ post) =
      pre ++ map byte_of_Z src ++ post.
Proof.
  induction src as [|b rest IH]; intros pre mid post Hlen.
  - destruct mid; [done|discriminate].
  - destruct mid as [|m mid]; [discriminate|]. injection Hlen as Hlen.
    cbn [memcpy map]. unfold store8.
    replace (length pre) with (length pre + 0)%nat at 2 by lia.
    rewrite insert_app_r.
    replace (pre ++ <[0%nat:=byte_of_Z b]> ((m :: mid) ++ post))
      with ((pre ++ [byte_of_Z b]) ++ mid ++ post)
      by (rewrite <- app_assoc; reflexivity).
    replace (S (length pre)) with (length (pre ++ [byte_of_Z b]))
      by (rewrite length_app; simpl; lia).
    rewrite (IH _ mid post Hlen). by rewrite <- app_assoc.
Qed.

(** A copy that stays inside the buffer replaces exactly the bytes it
    covers. *)
Lemma memcpy_spec src off buffer :
  (off + length src <= length buffer)%nat ->
  memcpy off src buffer =
    take off buffer ++ map byte_of_Z src ++ drop (off + length src) buffer.
Proof.
  intros Hlen.
  rewrite <- (take_drop off buffer) at 1.
  rewrite <- (take_drop (length src) (drop off buffer)).
  rewrite drop_drop.
  assert (L1 : length (take off buffer) = off) by (rewrite length_take; lia).
  rewrite <- L1 at 1.
  apply memcpy_middle. rewrite length_take, length_drop. lia.
Qed.

Lemma memcpy_app a :
  forall off b buffer,
    memcpy off (a ++ b) buffer = memcpy (off + length a) b (memcpy off a buffer).
Proof.
  induction a as [|x a IH]; intros off b buffer.
  - simpl. by rewrite Nat.add_0_r.
  - cbn [app memcpy length]. rewrite IH. f_equal. lia.
Qed.

Lemma store8_memcpy off v buffer : store8 off v buffer = memcpy off [v] buffer.
Proof. reflexivity. Qed.

Lemma load_app_l (l l' : list Byte.byte) i :
  (i < length l)%nat -> load (l ++ l') i = load l i.
Proof. intros H. unfold load. by rewrite app_nth1. Qed.

Lemma load_app_r (l l' : list Byte.byte) i :
  load (l ++ l') (length l + i) = load l' i.
Proof. unfold load. by rewrite app_nth2_plus. Qed.

Lemma load_range data i : 0 <= load data i < 256.
Proof. apply byte_to_Z_range. Qed.

(** Reading depends only on the bytes below the bound. *)
Lemma load_take (data : list Byte.byte) (n i : nat) :
  (i < n)%nat -> load (take n data) i = load data i.
Proof.
  intros H. unfold load. rewrite !nth_lookup.
  by rewrite lookup_take_lt.
Qed.

Lemma load_map_byte_of_Z (l : list Z) rest i :
  (i < length l)%nat -> load (map byte_of_Z l ++ rest) i = nth i l 0 mod 256.
Proof.
  intros H. rewrite load_app_l by (by rewrite length_map).
  unfold load. change Byte.x00 with (byte_of_Z 0).
  rewrite map_nth. apply byte_to_of_Z.
Qed.

Lemma load_bytes_S data off n :
  load_bytes data off (S n) = load data off :: load_bytes data (S off) n.
Proof.
  unfold load_bytes. cbn [seq map]. rewrite Nat.add_0_r. f_equal.
  rewrite <- seq_shift, map_map. apply map_ext. intros i. f_equal. lia.
Qed.

(** Reading back a segment that was written as bytes. *)
Lemma load_bytes_segment (seg : list Z) :
  forall (pre post : list Z) rest off,
    off = length pre -> Forall is_byte seg ->
    load_bytes (map byte_of_Z (pre ++ seg ++ post) ++ rest) off (length seg)
    = seg.
Proof.
  induction seg as [|b seg IH]; intros pre post rest off -> Hb; [done|].
  apply Forall_cons in Hb as [Hb Hseg].
  cbn [length]. rewrite load_bytes_S. f_equal.
  - rewrite load_map_byte_of_Z by (rewrite !length_app; simpl; lia).
    rewrite app_nth2 by lia. rewrite Nat.sub_diag. simpl.
    apply Z.mod_small. exact Hb.
  - change (pre ++ (b :: seg) ++ post) with (pre ++ [b] ++ seg ++ post).
    rewrite app_assoc. apply IH; [|exact Hseg].
    rewrite length_app. simpl. lia.
Qed.

Lemma map_seq_nth {A} (f : nat -> A) (l : list A) (d : A) :
  (forall i, (i < length l)%nat -> f i = nth i l d) ->
  map f (seq 0 (length l)) = l.
Proof.
  intros H. apply (nth_ext _ _ (f 0%nat) d).
  - by rewrite length_map, length_seq.
  - intros i Hi. rewrite length_map, length_seq in Hi.
    rewrite (map_nth f (seq 0 (length l)) 0%nat i).
    rewrite seq_nth by done. by apply H.
Qed.

End Memory.

(* ===================================================================== *)
(** ** WebSocket framing (modules/network/websocket_framer.h)             *)
(* ===================================================================== *)

Module WebSocketFramer.
Import Bytes Memory.

Definition rte_cpu_to_be_16 (x : Z) : Z := bswap 2 x.

Definition rte_cpu_to_be_64 (x : Z) : Z := bswap 8 x.

(** [payload[i] ^ mask_key[i % 4]] for every byte of the payload. *)
Definition mask_payload (mask_key : list Z) (payload : list Byte.byte) : list Z :=
  imap (fun i c => Z.lxor (byte_to_Z c) (nth (i mod 4) mask_key 0)) payload.

(** [WebSocketFramer::frame_message].  [buffer] is the memory at the
    pointer (at least [buffer_len] bytes of it), [timer_cycles] the
    reading of [rte_get_timer_cycles()]; the result is the value
    returned and the memory as the call leaves it. *)
Definition frame_message (buffer : list Byte.byte) (buffer_len : Z)
    (payload : list Byte.byte) (opcode : Z) (mask : bool) (timer_cycles : Z)
  : Z * list Byte.byte :=
  let payload_len := Z.of_nat (length payload) in
  let header_len := 2 in
  let header_len :=
    if 126 <=? payload_len then
      if payload_len <=? 65535 then header_len + 2 else header_len + 8
    else header_len in
  let header_len := if mask then header_len + 4 else header_len in
  if buffer_len <? size_t (header_len + payload_len) then (0, buffer)
  else
    let buffer := store8 0 (Z.lor 0x80 (Z.land opcode 0x0F)) buffer in
    let offset := 1%nat in
    let mask_bit := if mask then 0x80 else 0x00 in
    let '(buffer, offset) :=
      if payload_len <? 126 then
        (store8 offset (Z.lor mask_bit (Z.land payload_len 0x7F)) buffer,
         S offset)
      else if payload_len <=? 65535 then
        let buffer := store8 offset (Z.lor mask_bit 126) buffer in
        let offset := S offset in
        let len16 := rte_cpu_to_be_16 (payload_len mod 2 ^ 16) in
        (memcpy offset (le_bytes 2 len16) buffer, (offset + 2)%nat)
      else
        let buffer := store8 offset (Z.lor mask_bit 127) buffer in
        let offset := S offset in
        let len64 := rte_cpu_to_be_64 (payload_len mod 2 ^ 64) in
        (memcpy offset (le_bytes 8 len64) buffer, (offset + 8)%nat) in
    let buffer :=
      if mask then
        let mask_key_u32 := timer_cycles mod 2 ^ 32 in
        let mask_key := le_bytes 4 mask_key_u32 in
        let buffer := memcpy offset mask_key buffer in
        let offset := (offset + 4)%nat in
        memcpy offset (mask_payload mask_key payload) buffer
      else memcpy offset (map byte_to_Z payload) buffer in
    (size_t (header_len + payload_len), buffer).

(** *** The frame of RFC 6455, section 5.2 *)

(** The 7-bit length code of the second byte. *)
Definition length_code (payload_len : Z) : Z :=
  if payload_len <? 126 then payload_len
  else if payload_len <=? 65535 then 126 else 127.

(** The extended payload length, in network byte order. *)
Definition extended_length (payload_len : Z) : list Z :=
  if payload_len <? 126 then []
  else if payload_len <=? 65535 then be_bytes 2 payload_len
  else be_bytes 8 payload_len.

Definition frame_size (mask : bool) (payload_len : Z) : Z :=
  2 + Z.of_nat (length (extended_length payload_len))
    + (if mask then 4 else 0) + payload_len.

Definition frame_bytes (payload : list Byte.byte) (opcode : Z) (fin mask : bool)
    (mask_key : list Z) : list Z :=
  let payload_len := Z.of_nat (length payload) in
  [ Z.lor (if fin then 0x80 else 0x00) (Z.land opcode 0x0F);
    Z.lor (if mask then 0x80 else 0x00) (length_code payload_len) ] ++
  extended_length payload_len ++
  (if mask then mask_key ++ mask_payload mask_key payload
   else map byte_to_Z payload).

(** *** Properties *)

Lemma extended_length_length payload_len :
  Z.of_nat (length (extended_length payload_len)) =
    if payload_len <? 126 then 0 else if payload_len <=? 65535 then 2 else 8.
Proof.
  unfold extended_length.
  destruct (payload_len <? 126); [done|].
  destruct (payload_len <=? 65535); unfold be_bytes;
    by rewrite length_rev, le_bytes_length.
Qed.

Lemma mask_payload_length key payload :
  length (mask_payload key payload) = length payload.
Proof. unfold mask_payload. apply length_imap. Qed.

Lemma frame_bytes_length payload opcode fin mask key :
  length key = 4%nat ->
  Z.of_nat (length (frame_bytes payload opcode fin mask key)) =
    frame_size mask (Z.of_nat (length payload)).
Proof.
  intros Hk. unfold frame_bytes, frame_size. cbv zeta.
  rewrite !length_app. cbn [length].
  destruct mask.
  - rewrite length_app, mask_payload_length, Hk. lia.
  - rewrite length_map. lia.
Qed.

Lemma header_len_frame_size (mask : bool) (payload_len : Z) :
  (let header_len := 2 in
   let header_len :=
     if 126 <=? payload_len then
       if payload_len <=? 65535 then header_len + 2 else header_len + 8
     else header_len in
   let header_len := if mask then header_len + 4 else header_len in
   header_len + payload_len) = frame_size mask payload_len.
Proof.
  cbv zeta. unfold frame_size. rewrite extended_length_length.
  destruct (Z.leb_spec 126 payload_len), (Z.ltb_spec payload_len 126); try lia;
    destruct (payload_len <=? 65535), mask; lia.
Qed.

Lemma frame_message_unfold buffer buffer_len payload opcode mask timer_cycles :
  frame_message buffer buffer_len payload opcode mask timer_cycles =
    let n := size_t (frame_size mask (Z.of_nat (length payload))) in
    if buffer_len <? n then (0, buffer)
    else (n, memcpy 0 (frame_bytes payload opcode true mask
                         (le_bytes 4 (timer_cycles mod 2 ^ 32))) buffer).
Proof.
  unfold frame_message. cbv zeta.
  pose proof (header_len_frame_size mask (Z.of_nat (length payload))) as Hh.
  cbv zeta in Hh. rewrite Hh. clear Hh.
  destruct (buffer_len <? _); [done|]. f_equal.
  unfold frame_bytes, length_code, extended_length. cbv zeta.
  set (len := Z.of_nat (length payload)).
  assert (Hlen : 0 <= len) by (unfold len; lia).
  rewrite !store8_memcpy.
  destruct (len <? 126) eqn:E1.
  - assert (Hl : Z.land len 127 = len).
    { change 127 with (Z.ones 7). rewrite Z.land_ones by lia.
      apply Z.mod_small. change (2 ^ 7) with 128. lia. }
    rewrite Hl. destruct mask;
      rewrite ?memcpy_app; cbn [length app Nat.add]; reflexivity.
  - destruct (len <=? 65535) eqn:E2.
    + unfold rte_cpu_to_be_16. rewrite le_bytes_bswap.
      change (2 ^ 16) with (2 ^ (8 * Z.of_nat 2)).
      rewrite (UdpPublisher.be_bytes_mod 2 len).
      destruct mask; rewrite ?memcpy_app;
        unfold be_bytes; cbn [length app Nat.add le_bytes rev]; reflexivity.
    + unfold rte_cpu_to_be_64. rewrite le_bytes_bswap.
      change (2 ^ 64) with (2 ^ (8 * Z.of_nat 8)).
      rewrite (UdpPublisher.be_bytes_mod 8 len).
      destruct mask; rewrite ?memcpy_app;
        unfold be_bytes; cbn [length app Nat.add le_bytes rev]; reflexivity.
Qed.

(** When the frame fits, the call writes the frame at the start of
    the buffer and nothing else. *)
Lemma frame_message_fits buffer buffer_len payload opcode mask timer_cycles :
  let n := frame_size mask (Z.of_nat (length payload)) in
  buffer_len <= Z.of_nat (length buffer) -> n < 2 ^ 64 -> n <= buffer_len ->
  frame_message buffer buffer_len payload opcode mask timer_cycles =
    (n, map byte_of_Z (frame_bytes payload opcode true mask
                         (le_bytes 4 (timer_cycles mod 2 ^ 32)))
        ++ drop (Z.to_nat n) buffer).
Proof.
  intros n Hbuf Hn Hfit. rewrite frame_message_unfold. cbv zeta. fold n.
  assert (Hn0 : 0 <= n).
  { unfold n, frame_size. destruct mask; lia. }
  unfold size_t. rewrite Z.mod_small by lia.
  destruct (Z.ltb_spec buffer_len n); [lia|]. f_equal.
  pose proof (frame_bytes_length payload opcode true mask
                (le_bytes 4 (timer_cycles mod 2 ^ 32)) (le_bytes_length _ _)) as Hl.
  fold n in Hl.
  rewrite memcpy_spec by lia. rewrite take_0. cbn [app Nat.add].
  do 2 f_equal. lia.
Qed.

(** X1: [frame_message] returns 0 and leaves the buffer as it was when
    the frame does not fit in [buffer_len]; otherwise it returns the
    frame's size (at least 2), writes the frame of RFC 6455 (FIN set,
    the opcode's low four bits, the 7-bit, 16-bit or 64-bit big-endian
    length, the masking key taken from the low 32 bits of the cycle
    counter, the payload XORed with the key) at the start of the
    buffer and changes no byte behind it. *)
Theorem frame_message_writes_frame_or_nothing
    buffer buffer_len payload opcode mask timer_cycles :
  let n := frame_size mask (Z.of_nat (length payload)) in
  let r := frame_message buffer buffer_len payload opcode mask timer_cycles in
  buffer_len <= Z.of_nat (length buffer) -> n < 2 ^ 64 ->
  (buffer_len < n -> r = (0, buffer)) /\
  (n <= buffer_len ->
   r.1 = n /\ 2 <= n /\
   length r.2 = length buffer /\
   take (Z.to_nat n) r.2 =
     map byte_of_Z (frame_bytes payload opcode true mask
                      (le_bytes 4 (timer_cycles mod 2 ^ 32))) /\
   drop (Z.to_nat n) r.2 = drop (Z.to_nat n) buffer).
Proof.
  intros n r Hbuf Hn. subst r. split.
  - intros Hsmall. rewrite frame_message_unfold. cbv zeta. fold n.
    unfold size_t. rewrite Z.mod_small by (unfold n, frame_size in *; destruct mask; lia).
    destruct (Z.ltb_spec buffer_len n); [done|lia].
  - intros Hfit. rewrite (frame_message_fits _ _ _ _ _ _ Hbuf Hn Hfit). fold n.
    pose proof (frame_bytes_length payload opcode true mask
                  (le_bytes 4 (timer_cycles mod 2 ^ 32)) (le_bytes_length _ _)) as Hl.
    fold n in Hl. cbn [fst snd].
    assert (Hlen : length (map byte_of_Z
                     (frame_bytes payload opcode true mask
                        (le_bytes 4 (timer_cycles mod 2 ^ 32)))) = Z.to_nat n)
      by (rewrite length_map; lia).
    split; [done|]. split; [unfold n, frame_size; destruct mask; lia|].
    split; [rewrite length_app, length_drop, Hlen; lia|].
    split.
    + rewrite take_app_length' by (symmetry; exact Hlen). done.
    + rewrite drop_app_length' by (symmetry; exact Hlen). done.
Qed.

Lemma frame_message_writes_frame_or_nothing_witness :
  let buffer := repeat Byte.x00 16 in
  let payload := [Byte.x48; Byte.x69] in
  8 < 2 ^ 64 /\
  (16 < 8 -> frame_message buffer 16 payload 1 true 0x11223344 = (0, buffer)) /\
  (8 <= 16 ->
   (frame_message buffer 16 payload 1 true 0x11223344).1 = 8 /\ 2 <= 8 /\
   length (frame_message buffer 16 payload 1 true 0x11223344).2 = length buffer /\
   take (Z.to_nat 8) (frame_message buffer 16 payload 1 true 0x11223344).2 =
     map byte_of_Z (frame_bytes payload 1 true true (le_bytes 4 (0x11223344 mod 2 ^ 32))) /\
   drop (Z.to_nat 8) (frame_message buffer 16 payload 1 true 0x11223344).2 =
     drop (Z.to_nat 8) buffer).
Proof.
  cbv zeta. split; [reflexivity|].
  apply (frame_message_writes_frame_or_nothing (repeat Byte.x00 16) 16
           [Byte.x48; Byte.x69] 1 true 0x11223344).
  - simpl. lia.
  - reflexivity.
Defined.

Example frame_message_example :
  frame_message (repeat Byte.x00 10) 10 [Byte.x48; Byte.x69] 1 true 0x11223344 =
    (8, [Byte.x81; Byte.x82; Byte.x44; Byte.x33; Byte.x22; Byte.x11;
         Byte.x0c; Byte.x5a; Byte.x00; Byte.x00]).
Proof. vm_compute. reflexivity. Qed.

Example frame_message_too_small :
  frame_message (repeat Byte.x00 7) 7 [Byte.x48; Byte.x69] 1 true 0x11223344 =
    (0, repeat Byte.x00 7).
Proof. vm_compute. reflexivity. Qed.

End WebSocketFramer.

(* ===================================================================== *)
(** ** WebSocket over the DPDK path (modules/network/websocket_client)    *)
(* ===================================================================== *)

Module DpdkWebSocketClient.
Import Bytes Memory.

(** On the little-endian host these swap the bytes. *)
Definition rte_be_to_cpu_64 (x : Z) : Z := bswap 8 x.

(** What [process_websocket_frame] has read of a frame when it turns to
    the opcode. *)
Record websocket_frame := {
  fin : bool;
  opcode : Z;
  masked : bool;
  payload_len : Z;
  unmasked_payload : list Byte.byte
}.

(** The payload length the first bytes declare, and the offset behind
    the length field; nothing where the function returns because [len]
    is too small for the field. *)
Definition length_field (data : list Byte.byte) (len : Z) : option (Z * nat) :=
  let payload_len_byte := Z.land (load data 1) 0x7F in
  let offset := 2%nat in
  if payload_len_byte <=? 125 then Some (payload_len_byte, offset)
  else if payload_len_byte =? 126 then
    if len <? 4 then None
    else Some (Classifier.rte_be_to_cpu_16 (of_le_bytes (load_bytes data offset 2)),
               (offset + 2)%nat)
  else
    if len <? 10 then None
    else Some (rte_be_to_cpu_64 (of_le_bytes (load_bytes data offset 8)),
               (offset + 8)%nat).

(** [WebSocketClient::process_websocket_frame], from its entry to the
    end of the unmasking loop: the header fields and the payload, or
    nothing where it returns early.  [data] is the memory at the
    pointer, [len] the length passed. *)
Definition process_websocket_frame_decode (data : list Byte.byte) (len : Z)
  : option websocket_frame :=
  if len <? 2 then None
  else
    let fin_rsv_opcode := load data 0 in
    let mask_payload_len := load data 1 in
    let fin := negb (Z.land fin_rsv_opcode 0x80 =? 0) in
    let opcode := Z.land fin_rsv_opcode 0x0F in
    let masked := negb (Z.land mask_payload_len 0x80 =? 0) in
    match length_field data len with
    | None => None
    | Some (payload_len, offset) =>
        if len <? size_t (Z.of_nat offset + (if masked then 4 else 0) + payload_len)
        then None
        else
          let masking_key := if masked then load_bytes data offset 4 else [] in
          let offset := if masked then (offset + 4)%nat else offset in
          let unmasked_payload :=
            map (fun i =>
                   byte_of_Z (Z.lxor (load data (offset + i))
                                     (if masked then nth (i mod 4) masking_key 0
                                      else 0)))
                (seq 0 (Z.to_nat payload_len)) in
          Some {| fin := fin; opcode := opcode; masked := masked;
                  payload_len := payload_len;
                  unmasked_payload := unmasked_payload |}
    end.

(** [masking_key[i] = distrib(gen)] for [i] from 0 to 3, each value
    converted to [uint8_t]. *)
Definition masking_key (rand : nat -> Z) : list Z :=
  map (fun i => rand i mod 2 ^ 8) (seq 0 4).

(** [WebSocketClient::generate_websocket_frame]: the plain frame it
    hands to the TLS layer.  [rand i] is the [i]-th value drawn from
    [distrib(gen)] for the masking key. *)
Definition generate_websocket_frame (payload : list Byte.byte) (opcode : Z)
    (fin : bool) (rand : nat -> Z) : list Byte.byte :=
  let frame_data := [] in
  let byte1 := Z.lor (if fin then 0x80 else 0x00) (Z.land opcode 0x0F) in
  let frame_data := frame_data ++ [byte_of_Z byte1] in
  let byte2 := 0x80 in
  let payload_len := Z.of_nat (length payload) mod 2 ^ 64 in
  let frame_data :=
    if payload_len <=? 125 then
      let byte2 := Z.lor byte2 (payload_len mod 2 ^ 8) in
      frame_data ++ [byte_of_Z byte2]
    else if payload_len <=? 0xFFFF then
      let byte2 := Z.lor byte2 126 in
      let frame_data := frame_data ++ [byte_of_Z byte2] in
      let len16 := WebSocketFramer.rte_cpu_to_be_16 (payload_len mod 2 ^ 16) in
      frame_data ++ [byte_of_Z (Z.shiftr len16 8); byte_of_Z len16]
    else
      let byte2 := Z.lor byte2 127 in
      let frame_data := frame_data ++ [byte_of_Z byte2] in
      let len64 := WebSocketFramer.rte_cpu_to_be_64 payload_len in
      frame_data ++
        map (fun i => byte_of_Z (Z.shiftr len64 (Z.of_nat i * 8)))
            (rev (seq 0 8)) in
  let masking_key := masking_key rand in
  let frame_data := frame_data ++ map byte_of_Z masking_key in
  frame_data ++
    map byte_of_Z (WebSocketFramer.mask_payload masking_key payload).

Definition BASE_RECONNECT_DELAY_MS : Z := 1000.

Definition MAX_RECONNECT_ATTEMPTS : Z := 10.

(** [WebSocketClient::calculate_backoff_ms], in [uint32_t]
    arithmetic. *)
Definition calculate_backoff_ms (reconnect_attempts_ : Z) : Z :=
  let backoff :=
    (BASE_RECONNECT_DELAY_MS *
     (Z.shiftl 1 (Z.min reconnect_attempts_ 10) mod 2 ^ 32)) mod 2 ^ 32 in
  Z.min backoff 30000.

(** The length the header declares is small enough for the size test
    not to wrap around. *)
Definition declared_length_fits (data : list Byte.byte) (len : Z) : bool :=
  match length_field data len with
  | Some (L, _) => L + 14 <? 2 ^ 64
  | None => true
  end.

(** *** Properties *)

Lemma first_byte_fields (f : bool) (op : Z) :
  let b := Z.lor (if f then 0x80 else 0x00) (Z.land op 0x0F) in
  0 <= b < 256 /\ negb (Z.land b 0x80 =? 0) = f /\ Z.land b 0x0F = Z.land op 0x0F.
Proof.
  cbv zeta. change 0x0F with (Z.ones 4). rewrite (Z.land_ones op 4) by lia.
  change (2 ^ 4) with 16.
  pose proof (Z.mod_pos_bound op 16 ltac:(lia)) as Hx.
  set (x := op mod 16) in *.
  pose (P := fun (g : bool) (x : Z) =>
    let b := Z.lor (if g then 0x80 else 0x00) x in
    (0 <=? b) && (b <? 256) && Bool.eqb (negb (Z.land b 0x80 =? 0)) g
    && (Z.land b (Z.ones 4) =? x)).
  assert (H : P f x = true).
  { apply (range_check (P f) 16); [by destruct f; vm_compute|exact Hx]. }
  unfold P in H. cbv zeta in H.
  apply andb_prop in H as [H H3]. apply andb_prop in H as [H H2].
  apply andb_prop in H as [H0 H1].
  apply Z.leb_le in H0. apply Z.ltb_lt in H1. apply Z.eqb_eq in H3.
  apply eqb_prop in H2. done.
Qed.

Lemma second_byte_fields (mask : bool) (c : Z) :
  0 <= c < 128 ->
  let b := Z.lor (if mask then 0x80 else 0x00) c in
  0 <= b < 256 /\ negb (Z.land b 0x80 =? 0) = mask /\ Z.land b 0x7F = c.
Proof.
  intros Hc. cbv zeta.
  pose (P := fun (g : bool) (x : Z) =>
    let b := Z.lor (if g then 0x80 else 0x00) x in
    (0 <=? b) && (b <? 256) && Bool.eqb (negb (Z.land b 0x80 =? 0)) g
    && (Z.land b 0x7F =? x)).
  assert (H : P mask c = true).
  { apply (range_check (P mask) 128); [by destruct mask; vm_compute|exact Hc]. }
  unfold P in H. cbv zeta in H.
  apply andb_prop in H as [H H3]. apply andb_prop in H as [H H2].
  apply andb_prop in H as [H0 H1].
  apply Z.leb_le in H0. apply Z.ltb_lt in H1. apply Z.eqb_eq in H3.
  apply eqb_prop in H2. done.
Qed.

Lemma length_code_range n : 0 <= n -> 0 <= WebSocketFramer.length_code n < 128.
Proof.
  intros Hn. unfold WebSocketFramer.length_code.
  destruct (Z.ltb_spec n 126); [lia|]. destruct (n <=? 65535); lia.
Qed.

Lemma is_byte_be_bytes n x : Forall is_byte (be_bytes n x).
Proof. unfold be_bytes. apply Forall_rev, le_bytes_are_bytes. Qed.

Lemma extended_length_bytes n : Forall is_byte (WebSocketFramer.extended_length n).
Proof.
  unfold WebSocketFramer.extended_length.
  destruct (n <? 126); [constructor|].
  destruct (n <=? 65535); apply is_byte_be_bytes.
Qed.

(** Unmasking with the key that masked gives the byte back. *)
Lemma unmask_byte (c : Byte.byte) (k : Z) :
  0 <= k < 256 ->
  byte_of_Z (Z.lxor (Z.lxor (byte_to_Z c) k mod 256) k) = c.
Proof.
  intros Hk. pose proof (byte_to_Z_range c) as Hc.
  rewrite (Z.mod_small (Z.lxor _ _)) by (by apply lxor_byte).
  rewrite Z.lxor_assoc, Z.lxor_nilpotent, Z.lxor_0_r. apply byte_of_to_Z.
Qed.

Lemma mask_payload_nth key payload i :
  (i < length payload)%nat ->
  nth i (WebSocketFramer.mask_payload key payload) 0 =
    Z.lxor (byte_to_Z (nth i payload Byte.x00)) (nth (i mod 4) key 0).
Proof.
  intros Hi. unfold WebSocketFramer.mask_payload.
  destruct (lookup_lt_is_Some_2 payload i Hi) as [c Hc].
  rewrite (nth_lookup (imap _ payload) i), list_lookup_imap, Hc.
  rewrite (nth_lookup payload i), Hc. reflexivity.
Qed.

Lemma key_byte_range (key : list Z) j :
  Forall is_byte key -> 0 <= nth j key 0 < 256.
Proof.
  intros Hk. destruct (nth_in_or_default j key 0) as [Hin | ->]; [|lia].
  rewrite List.Forall_forall in Hk. by apply Hk.
Qed.

Lemma length_field_frame (payload : list Byte.byte) op f mask key rest len :
  let L := Z.of_nat (length payload) in
  L < 2 ^ 64 ->
  2 + Z.of_nat (length (WebSocketFramer.extended_length L)) <= len ->
  length_field
    (map byte_of_Z (WebSocketFramer.frame_bytes payload op f mask key) ++ rest) len
  = Some (L, (2 + length (WebSocketFramer.extended_length L))%nat).
Proof.
  intros L HL Hlen. unfold WebSocketFramer.frame_bytes. cbv zeta. fold L.
  assert (HL0 : 0 <= L) by (unfold L; lia).
  destruct (second_byte_fields mask _ (length_code_range L HL0)) as (R1 & _ & C1).
  assert (Eext : forall b0 body,
            load_bytes (map byte_of_Z
                          ([b0; Z.lor (if mask then 128 else 0)
                                      (WebSocketFramer.length_code L)]
                           ++ WebSocketFramer.extended_length L ++ body) ++ rest)
                       2 (length (WebSocketFramer.extended_length L))
            = WebSocketFramer.extended_length L).
  { intros b0 body. apply load_bytes_segment; [done|].
    apply extended_length_bytes. }
  unfold length_field. cbv zeta.
  rewrite load_map_byte_of_Z by (rewrite !length_app; simpl; lia).
  change (nth 1 ([?b0; ?b1] ++ ?l) 0) with b1.
  rewrite (Z.mod_small _ 256) by exact R1. rewrite C1.
  revert Hlen Eext.
  unfold WebSocketFramer.length_code, WebSocketFramer.extended_length.
  destruct (L <? 126) eqn:E1.
  - intros _ _. apply Z.ltb_lt in E1. destruct (Z.leb_spec L 125); [|lia]. done.
  - apply Z.ltb_ge in E1. destruct (L <=? 65535) eqn:E2.
    + apply Z.leb_le in E2. intros Hlen Eext.
      change (126 <=? 125) with false. change (126 =? 126) with true. cbv iota.
      unfold be_bytes in Hlen, Eext |- *.
      rewrite length_rev, le_bytes_length in Hlen.
      destruct (Z.ltb_spec len 4); [lia|].
      specialize (Eext (Z.lor (if f then 128 else 0) (Z.land op 15))
                       (if mask
                        then key ++ WebSocketFramer.mask_payload key payload
                        else map byte_to_Z payload)).
      rewrite length_rev, le_bytes_length in Eext.
      rewrite Eext. unfold Classifier.rte_be_to_cpu_16.
      pose proof (bswap_of_le_bytes_rev 2 L) as Hb. unfold be_bytes in Hb.
      rewrite Hb. rewrite length_rev, le_bytes_length.
      rewrite Z.mod_small by (change (2 ^ (8 * Z.of_nat 2)) with 65536; lia).
      reflexivity.
    + apply Z.leb_gt in E2. intros Hlen Eext.
      change (127 <=? 125) with false. change (127 =? 126) with false. cbv iota.
      unfold be_bytes in Hlen, Eext |- *.
      rewrite length_rev, le_bytes_length in Hlen.
      destruct (Z.ltb_spec len 10); [lia|].
      specialize (Eext (Z.lor (if f then 128 else 0) (Z.land op 15))
                       (if mask
                        then key ++ WebSocketFramer.mask_payload key payload
                        else map byte_to_Z payload)).
      rewrite length_rev, le_bytes_length in Eext.
      rewrite Eext. unfold rte_be_to_cpu_64.
      pose proof (bswap_of_le_bytes_rev 8 L) as Hb. unfold be_bytes in Hb.
      rewrite Hb. rewrite length_rev, le_bytes_length.
      rewrite Z.mod_small by (change (2 ^ (8 * Z.of_nat 8)) with (2 ^ 64); lia).
      reflexivity.
Qed.

(** The decoder applied to a frame laid out as RFC 6455 prescribes. *)
Lemma decode_frame_bytes (payload : list Byte.byte) op f mask key rest len :
  let n := WebSocketFramer.frame_size mask (Z.of_nat (length payload)) in
  length key = 4%nat -> Forall is_byte key ->
  n < 2 ^ 64 -> n <= len ->
  process_websocket_frame_decode
    (map byte_of_Z (WebSocketFramer.frame_bytes payload op f mask key) ++ rest) len
  = Some {| fin := f; opcode := Z.land op 0x0F; masked := mask;
            payload_len := Z.of_nat (length payload);
            unmasked_payload := payload |}.
Proof.
  intros n Hk4 Hkb Hn Hlen. unfold n, WebSocketFramer.frame_size in *.
  set (L := Z.of_nat (length payload)) in *.
  assert (HL0 : 0 <= L) by (unfold L; lia).
  unfold process_websocket_frame_decode. cbv zeta.
  rewrite (length_field_frame payload op f mask key rest len)
    by (fold L; destruct mask; lia).
  fold L.
  unfold WebSocketFramer.frame_bytes. cbv zeta. fold L.
  set (b0 := Z.lor _ (Z.land op 15)).
  set (b1 := Z.lor _ (WebSocketFramer.length_code L)).
  set (ext := WebSocketFramer.extended_length L) in *.
  set (body := if mask then _ else _).
  set (data := map byte_of_Z ([b0; b1] ++ ext ++ body) ++ rest).
  destruct (first_byte_fields f op) as (R0 & F0 & O0). fold b0 in R0, F0, O0.
  destruct (second_byte_fields mask _ (length_code_range L HL0)) as (R1 & M1 & _).
  fold b1 in R1, M1.
  assert (E0 : load data 0 = b0).
  { unfold data. rewrite load_map_byte_of_Z by (rewrite !length_app; simpl; lia).
    simpl. apply Z.mod_small. exact R0. }
  assert (E1 : load data 1 = b1).
  { unfold data. rewrite load_map_byte_of_Z by (rewrite !length_app; simpl; lia).
    simpl. apply Z.mod_small. exact R1. }
  rewrite E0, E1, F0, O0, M1.
  destruct (Z.ltb_spec len 2); [destruct mask; lia|].
  assert (Hsz : size_t (Z.of_nat (2 + length ext) + (if mask then 4 else 0) + L)
                = 2 + Z.of_nat (length ext) + (if mask then 4 else 0) + L).
  { unfold size_t. rewrite Z.mod_small; [lia|]. destruct mask; lia. }
  rewrite Hsz. destruct (Z.ltb_spec len (2 + Z.of_nat (length ext)
                                         + (if mask then 4 else 0) + L)); [lia|].
  f_equal. f_equal.
  replace (Z.to_nat L) with (length payload) by (unfold L; lia).
  apply (map_seq_nth _ _ Byte.x00). intros i Hi.
  destruct mask.
  - assert (Ekey : load_bytes data (2 + length ext) 4 = key).
    { unfold data, body. rewrite <- Hk4.
      rewrite (app_assoc [b0; b1] ext). apply load_bytes_segment; [|exact Hkb].
      rewrite length_app. reflexivity. }
    rewrite Ekey.
    assert (El : load data (2 + length ext + 4 + i) =
                 nth i (WebSocketFramer.mask_payload key payload) 0 mod 256).
    { unfold data, body.
      rewrite load_map_byte_of_Z
        by (rewrite !length_app, WebSocketFramer.mask_payload_length; simpl; lia).
      f_equal. rewrite (app_assoc [b0; b1] ext), (app_assoc _ key).
      replace (2 + length ext + 4 + i)%nat
        with (length (([b0; b1] ++ ext) ++ key) + i)%nat
        by (rewrite !length_app; simpl; lia).
      apply app_nth2_plus. }
    rewrite El, mask_payload_nth by exact Hi.
    apply unmask_byte. by apply key_byte_range.
  - assert (El : load data (2 + length ext + i) =
                 nth i (map byte_to_Z payload) 0 mod 256).
    { unfold data, body.
      rewrite load_map_byte_of_Z by (rewrite !length_app, length_map; simpl; lia).
      f_equal. rewrite (app_assoc [b0; b1] ext).
      replace (2 + length ext + i)%nat
        with (length ([b0; b1] ++ ext) + i)%nat
        by (rewrite !length_app; simpl; lia).
      apply app_nth2_plus. }
    rewrite El, Z.lxor_0_r.
    change 0 with (byte_to_Z Byte.x00) at 1. rewrite map_nth.
    pose proof (byte_to_Z_range (nth i payload Byte.x00)).
    rewrite Z.mod_small by lia. apply byte_of_to_Z.
Qed.

(** X2: a frame written by [WebSocketFramer::frame_message] is read
    back by the header and unmasking code of
    [process_websocket_frame]: FIN set, the opcode's low four bits,
    the mask flag, the payload length and the payload itself, whatever
    follows the frame in the buffer. *)
Theorem framed_message_is_decoded
    buffer buffer_len payload op mask timer_cycles n buffer' len :
  buffer_len <= Z.of_nat (length buffer) ->
  WebSocketFramer.frame_size mask (Z.of_nat (length payload)) < 2 ^ 64 ->
  WebSocketFramer.frame_message buffer buffer_len payload op mask timer_cycles
    = (n, buffer') ->
  n <> 0 -> n <= len ->
  process_websocket_frame_decode buffer' len =
    Some {| fin := true; opcode := Z.land op 0x0F; masked := mask;
            payload_len := Z.of_nat (length payload);
            unmasked_payload := payload |}.
Proof.
  intros Hbuf Hsz Hfm Hn0 Hlen.
  destruct (Z.lt_ge_cases buffer_len
              (WebSocketFramer.frame_size mask (Z.of_nat (length payload))))
    as [Hsmall|Hfit].
  - rewrite WebSocketFramer.frame_message_unfold in Hfm. cbv zeta in Hfm.
    unfold size_t in Hfm.
    rewrite Z.mod_small in Hfm
      by (unfold WebSocketFramer.frame_size in *; destruct mask; lia).
    destruct (Z.ltb_spec buffer_len
                (WebSocketFramer.frame_size mask (Z.of_nat (length payload))));
      [|lia].
    injection Hfm as <- _. done.
  - rewrite (WebSocketFramer.frame_message_fits _ _ _ _ _ _ Hbuf Hsz Hfit) in Hfm.
    apply pair_equal_spec in Hfm as [Hn Hb]. subst n buffer'.
    apply decode_frame_bytes;
      [apply le_bytes_length|apply le_bytes_are_bytes|done|done].
Qed.

Lemma framed_message_is_decoded_witness :
  let buffer := repeat Byte.x00 16 in
  let payload := [Byte.x48; Byte.x69] in
  WebSocketFramer.frame_message buffer 16 payload 1 true 0x11223344
    = (8, [Byte.x81; Byte.x82; Byte.x44; Byte.x33; Byte.x22; Byte.x11;
           Byte.x0c; Byte.x5a] ++ repeat Byte.x00 8) /\
  process_websocket_frame_decode
    ([Byte.x81; Byte.x82; Byte.x44; Byte.x33; Byte.x22; Byte.x11;
      Byte.x0c; Byte.x5a] ++ repeat Byte.x00 8) 16 =
    Some {| fin := true; opcode := Z.land 1 0x0F; masked := true;
            payload_len := 2; unmasked_payload := payload |}.
Proof.
  cbv zeta. split; [vm_compute; reflexivity|].
  apply (framed_message_is_decoded (repeat Byte.x00 16) 16
           [Byte.x48; Byte.x69] 1 true 0x11223344 8 _ 16).
  - simpl. lia.
  - reflexivity.
  - vm_compute. reflexivity.
  - discriminate.
  - lia.
Defined.

(** *** Reads stay below [len] *)

Lemma load_agree (data data' : list Byte.byte) (n i : nat) :
  take n data = take n data' -> (i < n)%nat -> load data i = load data' i.
Proof.
  intros Ht Hi. rewrite <- (load_take data n i Hi), <- (load_take data' n i Hi).
  by rewrite Ht.
Qed.

Lemma load_bytes_agree (data data' : list Byte.byte) (n off k : nat) :
  take n data = take n data' -> (off + k <= n)%nat ->
  load_bytes data off k = load_bytes data' off k.
Proof.
  intros Ht Hk. unfold load_bytes. apply map_ext_in. intros i Hi.
  apply in_seq in Hi. apply (load_agree _ _ n); [done|lia].
Qed.

Lemma length_field_agree data data' len :
  take (Z.to_nat len) data = take (Z.to_nat len) data' -> 2 <= len ->
  length_field data len = length_field data' len.
Proof.
  intros Ht Hlen. unfold length_field. cbv zeta.
  rewrite (load_agree data data' (Z.to_nat len) 1 Ht) by lia.
  destruct (Z.land (load data' 1) 127 <=? 125); [done|].
  destruct (Z.land (load data' 1) 127 =? 126).
  - destruct (Z.ltb_spec len 4); [done|].
    by rewrite (load_bytes_agree data data' (Z.to_nat len) 2 2 Ht) by lia.
  - destruct (Z.ltb_spec len 10); [done|].
    by rewrite (load_bytes_agree data data' (Z.to_nat len) 2 8 Ht) by lia.
Qed.

Lemma length_field_offset data len L off :
  length_field data len = Some (L, off) ->
  (2 <= off <= 10)%nat /\ 0 <= L.
Proof.
  unfold length_field. cbv zeta.
  pose proof (load_range data 1) as Hr.
  assert (Hland : 0 <= Z.land (load data 1) 127)
    by (apply Z.land_nonneg; lia).
  destruct (Z.land (load data 1) 127 <=? 125).
  - intros [= <- <-]. split; [lia|done].
  - destruct (Z.land (load data 1) 127 =? 126).
    + destruct (len <? 4); [done|]. intros [= <- <-]. split; [lia|].
      unfold Classifier.rte_be_to_cpu_16, bswap.
      assert (H : forall l, Forall is_byte l -> 0 <= of_le_bytes l).
      { induction 1 as [|b l Hb _ IH]; simpl; [lia|]. unfold is_byte in Hb. lia. }
      apply H, Forall_rev, le_bytes_are_bytes.
    + destruct (len <? 10); [done|]. intros [= <- <-]. split; [lia|].
      unfold rte_be_to_cpu_64, bswap.
      assert (H : forall l, Forall is_byte l -> 0 <= of_le_bytes l).
      { induction 1 as [|b l Hb _ IH]; simpl; [lia|]. unfold is_byte in Hb. lia. }
      apply H, Forall_rev, le_bytes_are_bytes.
Qed.

(** X3: the header and unmasking code of [process_websocket_frame]
    reads no byte at or behind [len]: two memories that agree below
    [len] give the same result, as long as the declared payload
    length is below 2^64 - 14 (beyond that the size test
    [len < offset + 4 + payload_len] wraps around). *)
Theorem frame_decode_reads_below_len data data' len :
  take (Z.to_nat len) data = take (Z.to_nat len) data' ->
  declared_length_fits data len = true ->
  process_websocket_frame_decode data len =
    process_websocket_frame_decode data' len.
Proof.
  intros Ht Hfit. unfold process_websocket_frame_decode. cbv zeta.
  destruct (Z.ltb_spec len 2) as [|Hlen]; [done|].
  unfold declared_length_fits in Hfit.
  rewrite <- (length_field_agree data data' len Ht Hlen).
  rewrite <- (load_agree data data' (Z.to_nat len) 0 Ht) by lia.
  rewrite <- (load_agree data data' (Z.to_nat len) 1 Ht) by lia.
  destruct (length_field data len) as [[L off]|] eqn:El; [|done].
  apply Z.ltb_lt in Hfit.
  destruct (length_field_offset _ _ _ _ El) as [Hoff HL].
  set (m := negb (Z.land (load data 1) 128 =? 0)).
  assert (Hsz : size_t (Z.of_nat off + (if m then 4 else 0) + L)
                = Z.of_nat off + (if m then 4 else 0) + L).
  { unfold size_t. apply Z.mod_small. destruct m; lia. }
  rewrite Hsz.
  destruct (Z.ltb_spec len (Z.of_nat off + (if m then 4 else 0) + L)); [done|].
  f_equal. f_equal. apply map_ext_in. intros i Hi. apply in_seq in Hi.
  destruct m.
  - rewrite (load_bytes_agree data data' (Z.to_nat len) off 4 Ht) by lia.
    rewrite (load_agree data data' (Z.to_nat len) (off + 4 + i) Ht) by lia.
    reflexivity.
  - rewrite (load_agree data data' (Z.to_nat len) (off + i) Ht) by lia.
    reflexivity.
Qed.

Lemma frame_decode_reads_below_len_witness :
  let data := [Byte.x81; Byte.x02; Byte.x48; Byte.x69; Byte.xff] in
  let data' := [Byte.x81; Byte.x02; Byte.x48; Byte.x69; Byte.x00; Byte.x01] in
  take (Z.to_nat 4) data = take (Z.to_nat 4) data' /\
  declared_length_fits data 4 = true /\
  process_websocket_frame_decode data 4 = process_websocket_frame_decode data' 4.
Proof.
  cbv zeta. split; [reflexivity|]. split; [reflexivity|].
  apply frame_decode_reads_below_len; reflexivity.
Defined.

(** *** Frames the client builds itself *)

Lemma masking_key_bytes rand : Forall is_byte (masking_key rand).
Proof.
  unfold masking_key. apply List.Forall_forall. intros x Hx.
  apply in_map_iff in Hx as (i & <- & _). apply Z.mod_pos_bound. lia.
Qed.

Lemma generate_websocket_frame_short payload op f rand :
  Z.of_nat (length payload) <= 125 ->
  generate_websocket_frame payload op f rand =
    map byte_of_Z (WebSocketFramer.frame_bytes payload op f true (masking_key rand)).
Proof.
  intros HL. unfold generate_websocket_frame, WebSocketFramer.frame_bytes.
  cbv zeta.
  set (L := Z.of_nat (length payload)) in *.
  assert (HL0 : 0 <= L) by (unfold L; lia).
  rewrite (Z.mod_small L (2 ^ 64)) by lia.
  destruct (Z.leb_spec L 125); [|lia].
  rewrite (Z.mod_small L (2 ^ 8)) by (change (2 ^ 8) with 256; lia).
  unfold WebSocketFramer.length_code, WebSocketFramer.extended_length.
  destruct (Z.ltb_spec L 126); [|lia].
  rewrite !map_app, <- !app_assoc. reflexivity.
Qed.

Lemma bswap16_value L :
  0 <= L < 65536 -> bswap 2 L = L / 256 + 256 * (L mod 256).
Proof.
  intros HL. unfold bswap. cbn [le_bytes rev app of_le_bytes].
  assert (L / 256 < 256) by (apply Z.div_lt_upper_bound; lia).
  assert (0 <= L / 256) by (apply Z.div_pos; lia).
  rewrite (Z.mod_small (L / 256)) by lia. lia.
Qed.

(** X4: [generate_websocket_frame] (the client's own framing) builds a
    frame that [process_websocket_frame]'s decoder reads back when the
    payload has at most 125 bytes.  For 126 to 65535 bytes it swaps
    the length to network order and then pushes the high byte of the
    swapped value first, so the two length bytes go out low byte
    first and the decoder reads 256 * (L mod 256) + L / 256 for a
    payload of L bytes. *)
Theorem generated_frame_length_field :
  (forall payload op f rand rest len,
     Z.of_nat (length payload) <= 125 ->
     6 + Z.of_nat (length payload) <= len ->
     process_websocket_frame_decode
       (generate_websocket_frame payload op f rand ++ rest) len =
       Some {| fin := f; opcode := Z.land op 0x0F; masked := true;
               payload_len := Z.of_nat (length payload);
               unmasked_payload := payload |})
  /\
  (forall payload op f rand len,
     let L := Z.of_nat (length payload) in
     126 <= L <= 65535 -> 4 <= len ->
     length_field (generate_websocket_frame payload op f rand) len =
       Some (256 * (L mod 256) + L / 256, 4%nat)).
Proof.
  split.
  - intros payload op f rand rest len HL Hlen.
    rewrite generate_websocket_frame_short by exact HL.
    assert (Hsz : WebSocketFramer.frame_size true (Z.of_nat (length payload))
                  = 6 + Z.of_nat (length payload)).
    { unfold WebSocketFramer.frame_size, WebSocketFramer.extended_length.
      destruct (Z.ltb_spec (Z.of_nat (length payload)) 126); [simpl; lia|lia]. }
    apply decode_frame_bytes.
    + reflexivity.
    + apply masking_key_bytes.
    + rewrite Hsz. lia.
    + rewrite Hsz. exact Hlen.
  - intros payload op f rand len L HL Hlen.
    unfold generate_websocket_frame. cbv zeta. fold L.
    rewrite (Z.mod_small L (2 ^ 64)) by lia.
    destruct (Z.leb_spec L 125); [lia|].
    destruct (Z.leb_spec L 65535); [|lia].
    rewrite (Z.mod_small L (2 ^ 16)) by (change (2 ^ 16) with 65536; lia).
    unfold WebSocketFramer.rte_cpu_to_be_16.
    rewrite bswap16_value by lia.
    set (len16 := L / 256 + 256 * (L mod 256)).
    assert (Hd : 0 <= L / 256 < 256).
    { split; [apply Z.div_pos; lia|apply Z.div_lt_upper_bound; lia]. }
    pose proof (Z.mod_pos_bound L 256 ltac:(lia)) as Hm.
    assert (Hhi : Z.shiftr len16 8 = L mod 256).
    { rewrite Z.shiftr_div_pow2 by lia. change (2 ^ 8) with 256.
      unfold len16. symmetry. apply (Z.div_unique _ _ _ (L / 256)); lia. }
    assert (Hlo : len16 mod 256 = L / 256).
    { unfold len16. symmetry. apply (Z.mod_unique _ _ (L mod 256)); lia. }
    rewrite Hhi. rewrite <- !app_assoc. cbn [app].
    unfold length_field. cbv zeta.
    unfold load_bytes. cbn [seq map Nat.add]. unfold load. cbn [nth].
    rewrite !byte_to_of_Z. rewrite Hlo.
    change (Z.lor 128 126 mod 256) with 254.
    change (Z.land 254 127 <=? 125) with false.
    change (Z.land 254 127 =? 126) with true. cbv iota.
    destruct (Z.ltb_spec len 4); [lia|].
    rewrite (Z.mod_small (L mod 256)) by lia.
    unfold Classifier.rte_be_to_cpu_16.
    rewrite bswap16_load by (unfold is_byte; lia).
    reflexivity.
Qed.

Lemma generated_frame_length_field_witness :
  process_websocket_frame_decode
    (generate_websocket_frame [Byte.x48; Byte.x69] 1 true (fun _ => 7) ++ []) 8 =
    Some {| fin := true; opcode := Z.land 1 0x0F; masked := true;
            payload_len := 2; unmasked_payload := [Byte.x48; Byte.x69] |}
  /\
  length_field
    (generate_websocket_frame (repeat Byte.x41 300) 1 true (fun _ => 0)) 310
  = Some (256 * (300 mod 256) + 300 / 256, 4%nat).
Proof.
  split.
  - apply (proj1 generated_frame_length_field [Byte.x48; Byte.x69] 1 true
             (fun _ => 7) [] 8); simpl; lia.
  - apply (proj2 generated_frame_length_field (repeat Byte.x41 300) 1 true
             (fun _ => 0) 310); rewrite ?repeat_length; lia.
Defined.

Example generated_frame_300_bytes :
  length_field
    (generate_websocket_frame (repeat Byte.x41 300) 1 true (fun _ => 0)) 310
  = Some (11265, 4%nat).
Proof. vm_compute. reflexivity. Qed.

(** *** Reconnect delay *)

(** X5: [calculate_backoff_ms] is 1000 * 2^attempts for fewer than five
    attempts and 30000 from the fifth on; the 32-bit product never
    wraps, and the delay is between 1000 and 30000 ms. *)
Theorem calculate_backoff_ms_values (attempts : nat) :
  let a := Z.of_nat attempts in
  calculate_backoff_ms a = (if a <? 5 then 1000 * 2 ^ a else 30000) /\
  1000 <= calculate_backoff_ms a <= 30000.
Proof.
  cbv zeta.
  assert (E : calculate_backoff_ms (Z.of_nat attempts) =
              if Z.of_nat attempts <? 5 then 1000 * 2 ^ Z.of_nat attempts else 30000).
  { destruct (Z.lt_ge_cases (Z.of_nat attempts) 10) as [Hlt|Hge].
    - do 10 (destruct attempts as [|attempts]; [vm_compute; reflexivity|]). lia.
    - unfold calculate_backoff_ms.
      rewrite (Z.min_r (Z.of_nat attempts) 10) by lia.
      destruct (Z.ltb_spec (Z.of_nat attempts) 5); [lia|]. reflexivity. }
  split; [exact E|]. rewrite E.
  destruct (Z.ltb_spec (Z.of_nat attempts) 5) as [Hlt|]; [|lia].
  do 5 (destruct attempts as [|attempts]; [vm_compute; split; discriminate|]). lia.
Qed.

End DpdkWebSocketClient.

(* ===================================================================== *)
(** ** Market data parser (modules/parser/parser)                         *)
(* ===================================================================== *)

Module MdParser.
Import Bytes Memory Classifier.

(** [sizeof] of the headers the parser steps over; [MdHeader] and
    [MdBookUpdate] are packed ([parser/protocol.h]). *)
Definition sizeof_rte_ipv4_hdr : Z := 20.

Definition sizeof_rte_udp_hdr : Z := 8.

Definition sizeof_MdHeader : Z := 2 + 2 + 8 + 8.

Definition sizeof_MdBookUpdate : Z := 16 + 8 + 8 + 1 + 7.

(** On the little-endian host this is the identity. *)
Definition rte_le_to_cpu_16 (x : Z) : Z := x.

(** [MdParser::ParseResult]; [update] is the offset of the
    [MdBookUpdate] from the data pointer, nothing for [nullptr]. *)
Record ParseResult := {
  valid : bool;
  update : option Z
}.

(** [MdParser::parse]; nothing for a null [m]. *)
Definition parse (m : option rte_mbuf) : ParseResult :=
  let result := {| valid := false; update := None |} in
  match m with
  | None => result
  | Some m =>
      if data_len m <? sizeof_ether_hdr then result
      else
        let eth_type := rte_be_to_cpu_16 (load16 m off_ether_type) in
        if negb (eth_type =? RTE_ETHER_TYPE_IPV4) then result
        else if data_len m <? sizeof_ether_hdr + sizeof_rte_ipv4_hdr then result
        else
          let ip_proto := load8 m (sizeof_ether_hdr + off_next_proto_id) in
          if negb (ip_proto =? IPPROTO_UDP) then result
          else if data_len m <?
                    sizeof_ether_hdr + sizeof_rte_ipv4_hdr + sizeof_rte_udp_hdr
          then result
          else
            let payload_offset :=
              sizeof_ether_hdr + sizeof_rte_ipv4_hdr + sizeof_rte_udp_hdr in
            if data_len m <? payload_offset + sizeof_MdHeader then result
            else
              let magic_host := rte_le_to_cpu_16 (load16 m (payload_offset + 0)) in
              let msg_type_host := rte_le_to_cpu_16 (load16 m (payload_offset + 2)) in
              if negb (magic_host =? 0xAABB) then result
              else if negb (msg_type_host =? 0x0001) then result
              else if data_len m <?
                        payload_offset + sizeof_MdHeader + sizeof_MdBookUpdate
              then result
              else {| valid := true;
                      update := Some (payload_offset + sizeof_MdHeader) |}
  end.

(** A book update for "BTC-USDT" in a UDP datagram. *)
Definition pkt_book_update : rte_mbuf :=
  {| buf := bytes_of_Zs
       ([0;1;2;3;4;5; 6;7;8;9;10;11; 0x08;0x00] ++
        [0x45;0;0;88; 0;0;0;0; 64;17;0;0; 10;0;0;1; 10;0;0;2] ++
        [0x30;0x39; 0x30;0x3a; 0;68; 0;0] ++
        [0xBB;0xAA; 0x01;0x00] ++ repeat 0 16 ++
        [66;84;67;45;85;83;68;84] ++ repeat 0 32);
     data_len := 102 |}.

(** *** Properties *)

Example parse_book_update :
  parse (Some pkt_book_update) = {| valid := true; update := Some 62 |}.
Proof. vm_compute. reflexivity. Qed.

Example parse_short_frame :
  parse (Some (with_data_len pkt_book_update 101)) =
    {| valid := false; update := None |}.
Proof. vm_compute. reflexivity. Qed.

(** X6: [MdParser::parse] accepts exactly the frames of at least 102
    bytes whose Ethernet type is IPv4, whose IPv4 protocol is UDP and
    whose payload, taken at the fixed offset 42 (IPv4 options are not
    looked at), starts with the little-endian magic 0xAABB and message
    type 1; it then points at offset 62, and the 40 bytes of the
    update lie inside the frame.  In every other case, a null mbuf
    included, it returns invalid with a null pointer. *)
Theorem parse_accepts_exactly (m : option rte_mbuf) :
  (valid (parse m) = true <->
   exists mb, m = Some mb /\
     102 <= data_len mb /\
     ether_type_of mb = 0x0800 /\ protocol_of mb = 17 /\
     load16 mb 42 = 0xAABB /\ load16 mb 44 = 1)
  /\
  update (parse m) = (if valid (parse m) then Some 62 else None)
  /\
  (forall off, update (parse m) = Some off ->
     exists mb, m = Some mb /\ off + sizeof_MdBookUpdate <= data_len mb).
Proof.
  destruct m as [mb|]; cbn [parse].
  2:{ split; [|split; [done|done]]. split; [done|]. by intros (mb & ? & _). }
  unfold sizeof_ether_hdr, sizeof_rte_ipv4_hdr, sizeof_rte_udp_hdr,
    sizeof_MdHeader, sizeof_MdBookUpdate, rte_le_to_cpu_16, off_ether_type,
    off_next_proto_id, RTE_ETHER_TYPE_IPV4, IPPROTO_UDP.
  cbv zeta. rewrite be16_load.
  change (wire16 mb 12) with (ether_type_of mb).
  change (load8 mb (14 + 9)) with (protocol_of mb).
  change (14 + 20 + 8 + (2 + 2 + 8 + 8) + (16 + 8 + 8 + 1 + 7)) with 102.
  change (14 + 20 + 8 + (2 + 2 + 8 + 8)) with 62.
  change (14 + 20 + 8 + 0) with 42. change (14 + 20 + 8 + 2) with 44.
  change (14 + 20 + 8) with 42. change (14 + 20) with 34.
  change (16 + 8 + 8 + 1 + 7) with 40.
  destruct (Z.ltb_spec (data_len mb) 14) as [H1|H1].
  { cbn [valid update]. split; [|split; [done|done]]. split; [done|].
    intros (mb' & [= <-] & ? & _). lia. }
  destruct (Z.eqb_spec (ether_type_of mb) 2048) as [H2|H2]; cbn [negb].
  2:{ cbn [valid update]. split; [|split; [done|done]]. split; [done|].
      intros (mb' & [= <-] & _ & ? & _). done. }
  destruct (Z.ltb_spec (data_len mb) 34) as [H3|H3].
  { cbn [valid update]. split; [|split; [done|done]]. split; [done|].
    intros (mb' & [= <-] & ? & _). lia. }
  destruct (Z.eqb_spec (protocol_of mb) 17) as [H4|H4]; cbn [negb].
  2:{ cbn [valid update]. split; [|split; [done|done]]. split; [done|].
      intros (mb' & [= <-] & _ & _ & ? & _). done. }
  destruct (Z.ltb_spec (data_len mb) 42) as [H5|H5].
  { cbn [valid update]. split; [|split; [done|done]]. split; [done|].
    intros (mb' & [= <-] & ? & _). lia. }
  destruct (Z.ltb_spec (data_len mb) 62) as [H6|H6].
  { cbn [valid update]. split; [|split; [done|done]]. split; [done|].
    intros (mb' & [= <-] & ? & _). lia. }
  destruct (Z.eqb_spec (load16 mb 42) 43707) as [H7|H7]; cbn [negb].
  2:{ cbn [valid update]. split; [|split; [done|done]]. split; [done|].
      intros (mb' & [= <-] & _ & _ & _ & ? & _). done. }
  destruct (Z.eqb_spec (load16 mb 44) 1) as [H8|H8]; cbn [negb].
  2:{ cbn [valid update]. split; [|split; [done|done]]. split; [done|].
      intros (mb' & [= <-] & _ & _ & _ & _ & ?). done. }
  destruct (Z.ltb_spec (data_len mb) 102) as [H9|H9].
  { cbn [valid update]. split; [|split; [done|done]]. split; [done|].
    intros (mb' & [= <-] & ? & _). lia. }
  cbn [valid update]. split; [|split; [done|]].
  - split; [|done]. intros _. exists mb.
    split; [done|]. split; [lia|]. split; [done|]. split; [done|]. split; done.
  - intros off [= <-]. exists mb. split; [done|lia].
Qed.

Lemma load8_agree (m m' : rte_mbuf) (off : Z) :
  take (Z.to_nat (data_len m)) (buf m) = take (Z.to_nat (data_len m)) (buf m') ->
  0 <= off < data_len m -> load8 m off = load8 m' off.
Proof.
  intros Ht Hoff. unfold load8.
  change (byte_to_Z (nth (Z.to_nat off) (buf m) Byte.x00))
    with (load (buf m) (Z.to_nat off)).
  change (byte_to_Z (nth (Z.to_nat off) (buf m') Byte.x00))
    with (load (buf m') (Z.to_nat off)).
  apply (DpdkWebSocketClient.load_agree _ _ (Z.to_nat (data_len m))); [done|lia].
Qed.

Lemma load16_agree (m m' : rte_mbuf) (off : Z) :
  take (Z.to_nat (data_len m)) (buf m) = take (Z.to_nat (data_len m)) (buf m') ->
  0 <= off -> off + 2 <= data_len m -> load16 m off = load16 m' off.
Proof.
  intros Ht H0 H2. unfold load16.
  rewrite (load8_agree m m' off Ht) by lia.
  rewrite (load8_agree m m' (off + 1) Ht) by lia. reflexivity.
Qed.

(** X7: [MdParser::parse] reads no byte at or behind [data_len]: two
    mbufs with the same [data_len] whose buffers agree below it get
    the same result. *)
Theorem parse_reads_below_data_len (m m' : rte_mbuf) :
  data_len m' = data_len m ->
  take (Z.to_nat (data_len m)) (buf m) = take (Z.to_nat (data_len m)) (buf m') ->
  parse (Some m) = parse (Some m').
Proof.
  intros Hd Ht. unfold parse. rewrite Hd.
  unfold sizeof_ether_hdr, sizeof_rte_ipv4_hdr, sizeof_rte_udp_hdr,
    sizeof_MdHeader, sizeof_MdBookUpdate, rte_le_to_cpu_16, off_ether_type,
    off_next_proto_id.
  cbv zeta.
  destruct (Z.ltb_spec (data_len m) 14); [done|].
  rewrite <- (load16_agree m m' 12 Ht) by lia.
  destruct (negb _); [done|].
  destruct (Z.ltb_spec (data_len m) (14 + 20)); [done|].
  rewrite <- (load8_agree m m' (14 + 9) Ht) by lia.
  destruct (negb _); [done|].
  destruct (Z.ltb_spec (data_len m) (14 + 20 + 8)); [done|].
  destruct (Z.ltb_spec (data_len m) (14 + 20 + 8 + (2 + 2 + 8 + 8))); [done|].
  rewrite <- (load16_agree m m' (14 + 20 + 8 + 0) Ht) by lia.
  rewrite <- (load16_agree m m' (14 + 20 + 8 + 2) Ht) by lia.
  reflexivity.
Qed.

Lemma parse_reads_below_data_len_witness :
  let m' := {| buf := take 102 (buf pkt_book_update) ++ [Byte.xff; Byte.xff];
               data_len := 102 |} in
  data_len m' = data_len pkt_book_update /\
  take (Z.to_nat (data_len pkt_book_update)) (buf pkt_book_update)
    = take (Z.to_nat (data_len pkt_book_update)) (buf m') /\
  parse (Some pkt_book_update) = parse (Some m').
Proof.
  cbv zeta. split; [reflexivity|]. split; [vm_compute; reflexivity|].
  apply parse_reads_below_data_len; [reflexivity|vm_compute; reflexivity].
Defined.

End MdParser.

(* ===================================================================== *)
(** ** Minimal TCP client (modules/network/micro_tcp)                     *)
(* ===================================================================== *)

Module MicroTcp.
Import Bytes Memory Classifier.

Inductive TcpState :=
| CLOSED | SYN_SENT | ESTABLISHED | FIN_WAIT_1 | FIN_WAIT_2 | TIME_WAIT.

Global Instance TcpState_eq_dec : EqDecision TcpState.
Proof. solve_decision. Defined.

(** DPDK's constants ([rte_tcp.h], [rte_ip.h]). *)
Definition RTE_TCP_FIN_FLAG : Z := 0x01.

Definition RTE_TCP_SYN_FLAG : Z := 0x02.

Definition RTE_TCP_PSH_FLAG : Z := 0x08.

Definition RTE_TCP_ACK_FLAG : Z := 0x10.

Definition RTE_IPV4_VHL_DEF : Z := 0x45.

Definition RTE_IPV4_HDR_DF_FLAG : Z := 0x4000.

Definition sizeof_rte_tcp_hdr : Z := 20.

Definition MAX_RX_BUFFER_SIZE : Z := 10 * 1024 * 1024.

(** The room behind the data pointer of a freshly allocated mbuf.
    [main.cpp] creates the pool with [RTE_MBUF_DEFAULT_BUF_SIZE]:
    [RTE_PKTMBUF_HEADROOM] (128) bytes before the data pointer and
    [RTE_MBUF_DEFAULT_DATAROOM] bytes from it on ([rte_mbuf_core.h]). *)
Definition RTE_MBUF_DEFAULT_DATAROOM : Z := 2048.

Definition uint16 (x : Z) : Z := x mod 2 ^ 16.

Definition uint32 (x : Z) : Z := x mod 2 ^ 32.

(** On the little-endian host these swap the bytes. *)
Definition rte_cpu_to_be_32 (x : Z) : Z := bswap 4 x.

Definition rte_be_to_cpu_32 (x : Z) : Z := bswap 4 x.

(** A [uint32_t] field as the host loads it. *)
Definition load32 (m : rte_mbuf) (off : Z) : Z :=
  of_le_bytes [load8 m off; load8 m (off + 1); load8 m (off + 2); load8 m (off + 3)].

(** The [n] bytes at a pointer into memory [p]. *)
Definition read_bytes (p : list Byte.byte) (n : nat) : list Byte.byte :=
  map (fun i => nth i p Byte.x00) (seq 0 n).

(** The six bytes of an [rte_ether_addr]. *)
Definition ether_addr_bytes (a : list Z) : list Z :=
  map (fun i => nth i a 0) (seq 0 6).

(** The object.  [mbuf_pool_] stands for the pool behind the pointer:
    the number of mbufs it can still hand out. *)
Record micro_tcp := {
  state_ : TcpState;
  src_ip_ : Z;
  src_port_ : Z;
  dst_ip_ : Z;
  dst_port_ : Z;
  src_mac_ : list Z;
  dst_mac_ : list Z;
  iss_ : Z;
  snd_una_ : Z;
  snd_nxt_ : Z;
  rcv_nxt_ : Z;
  mbuf_pool_ : nat;
  cached_headers_ : list Byte.byte;
  rx_buffer_ : list Byte.byte
}.

(** *** Field updates *)

Definition set_state_ (s : TcpState) (t : micro_tcp) : micro_tcp :=
  {| state_ := s; src_ip_ := src_ip_ t; src_port_ := src_port_ t;
     dst_ip_ := dst_ip_ t; dst_port_ := dst_port_ t; src_mac_ := src_mac_ t;
     dst_mac_ := dst_mac_ t; iss_ := iss_ t; snd_una_ := snd_una_ t;
     snd_nxt_ := snd_nxt_ t; rcv_nxt_ := rcv_nxt_ t; mbuf_pool_ := mbuf_pool_ t;
     cached_headers_ := cached_headers_ t; rx_buffer_ := rx_buffer_ t |}.

Definition set_snd_una_ (v : Z) (t : micro_tcp) : micro_tcp :=
  {| state_ := state_ t; src_ip_ := src_ip_ t; src_port_ := src_port_ t;
     dst_ip_ := dst_ip_ t; dst_port_ := dst_port_ t; src_mac_ := src_mac_ t;
     dst_mac_ := dst_mac_ t; iss_ := iss_ t; snd_una_ := v;
     snd_nxt_ := snd_nxt_ t; rcv_nxt_ := rcv_nxt_ t; mbuf_pool_ := mbuf_pool_ t;
     cached_headers_ := cached_headers_ t; rx_buffer_ := rx_buffer_ t |}.

Definition set_snd_nxt_ (v : Z) (t : micro_tcp) : micro_tcp :=
  {| state_ := state_ t; src_ip_ := src_ip_ t; src_port_ := src_port_ t;
     dst_ip_ := dst_ip_ t; dst_port_ := dst_port_ t; src_mac_ := src_mac_ t;
     dst_mac_ := dst_mac_ t; iss_ := iss_ t; snd_una_ := snd_una_ t;
     snd_nxt_ := v; rcv_nxt_ := rcv_nxt_ t; mbuf_pool_ := mbuf_pool_ t;
     cached_headers_ := cached_headers_ t; rx_buffer_ := rx_buffer_ t |}.

Definition set_rcv_nxt_ (v : Z) (t : micro_tcp) : micro_tcp :=
  {| state_ := state_ t; src_ip_ := src_ip_ t; src_port_ := src_port_ t;
     dst_ip_ := dst_ip_ t; dst_port_ := dst_port_ t; src_mac_ := src_mac_ t;
     dst_mac_ := dst_mac_ t; iss_ := iss_ t; snd_una_ := snd_una_ t;
     snd_nxt_ := snd_nxt_ t; rcv_nxt_ := v; mbuf_pool_ := mbuf_pool_ t;
     cached_headers_ := cached_headers_ t; rx_buffer_ := rx_buffer_ t |}.

Definition set_mbuf_pool_ (n : nat) (t : micro_tcp) : micro_tcp :=
  {| state_ := state_ t; src_ip_ := src_ip_ t; src_port_ := src_port_ t;
     dst_ip_ := dst_ip_ t; dst_port_ := dst_port_ t; src_mac_ := src_mac_ t;
     dst_mac_ := dst_mac_ t; iss_ := iss_ t; snd_una_ := snd_una_ t;
     snd_nxt_ := snd_nxt_ t; rcv_nxt_ := rcv_nxt_ t; mbuf_pool_ := n;
     cached_headers_ := cached_headers_ t; rx_buffer_ := rx_buffer_ t |}.

Definition set_rx_buffer_ (b : list Byte.byte) (t : micro_tcp) : micro_tcp :=
  {| state_ := state_ t; src_ip_ := src_ip_ t; src_port_ := src_port_ t;
     dst_ip_ := dst_ip_ t; dst_port_ := dst_port_ t; src_mac_ := src_mac_ t;
     dst_mac_ := dst_mac_ t; iss_ := iss_ t; snd_una_ := snd_una_ t;
     snd_nxt_ := snd_nxt_ t; rcv_nxt_ := rcv_nxt_ t; mbuf_pool_ := mbuf_pool_ t;
     cached_headers_ := cached_headers_ t; rx_buffer_ := b |}.

(** *** The constructor *)

(** The packet template the constructor writes into
    [cached_headers_]: [memset] to zero, then the constant fields of
    the Ethernet, IPv4 and TCP headers. *)
Definition packet_template (src_ip src_port dst_ip dst_port : Z)
    (src_mac dst_mac : list Z) : list Byte.byte :=
  let h := repeat Byte.x00 64 in
  let eth_hdr := 0%nat in
  let h := memcpy (eth_hdr + 6) (ether_addr_bytes src_mac) h in
  let h := memcpy (eth_hdr + 0) (ether_addr_bytes dst_mac) h in
  let h := memcpy (eth_hdr + 12)
             (le_bytes 2 (WebSocketFramer.rte_cpu_to_be_16 RTE_ETHER_TYPE_IPV4)) h in
  let ipv4_hdr := (eth_hdr + 14)%nat in
  let h := store8 (ipv4_hdr + 0) RTE_IPV4_VHL_DEF h in
  let h := store8 (ipv4_hdr + 1) 0 h in
  let h := store8 (ipv4_hdr + 8) 64 h in
  let h := store8 (ipv4_hdr + 9) IPPROTO_TCP h in
  let h := memcpy (ipv4_hdr + 12) (le_bytes 4 (rte_cpu_to_be_32 src_ip)) h in
  let h := memcpy (ipv4_hdr + 16) (le_bytes 4 (rte_cpu_to_be_32 dst_ip)) h in
  let h := memcpy (ipv4_hdr + 6)
             (le_bytes 2 (WebSocketFramer.rte_cpu_to_be_16 RTE_IPV4_HDR_DF_FLAG)) h in
  let tcp_hdr := (ipv4_hdr + 20)%nat in
  let h := memcpy (tcp_hdr + 0)
             (le_bytes 2 (WebSocketFramer.rte_cpu_to_be_16 src_port)) h in
  let h := memcpy (tcp_hdr + 2)
             (le_bytes 2 (WebSocketFramer.rte_cpu_to_be_16 dst_port)) h in
  let h := store8 (tcp_hdr + 12)
             (Z.shiftl (sizeof_rte_tcp_hdr / 4) 4) h in
  let h := memcpy (tcp_hdr + 14)
             (le_bytes 2 (WebSocketFramer.rte_cpu_to_be_16 65535)) h in
  h.

(** [MicroTcp::MicroTcp]; [rand] is the value of [rte_rand()], [pool]
    what the mbuf pool holds. *)
Definition MicroTcp_new (src_ip src_port dst_ip dst_port : Z)
    (src_mac dst_mac : list Z) (pool : nat) (rand : Z) : micro_tcp :=
  let iss := uint32 rand in
  {| state_ := CLOSED;
     src_ip_ := uint32 src_ip; src_port_ := uint16 src_port;
     dst_ip_ := uint32 dst_ip; dst_port_ := uint16 dst_port;
     src_mac_ := ether_addr_bytes src_mac; dst_mac_ := ether_addr_bytes dst_mac;
     iss_ := iss; snd_una_ := 0; snd_nxt_ := iss; rcv_nxt_ := 0;
     mbuf_pool_ := pool;
     cached_headers_ :=
       packet_template (uint32 src_ip) (uint16 src_port) (uint32 dst_ip)
         (uint16 dst_port) (ether_addr_bytes src_mac) (ether_addr_bytes dst_mac);
     rx_buffer_ := [] |}.

(** *** Parsing a received frame *)

(** The three header pointers [parse_tcp_packet] fills in, as offsets
    from the data pointer; nothing for [nullptr]. *)
Record tcp_headers := {
  eth_hdr : option Z;
  ipv4_hdr : option Z;
  tcp_hdr : option Z
}.

Definition set_eth_hdr (p : option Z) (h : tcp_headers) : tcp_headers :=
  {| eth_hdr := p; ipv4_hdr := ipv4_hdr h; tcp_hdr := tcp_hdr h |}.

Definition set_ipv4_hdr (p : option Z) (h : tcp_headers) : tcp_headers :=
  {| eth_hdr := eth_hdr h; ipv4_hdr := p; tcp_hdr := tcp_hdr h |}.

Definition set_tcp_hdr (p : option Z) (h : tcp_headers) : tcp_headers :=
  {| eth_hdr := eth_hdr h; ipv4_hdr := ipv4_hdr h; tcp_hdr := p |}.

(** [ipv4_hdr->ihl * 4] and [(tcp_hdr->data_off >> 4) * 4]. *)
Definition ipv4_ihl_bytes (m : rte_mbuf) (ip : Z) : Z :=
  uint16 (Z.land (load8 m (ip + 0)) 0xf * 4).

Definition tcp_data_offset_bytes (m : rte_mbuf) (tcp : Z) : Z :=
  uint16 (Z.shiftr (load8 m (tcp + 12)) 4 * 4).

(** [MicroTcp::parse_tcp_packet]: the three reference parameters as
    the call leaves them. *)
Definition parse_tcp_packet (mbuf : option rte_mbuf) : tcp_headers :=
  let h := {| eth_hdr := None; ipv4_hdr := None; tcp_hdr := None |} in
  match mbuf with
  | None => h
  | Some m =>
      if data_len m <? sizeof_ether_hdr then h
      else
        let eth := 0 in
        let h := set_eth_hdr (Some eth) h in
        if negb (rte_be_to_cpu_16 (load16 m (eth + off_ether_type))
                 =? RTE_ETHER_TYPE_IPV4)
        then set_eth_hdr None h
        else
          let eth_len := sizeof_ether_hdr in
          if data_len m <? eth_len + MdParser.sizeof_rte_ipv4_hdr
          then set_eth_hdr None h
          else
            let ip := eth + sizeof_ether_hdr in
            let h := set_ipv4_hdr (Some ip) h in
            if negb (load8 m (ip + off_next_proto_id) =? IPPROTO_TCP)
            then set_eth_hdr None (set_ipv4_hdr None h)
            else
              let ihl := ipv4_ihl_bytes m ip in
              if (ihl <? MdParser.sizeof_rte_ipv4_hdr)
                 || (data_len m <? eth_len + ihl + sizeof_rte_tcp_hdr)
              then set_eth_hdr None (set_ipv4_hdr None h)
              else
                let tcp := ip + ihl in
                let h := set_tcp_hdr (Some tcp) h in
                let tcp_off := tcp_data_offset_bytes m tcp in
                if (tcp_off <? sizeof_rte_tcp_hdr)
                   || (data_len m <? eth_len + ihl + tcp_off)
                then set_eth_hdr None (set_ipv4_hdr None (set_tcp_hdr None h))
                else h
  end.

(** The header fields [process_rx] reads, in host byte order:
    [rte_be_to_cpu_32(ipv4_hdr->src_addr)] and the like, for headers
    at the offsets [ip] and [tcp]. *)
Definition ipv4_total_length (m : rte_mbuf) (ip : Z) : Z :=
  rte_be_to_cpu_16 (load16 m (ip + 2)).

Definition ipv4_src_addr (m : rte_mbuf) (ip : Z) : Z :=
  rte_be_to_cpu_32 (load32 m (ip + 12)).

Definition ipv4_dst_addr (m : rte_mbuf) (ip : Z) : Z :=
  rte_be_to_cpu_32 (load32 m (ip + 16)).

Definition tcp_src_port (m : rte_mbuf) (tcp : Z) : Z :=
  rte_be_to_cpu_16 (load16 m (tcp + 0)).

Definition tcp_dst_port (m : rte_mbuf) (tcp : Z) : Z :=
  rte_be_to_cpu_16 (load16 m (tcp + 2)).

Definition tcp_sent_seq (m : rte_mbuf) (tcp : Z) : Z :=
  rte_be_to_cpu_32 (load32 m (tcp + 4)).

Definition tcp_recv_ack (m : rte_mbuf) (tcp : Z) : Z :=
  rte_be_to_cpu_32 (load32 m (tcp + 8)).

Definition tcp_flags (m : rte_mbuf) (tcp : Z) : Z := load8 m (tcp + 13).

(** *** Sending *)

Definition update_snd_nxt (sent_len : Z) (t : micro_tcp) : micro_tcp :=
  set_snd_nxt_ (uint32 (snd_nxt_ t + sent_len)) t.

Section Checksums.
(** DPDK's checksum routines: [rte_ipv4_cksum] of the IPv4 header
    bytes, [rte_ipv4_udptcp_cksum] of the IPv4 header bytes and the
    bytes from the TCP header on. *)
Variable rte_ipv4_cksum : list Byte.byte -> Z.
Variable rte_ipv4_udptcp_cksum : list Byte.byte -> list Byte.byte -> Z.

(** [MicroTcp::calculate_ipv4_checksum] on the header at [ipv4_hdr]:
    the field is cleared, the checksum computed and, by the caller,
    stored. *)
Definition calculate_ipv4_checksum (ipv4_hdr : nat) (packet_data : list Byte.byte)
  : list Byte.byte :=
  let packet_data := memcpy (ipv4_hdr + 10) (le_bytes 2 0) packet_data in
  memcpy (ipv4_hdr + 10)
    (le_bytes 2 (rte_ipv4_cksum (take 20 (drop ipv4_hdr packet_data))))
    packet_data.

(** [MicroTcp::calculate_tcp_checksum], likewise. *)
Definition calculate_tcp_checksum (ipv4_hdr tcp_hdr : nat)
    (packet_data : list Byte.byte) : list Byte.byte :=
  let packet_data := memcpy (tcp_hdr + 16) (le_bytes 2 0) packet_data in
  memcpy (tcp_hdr + 16)
    (le_bytes 2 (rte_ipv4_udptcp_cksum (take 20 (drop ipv4_hdr packet_data))
                   (drop tcp_hdr packet_data)))
    packet_data.

(** [MicroTcp::create_tcp_packet]: the mbuf returned (nothing when the
    pool is empty) and the object afterwards.  [payload] is the memory
    at the pointer, nothing for [nullptr]; [pkt_len] always equals
    [data_len].  The function checks no tailroom: [packet_data] below
    is what it writes from the data pointer on, and the mbuf's buffer
    holds the part of it that lies in the data room.  The rest of a
    longer copy lands behind the mbuf; what it overwrites there is not
    modelled, and [data_len] then exceeds the room. *)
Definition create_tcp_packet (flags : Z) (payload : option (list Byte.byte))
    (payload_len : Z) (t : micro_tcp) : option rte_mbuf * micro_tcp :=
  let total_len :=
    uint16 (sizeof_ether_hdr + MdParser.sizeof_rte_ipv4_hdr + sizeof_rte_tcp_hdr
            + payload_len) in
  match mbuf_pool_ t with
  | O => (None, t)
  | S free =>
      let t := set_mbuf_pool_ free t in
      let header_len := 54%nat in
      let packet_data := take header_len (cached_headers_ t) in
      let ipv4_hdr := 14%nat in
      let tcp_hdr := 34%nat in
      let packet_data :=
        memcpy (ipv4_hdr + 2)
          (le_bytes 2 (WebSocketFramer.rte_cpu_to_be_16
                         (uint16 (total_len - sizeof_ether_hdr)))) packet_data in
      let packet_data := memcpy (ipv4_hdr + 10) (le_bytes 2 0) packet_data in
      let packet_data := calculate_ipv4_checksum ipv4_hdr packet_data in
      let packet_data := store8 (tcp_hdr + 13) flags packet_data in
      let packet_data := memcpy (tcp_hdr + 16) (le_bytes 2 0) packet_data in
      let '(sent_seq, recv_ack) :=
        if negb (Z.land flags RTE_TCP_SYN_FLAG =? 0)
        then (rte_cpu_to_be_32 (iss_ t), rte_cpu_to_be_32 0)
        else (rte_cpu_to_be_32 (snd_nxt_ t), rte_cpu_to_be_32 (rcv_nxt_ t)) in
      let packet_data := memcpy (tcp_hdr + 4) (le_bytes 4 sent_seq) packet_data in
      let packet_data := memcpy (tcp_hdr + 8) (le_bytes 4 recv_ack) packet_data in
      let '(packet_data, t) :=
        match payload with
        | Some bytes =>
            if 0 <? payload_len then
              (packet_data ++ read_bytes bytes (Z.to_nat payload_len),
               update_snd_nxt payload_len t)
            else if negb (Z.land flags RTE_TCP_SYN_FLAG =? 0)
                    || negb (Z.land flags RTE_TCP_FIN_FLAG =? 0)
                 then (packet_data, update_snd_nxt 1 t)
                 else (packet_data, t)
        | None =>
            if negb (Z.land flags RTE_TCP_SYN_FLAG =? 0)
               || negb (Z.land flags RTE_TCP_FIN_FLAG =? 0)
            then (packet_data, update_snd_nxt 1 t)
            else (packet_data, t)
        end in
      let packet_data := calculate_tcp_checksum ipv4_hdr tcp_hdr packet_data in
      (Some {| buf := take (Z.to_nat RTE_MBUF_DEFAULT_DATAROOM) packet_data;
               data_len := total_len |}, t)
  end.

(** [MicroTcp::connect] *)
Definition connect (t : micro_tcp) : option rte_mbuf * micro_tcp :=
  if bool_decide (state_ t <> CLOSED) then (None, t)
  else create_tcp_packet RTE_TCP_SYN_FLAG None 0 (set_state_ SYN_SENT t).

(** [MicroTcp::send_data]; [len] is a [uint16_t]. *)
Definition send_data (data : list Byte.byte) (len : Z) (t : micro_tcp)
  : option rte_mbuf * micro_tcp :=
  if bool_decide (state_ t <> ESTABLISHED) then (None, t)
  else create_tcp_packet (Z.lor RTE_TCP_PSH_FLAG RTE_TCP_ACK_FLAG)
         (Some data) (uint16 len) t.

(** [MicroTcp::extract_rx_data] *)
Definition extract_rx_data (t : micro_tcp) : list Byte.byte * micro_tcp :=
  (rx_buffer_ t, set_rx_buffer_ [] t).

(** *** Receiving *)

(** [tx_pkts.push_back(create_tcp_packet(RTE_TCP_ACK_FLAG, nullptr, 0))] *)
Definition push_ack (st : list (option rte_mbuf) * micro_tcp)
  : list (option rte_mbuf) * micro_tcp :=
  let '(tx, t) := st in
  let '(pkt, t) := create_tcp_packet RTE_TCP_ACK_FLAG None 0 t in
  (tx ++ [pkt], t).

(** [MicroTcp::process_rx]: the packets to send (a null entry where
    the pool was empty) and the object afterwards.  Every path frees
    [rx_mbuf] once before it returns. *)
Definition process_rx (rx_mbuf : option rte_mbuf) (t : micro_tcp)
  : list (option rte_mbuf) * micro_tcp :=
  let dropped := ([], t) in
  let h := parse_tcp_packet rx_mbuf in
  match rx_mbuf, eth_hdr h, ipv4_hdr h, tcp_hdr h with
  | Some m, Some _, Some ip, Some tcp =>
      if negb (ipv4_dst_addr m ip =? src_ip_ t)
         || negb (tcp_dst_port m tcp =? src_port_ t)
      then dropped
      else if negb (ipv4_src_addr m ip =? dst_ip_ t)
              || negb (tcp_src_port m tcp =? dst_port_ t)
      then dropped
      else
        let ip_len := ipv4_total_length m ip in
        let ip_hdr_len := ipv4_ihl_bytes m ip in
        let tcp_hdr_len := tcp_data_offset_bytes m tcp in
        if ip_len <? ip_hdr_len + tcp_hdr_len then dropped
        else
          let tcp_data_len := uint16 (ip_len - ip_hdr_len - tcp_hdr_len) in
          let received_seq := tcp_sent_seq m tcp in
          let received_ack := tcp_recv_ack m tcp in
          match state_ t with
          | SYN_SENT =>
              if negb (Z.land (tcp_flags m tcp) RTE_TCP_SYN_FLAG =? 0)
                 && negb (Z.land (tcp_flags m tcp) RTE_TCP_ACK_FLAG =? 0)
              then
                if received_ack =? uint32 (iss_ t + 1) then
                  let t := set_rcv_nxt_ (uint32 (received_seq + 1)) t in
                  let t := set_snd_una_ received_ack t in
                  let t := set_state_ ESTABLISHED t in
                  push_ack ([], t)
                else ([], t)
              else ([], t)
          | ESTABLISHED =>
              let '(tx, t) :=
                if 0 <? tcp_data_len then
                  if received_seq =? rcv_nxt_ t then
                    let payload :=
                      drop (Z.to_nat (sizeof_ether_hdr + ip_hdr_len + tcp_hdr_len))
                           (buf m) in
                    let t :=
                      if MAX_RX_BUFFER_SIZE <?
                           Z.of_nat (length (rx_buffer_ t)) + tcp_data_len
                      then t
                      else set_rx_buffer_
                             (rx_buffer_ t
                              ++ read_bytes payload (Z.to_nat tcp_data_len)) t in
                    let t := set_rcv_nxt_ (uint32 (rcv_nxt_ t + tcp_data_len)) t in
                    push_ack ([], t)
                  else if received_seq <? rcv_nxt_ t then push_ack ([], t)
                  else ([], t)
                else ([], t) in
              let t :=
                if snd_una_ t <? received_ack then set_snd_una_ received_ack t
                else t in
              if negb (Z.land (tcp_flags m tcp) RTE_TCP_FIN_FLAG =? 0) then
                let t := set_rcv_nxt_ (uint32 (rcv_nxt_ t + 1)) t in
                let t := set_state_ FIN_WAIT_1 t in
                let '(tx, t) := push_ack (tx, t) in
                (tx, set_state_ FIN_WAIT_2 t)
              else (tx, t)
          | FIN_WAIT_2 =>
              if negb (Z.land (tcp_flags m tcp) RTE_TCP_FIN_FLAG =? 0) then
                let t := set_rcv_nxt_ (uint32 (rcv_nxt_ t + 1)) t in
                let '(tx, t) := push_ack ([], t) in
                (tx, set_state_ TIME_WAIT t)
              else ([], t)
          | _ => ([], t)
          end
  | _, _, _, _ => dropped
  end.

(** *** Calls in sequence *)

Inductive call :=
| CallConnect
| CallProcessRx (rx_mbuf : option rte_mbuf)
| CallSendData (data : list Byte.byte) (len : Z)
| CallExtractRxData.

Definition do_call (t : micro_tcp) (c : call) : micro_tcp :=
  match c with
  | CallConnect => (connect t).2
  | CallProcessRx rx_mbuf => (process_rx rx_mbuf t).2
  | CallSendData data len => (send_data data len t).2
  | CallExtractRxData => (extract_rx_data t).2
  end.

Definition do_calls (calls : list call) (t : micro_tcp) : micro_tcp :=
  fold_left do_call calls t.
End Checksums.

(** The enumerators' values. *)
Definition TcpState_value (s : TcpState) : Z :=
  match s with
  | CLOSED => 0 | SYN_SENT => 1 | ESTABLISHED => 2
  | FIN_WAIT_1 => 3 | FIN_WAIT_2 => 4 | TIME_WAIT => 5
  end.

(** What the constructor establishes and every call keeps: the
    template holds the connection's addresses, the integer members
    are within their types and the receive buffer within its limit. *)
Definition well_formed (t : micro_tcp) : Prop :=
  cached_headers_ t =
    packet_template (src_ip_ t) (src_port_ t) (dst_ip_ t) (dst_port_ t)
      (src_mac_ t) (dst_mac_ t)
  /\ (0 <= src_ip_ t < 2 ^ 32 /\ 0 <= src_port_ t < 2 ^ 16)
  /\ (0 <= dst_ip_ t < 2 ^ 32 /\ 0 <= dst_port_ t < 2 ^ 16)
  /\ (0 <= iss_ t < 2 ^ 32 /\ 0 <= snd_una_ t < 2 ^ 32)
  /\ (0 <= snd_nxt_ t < 2 ^ 32 /\ 0 <= rcv_nxt_ t < 2 ^ 32)
  /\ Z.of_nat (length (rx_buffer_ t)) <= MAX_RX_BUFFER_SIZE.

(** The 54 header bytes of a segment of the connection in wire
    order, field by field; [ipck] and [tcpck] are the two checksums
    as the host stores them. *)
Definition tcp_frame_header (t : micro_tcp) (flags len ipck tcpck : Z) : list Z :=
  let '(seq, ack) :=
    if negb (Z.land flags RTE_TCP_SYN_FLAG =? 0) then (iss_ t, 0)
    else (snd_nxt_ t, rcv_nxt_ t) in
  ether_addr_bytes (dst_mac_ t) ++ ether_addr_bytes (src_mac_ t)
  ++ be_bytes 2 RTE_ETHER_TYPE_IPV4
  ++ [RTE_IPV4_VHL_DEF; 0] ++ be_bytes 2 (uint16 (uint16 (54 + len) - 14))
  ++ [0; 0] ++ be_bytes 2 RTE_IPV4_HDR_DF_FLAG ++ [64; IPPROTO_TCP]
  ++ le_bytes 2 ipck ++ be_bytes 4 (src_ip_ t) ++ be_bytes 4 (dst_ip_ t)
  ++ be_bytes 2 (src_port_ t) ++ be_bytes 2 (dst_port_ t)
  ++ be_bytes 4 seq ++ be_bytes 4 ack
  ++ [80; flags] ++ be_bytes 2 65535 ++ le_bytes 2 tcpck ++ [0; 0].

(** A SYN-ACK of the peer 10.0.0.2:443 for 10.0.0.1:40000,
    acknowledging 1001, and a data segment of four bytes. *)
Definition pkt_syn_ack : rte_mbuf :=
  {| buf := bytes_of_Zs
       ([0;1;2;3;4;5; 6;7;8;9;10;11; 0x08;0x00] ++
        [0x45;0;0;40; 0;0;0x40;0; 64;6;0;0; 10;0;0;2; 10;0;0;1] ++
        [0x01;0xbb; 0x9c;0x40; 0;0;0x13;0x88; 0;0;0x03;0xe9;
         0x50;0x12; 0xff;0xff; 0;0; 0;0]);
     data_len := 54 |}.

Definition pkt_data : rte_mbuf :=
  {| buf := bytes_of_Zs
       ([0;1;2;3;4;5; 6;7;8;9;10;11; 0x08;0x00] ++
        [0x45;0;0;44; 0;0;0x40;0; 64;6;0;0; 10;0;0;2; 10;0;0;1] ++
        [0x01;0xbb; 0x9c;0x40; 0;0;0x13;0x89; 0;0;0x03;0xe9;
         0x50;0x18; 0xff;0xff; 0;0; 0;0] ++
        [112;105;110;103]);
     data_len := 58 |}.

(** A client 10.0.0.1:40000 for the peer 10.0.0.2:443 with initial
    sequence number 1000, the same after [connect] and the SYN-ACK
    above, and the peer's end of that connection; the checksums do not
    matter for these and are taken as zero. *)
Definition example_client : micro_tcp :=
  MicroTcp_new 0x0a000001 40000 0x0a000002 443 [6;7;8;9;10;11] [0;1;2;3;4;5]
    4 1000.

Definition example_established : micro_tcp :=
  do_calls (fun _ => 0) (fun _ _ => 0)
    [CallConnect; CallProcessRx (Some pkt_syn_ack)] example_client.

Definition example_peer : micro_tcp :=
  set_rcv_nxt_ 1001
    (set_state_ ESTABLISHED
       (MicroTcp_new 0x0a000002 443 0x0a000001 40000 [0;1;2;3;4;5]
          [6;7;8;9;10;11] 4 5000)).

(** *** Properties *)

Lemma land_15 x : 0 <= x -> Z.land x 0xf = x mod 16.
Proof. intros _. change 15 with (Z.ones 4). by rewrite Z.land_ones. Qed.

Lemma shiftr_4 x : Z.shiftr x 4 = x / 16.
Proof. by rewrite Z.shiftr_div_pow2. Qed.

Lemma ipv4_ihl_bytes_eq m ip : ipv4_ihl_bytes m ip = 4 * (load8 m ip mod 16).
Proof.
  unfold ipv4_ihl_bytes, uint16. rewrite Z.add_0_r.
  assert (H := byte_to_Z_range (nth (Z.to_nat ip) (buf m) Byte.x00)).
  fold (load8 m ip) in H. rewrite land_15 by lia.
  assert (0 <= load8 m ip mod 16 < 16) by (apply Z.mod_pos_bound; lia).
  rewrite Z.mod_small; lia.
Qed.

Lemma tcp_data_offset_bytes_eq m tcp :
  tcp_data_offset_bytes m tcp = 4 * (load8 m (tcp + 12) / 16).
Proof.
  unfold tcp_data_offset_bytes, uint16.
  assert (H := byte_to_Z_range (nth (Z.to_nat (tcp + 12)) (buf m) Byte.x00)).
  fold (load8 m (tcp + 12)) in H. rewrite shiftr_4.
  assert (0 <= load8 m (tcp + 12) / 16 < 16).
  { split; [apply Z.div_pos; lia|apply Z.div_lt_upper_bound; lia]. }
  rewrite Z.mod_small; lia.
Qed.

(** What [parse_tcp_packet] asks of a frame. *)
Lemma parse_tcp_packet_cases (m : rte_mbuf) :
  let ihl := 4 * (load8 m 14 mod 16) in
  let tcp_off := 4 * (load8 m (14 + ihl + 12) / 16) in
  if (14 <=? data_len m) && (ether_type_of m =? 0x0800) && (34 <=? data_len m)
     && (protocol_of m =? 6) && (20 <=? ihl) && (14 + ihl + 20 <=? data_len m)
     && (20 <=? tcp_off) && (14 + ihl + tcp_off <=? data_len m)
  then parse_tcp_packet (Some m) =
         {| eth_hdr := Some 0; ipv4_hdr := Some 14; tcp_hdr := Some (14 + ihl) |}
  else parse_tcp_packet (Some m) =
         {| eth_hdr := None; ipv4_hdr := None; tcp_hdr := None |}.
Proof.
  cbv zeta. unfold parse_tcp_packet.
  unfold sizeof_ether_hdr, MdParser.sizeof_rte_ipv4_hdr, sizeof_rte_tcp_hdr,
    off_ether_type, off_next_proto_id, RTE_ETHER_TYPE_IPV4, IPPROTO_TCP.
  cbv zeta. rewrite be16_load.
  change (wire16 m (0 + 12)) with (ether_type_of m).
  change (load8 m (0 + 14 + 9)) with (protocol_of m).
  rewrite ipv4_ihl_bytes_eq, tcp_data_offset_bytes_eq.
  change (0 + 14) with 14. change (14 + 20) with 34.
  rewrite (Z.leb_antisym (data_len m) 14), (Z.leb_antisym (data_len m) 34).
  rewrite (Z.leb_antisym _ 20), (Z.leb_antisym (data_len m) (14 + _ + 20)).
  rewrite (Z.leb_antisym (4 * (_ / 16)) 20).
  rewrite (Z.leb_antisym (data_len m) (14 + _ + 4 * _)).
  destruct (data_len m <? 14); [done|].
  destruct (ether_type_of m =? 2048); [|done].
  destruct (data_len m <? 34); [done|].
  destruct (protocol_of m =? 6); [|done].
  destruct (4 * (load8 m 14 mod 16) <? 20); [done|].
  destruct (data_len m <? 14 + 4 * (load8 m 14 mod 16) + 20); [done|].
  destruct (4 * (load8 m (14 + 4 * (load8 m 14 mod 16) + 12) / 16) <? 20); [done|].
  by destruct (data_len m <? _).
Qed.

Example parse_tcp_packet_syn_ack :
  parse_tcp_packet (Some pkt_syn_ack) =
    {| eth_hdr := Some 0; ipv4_hdr := Some 14; tcp_hdr := Some 34 |}.
Proof. vm_compute. reflexivity. Qed.

Example parse_tcp_packet_truncated :
  parse_tcp_packet (Some (with_data_len pkt_syn_ack 53)) =
    {| eth_hdr := None; ipv4_hdr := None; tcp_hdr := None |}.
Proof. vm_compute. reflexivity. Qed.

(** X8: [parse_tcp_packet] sets all three header pointers or none.  It
    sets them exactly for a frame with Ethernet type IPv4 and protocol
    TCP whose IPv4 header length and TCP data offset are both at least
    20 bytes and end inside [data_len]; the pointers are then the
    offsets 0, 14 and 14 + IHL, so that both headers with their
    options lie inside the frame.  A null mbuf sets none. *)
Theorem parse_tcp_packet_all_or_nothing (mbuf : option rte_mbuf) :
  let h := parse_tcp_packet mbuf in
  (h = {| eth_hdr := None; ipv4_hdr := None; tcp_hdr := None |} \/
   exists m, mbuf = Some m /\
     let ihl := 4 * ihl_of m in
     let tcp_off := 4 * (load8 m (14 + ihl + 12) / 16) in
     h = {| eth_hdr := Some 0; ipv4_hdr := Some 14; tcp_hdr := Some (14 + ihl) |} /\
     ether_type_of m = 0x0800 /\ protocol_of m = 6 /\
     20 <= ihl <= 60 /\ 20 <= tcp_off <= 60 /\
     14 + ihl + tcp_off <= data_len m)
  /\
  (forall m, mbuf = Some m ->
     let ihl := 4 * ihl_of m in
     let tcp_off := 4 * (load8 m (14 + ihl + 12) / 16) in
     ether_type_of m = 0x0800 -> protocol_of m = 6 ->
     20 <= ihl -> 20 <= tcp_off -> 14 + ihl + tcp_off <= data_len m ->
     tcp_hdr h = Some (14 + ihl)).
Proof.
  cbv zeta. destruct mbuf as [m|]; [|split; [by left|done]].
  pose proof (parse_tcp_packet_cases m) as Hc. cbv zeta in Hc.
  unfold ihl_of.
  assert (Hi : 0 <= load8 m 14 mod 16 < 16) by (apply Z.mod_pos_bound; lia).
  assert (Hb := byte_to_Z_range
                  (nth (Z.to_nat (14 + 4 * (load8 m 14 mod 16) + 12)) (buf m)
                     Byte.x00)).
  fold (load8 m (14 + 4 * (load8 m 14 mod 16) + 12)) in Hb.
  assert (Ho : 0 <= load8 m (14 + 4 * (load8 m 14 mod 16) + 12) / 16 < 16).
  { split; [apply Z.div_pos; lia|apply Z.div_lt_upper_bound; lia]. }
  destruct (_ && _) eqn:E in Hc.
  - rewrite !andb_true_iff, !Z.leb_le, !Z.eqb_eq in E.
    split; [|intros m' [= <-] _ _ _ _ _; by rewrite Hc].
    right. exists m. split; [done|]. split; [done|]. lia.
  - split; [by left|]. intros m' [= <-] H1 H2 H3 H4 H5.
    apply not_true_iff_false in E. exfalso. apply E.
    rewrite !andb_true_iff, !Z.leb_le, !Z.eqb_eq. lia.
Qed.

Lemma load32_agree (m m' : rte_mbuf) (off : Z) :
  take (Z.to_nat (data_len m)) (buf m) = take (Z.to_nat (data_len m)) (buf m') ->
  0 <= off -> off + 4 <= data_len m -> load32 m off = load32 m' off.
Proof.
  intros Ht H0 H2. unfold load32.
  rewrite (MdParser.load8_agree m m' off Ht) by lia.
  rewrite (MdParser.load8_agree m m' (off + 1) Ht) by lia.
  rewrite (MdParser.load8_agree m m' (off + 2) Ht) by lia.
  rewrite (MdParser.load8_agree m m' (off + 3) Ht) by lia. reflexivity.
Qed.

(** X9: [parse_tcp_packet] reads no byte at or behind [data_len], also
    where the offset of the TCP header comes from the frame: two mbufs
    with the same [data_len] whose buffers agree below it get the same
    pointers. *)
Theorem parse_tcp_packet_reads_below_data_len (m m' : rte_mbuf) :
  data_len m' = data_len m ->
  take (Z.to_nat (data_len m)) (buf m) = take (Z.to_nat (data_len m)) (buf m') ->
  parse_tcp_packet (Some m) = parse_tcp_packet (Some m').
Proof.
  intros Hd Ht. unfold parse_tcp_packet. rewrite Hd.
  unfold sizeof_ether_hdr, MdParser.sizeof_rte_ipv4_hdr, sizeof_rte_tcp_hdr,
    off_ether_type, off_next_proto_id.
  cbv zeta.
  destruct (Z.ltb_spec (data_len m) 14); [done|].
  rewrite <- (MdParser.load16_agree m m' (0 + 12) Ht) by lia.
  destruct (negb _); [done|].
  destruct (Z.ltb_spec (data_len m) (14 + 20)); [done|].
  rewrite <- (MdParser.load8_agree m m' (0 + 14 + 9) Ht) by lia.
  destruct (negb _); [done|].
  assert (Ei : ipv4_ihl_bytes m' (0 + 14) = ipv4_ihl_bytes m (0 + 14)).
  { unfold ipv4_ihl_bytes.
    by rewrite <- (MdParser.load8_agree m m' (0 + 14 + 0) Ht) by lia. }
  rewrite Ei. pose proof (ipv4_ihl_bytes_eq m (0 + 14)) as Hi.
  assert (0 <= load8 m (0 + 14) mod 16 < 16) by (apply Z.mod_pos_bound; lia).
  destruct (Z.ltb_spec (ipv4_ihl_bytes m (0 + 14)) 20); [done|].
  destruct (Z.ltb_spec (data_len m) (14 + ipv4_ihl_bytes m (0 + 14) + 20));
    [done|].
  cbn [orb].
  assert (Eo : tcp_data_offset_bytes m' (0 + 14 + ipv4_ihl_bytes m (0 + 14))
               = tcp_data_offset_bytes m (0 + 14 + ipv4_ihl_bytes m (0 + 14))).
  { unfold tcp_data_offset_bytes.
    by rewrite <- (MdParser.load8_agree m m' _ Ht) by lia. }
  rewrite Eo. reflexivity.
Qed.

Lemma parse_tcp_packet_reads_below_data_len_witness :
  let m' := {| buf := take 54 (buf pkt_syn_ack) ++ [Byte.xff; Byte.xff];
               data_len := 54 |} in
  data_len m' = data_len pkt_syn_ack /\
  take (Z.to_nat (data_len pkt_syn_ack)) (buf pkt_syn_ack)
    = take (Z.to_nat (data_len pkt_syn_ack)) (buf m') /\
  parse_tcp_packet (Some pkt_syn_ack) = parse_tcp_packet (Some m').
Proof.
  cbv zeta. split; [reflexivity|]. split; [vm_compute; reflexivity|].
  apply parse_tcp_packet_reads_below_data_len;
    [reflexivity|vm_compute; reflexivity].
Defined.

Lemma of_le_bytes_range (l : list Z) :
  Forall is_byte l -> 0 <= of_le_bytes l < 2 ^ (8 * Z.of_nat (length l)).
Proof.
  induction 1 as [|b l Hb Hl IH]; [simpl; lia|].
  cbn [of_le_bytes length].
  replace (8 * Z.of_nat (S (length l))) with (8 + 8 * Z.of_nat (length l)) by lia.
  rewrite Z.pow_add_r by lia. change (2 ^ 8) with 256.
  unfold is_byte in Hb. nia.
Qed.

Lemma bswap_range n x : 0 <= bswap n x < 2 ^ (8 * Z.of_nat n).
Proof.
  unfold bswap.
  pose proof (of_le_bytes_range (rev (le_bytes n x))) as H.
  rewrite length_rev, le_bytes_length in H. apply H.
  apply Forall_rev, le_bytes_are_bytes.
Qed.

Lemma rte_be_to_cpu_32_range x : 0 <= rte_be_to_cpu_32 x < 2 ^ 32.
Proof. apply (bswap_range 4 x). Qed.

Lemma uint32_range x : 0 <= uint32 x < 2 ^ 32.
Proof. apply Z.mod_pos_bound. lia. Qed.

Lemma uint16_range x : 0 <= uint16 x < 2 ^ 16.
Proof. apply Z.mod_pos_bound. lia. Qed.

Lemma read_bytes_length p n : length (read_bytes p n) = n.
Proof. unfold read_bytes. by rewrite length_map, length_seq. Qed.

Lemma set_mbuf_pool_same t : set_mbuf_pool_ (mbuf_pool_ t) t = t.
Proof. by destruct t. Qed.

Ltac fields :=
  cbn [state_ cached_headers_ src_ip_ src_port_ dst_ip_ dst_port_ src_mac_
       dst_mac_ iss_ snd_una_ snd_nxt_ rcv_nxt_ rx_buffer_ mbuf_pool_
       set_state_ set_snd_una_ set_snd_nxt_ set_rcv_nxt_ set_mbuf_pool_
       set_rx_buffer_ update_snd_nxt] in *.

Lemma well_formed_set_state s t : well_formed t -> well_formed (set_state_ s t).
Proof. done. Qed.

Lemma well_formed_set_mbuf_pool n t :
  well_formed t -> well_formed (set_mbuf_pool_ n t).
Proof. done. Qed.

Lemma well_formed_set_snd_una v t :
  0 <= v < 2 ^ 32 -> well_formed t -> well_formed (set_snd_una_ v t).
Proof.
  unfold well_formed. fields. intros Hv H.
  repeat split; try apply H; lia.
Qed.

Lemma well_formed_set_snd_nxt v t :
  0 <= v < 2 ^ 32 -> well_formed t -> well_formed (set_snd_nxt_ v t).
Proof.
  unfold well_formed. fields. intros Hv H.
  repeat split; try apply H; lia.
Qed.

Lemma well_formed_set_rcv_nxt v t :
  0 <= v < 2 ^ 32 -> well_formed t -> well_formed (set_rcv_nxt_ v t).
Proof.
  unfold well_formed. fields. intros Hv H.
  repeat split; try apply H; lia.
Qed.

Lemma well_formed_set_rx_buffer b t :
  Z.of_nat (length b) <= MAX_RX_BUFFER_SIZE ->
  well_formed t -> well_formed (set_rx_buffer_ b t).
Proof.
  unfold well_formed. fields. intros Hv H.
  repeat split; try apply H; lia.
Qed.

Lemma well_formed_MicroTcp_new src_ip src_port dst_ip dst_port src_mac dst_mac
    pool rand :
  well_formed
    (MicroTcp_new src_ip src_port dst_ip dst_port src_mac dst_mac pool rand).
Proof.
  unfold well_formed, MicroTcp_new.
  cbn [cached_headers_ src_ip_ src_port_ dst_ip_ dst_port_ src_mac_ dst_mac_
       iss_ snd_una_ snd_nxt_ rcv_nxt_ rx_buffer_].
  pose proof (uint32_range src_ip). pose proof (uint32_range dst_ip).
  pose proof (uint16_range src_port). pose proof (uint16_range dst_port).
  pose proof (uint32_range rand).
  repeat split; try lia; done.
Qed.

Ltac offsets :=
  repeat match goal with
  | |- context [Z.to_nat (Zpos ?p)] =>
      let n := eval vm_compute in (Z.to_nat (Zpos p)) in
      change (Z.to_nat (Zpos p)) with n
  | |- context [Zpos ?p + Zpos ?q] =>
      let n := eval vm_compute in (Zpos p + Zpos q) in
      change (Zpos p + Zpos q) with n
  | |- context [Zpos ?p + 0] => change (Zpos p + 0) with (Zpos p)
  end.

Lemma be32_field x :
  rte_be_to_cpu_32
    (of_le_bytes
       [(((x / 256) / 256) / 256) mod 256 mod 256; ((x / 256) / 256) mod 256 mod 256;
        (x / 256) mod 256 mod 256; x mod 256 mod 256]) = x mod 2 ^ 32.
Proof.
  rewrite !Z.mod_mod by lia.
  change [(((x / 256) / 256) / 256) mod 256; ((x / 256) / 256) mod 256;
          (x / 256) mod 256; x mod 256] with (be_bytes 4 x).
  apply (bswap_of_le_bytes_rev 4 x).
Qed.

Lemma be16_field x :
  rte_be_to_cpu_16 (of_le_bytes [(x / 256) mod 256 mod 256; x mod 256 mod 256])
  = x mod 2 ^ 16.
Proof.
  rewrite !Z.mod_mod by lia.
  change [(x / 256) mod 256; x mod 256] with (be_bytes 2 x).
  apply (bswap_of_le_bytes_rev 2 x).
Qed.

Ltac field :=
  unfold ipv4_total_length, ipv4_src_addr, ipv4_dst_addr, tcp_src_port,
    tcp_dst_port, tcp_sent_seq, tcp_recv_ack, tcp_flags, load32, load16, load8;
  offsets;
  lazy [tcp_frame_header buf nth map app be_bytes le_bytes rev rev_append
        ether_addr_bytes seq];
  rewrite ?byte_to_of_Z, ?be16_field, ?be32_field.

(** The fields of such a frame, read the way [parse_tcp_packet] and
    [process_rx] read them. *)
Lemma tcp_frame_fields t flags len ipck tcpck payload d :
  let m := {| buf := map byte_of_Z (tcp_frame_header t flags len ipck tcpck)
                     ++ payload;
              data_len := d |} in
  (load8 m 14 = 0x45 /\ load8 m 23 = 6 /\ load8 m 46 = 0x50 /\
   tcp_flags m 34 = flags mod 256) /\
  (rte_be_to_cpu_16 (load16 m 12) = 0x0800 /\
   ipv4_total_length m 14 = uint16 (uint16 (54 + len) - 14) /\
   tcp_src_port m 34 = src_port_ t mod 2 ^ 16 /\
   tcp_dst_port m 34 = dst_port_ t mod 2 ^ 16) /\
  (ipv4_src_addr m 14 = src_ip_ t mod 2 ^ 32 /\
   ipv4_dst_addr m 14 = dst_ip_ t mod 2 ^ 32) /\
  (tcp_sent_seq m 34 =
     (if negb (Z.land flags RTE_TCP_SYN_FLAG =? 0) then iss_ t else snd_nxt_ t)
     mod 2 ^ 32 /\
   tcp_recv_ack m 34 =
     (if negb (Z.land flags RTE_TCP_SYN_FLAG =? 0) then 0 else rcv_nxt_ t)
     mod 2 ^ 32).
Proof.
  cbv zeta. unfold tcp_frame_header.
  destruct (negb (Z.land flags RTE_TCP_SYN_FLAG =? 0)).
  - split; [|split; [|split]].
    + repeat split; field; reflexivity.
    + repeat split; field; try reflexivity. unfold uint16. apply Z.mod_mod. lia.
    + repeat split; field; reflexivity.
    + repeat split; field; reflexivity.
  - split; [|split; [|split]].
    + repeat split; field; reflexivity.
    + repeat split; field; try reflexivity. unfold uint16. apply Z.mod_mod. lia.
    + repeat split; field; reflexivity.
    + repeat split; field; reflexivity.
Qed.

Lemma tcp_frame_header_length t flags len ipck tcpck :
  length (tcp_frame_header t flags len ipck tcpck) = 54%nat.
Proof.
  unfold tcp_frame_header.
  by destruct (negb (Z.land flags RTE_TCP_SYN_FLAG =? 0)).
Qed.

(** [parse_tcp_packet] accepts such a frame, with the headers at 0, 14
    and 34. *)
Lemma tcp_frame_parses t flags len ipck tcpck payload d :
  54 <= d ->
  parse_tcp_packet
    (Some {| buf := map byte_of_Z (tcp_frame_header t flags len ipck tcpck)
                    ++ payload;
             data_len := d |}) =
    {| eth_hdr := Some 0; ipv4_hdr := Some 14; tcp_hdr := Some 34 |}.
Proof.
  intros Hd.
  pose proof (tcp_frame_fields t flags len ipck tcpck payload d) as Hf.
  cbv zeta in Hf. destruct Hf as ((H14 & H23 & H46 & _) & (H12 & _) & _).
  set (m := {| buf := _; data_len := d |}) in *.
  pose proof (parse_tcp_packet_cases m) as Hc. cbv zeta in Hc.
  rewrite be16_load in H12.
  change (wire16 m 12) with (ether_type_of m) in H12.
  change (load8 m 23) with (protocol_of m) in H23.
  rewrite H12, H23, H14 in Hc.
  change (4 * (69 mod 16)) with 20 in Hc. change (14 + 20 + 12) with 46 in Hc.
  rewrite H46 in Hc. change (4 * (80 / 16)) with 20 in Hc.
  change (data_len m) with d in Hc.
  replace (14 <=? d) with true in Hc by (symmetry; apply Z.leb_le; lia).
  replace (34 <=? d) with true in Hc by (symmetry; apply Z.leb_le; lia).
  replace (14 + 20 + 20 <=? d) with true in Hc by (symmetry; apply Z.leb_le; lia).
  exact Hc.
Qed.

Lemma read_bytes_take (p : list Byte.byte) (n : nat) :
  (n <= length p)%nat -> read_bytes p n = take n p.
Proof.
  intros Hn. unfold read_bytes.
  rewrite <- (length_take_le p n Hn) at 1.
  apply (map_seq_nth _ _ Byte.x00). intros i Hi. rewrite length_take in Hi.
  rewrite !nth_lookup, lookup_take_lt by lia. reflexivity.
Qed.

Section ChecksumLemmas.
Variable ip_cksum : list Byte.byte -> Z.
Variable tcp_cksum : list Byte.byte -> list Byte.byte -> Z.

(** The object after [create_tcp_packet]. *)
Lemma create_tcp_packet_object flags payload len t :
  (create_tcp_packet ip_cksum tcp_cksum flags payload len t).2 =
    match mbuf_pool_ t with
    | O => t
    | S free =>
        let t := set_mbuf_pool_ free t in
        if match payload with Some _ => 0 <? len | None => false end
        then update_snd_nxt len t
        else if negb (Z.land flags RTE_TCP_SYN_FLAG =? 0)
                || negb (Z.land flags RTE_TCP_FIN_FLAG =? 0)
             then update_snd_nxt 1 t else t
    end.
Proof.
  unfold create_tcp_packet. destruct (mbuf_pool_ t) as [|free]; [done|].
  cbv zeta. destruct (negb (Z.land flags RTE_TCP_SYN_FLAG =? 0)) eqn:E1; cbn [orb].
  - destruct payload as [bytes|]; [destruct (0 <? len)|]; reflexivity.
  - destruct payload as [bytes|]; [destruct (0 <? len)|];
      try reflexivity;
      by destruct (negb (Z.land flags RTE_TCP_FIN_FLAG =? 0)).
Qed.

Lemma push_ack_eq tx t :
  push_ack ip_cksum tcp_cksum (tx, t) =
    (tx ++ [(create_tcp_packet ip_cksum tcp_cksum RTE_TCP_ACK_FLAG None 0 t).1],
     set_mbuf_pool_ (Nat.pred (mbuf_pool_ t)) t).
Proof.
  unfold push_ack.
  pose proof (create_tcp_packet_object RTE_TCP_ACK_FLAG None 0 t) as H.
  destruct (create_tcp_packet _ _ _ _ _ _) as [pkt t']. cbn [fst snd] in *.
  rewrite H. f_equal. destruct (mbuf_pool_ t) as [|free] eqn:E.
  - symmetry. change (Nat.pred 0) with 0%nat. rewrite <- E.
    apply set_mbuf_pool_same.
  - reflexivity.
Qed.

Lemma well_formed_create_tcp_packet flags payload len t :
  well_formed t -> well_formed (create_tcp_packet ip_cksum tcp_cksum flags payload len t).2.
Proof.
  intros Hwf. rewrite create_tcp_packet_object.
  destruct (mbuf_pool_ t) as [|free]; [done|]. cbv zeta.
  unfold update_snd_nxt.
  destruct (match payload with Some _ => 0 <? len | None => false end).
  - by apply well_formed_set_snd_nxt; [apply uint32_range|].
  - destruct (_ || _); [|done].
    by apply well_formed_set_snd_nxt; [apply uint32_range|].
Qed.

Ltac case_if :=
  match goal with
  | |- context [if ?c then _ else _] => destruct c eqn:?
  end.

Ltac well_formed_step :=
  match goal with
  | H : well_formed ?t |- well_formed ?t => exact H
  | |- well_formed (set_state_ _ _) => apply well_formed_set_state
  | |- well_formed (set_mbuf_pool_ _ _) => apply well_formed_set_mbuf_pool
  | |- well_formed (set_snd_una_ _ _) =>
      apply well_formed_set_snd_una; [apply (bswap_range 4)|]
  | |- well_formed (set_rcv_nxt_ _ _) =>
      apply well_formed_set_rcv_nxt; [apply uint32_range|]
  | |- well_formed (set_rx_buffer_ _ _) =>
      apply well_formed_set_rx_buffer;
      [ rewrite length_app, read_bytes_length;
        match goal with
        | H : (MAX_RX_BUFFER_SIZE <? _ + uint16 ?x) = false |- _ =>
            apply Z.ltb_ge in H; pose proof (uint16_range x); lia
        end | ]
  end.

Lemma well_formed_process_rx rx_mbuf t :
  well_formed t -> well_formed (process_rx ip_cksum tcp_cksum rx_mbuf t).2.
Proof.
  intros Hwf. unfold process_rx. cbv zeta.
  destruct rx_mbuf as [m|]; [|done].
  destruct (eth_hdr _) as [eth|]; [|done].
  destruct (ipv4_hdr _) as [ip|]; [|done].
  destruct (tcp_hdr _) as [tcp|]; [|done].
  repeat (case_if; [exact Hwf|]).
  destruct (state_ t);
    repeat (first [rewrite push_ack_eq | case_if]); cbn [snd];
    repeat well_formed_step.
Qed.

Lemma well_formed_do_call c t :
  well_formed t -> well_formed (do_call ip_cksum tcp_cksum t c).
Proof.
  intros Hwf. destruct c as [|rx_mbuf|data len|]; cbn [do_call].
  - unfold connect. case_if; [done|].
    by apply well_formed_create_tcp_packet, well_formed_set_state.
  - by apply well_formed_process_rx.
  - unfold send_data. case_if; [done|].
    by apply well_formed_create_tcp_packet.
  - cbn [extract_rx_data snd].
    apply well_formed_set_rx_buffer; [|done]. cbn. unfold MAX_RX_BUFFER_SIZE. lia.
Qed.

Lemma well_formed_do_calls calls :
  forall t, well_formed t -> well_formed (do_calls ip_cksum tcp_cksum calls t).
Proof.
  induction calls as [|c calls IH]; intros t Hwf; [done|].
  cbn [do_calls fold_left]. apply IH. by apply well_formed_do_call.
Qed.

(** X10: whatever is called on a [MicroTcp] and whatever frames it is
    given, [rx_buffer_] never holds more than [MAX_RX_BUFFER_SIZE]
    bytes and the sequence numbers stay within 32 bits. *)
Theorem rx_buffer_stays_within_limit src_ip src_port dst_ip dst_port src_mac
    dst_mac pool rand (calls : list call) :
  let t := do_calls ip_cksum tcp_cksum calls
             (MicroTcp_new src_ip src_port dst_ip dst_port src_mac dst_mac
                pool rand) in
  Z.of_nat (length (rx_buffer_ t)) <= MAX_RX_BUFFER_SIZE /\
  0 <= snd_una_ t < 2 ^ 32 /\ 0 <= snd_nxt_ t < 2 ^ 32 /\
  0 <= rcv_nxt_ t < 2 ^ 32.
Proof.
  cbv zeta.
  pose proof (well_formed_do_calls calls _
                (well_formed_MicroTcp_new src_ip src_port dst_ip dst_port
                   src_mac dst_mac pool rand)) as H.
  destruct H as (_ & _ & _ & [_ H1] & [H2 H3] & H4). done.
Qed.

Ltac frame_bytes :=
  cbn [fst]; rewrite ?le_bytes_bswap;
  cbv [memcpy store8 insert list_insert take drop repeat app le_bytes be_bytes
       rev map seq ether_addr_bytes Nat.add length rev_append];
  match goal with
  | |- context [byte_of_Z (ip_cksum ?l mod 256)] => exists (ip_cksum l)
  end;
  match goal with
  | |- context [byte_of_Z (tcp_cksum ?l ?l' mod 256)] => exists (tcp_cksum l l')
  end;
  repeat f_equal; reflexivity.

(** What [create_tcp_packet] writes from the data pointer on, and the
    part of it the mbuf holds. *)
Lemma create_tcp_packet_room flags payload len t free :
  well_formed t -> mbuf_pool_ t = S free ->
  exists ipck tcpck,
    (create_tcp_packet ip_cksum tcp_cksum flags payload len t).1 =
      Some {| buf := take (Z.to_nat RTE_MBUF_DEFAULT_DATAROOM)
                       (map byte_of_Z (tcp_frame_header t flags len ipck tcpck)
                        ++ match payload with
                           | Some bytes =>
                               if 0 <? len then read_bytes bytes (Z.to_nat len)
                               else []
                           | None => []
                           end);
              data_len := uint16 (54 + len) |}.
Proof.
  intros [Hc _] Hp. unfold create_tcp_packet. rewrite Hp. cbv zeta.
  cbn [cached_headers_ set_mbuf_pool_ iss_ snd_nxt_ rcv_nxt_]. rewrite Hc.
  unfold calculate_ipv4_checksum, calculate_tcp_checksum, packet_template,
    rte_cpu_to_be_32, WebSocketFramer.rte_cpu_to_be_16, tcp_frame_header.
  rewrite !le_bytes_bswap.
  generalize (Z.to_nat RTE_MBUF_DEFAULT_DATAROOM). intros room.
  destruct (negb (Z.land flags RTE_TCP_SYN_FLAG =? 0)); cbn [orb].
  - destruct payload as [bytes|]; [destruct (0 <? len)|]; frame_bytes.
  - destruct payload as [bytes|]; [destruct (0 <? len)|];
      try destruct (negb (Z.land flags RTE_TCP_FIN_FLAG =? 0)); frame_bytes.
Qed.

(** The frame [create_tcp_packet] builds from the template, when the
    payload fits the data room behind the 54 header bytes. *)
Lemma create_tcp_packet_bytes flags payload len t free :
  well_formed t -> mbuf_pool_ t = S free ->
  match payload with
  | Some _ => 54 + len <= RTE_MBUF_DEFAULT_DATAROOM
  | None => True
  end ->
  exists ipck tcpck,
    (create_tcp_packet ip_cksum tcp_cksum flags payload len t).1 =
      Some {| buf := map byte_of_Z (tcp_frame_header t flags len ipck tcpck)
                     ++ match payload with
                        | Some bytes =>
                            if 0 <? len then read_bytes bytes (Z.to_nat len) else []
                        | None => []
                        end;
              data_len := uint16 (54 + len) |}.
Proof.
  intros Hwf Hp Hfit.
  destruct (create_tcp_packet_room flags payload len t free Hwf Hp)
    as (ipck & tcpck & H).
  exists ipck, tcpck. rewrite H. f_equal. f_equal. apply take_ge.
  rewrite length_app, length_map, tcp_frame_header_length.
  unfold RTE_MBUF_DEFAULT_DATAROOM in *.
  destruct payload as [bytes|]; [destruct (Z.ltb_spec 0 len)|];
    rewrite ?read_bytes_length; cbn [length]; lia.
Qed.

Lemma create_tcp_packet_state flags payload len t :
  state_ (create_tcp_packet ip_cksum tcp_cksum flags payload len t).2 = state_ t.
Proof.
  rewrite create_tcp_packet_object.
  destruct (mbuf_pool_ t) as [|free]; [done|]. cbv zeta.
  destruct (match payload with Some _ => 0 <? len | None => false end); [done|].
  by destruct (_ || _).
Qed.

(** The transitions a call can make. *)
Lemma do_call_state c t :
  let s := state_ t in
  let s' := state_ (do_call ip_cksum tcp_cksum t c) in
  s' = s \/ (s = CLOSED /\ s' = SYN_SENT) \/ (s = SYN_SENT /\ s' = ESTABLISHED)
  \/ (s = ESTABLISHED /\ s' = FIN_WAIT_2) \/ (s = FIN_WAIT_2 /\ s' = TIME_WAIT).
Proof.
  cbv zeta. destruct c as [|rx_mbuf|data len|]; cbn [do_call].
  - unfold connect. case_if; [by left|].
    rewrite create_tcp_packet_state. apply bool_decide_eq_false in Heqb.
    right. left. split; [|done].
    destruct (decide (state_ t = CLOSED)); [done|by destruct Heqb].
  - unfold process_rx. cbv zeta.
    destruct rx_mbuf as [m|]; [|by left].
    destruct (eth_hdr _) as [eth|]; [|by left].
    destruct (ipv4_hdr _) as [ip|]; [|by left].
    destruct (tcp_hdr _) as [tcp|]; [|by left].
    repeat (case_if; [by left|]).
    destruct (state_ t) eqn:Es; try (by left);
      repeat (first [rewrite push_ack_eq | case_if]); cbn [snd]; fields;
      rewrite ?Es; tauto.
  - unfold send_data. case_if; [by left|].
    rewrite create_tcp_packet_state. by left.
  - by left.
Qed.

(** X11: the state of a [MicroTcp] only moves forward in the order of
    the enumeration, whatever is called and received: there is no way
    back to [CLOSED] or [ESTABLISHED], so an object serves one
    connection; and no call ends in [FIN_WAIT_1]. *)
Theorem state_only_moves_forward (calls : list call) (t : micro_tcp) :
  let t' := do_calls ip_cksum tcp_cksum calls t in
  TcpState_value (state_ t) <= TcpState_value (state_ t') /\
  (state_ t' = FIN_WAIT_1 -> state_ t = FIN_WAIT_1).
Proof.
  cbv zeta. revert t. induction calls as [|c calls IH]; intros t; [done|].
  cbn [do_calls fold_left].
  destruct (IH (do_call ip_cksum tcp_cksum t c)) as [IH1 IH2].
  pose proof (do_call_state c t) as Hc. cbv zeta in Hc.
  split.
  - etrans; [|exact IH1].
    destruct Hc as [->|[[-> ->]|[[-> ->]|[[-> ->]|[-> ->]]]]]; cbn; lia.
  - intros H. specialize (IH2 H).
    destruct Hc as [E|[[_ E]|[[_ E]|[[_ E]|[_ E]]]]]; congruence.
Qed.

Lemma create_tcp_packet_pair flags payload len t :
  create_tcp_packet ip_cksum tcp_cksum flags payload len t =
    ((create_tcp_packet ip_cksum tcp_cksum flags payload len t).1,
     (create_tcp_packet ip_cksum tcp_cksum flags payload len t).2).
Proof. apply surjective_pairing. Qed.

(** X12: the three-way handshake of a fresh object.  [connect] moves it
    to [SYN_SENT] and returns a SYN carrying the initial sequence
    number.  A segment of the peer that [parse_tcp_packet] accepts,
    addressed to this connection, with SYN and ACK set and
    acknowledging [iss_ + 1], then moves it to [ESTABLISHED]:
    [rcv_nxt_] is the peer's sequence number plus one, [snd_una_] and
    [snd_nxt_] are [iss_ + 1], and [process_rx] returns exactly one
    packet, an ACK with these two numbers. *)
Theorem handshake_establishes src_ip src_port dst_ip dst_port src_mac dst_mac
    (pool : nat) (rand : Z) (rx : rte_mbuf) (tcp : Z) :
  let t := MicroTcp_new src_ip src_port dst_ip dst_port src_mac dst_mac
             (S (S pool)) rand in
  parse_tcp_packet (Some rx) =
    {| eth_hdr := Some 0; ipv4_hdr := Some 14; tcp_hdr := Some tcp |} ->
  ipv4_dst_addr rx 14 = src_ip_ t -> tcp_dst_port rx tcp = src_port_ t ->
  ipv4_src_addr rx 14 = dst_ip_ t -> tcp_src_port rx tcp = dst_port_ t ->
  ipv4_ihl_bytes rx 14 + tcp_data_offset_bytes rx tcp <= ipv4_total_length rx 14 ->
  Z.land (tcp_flags rx tcp) RTE_TCP_SYN_FLAG <> 0 ->
  Z.land (tcp_flags rx tcp) RTE_TCP_ACK_FLAG <> 0 ->
  tcp_recv_ack rx tcp = uint32 (iss_ t + 1) ->
  exists syn ack t1 t2,
    connect ip_cksum tcp_cksum t = (Some syn, t1) /\
    state_ t1 = SYN_SENT /\
    tcp_flags syn 34 = RTE_TCP_SYN_FLAG /\ tcp_sent_seq syn 34 = iss_ t /\
    process_rx ip_cksum tcp_cksum (Some rx) t1 = ([Some ack], t2) /\
    state_ t2 = ESTABLISHED /\
    snd_una_ t2 = uint32 (iss_ t + 1) /\ snd_nxt_ t2 = uint32 (iss_ t + 1) /\
    rcv_nxt_ t2 = uint32 (tcp_sent_seq rx tcp + 1) /\
    tcp_flags ack 34 = RTE_TCP_ACK_FLAG /\
    tcp_sent_seq ack 34 = snd_nxt_ t2 /\ tcp_recv_ack ack 34 = rcv_nxt_ t2.
Proof.
  cbv zeta. intros Hparse Hda Hdp Hsa Hsp Hlen Hsyn Hack Hra.
  pose proof (well_formed_MicroTcp_new src_ip src_port dst_ip dst_port src_mac
                dst_mac (S (S pool)) rand) as Hwf.
  set (t := MicroTcp_new src_ip src_port dst_ip dst_port src_mac dst_mac
              (S (S pool)) rand) in *.
  (* connect *)
  assert (Hwf0 : well_formed (set_state_ SYN_SENT t))
    by (by apply well_formed_set_state).
  destruct (create_tcp_packet_bytes RTE_TCP_SYN_FLAG None 0
              (set_state_ SYN_SENT t) (S pool) Hwf0 eq_refl I)
    as (ipck & tcpck & Hsyn_pkt).
  pose proof (create_tcp_packet_object RTE_TCP_SYN_FLAG None 0
                (set_state_ SYN_SENT t)) as Hobj.
  change (mbuf_pool_ (set_state_ SYN_SENT t)) with (S (S pool)) in Hobj.
  cbv zeta in Hobj.
  change (negb (Z.land RTE_TCP_SYN_FLAG RTE_TCP_SYN_FLAG =? 0)) with true in Hobj.
  cbn [orb] in Hobj.
  set (t1 := update_snd_nxt 1 (set_mbuf_pool_ (S pool) (set_state_ SYN_SENT t)))
    in *.
  pose proof (tcp_frame_fields (set_state_ SYN_SENT t) RTE_TCP_SYN_FLAG 0 ipck
                tcpck [] (uint16 (54 + 0))) as Hf.
  cbv zeta in Hf. destruct Hf as ((_ & _ & _ & Hflags) & _ & _ & (Hseq & _)).
  change (negb (Z.land RTE_TCP_SYN_FLAG RTE_TCP_SYN_FLAG =? 0)) with true in Hseq.
  (* the SYN-ACK *)
  assert (Hwf1 : well_formed t1).
  { apply well_formed_set_snd_nxt; [apply uint32_range|].
    by apply well_formed_set_mbuf_pool. }
  set (t1' := set_state_ ESTABLISHED
                (set_snd_una_ (tcp_recv_ack rx tcp)
                   (set_rcv_nxt_ (uint32 (tcp_sent_seq rx tcp + 1)) t1))).
  assert (Hwf1' : well_formed t1').
  { apply well_formed_set_state.
    apply well_formed_set_snd_una; [apply (bswap_range 4)|].
    by apply well_formed_set_rcv_nxt; [apply uint32_range|]. }
  destruct (create_tcp_packet_bytes RTE_TCP_ACK_FLAG None 0 t1' pool Hwf1'
              eq_refl I) as (ipck' & tcpck' & Hack_pkt).
  pose proof (tcp_frame_fields t1' RTE_TCP_ACK_FLAG 0 ipck' tcpck' []
                (uint16 (54 + 0))) as Hf'.
  cbv zeta in Hf'.
  destruct Hf' as ((_ & _ & _ & Hflags') & _ & _ & (Hseq' & Hack')).
  change (negb (Z.land RTE_TCP_ACK_FLAG RTE_TCP_SYN_FLAG =? 0)) with false
    in Hseq', Hack'.
  eexists _, _, t1, (set_mbuf_pool_ pool t1').
  split.
  { unfold connect. change (state_ t) with CLOSED.
    rewrite bool_decide_eq_false_2 by (intros H; by apply H).
    rewrite create_tcp_packet_pair, Hobj, Hsyn_pkt. reflexivity. }
  split; [reflexivity|].
  split; [exact Hflags|].
  split.
  { rewrite Hseq. apply Z.mod_small. apply uint32_range. }
  split.
  { unfold process_rx. cbv zeta. rewrite Hparse. cbn [eth_hdr ipv4_hdr tcp_hdr].
    change (src_ip_ t1) with (src_ip_ t). change (src_port_ t1) with (src_port_ t).
    change (dst_ip_ t1) with (dst_ip_ t). change (dst_port_ t1) with (dst_port_ t).
    rewrite Hda, Hdp, Hsa, Hsp, !Z.eqb_refl. cbn [negb orb].
    destruct (Z.ltb_spec (ipv4_total_length rx 14)
                (ipv4_ihl_bytes rx 14 + tcp_data_offset_bytes rx tcp)); [lia|].
    change (state_ t1) with SYN_SENT. cbv iota.
    apply Z.eqb_neq in Hsyn, Hack. rewrite Hsyn, Hack. cbn [negb andb].
    change (iss_ t1) with (iss_ t). rewrite Hra, Z.eqb_refl.
    rewrite <- Hra. fold t1'. rewrite push_ack_eq, Hack_pkt. reflexivity. }
  split; [reflexivity|].
  split; [exact Hra|].
  split; [reflexivity|].
  split; [reflexivity|].
  split; [exact Hflags'|].
  split.
  - rewrite Hseq'. apply Z.mod_small. apply uint32_range.
  - rewrite Hack'. apply Z.mod_small. apply uint32_range.
Qed.

Lemma ipv4_total_length_range m ip : 0 <= ipv4_total_length m ip < 2 ^ 16.
Proof. apply (bswap_range 2). Qed.

(** X13: data in order.  In [ESTABLISHED], a segment that
    [parse_tcp_packet] accepts, addressed to this connection, without
    FIN, whose sequence number is [rcv_nxt_] and which carries [n > 0]
    bytes is answered by exactly one packet; [rcv_nxt_] advances by
    [n]; the [n] bytes behind the two headers are appended to
    [rx_buffer_], unless that would exceed [MAX_RX_BUFFER_SIZE]: then
    the buffer stays as it is, and the bytes are acknowledged all the
    same.  [n] is the IPv4 total length minus the two header lengths;
    [data_len] is not consulted for it. *)
Theorem in_order_data_is_buffered (t : micro_tcp) (rx : rte_mbuf) (tcp : Z) :
  state_ t = ESTABLISHED ->
  parse_tcp_packet (Some rx) =
    {| eth_hdr := Some 0; ipv4_hdr := Some 14; tcp_hdr := Some tcp |} ->
  ipv4_dst_addr rx 14 = src_ip_ t -> tcp_dst_port rx tcp = src_port_ t ->
  ipv4_src_addr rx 14 = dst_ip_ t -> tcp_src_port rx tcp = dst_port_ t ->
  let hdrs := ipv4_ihl_bytes rx 14 + tcp_data_offset_bytes rx tcp in
  let n := ipv4_total_length rx 14 - hdrs in
  0 < n ->
  tcp_sent_seq rx tcp = rcv_nxt_ t ->
  Z.land (tcp_flags rx tcp) RTE_TCP_FIN_FLAG = 0 ->
  exists tx t',
    process_rx ip_cksum tcp_cksum (Some rx) t = ([tx], t') /\
    state_ t' = ESTABLISHED /\
    rcv_nxt_ t' = uint32 (rcv_nxt_ t + n) /\
    rx_buffer_ t' =
      if MAX_RX_BUFFER_SIZE <? Z.of_nat (length (rx_buffer_ t)) + n
      then rx_buffer_ t
      else rx_buffer_ t
           ++ read_bytes (drop (Z.to_nat (14 + hdrs)) (buf rx)) (Z.to_nat n).
Proof.
  intros Hst Hparse Hda Hdp Hsa Hsp. cbv zeta. intros Hn Hseq Hfin.
  pose proof (ipv4_total_length_range rx 14) as Hr.
  unfold process_rx. cbv zeta. rewrite Hparse. cbn [eth_hdr ipv4_hdr tcp_hdr].
  rewrite Hda, Hdp, Hsa, Hsp, !Z.eqb_refl. cbn [negb orb].
  destruct (Z.ltb_spec (ipv4_total_length rx 14)
              (ipv4_ihl_bytes rx 14 + tcp_data_offset_bytes rx tcp)); [lia|].
  rewrite Hst.
  assert (Hu : uint16 (ipv4_total_length rx 14 - ipv4_ihl_bytes rx 14
                       - tcp_data_offset_bytes rx tcp)
               = ipv4_total_length rx 14
                 - (ipv4_ihl_bytes rx 14 + tcp_data_offset_bytes rx tcp)).
  { unfold uint16. rewrite Z.mod_small; [lia|].
    pose proof (uint16_range (Z.land (load8 rx (14 + 0)) 15 * 4)) as H1.
    pose proof (uint16_range (Z.shiftr (load8 rx (tcp + 12)) 4 * 4)) as H2.
    fold (ipv4_ihl_bytes rx 14) in H1. fold (tcp_data_offset_bytes rx tcp) in H2.
    lia. }
  rewrite Hu.
  destruct (Z.ltb_spec 0 (ipv4_total_length rx 14
              - (ipv4_ihl_bytes rx 14 + tcp_data_offset_bytes rx tcp))); [|lia].
  rewrite Hseq, Z.eqb_refl, Hfin. cbn [Z.eqb negb].
  unfold sizeof_ether_hdr. rewrite Z.add_assoc.
  destruct (MAX_RX_BUFFER_SIZE <? _); rewrite push_ack_eq; cbn [app];
    destruct (snd_una_ _ <? _); eexists _, _; (split; [reflexivity|]);
    by repeat split.
Qed.

(** X14: what one end sends the other receives.  [a] is any object
    reached from the constructor, in [ESTABLISHED], with an mbuf left;
    [b] is an object in [ESTABLISHED] for the same connection seen
    from the other end, expecting [a]'s next sequence number.  Then
    the packet [send_data] returns for [len] bytes, where the 54
    header bytes and the [len] bytes fit the data room of the mbuf, is
    accepted by [b]'s [process_rx]: [b] appends exactly these bytes to
    its [rx_buffer_] (if they fit there), answers with one packet, and
    its [rcv_nxt_] equals [a]'s new [snd_nxt_]. *)
Theorem sent_data_is_received src_ip src_port dst_ip dst_port src_mac dst_mac
    (pool : nat) (rand : Z) (calls : list call) (b : micro_tcp)
    (data : list Byte.byte) (len : Z) :
  let a := do_calls ip_cksum tcp_cksum calls
             (MicroTcp_new src_ip src_port dst_ip dst_port src_mac dst_mac
                pool rand) in
  state_ a = ESTABLISHED -> mbuf_pool_ a <> 0%nat ->
  state_ b = ESTABLISHED ->
  src_ip_ b = dst_ip_ a -> src_port_ b = dst_port_ a ->
  dst_ip_ b = src_ip_ a -> dst_port_ b = src_port_ a ->
  rcv_nxt_ b = snd_nxt_ a ->
  0 < len <= RTE_MBUF_DEFAULT_DATAROOM - 54 -> len <= Z.of_nat (length data) ->
  exists pkt a' tx b',
    send_data ip_cksum tcp_cksum data len a = (Some pkt, a') /\
    process_rx ip_cksum tcp_cksum (Some pkt) b = ([tx], b') /\
    state_ b' = ESTABLISHED /\
    rcv_nxt_ b' = snd_nxt_ a' /\
    rx_buffer_ b' =
      if MAX_RX_BUFFER_SIZE <? Z.of_nat (length (rx_buffer_ b)) + len
      then rx_buffer_ b
      else rx_buffer_ b ++ take (Z.to_nat len) data.
Proof.
  cbv zeta. intros Hsa Hpool Hsb Hip Hport Hip' Hport' Hnxt Hlen Hdata.
  unfold RTE_MBUF_DEFAULT_DATAROOM in Hlen.
  pose proof (well_formed_do_calls calls _
                (well_formed_MicroTcp_new src_ip src_port dst_ip dst_port
                   src_mac dst_mac pool rand)) as Hwf.
  set (a := do_calls ip_cksum tcp_cksum calls _) in *.
  destruct (mbuf_pool_ a) as [|free] eqn:Ep; [done|]. clear Hpool.
  assert (Hu : uint16 len = len) by (apply Z.mod_small; lia).
  assert (Hpos : (0 <? len) = true) by (apply Z.ltb_lt; lia).
  (* the packet *)
  destruct (create_tcp_packet_bytes (Z.lor RTE_TCP_PSH_FLAG RTE_TCP_ACK_FLAG)
              (Some data) len a free Hwf Ep
              ltac:(unfold RTE_MBUF_DEFAULT_DATAROOM; lia))
    as (ipck & tcpck & Hpkt).
  rewrite Hpos in Hpkt.
  pose proof (create_tcp_packet_object (Z.lor RTE_TCP_PSH_FLAG RTE_TCP_ACK_FLAG)
                (Some data) len a) as Hobj.
  rewrite Ep, Hpos in Hobj. cbv zeta in Hobj.
  assert (Hd : uint16 (54 + len) = 54 + len) by (apply Z.mod_small; lia).
  rewrite Hd in Hpkt.
  set (payload := read_bytes data (Z.to_nat len)) in *.
  set (flags := Z.lor RTE_TCP_PSH_FLAG RTE_TCP_ACK_FLAG) in *.
  pose proof (tcp_frame_fields a flags len ipck tcpck payload (54 + len)) as Hf.
  pose proof (tcp_frame_parses a flags len ipck tcpck payload (54 + len)
                ltac:(lia)) as Hparse.
  cbv zeta in Hf.
  set (pkt := {| buf := _; data_len := 54 + len |}) in *.
  destruct Hf as ((H14 & _ & H46 & Hflags) & (_ & Htl & Hsp & Hdp)
                  & (Hsip & Hdip) & (Hseq & _)).
  change (negb (Z.land flags RTE_TCP_SYN_FLAG =? 0)) with false in Hseq.
  change (flags mod 256) with 24 in Hflags.
  destruct Hwf as (_ & [Hr1 Hr2] & [Hr3 Hr4] & _ & [Hr5 _] & _).
  rewrite Z.mod_small in Hsp, Hdp, Hsip, Hdip, Hseq by lia.
  rewrite Hd in Htl.
  assert (Htl' : ipv4_total_length pkt 14 = 40 + len).
  { rewrite Htl. unfold uint16. rewrite Z.mod_small; lia. }
  assert (Hihl : ipv4_ihl_bytes pkt 14 = 20)
    by (by rewrite ipv4_ihl_bytes_eq, H14).
  assert (Hoff : tcp_data_offset_bytes pkt 34 = 20).
  { rewrite tcp_data_offset_bytes_eq. change (34 + 12) with 46. by rewrite H46. }
  assert (Hpayload : read_bytes (drop (Z.to_nat (14 + 20 + 20)) (buf pkt))
                       (Z.to_nat len) = take (Z.to_nat len) data).
  { change (buf pkt) with
      (map byte_of_Z (tcp_frame_header a flags len ipck tcpck) ++ payload).
    rewrite drop_app_length'
      by (by rewrite length_map, tcp_frame_header_length).
    unfold payload. rewrite (read_bytes_take data) by lia.
    rewrite read_bytes_take by (rewrite length_take; lia).
    rewrite take_take. f_equal. lia. }
  assert (Hrx : exists tx b',
             process_rx ip_cksum tcp_cksum (Some pkt) b = ([tx], b') /\
             state_ b' = ESTABLISHED /\
             rcv_nxt_ b' = uint32 (snd_nxt_ a + len) /\
             rx_buffer_ b' =
               if MAX_RX_BUFFER_SIZE <? Z.of_nat (length (rx_buffer_ b)) + len
               then rx_buffer_ b
               else rx_buffer_ b ++ take (Z.to_nat len) data).
  { unfold process_rx. cbv zeta. rewrite Hparse. cbn [eth_hdr ipv4_hdr tcp_hdr].
    rewrite Hdip, Hdp, Hsip, Hsp, Hip, Hport, Hip', Hport', !Z.eqb_refl.
    cbn [negb orb]. rewrite Htl', Hihl, Hoff, Hsb.
    change (40 + len <? 20 + 20) with (40 + len <? 40).
    destruct (Z.ltb_spec (40 + len) 40); [lia|].
    replace (40 + len - 20 - 20) with len by lia. rewrite Hu, Hpos.
    rewrite Hseq, Hnxt, Z.eqb_refl.
    unfold sizeof_ether_hdr. rewrite Hpayload.
    destruct (MAX_RX_BUFFER_SIZE <? _); rewrite push_ack_eq; cbn [app];
      destruct (snd_una_ _ <? _); eexists _, _; (split; [reflexivity|]);
      repeat split; fields; by rewrite ?Hnxt. }
  destruct Hrx as (tx & b' & Hrx & Hst' & Hnxt' & Hbuf).
  exists pkt, (update_snd_nxt len (set_mbuf_pool_ free a)), tx, b'.
  split.
  { unfold send_data. rewrite Hsa.
    rewrite bool_decide_eq_false_2 by (intros H; by apply H).
    fold flags. rewrite Hu, create_tcp_packet_pair, Hobj, Hpkt. reflexivity. }
  split; [exact Hrx|]. split; [exact Hst'|]. split; [exact Hnxt'|exact Hbuf].
Qed.

(** X25: [send_data] checks no tailroom.  For an object reached from
    the constructor, in [ESTABLISHED] and with an mbuf left, a payload
    too long for the data room behind the 54 header bytes is neither
    refused nor cut: [send_data] returns an mbuf whose [data_len] is
    the full [54 + len], more than the room of the mbuf, of which only
    the first [RTE_MBUF_DEFAULT_DATAROOM] bytes of the frame lie in
    the mbuf, and [snd_nxt_] advances by [len]. *)
Theorem send_data_checks_no_tailroom src_ip src_port dst_ip dst_port src_mac
    dst_mac (pool : nat) (rand : Z) (calls : list call)
    (data : list Byte.byte) (len : Z) :
  let a := do_calls ip_cksum tcp_cksum calls
             (MicroTcp_new src_ip src_port dst_ip dst_port src_mac dst_mac
                pool rand) in
  state_ a = ESTABLISHED -> mbuf_pool_ a <> 0%nat ->
  RTE_MBUF_DEFAULT_DATAROOM - 54 < len <= 65481 ->
  len <= Z.of_nat (length data) ->
  exists pkt a',
    send_data ip_cksum tcp_cksum data len a = (Some pkt, a') /\
    data_len pkt = 54 + len /\
    RTE_MBUF_DEFAULT_DATAROOM < data_len pkt /\
    Z.of_nat (length (buf pkt)) = RTE_MBUF_DEFAULT_DATAROOM /\
    snd_nxt_ a' = uint32 (snd_nxt_ a + len).
Proof.
  cbv zeta. intros Hsa Hpool Hlen Hdata.
  pose proof (well_formed_do_calls calls _
                (well_formed_MicroTcp_new src_ip src_port dst_ip dst_port
                   src_mac dst_mac pool rand)) as Hwf.
  set (a := do_calls ip_cksum tcp_cksum calls _) in *.
  destruct (mbuf_pool_ a) as [|free] eqn:Ep; [done|]. clear Hpool.
  unfold RTE_MBUF_DEFAULT_DATAROOM in Hlen.
  assert (Hu : uint16 len = len) by (apply Z.mod_small; lia).
  assert (Hpos : (0 <? len) = true) by (apply Z.ltb_lt; lia).
  destruct (create_tcp_packet_room (Z.lor RTE_TCP_PSH_FLAG RTE_TCP_ACK_FLAG)
              (Some data) len a free Hwf Ep) as (ipck & tcpck & Hpkt).
  rewrite Hpos in Hpkt.
  pose proof (create_tcp_packet_object (Z.lor RTE_TCP_PSH_FLAG RTE_TCP_ACK_FLAG)
                (Some data) len a) as Hobj.
  rewrite Ep, Hpos in Hobj. cbv zeta in Hobj.
  assert (Hd : uint16 (54 + len) = 54 + len) by (apply Z.mod_small; lia).
  rewrite Hd in Hpkt.
  eexists _, (update_snd_nxt len (set_mbuf_pool_ free a)).
  split.
  { unfold send_data. rewrite Hsa.
    rewrite bool_decide_eq_false_2 by (intros H; by apply H).
    rewrite Hu, create_tcp_packet_pair, Hobj, Hpkt. reflexivity. }
  cbn [data_len buf]. split; [reflexivity|].
  split; [unfold RTE_MBUF_DEFAULT_DATAROOM; lia|].
  split; [|reflexivity].
  rewrite length_take, length_app, length_map, tcp_frame_header_length,
    read_bytes_length.
  unfold RTE_MBUF_DEFAULT_DATAROOM. lia.
Qed.

(** X15: when the pool is empty [connect] returns a null pointer but
    has already moved the object to [SYN_SENT], without consuming a
    sequence number; every later [connect] is then refused, also when
    the pool has mbufs again. *)
Theorem connect_without_mbuf (t : micro_tcp) :
  state_ t = CLOSED -> mbuf_pool_ t = 0%nat ->
  connect ip_cksum tcp_cksum t = (None, set_state_ SYN_SENT t) /\
  forall n,
    connect ip_cksum tcp_cksum (set_mbuf_pool_ n (set_state_ SYN_SENT t)) =
      (None, set_mbuf_pool_ n (set_state_ SYN_SENT t)).
Proof.
  intros Hst Hpool. split.
  - unfold connect. rewrite Hst.
    rewrite bool_decide_eq_false_2 by (intros H; by apply H).
    unfold create_tcp_packet.
    change (mbuf_pool_ (set_state_ SYN_SENT t)) with (mbuf_pool_ t).
    by rewrite Hpool.
  - intros n. unfold connect.
    change (state_ (set_mbuf_pool_ n (set_state_ SYN_SENT t))) with SYN_SENT.
    by rewrite bool_decide_eq_true_2.
Qed.

End ChecksumLemmas.

Lemma connect_without_mbuf_witness :
  let t := set_mbuf_pool_ 0 example_client in
  state_ t = CLOSED /\ mbuf_pool_ t = 0%nat /\
  connect (fun _ => 0) (fun _ _ => 0) t = (None, set_state_ SYN_SENT t).
Proof.
  cbv zeta. split; [reflexivity|]. split; [reflexivity|].
  apply (connect_without_mbuf (fun _ => 0) (fun _ _ => 0)
           (set_mbuf_pool_ 0 example_client)); reflexivity.
Defined.

Lemma handshake_establishes_witness :
  let t := example_client in
  (parse_tcp_packet (Some pkt_syn_ack) =
     {| eth_hdr := Some 0; ipv4_hdr := Some 14; tcp_hdr := Some 34 |} /\
   ipv4_dst_addr pkt_syn_ack 14 = src_ip_ t /\
   tcp_dst_port pkt_syn_ack 34 = src_port_ t /\
   ipv4_src_addr pkt_syn_ack 14 = dst_ip_ t /\
   tcp_src_port pkt_syn_ack 34 = dst_port_ t /\
   ipv4_ihl_bytes pkt_syn_ack 14 + tcp_data_offset_bytes pkt_syn_ack 34
     <= ipv4_total_length pkt_syn_ack 14 /\
   Z.land (tcp_flags pkt_syn_ack 34) RTE_TCP_SYN_FLAG <> 0 /\
   Z.land (tcp_flags pkt_syn_ack 34) RTE_TCP_ACK_FLAG <> 0 /\
   tcp_recv_ack pkt_syn_ack 34 = uint32 (iss_ t + 1)) /\
  exists syn ack t1 t2,
    connect (fun _ => 0) (fun _ _ => 0) t = (Some syn, t1) /\
    state_ t1 = SYN_SENT /\
    tcp_flags syn 34 = RTE_TCP_SYN_FLAG /\ tcp_sent_seq syn 34 = iss_ t /\
    process_rx (fun _ => 0) (fun _ _ => 0) (Some pkt_syn_ack) t1
      = ([Some ack], t2) /\
    state_ t2 = ESTABLISHED /\
    snd_una_ t2 = uint32 (iss_ t + 1) /\ snd_nxt_ t2 = uint32 (iss_ t + 1) /\
    rcv_nxt_ t2 = uint32 (tcp_sent_seq pkt_syn_ack 34 + 1) /\
    tcp_flags ack 34 = RTE_TCP_ACK_FLAG /\
    tcp_sent_seq ack 34 = snd_nxt_ t2 /\ tcp_recv_ack ack 34 = rcv_nxt_ t2.
Proof.
  cbv zeta. split.
  - repeat split; vm_compute; congruence.
  - apply (handshake_establishes (fun _ => 0) (fun _ _ => 0) 0x0a000001 40000
             0x0a000002 443 [6;7;8;9;10;11] [0;1;2;3;4;5] 2 1000 pkt_syn_ack 34);
      vm_compute; congruence.
Defined.

Lemma in_order_data_is_buffered_witness :
  let t := example_established in
  (state_ t = ESTABLISHED /\
   parse_tcp_packet (Some pkt_data) =
     {| eth_hdr := Some 0; ipv4_hdr := Some 14; tcp_hdr := Some 34 |} /\
   ipv4_dst_addr pkt_data 14 = src_ip_ t /\
   tcp_dst_port pkt_data 34 = src_port_ t /\
   ipv4_src_addr pkt_data 14 = dst_ip_ t /\
   tcp_src_port pkt_data 34 = dst_port_ t /\
   0 < ipv4_total_length pkt_data 14
       - (ipv4_ihl_bytes pkt_data 14 + tcp_data_offset_bytes pkt_data 34) /\
   tcp_sent_seq pkt_data 34 = rcv_nxt_ t /\
   Z.land (tcp_flags pkt_data 34) RTE_TCP_FIN_FLAG = 0) /\
  exists tx t',
    process_rx (fun _ => 0) (fun _ _ => 0) (Some pkt_data) t = ([tx], t') /\
    state_ t' = ESTABLISHED /\
    rcv_nxt_ t' = 5005 /\
    rx_buffer_ t' = bytes_of_Zs [112; 105; 110; 103].
Proof.
  cbv zeta. split.
  - repeat split; vm_compute; congruence.
  - destruct (in_order_data_is_buffered (fun _ => 0) (fun _ _ => 0)
                example_established pkt_data 34)
      as (tx & t' & H1 & H2 & H3 & H4); try (vm_compute; congruence).
    exists tx, t'. split; [exact H1|]. split; [exact H2|].
    split; [rewrite H3|rewrite H4]; vm_compute; reflexivity.
Defined.

Lemma sent_data_is_received_witness :
  let a := example_established in
  let b := example_peer in
  let data := bytes_of_Zs [112; 105; 110; 103] in
  (state_ a = ESTABLISHED /\ mbuf_pool_ a <> 0%nat /\ state_ b = ESTABLISHED /\
   src_ip_ b = dst_ip_ a /\ src_port_ b = dst_port_ a /\
   dst_ip_ b = src_ip_ a /\ dst_port_ b = src_port_ a /\
   rcv_nxt_ b = snd_nxt_ a /\ 0 < 4 <= RTE_MBUF_DEFAULT_DATAROOM - 54 /\
   4 <= Z.of_nat (length data)) /\
  exists pkt a' tx b',
    send_data (fun _ => 0) (fun _ _ => 0) data 4 a = (Some pkt, a') /\
    process_rx (fun _ => 0) (fun _ _ => 0) (Some pkt) b = ([tx], b') /\
    state_ b' = ESTABLISHED /\ rcv_nxt_ b' = snd_nxt_ a' /\
    rx_buffer_ b' = data.
Proof.
  cbv zeta. split.
  - repeat split; vm_compute; congruence.
  - pose proof (sent_data_is_received (fun _ => 0) (fun _ _ => 0) 0x0a000001 40000
                0x0a000002 443 [6;7;8;9;10;11] [0;1;2;3;4;5] 4 1000
                [CallConnect; CallProcessRx (Some pkt_syn_ack)] example_peer
                (bytes_of_Zs [112; 105; 110; 103]) 4) as H.
    cbv zeta in H.
    repeat match type of H with
           | ?A -> _ =>
               let h := fresh in
               assert (h : A) by (vm_compute; repeat split; congruence);
               specialize (H h); clear h
           end.
    destruct H as (pkt & a' & tx & b' & H1 & H2 & H3 & H4 & H5).
    exists pkt, a', tx, b'. split; [exact H1|]. split; [exact H2|].
    split; [exact H3|]. split; [exact H4|]. rewrite H5. vm_compute. reflexivity.
Defined.

Lemma send_data_checks_no_tailroom_witness :
  let a := example_established in
  let data := repeat Byte.x41 2000 in
  (state_ a = ESTABLISHED /\ mbuf_pool_ a <> 0%nat /\
   RTE_MBUF_DEFAULT_DATAROOM - 54 < 2000 <= 65481 /\
   2000 <= Z.of_nat (length data)) /\
  exists pkt a',
    send_data (fun _ => 0) (fun _ _ => 0) data 2000 a = (Some pkt, a') /\
    data_len pkt = 2054 /\
    RTE_MBUF_DEFAULT_DATAROOM < data_len pkt /\
    Z.of_nat (length (buf pkt)) = RTE_MBUF_DEFAULT_DATAROOM /\
    snd_nxt_ a' = uint32 (snd_nxt_ a + 2000).
Proof.
  cbv zeta. split.
  - repeat split; vm_compute; congruence.
  - pose proof (send_data_checks_no_tailroom (fun _ => 0) (fun _ _ => 0)
                  0x0a000001 40000 0x0a000002 443 [6;7;8;9;10;11] [0;1;2;3;4;5]
                  4 1000 [CallConnect; CallProcessRx (Some pkt_syn_ack)]
                  (repeat Byte.x41 2000) 2000) as H.
    cbv zeta in H.
    repeat match type of H with
           | ?A -> _ =>
               let h := fresh in
               assert (h : A) by (vm_compute; repeat split; congruence);
               specialize (H h); clear h
           end.
    destruct H as (pkt & a' & H1 & H2 & H3 & H4 & H5).
    exists pkt, a'. split; [exact H1|]. split; [exact H2|].
    split; [exact H3|]. split; [exact H4|exact H5].
Defined.

End MicroTcp.

(* ===================================================================== *)
(** ** Batches of updates and the manager (market_data/order_book.cpp)    *)
(* ===================================================================== *)

Module OrderBookManagerUpdates.
Import Double OrderBookEngine.

(** [market_data/order_book.h] *)
Record OrderBookLevel := {
  level_price_int : Z;   (* uint64_t price_int *)
  size : double
}.

(** The [OrderBookUpdate] that [OrderBookManager::apply_update] pushes
    for a bid and for an ask level. *)
Definition bid_update (bid : OrderBookLevel) : OrderBookUpdate :=
  {| price_int := level_price_int bid; quantity := size bid; side := BID;
     is_delete := leb (size bid) zero |}.

Definition ask_update (ask : OrderBookLevel) : OrderBookUpdate :=
  {| price_int := level_price_int ask; quantity := size ask; side := ASK;
     is_delete := leb (size ask) zero |}.

(** Writing through the reference [get_book] returned. *)
Definition put_book (mgr : OrderBookManager) (exchange : ExchangeId)
    (instrument : string) (book : OrderBook) : OrderBookManager :=
  {| books_ :=
       <[exchange_code exchange :=
           <[instrument := book]>
             (default ∅ (books_ mgr !! exchange_code exchange))]>
         (books_ mgr) |}.

(** [OrderBookManager::apply_updates] *)
Definition apply_updates (mgr : OrderBookManager) (exchange : ExchangeId)
    (instrument : string) (updates : list OrderBookUpdate) (is_snapshot : bool)
  : OrderBookManager :=
  let '(book, mgr) := get_book mgr exchange instrument in
  let book :=
    if is_snapshot then OrderBookEngine.apply_snapshot updates book
    else OrderBookEngine.apply_updates updates book in
  put_book mgr exchange instrument book.

(** [OrderBookManager::apply_update] *)
Definition apply_update (mgr : OrderBookManager) (exchange : ExchangeId)
    (instrument : string) (bids asks : list OrderBookLevel) (is_snapshot : bool)
  : OrderBookManager :=
  let updates := map bid_update bids ++ map ask_update asks in
  let '(book, mgr) := get_book mgr exchange instrument in
  let book :=
    if is_snapshot then OrderBookEngine.apply_snapshot updates book
    else OrderBookEngine.apply_updates updates book in
  put_book mgr exchange instrument book.

(** *** Reading the manager *)

(** The book stored for an exchange and instrument, if there is one. *)
Definition stored_book (mgr : OrderBookManager) (exchange : ExchangeId)
    (instrument : string) : option OrderBook :=
  books_ mgr !! exchange_code exchange ≫= (.!! instrument).

(** The last level of the list with price [p]. *)
Fixpoint last_level (p : Z) (levels : list OrderBookLevel)
  : option OrderBookLevel :=
  match levels with
  | [] => None
  | l :: rest =>
      match last_level p rest with
      | Some l' => Some l'
      | None => if level_price_int l =? p then Some l else None
      end
  end.

(** What a level of [apply_update] leaves at its price. *)
Definition level_size (l : OrderBookLevel) : option double :=
  if leb (size l) zero then None else Some (size l).

(** The side and price an update addresses. *)
Definition level_key (u : OrderBookUpdate) : Side * Z := (side u, price_int u).

(** *** Properties *)

Lemma book_eq (b b' : OrderBook) :
  (forall s p, side_map s b !! p = side_map s b' !! p) -> b = b'.
Proof.
  intros H. destruct b as [bb ba], b' as [bb' ba'].
  f_equal; apply map_eq; intros p.
  - apply (H BID p).
  - apply (H ASK p).
Qed.

Lemma last_update_app s p (l1 l2 : list OrderBookUpdate) :
  last_update s p (l1 ++ l2) =
    match last_update s p l2 with
    | Some u => Some u
    | None => last_update s p l1
    end.
Proof.
  induction l1 as [|u l1 IH]; cbn [app last_update].
  - by destruct (last_update s p l2).
  - rewrite IH. by destruct (last_update s p l2).
Qed.

Lemma last_update_addresses s p U u :
  last_update s p U = Some u -> addresses s p u = true /\ In u U.
Proof.
  induction U as [|v U IH]; cbn [last_update]; [done|].
  destruct (last_update s p U) as [u'|].
  - intros [= ->]. destruct (IH eq_refl) as [H1 H2]. split; [done|by right].
  - destruct (addresses s p v) eqn:E; [|done]. intros [= ->].
    split; [done|by left].
Qed.

(** X16: applying a batch twice is the same as applying it once. *)
Theorem apply_updates_idempotent (U : list OrderBookUpdate) (b : OrderBook) :
  OrderBookEngine.apply_updates U (OrderBookEngine.apply_updates U b) =
    OrderBookEngine.apply_updates U b.
Proof.
  apply book_eq. intros s p. unfold OrderBookEngine.apply_updates.
  rewrite !fold_updates_lookup.
  destruct (last_update s p U); done.
Qed.

Lemma last_update_unique s p U u :
  NoDup (map level_key U) -> In u U -> addresses s p u = true ->
  last_update s p U = Some u.
Proof.
  induction U as [|v U IH]; cbn [map last_update]; [done|].
  intros Hnd [->|Hin] Ha; apply NoDup_cons in Hnd as [Hnotin Hnd].
  - destruct (last_update s p U) as [u'|] eqn:E; [|by rewrite Ha].
    apply last_update_addresses in E as [Ha' Hin'].
    apply addresses_true in Ha as [<- <-].
    apply addresses_true in Ha' as [Hs Hp].
    exfalso. apply Hnotin. apply list_elem_of_In, in_map_iff. exists u'.
    split; [|done]. unfold level_key. by rewrite Hs, Hp.
  - by rewrite (IH Hnd Hin Ha).
Qed.

Lemma last_update_none s p U :
  last_update s p U = None <-> forall u, In u U -> addresses s p u = false.
Proof.
  induction U as [|v U IH]; cbn [last_update]; [done|].
  destruct (last_update s p U) as [u'|] eqn:E.
  - split; [done|]. intros H.
    apply last_update_addresses in E as [Ha Hin].
    rewrite (H u' (or_intror Hin)) in Ha. done.
  - destruct (addresses s p v) eqn:Ea.
    + split; [done|]. intros H. by rewrite (H v (or_introl eq_refl)) in Ea.
    + split; [|done]. intros _ u [<-|Hin]; [done|]. by apply IH.
Qed.

(** X17: a batch with at most one update per side and price can be
    applied in any order. *)
Theorem apply_updates_any_order (U U' : list OrderBookUpdate) (b : OrderBook) :
  NoDup (map level_key U) -> Permutation U U' ->
  OrderBookEngine.apply_updates U' b = OrderBookEngine.apply_updates U b.
Proof.
  intros Hnd Hperm. apply book_eq. intros s p.
  unfold OrderBookEngine.apply_updates. rewrite !fold_updates_lookup.
  assert (Hnd' : NoDup (map level_key U')).
  { assert (Hp' : map level_key U ≡ₚ map level_key U')
      by (by apply Permutation_map).
    by rewrite <- Hp'. }
  destruct (last_update s p U) as [u|] eqn:E.
  - apply last_update_addresses in E as [Ha Hin].
    rewrite (last_update_unique s p U' u Hnd'); [done| |done].
    eapply Permutation_in; [exact Hperm|exact Hin].
  - assert (E' : last_update s p U' = None).
    { apply last_update_none. intros u Hin.
      apply (proj1 (last_update_none s p U) E).
      eapply Permutation_in; [symmetry; exact Hperm|exact Hin]. }
    by rewrite E'.
Qed.

Lemma apply_updates_any_order_witness :
  let U := [upd 100 d_1 BID; upd 101 d_2 ASK; upd 99 d_0 BID] in
  let U' := [upd 99 d_0 BID; upd 100 d_1 BID; upd 101 d_2 ASK] in
  NoDup (map level_key U) /\ Permutation U U' /\
  OrderBookEngine.apply_updates U' book_one_bid =
    OrderBookEngine.apply_updates U book_one_bid.
Proof.
  cbv zeta.
  assert (Hnd : NoDup (map level_key
                         [upd 100 d_1 BID; upd 101 d_2 ASK; upd 99 d_0 BID])).
  { apply (bool_decide_unpack _). vm_compute. exact I. }
  assert (Hp : Permutation [upd 100 d_1 BID; upd 101 d_2 ASK; upd 99 d_0 BID]
                 [upd 99 d_0 BID; upd 100 d_1 BID; upd 101 d_2 ASK]).
  { change [upd 99 d_0 BID; upd 100 d_1 BID; upd 101 d_2 ASK]
      with ([upd 99 d_0 BID] ++ [upd 100 d_1 BID; upd 101 d_2 ASK]).
    change [upd 100 d_1 BID; upd 101 d_2 ASK; upd 99 d_0 BID]
      with ([upd 100 d_1 BID; upd 101 d_2 ASK] ++ [upd 99 d_0 BID]).
    apply Permutation_app_comm. }
  split; [exact Hnd|]. split; [exact Hp|].
  exact (apply_updates_any_order _ _ book_one_bid Hnd Hp).
Defined.

Lemma last_update_bids p (bids : list OrderBookLevel) :
  last_update BID p (map bid_update bids) =
    option_map bid_update (last_level p bids)
  /\ last_update ASK p (map bid_update bids) = None.
Proof.
  induction bids as [|l bids [IH1 IH2]]; cbn [map last_update last_level];
    [done|].
  rewrite IH1, IH2. split; [|done].
  destruct (last_level p bids); [done|].
  unfold addresses. cbn [side price_int bid_update option_map].
  rewrite bool_decide_eq_true_2 by done. cbn [andb].
  by destruct (level_price_int l =? p).
Qed.

Lemma last_update_asks p (asks : list OrderBookLevel) :
  last_update ASK p (map ask_update asks) =
    option_map ask_update (last_level p asks)
  /\ last_update BID p (map ask_update asks) = None.
Proof.
  induction asks as [|l asks [IH1 IH2]]; cbn [map last_update last_level];
    [done|].
  rewrite IH1, IH2. split; [|done].
  destruct (last_level p asks); [done|].
  unfold addresses. cbn [side price_int ask_update option_map].
  rewrite bool_decide_eq_true_2 by done. cbn [andb].
  by destruct (level_price_int l =? p).
Qed.

Lemma level_of_bid_update l : level_of (bid_update l) = level_size l.
Proof.
  unfold level_of, level_size. cbn [is_delete quantity bid_update].
  by destruct (leb (size l) zero).
Qed.

Lemma level_of_ask_update l : level_of (ask_update l) = level_size l.
Proof.
  unfold level_of, level_size. cbn [is_delete quantity ask_update].
  by destruct (leb (size l) zero).
Qed.

Lemma exchange_code_inj e e' : exchange_code e = exchange_code e' -> e = e'.
Proof. by destruct e, e'. Qed.

Lemma stored_book_put mgr exchange instrument book :
  stored_book (put_book mgr exchange instrument book) exchange instrument
  = Some book.
Proof.
  unfold stored_book, put_book. cbn [books_].
  rewrite lookup_insert_eq. cbn. by rewrite lookup_insert_eq.
Qed.

Lemma stored_book_put_other mgr exchange instrument book exchange' instrument' :
  (exchange', instrument') <> (exchange, instrument) ->
  stored_book (put_book mgr exchange instrument book) exchange' instrument'
  = stored_book mgr exchange' instrument'.
Proof.
  intros Hne. unfold stored_book, put_book. cbn [books_].
  destruct (decide (exchange_code exchange' = exchange_code exchange))
    as [E|E].
  - apply exchange_code_inj in E as ->. rewrite lookup_insert_eq. cbn.
    rewrite lookup_insert_ne by congruence.
    by destruct (books_ mgr !! exchange_code exchange).
  - by rewrite lookup_insert_ne.
Qed.

Lemma stored_book_get mgr exchange instrument exchange' instrument' :
  (exchange', instrument') <> (exchange, instrument) ->
  stored_book (get_book mgr exchange instrument).2 exchange' instrument'
  = stored_book mgr exchange' instrument'.
Proof.
  intros Hne. unfold get_book. cbv zeta. cbn [snd].
  by apply (stored_book_put_other mgr exchange instrument).
Qed.

Lemma get_book_stored mgr exchange instrument :
  (get_book mgr exchange instrument).1 =
    default empty_book (stored_book mgr exchange instrument).
Proof.
  unfold get_book, stored_book. cbv zeta. cbn [fst].
  by destruct (books_ mgr !! exchange_code exchange).
Qed.

(** X18: [OrderBookManager::apply_update] leaves, in the book of the
    exchange and instrument it names (created if it was not there), at
    each bid price the size of the last level of [bids] with that
    price and at each ask price that of the last level of [asks]; a
    level whose size is [<= 0] removes the price.  A price no level
    names keeps what the book held, or nothing when [is_snapshot] is
    set.  Bid levels never touch the asks nor ask levels the bids,
    and no other book of the manager changes. *)
Theorem manager_apply_update_levels (mgr : OrderBookManager)
    (exchange : ExchangeId) (instrument : string)
    (bids asks : list OrderBookLevel) (is_snapshot : bool) :
  let old := default empty_book (stored_book mgr exchange instrument) in
  let mgr' := apply_update mgr exchange instrument bids asks is_snapshot in
  (exists book,
     stored_book mgr' exchange instrument = Some book /\
     (forall p,
        bids_ book !! p =
          match last_level p bids with
          | Some l => level_size l
          | None => if is_snapshot then None else bids_ old !! p
          end) /\
     (forall p,
        asks_ book !! p =
          match last_level p asks with
          | Some l => level_size l
          | None => if is_snapshot then None else asks_ old !! p
          end))
  /\
  (forall exchange' instrument',
     (exchange', instrument') <> (exchange, instrument) ->
     stored_book mgr' exchange' instrument' =
       stored_book mgr exchange' instrument').
Proof.
  cbv zeta. unfold apply_update. cbv zeta.
  rewrite (surjective_pairing (get_book mgr exchange instrument)).
  rewrite get_book_stored.
  set (old := default empty_book (stored_book mgr exchange instrument)).
  set (U := map bid_update bids ++ map ask_update asks).
  assert (Hb : forall p,
             last_update BID p U = option_map bid_update (last_level p bids)).
  { intros p. unfold U. rewrite last_update_app.
    rewrite (proj2 (last_update_asks p asks)).
    apply (proj1 (last_update_bids p bids)). }
  assert (Ha : forall p,
             last_update ASK p U = option_map ask_update (last_level p asks)).
  { intros p. unfold U. rewrite last_update_app.
    rewrite (proj1 (last_update_asks p asks)).
    rewrite (proj2 (last_update_bids p bids)).
    by destruct (last_level p asks). }
  split.
  - eexists. split; [apply stored_book_put|]. split; intros p.
    + change (bids_ ?b) with (side_map BID b).
      destruct is_snapshot.
      * unfold apply_snapshot. rewrite fold_updates_lookup, Hb.
        destruct (last_level p bids); [apply level_of_bid_update|done].
      * unfold OrderBookEngine.apply_updates.
        rewrite fold_updates_lookup, Hb.
        destruct (last_level p bids); [apply level_of_bid_update|done].
    + change (asks_ ?b) with (side_map ASK b).
      destruct is_snapshot.
      * unfold apply_snapshot. rewrite fold_updates_lookup, Ha.
        destruct (last_level p asks); [apply level_of_ask_update|done].
      * unfold OrderBookEngine.apply_updates.
        rewrite fold_updates_lookup, Ha.
        destruct (last_level p asks); [apply level_of_ask_update|done].
  - intros exchange' instrument' Hne.
    rewrite stored_book_put_other by done.
    by apply stored_book_get.
Qed.

End OrderBookManagerUpdates.

(* ===================================================================== *)
(** ** The incoming queue and the retry counter of the WebSocket client   *)
(** (modules/network/boost_websocket_client.cpp, concurrentqueue.h)       *)
(* ===================================================================== *)

Module WebSocketSession.
Import WebSocketClient.

(** The message an event put into [incoming_queue_], if it did. *)
Definition enqueue_of (e : session_event) : option string :=
  match e with
  | EvEnqueued _ msg => Some msg
  | _ => None
  end.

(** The messages the read handler enqueued, in the order of arrival. *)
Definition enqueued (c : client) : list string := omap enqueue_of (history c).

(** What [get_next_message] returned to the application along a run,
    in the order of the calls. *)
Fixpoint delivered (inputs : list input) (c : client) : list string :=
  match inputs with
  | [] => []
  | i :: rest =>
      match i with
      | InDequeue => option_list (get_next_message c).1
      | _ => []
      end ++ delivered rest (step c i)
  end.

(** How often the retry timer was armed. *)
Definition timers_armed (c : client) : Z := Z.of_nat (length (timer_delays c)).

(** [c'] holds the same queue as [c], and nothing was enqueued on the
    way from [c] to [c']. *)
Definition silent (c c' : client) : Prop :=
  incoming_queue_ c' = incoming_queue_ c /\
  omap enqueue_of (trace c') = omap enqueue_of (trace c).

(** The delay an event armed the retry timer with, if it did. *)
Definition timer_of (e : session_event) : option Z :=
  match e with
  | EvTimerSet d => Some d
  | _ => None
  end.

(** What every session keeps about its retry counter and statistics. *)
Definition retry_inv (config : retry_config) (c : client) : Prop :=
  cfg c = config /\
  0 <= retry_count_ c <= Z.max 0 (retry_max_attempts_ config) /\
  reconnect_attempts c = Z.of_nat (length (omap timer_of (trace c))).

(** *** Properties *)

Lemma silent_refl c : silent c c.
Proof. done. Qed.

Lemma silent_trans c1 c2 c3 : silent c1 c2 -> silent c2 c3 -> silent c1 c3.
Proof. intros [A1 B1] [A2 B2]. split; congruence. Qed.

Lemma silent_schedule_reconnect c : silent c (schedule_reconnect c).
Proof. unfold schedule_reconnect. by destruct (_ <=? _). Qed.

Lemma silent_do_read c : silent c (do_read c).
Proof. unfold do_read. by destruct (ws_ c). Qed.

Lemma silent_chain_step (k : stream -> async_op) ok c :
  silent c (if negb ok then schedule_reconnect c
            else match ws_ c with Some s => post (k s) c | None => c end).
Proof.
  destruct ok; cbn [negb]; [|apply silent_schedule_reconnect].
  by destruct (ws_ c).
Qed.

Lemma silent_connect ok c : silent c (connect ok c).
Proof.
  unfold connect. destruct ok.
  - eapply silent_trans; [|apply silent_do_read]. done.
  - destruct (retry_enabled_ _); [|done].
    eapply silent_trans; [|apply silent_schedule_reconnect]. done.
Qed.

Lemma silent_attempt_reconnect_async sni_ok c :
  silent c (attempt_reconnect_async sni_ok c).
Proof.
  unfold attempt_reconnect_async. destruct sni_ok; cbn [negb].
  - done.
  - eapply silent_trans; [|apply silent_schedule_reconnect]. done.
Qed.

Lemma silent_on_handshake s ok c : silent c (on_handshake s ok c).
Proof.
  unfold on_handshake. destruct ok; cbn [negb];
    [|apply silent_schedule_reconnect].
  eapply silent_trans; [|apply silent_do_read].
  by destruct (has_on_reconnect _).
Qed.

Lemma silent_failure c :
  silent c (if retry_enabled_ (cfg c)
            then schedule_reconnect (set_connected false c) else close c).
Proof.
  destruct (retry_enabled_ (cfg c)); [|done].
  eapply silent_trans; [|apply silent_schedule_reconnect]. done.
Qed.

Lemma silent_write_failed c : silent c (write_failed c).
Proof.
  unfold write_failed. destruct (connected_ c); cbn [negb]; [|done].
  apply silent_failure.
Qed.

(** What one step does to the queue: it hands out the first message,
    or appends one while fewer than 10000 are queued, or leaves the
    queue alone. *)
Lemma step_messages c i :
  exists new,
    omap enqueue_of (trace (step c i)) = rev new ++ omap enqueue_of (trace c) /\
    match i with
    | InDequeue => option_list (get_next_message c).1
    | _ => []
    end ++ incoming_queue_ (step c i) = incoming_queue_ c ++ new /\
    (new = [] \/
     Z.of_nat (length (incoming_queue_ c)) < MAX_INCOMING_QUEUE_SIZE /\
     exists msg, new = [msg]).
Proof.
  assert (Hs : forall c', silent c c' ->
            exists new,
              omap enqueue_of (trace c') = rev new ++ omap enqueue_of (trace c) /\
              [] ++ incoming_queue_ c' = incoming_queue_ c ++ new /\
              (new = [] \/
               Z.of_nat (length (incoming_queue_ c)) < MAX_INCOMING_QUEUE_SIZE /\
               exists msg, new = [msg])).
  { intros c' [A B]. exists []. rewrite app_nil_r.
    split; [exact B|]. split; [exact A|]. by left. }
  destruct i as [ok|sni_ok|op ok msg| |]; cbn [step].
  - apply Hs, silent_connect.
  - apply Hs. destruct (stopped c); [done|]. destruct (retry_timer_ c); [|done].
    eapply silent_trans; [|apply silent_attempt_reconnect_async]. done.
  - destruct (stopped c); [by apply Hs|].
    destruct (bool_decide (op ∈ pending c)); [|by apply Hs].
    set (c1 := set_pending (remove_op op (pending c)) c).
    assert (H1 : silent c c1) by done.
    destruct op as [s|s|s|s|s]; cbn [complete].
    + apply Hs. eapply silent_trans; [exact H1|].
      apply (silent_chain_step OpConnect).
    + apply Hs. eapply silent_trans; [exact H1|].
      apply (silent_chain_step OpSslHandshake).
    + apply Hs. eapply silent_trans; [exact H1|].
      apply (silent_chain_step OpWsHandshake).
    + apply Hs. eapply silent_trans; [exact H1|]. apply silent_on_handshake.
    + unfold read_handler. destruct (ok && is_current s c1); cbn [negb].
      * change (incoming_queue_ c1) with (incoming_queue_ c).
        destruct (Z.ltb_spec (Z.of_nat (length (incoming_queue_ c)))
                    MAX_INCOMING_QUEUE_SIZE) as [Hlt|Hge].
        -- exists [msg].
           match goal with |- context [do_read ?x] =>
             destruct (silent_do_read x) as [A B] end.
           rewrite A, B. split; [done|]. split; [done|].
           right. split; [done|]. by exists msg.
        -- apply Hs. eapply silent_trans; [|apply silent_do_read]. done.
      * apply Hs. eapply silent_trans; [exact H1|]. apply (silent_failure c1).
  - apply Hs. destruct (stopped c); [done|]. apply silent_write_failed.
  - exists []. rewrite app_nil_r. unfold get_next_message.
    destruct (incoming_queue_ c) as [|m rest] eqn:E;
      (split; [done|]); (split; [|by left]);
      cbn [fst snd option_list app incoming_queue_ set_queue];
      by rewrite ?E.
Qed.

Lemma run_messages inputs :
  forall c,
  exists new,
    omap enqueue_of (trace (run inputs c)) = rev new ++ omap enqueue_of (trace c) /\
    delivered inputs c ++ incoming_queue_ (run inputs c)
      = incoming_queue_ c ++ new.
Proof.
  induction inputs as [|i rest IH]; intros c.
  - exists []. by rewrite app_nil_r.
  - destruct (step_messages c i) as (new & T1 & Q1 & _).
    destruct (IH (step c i)) as (new' & T2 & Q2).
    exists (new ++ new'). cbn [run fold_left delivered].
    change (fold_left step rest (step c i)) with (run rest (step c i)).
    split.
    + by rewrite T2, T1, rev_app_distr, app_assoc.
    + by rewrite <- app_assoc, Q2, !app_assoc, Q1.
Qed.

Lemma omap_rev {A B} (f : A -> option B) (l : list A) :
  omap f (rev l) = rev (omap f l).
Proof.
  induction l as [|x l IH]; [done|].
  cbn [rev]. rewrite omap_app, IH. simpl.
  destruct (f x); simpl; [done|by rewrite app_nil_r].
Qed.

(** X19: no message is lost, repeated or overtaken between the read
    handler and the application: at any moment of any session, the
    messages the read handler has put into [incoming_queue_], in the
    order of their arrival, are exactly those [get_next_message] has
    handed out so far, in the order of the calls, followed by those
    still in the queue. *)
Theorem messages_delivered_in_order (config : retry_config) (callback : bool)
    (inputs : list input) :
  let c := run inputs (new_client config callback) in
  enqueued c = delivered inputs (new_client config callback) ++ incoming_queue_ c.
Proof.
  cbv zeta.
  destruct (run_messages inputs (new_client config callback)) as (new & T & Q).
  unfold enqueued, history. rewrite omap_rev, T, Q.
  cbn [trace incoming_queue_ new_client omap]. rewrite app_nil_r.
  apply rev_involutive.
Qed.

(** X20: [incoming_queue_] never holds more than
    [MAX_INCOMING_QUEUE_SIZE] messages, whatever arrives and however
    slowly the application reads. *)
Theorem incoming_queue_is_bounded (config : retry_config) (callback : bool)
    (inputs : list input) :
  Z.of_nat (length (incoming_queue_ (run inputs (new_client config callback))))
  <= MAX_INCOMING_QUEUE_SIZE.
Proof.
  assert (H : forall c,
            Z.of_nat (length (incoming_queue_ c)) <= MAX_INCOMING_QUEUE_SIZE ->
            Z.of_nat (length (incoming_queue_ (run inputs c)))
            <= MAX_INCOMING_QUEUE_SIZE).
  { induction inputs as [|i rest IH]; intros c Hc; [done|].
    cbn [run fold_left]. apply IH.
    destruct (step_messages c i) as (new & _ & Q & Hnew).
    apply (f_equal (@length string)) in Q. rewrite !length_app in Q.
    destruct Hnew as [->|[Hlt [msg ->]]]; cbn [length] in Q; lia. }
  apply H. cbn. unfold MAX_INCOMING_QUEUE_SIZE. lia.
Qed.

Lemma retry_inv_schedule_reconnect config c :
  retry_inv config c -> retry_inv config (schedule_reconnect c).
Proof.
  intros (Hc & Hr & Ha). unfold schedule_reconnect, retry_inv.
  destruct (Z.leb_spec (retry_max_attempts_ (cfg c)) (retry_count_ c)); simpl.
  - done.
  - rewrite Hc in *. split; [done|]. unfold omap in Ha. split; lia.
Qed.

Lemma retry_inv_do_read config c :
  retry_inv config c -> retry_inv config (do_read c).
Proof. unfold do_read. by destruct (ws_ c). Qed.

Lemma retry_inv_chain_step config (k : stream -> async_op) ok c :
  retry_inv config c ->
  retry_inv config (if negb ok then schedule_reconnect c
                    else match ws_ c with Some s => post (k s) c | None => c end).
Proof.
  intros H. destruct ok; cbn [negb]; [|by apply retry_inv_schedule_reconnect].
  by destruct (ws_ c).
Qed.

Lemma retry_inv_reset config c :
  retry_inv config c -> retry_inv config (set_retry_count 0 c).
Proof. intros (Hc & Hr & Ha). repeat split; simpl; try done; lia. Qed.

Lemma retry_inv_failure config c :
  retry_inv config c ->
  retry_inv config (if retry_enabled_ (cfg c)
                    then schedule_reconnect (set_connected false c)
                    else close c).
Proof.
  intros H. destruct (retry_enabled_ (cfg c)); [|done].
  by apply retry_inv_schedule_reconnect.
Qed.

Lemma retry_inv_step config c i :
  retry_inv config c -> retry_inv config (step c i).
Proof.
  intros H. destruct i as [ok|sni_ok|op ok msg| |]; cbn [step].
  - unfold connect. destruct ok.
    + apply retry_inv_do_read.
      destruct H as (Hc & Hr & Ha). repeat split; simpl; try done; lia.
    + destruct (retry_enabled_ _); [|done].
      by apply retry_inv_schedule_reconnect.
  - destruct (stopped c); [done|]. destruct (retry_timer_ c); [|done].
    unfold attempt_reconnect_async. destruct sni_ok; cbn [negb]; [done|].
    by apply retry_inv_schedule_reconnect.
  - destruct (stopped c); [done|].
    destruct (bool_decide (op ∈ pending c)); [|done].
    set (c1 := set_pending (remove_op op (pending c)) c).
    assert (H1 : retry_inv config c1) by done.
    destruct op as [s|s|s|s|s]; cbn [complete].
    + by apply (retry_inv_chain_step config OpConnect).
    + by apply (retry_inv_chain_step config OpSslHandshake).
    + by apply (retry_inv_chain_step config OpWsHandshake).
    + unfold on_handshake. destruct (ok && is_current s c1); cbn [negb];
        [|by apply retry_inv_schedule_reconnect].
      apply retry_inv_do_read.
      destruct H1 as (Hc & Hr & Ha).
      destruct (has_on_reconnect _); repeat split; simpl; try done; lia.
    + unfold read_handler. destruct (ok && is_current s c1); cbn [negb].
      * apply retry_inv_do_read. by destruct (_ <? _).
      * by apply retry_inv_failure.
  - destruct (stopped c); [done|]. unfold write_failed.
    destruct (connected_ c); cbn [negb]; [|done]. by apply retry_inv_failure.
  - unfold get_next_message. by destruct (incoming_queue_ c).
Qed.

Lemma retry_inv_run config inputs :
  forall c, retry_inv config c -> retry_inv config (run inputs c).
Proof.
  induction inputs as [|i rest IH]; intros c H; [done|].
  cbn [run fold_left]. apply IH. by apply retry_inv_step.
Qed.

(** X21: in every session [retry_count_] stays between 0 and
    [retry_max_attempts_], so that the retry timer is armed at most
    that often between two completed handshakes, and
    [stats_.reconnect_attempts] counts exactly the times the retry
    timer was armed. *)
Theorem retry_count_is_bounded (config : retry_config) (callback : bool)
    (inputs : list input) :
  let c := run inputs (new_client config callback) in
  0 <= retry_count_ c <= Z.max 0 (retry_max_attempts_ config) /\
  reconnect_attempts c = timers_armed c.
Proof.
  cbv zeta.
  assert (H0 : retry_inv config (new_client config callback)).
  { repeat split; simpl; try done; lia. }
  destruct (retry_inv_run config inputs _ H0) as (_ & Hr & Ha).
  split; [exact Hr|].
  rewrite Ha. unfold timers_armed, timer_delays, history.
  change (fun e => match e with EvTimerSet d => Some d | _ => None end)
    with timer_of.
  by rewrite omap_rev, length_rev.
Qed.

End WebSocketSession.

(* ===================================================================== *)
(** ** Order of the packets in the forwarding loop (core/forwarding.cpp)  *)
(* ===================================================================== *)

Module ForwardingOrder.
Import Classifier Forwarding.

(** [classifier.classify(pkts_burst[i]) == TRAFFIC_TYPE_HFT] *)
Definition is_hft (dp : dataplane) (h : handle) : bool :=
  bool_decide (classify (pkt_of dp h) = TRAFFIC_TYPE_HFT).

(** The slots the HFT ring has left. *)
Definition ring_room (dp : dataplane) : nat :=
  (ring_capacity dp - length (hft_ring dp))%nat.

(** *** Properties *)

Lemma hft_ring_free h dp : hft_ring (rte_pktmbuf_free h dp) = hft_ring dp.
Proof. unfold rte_pktmbuf_free. by destruct (_ <=? 0). Qed.

Lemma hft_ring_free_all hs :
  forall dp, hft_ring (free_all hs dp) = hft_ring dp.
Proof.
  induction hs as [|h hs IH]; intros dp; [done|].
  change (free_all (h :: hs) dp) with (free_all hs (rte_pktmbuf_free h dp)).
  by rewrite IH, hft_ring_free.
Qed.

(** What one packet of the burst does to the ring. *)
Lemma ingress_packet_ring ts dp k h :
  hft_ring (ingress_packet ts (dp, k) h).1 =
    hft_ring dp ++ (if is_hft dp h && (0 <? ring_room dp)%nat then [h] else []).
Proof.
  unfold ingress_packet, is_hft, ring_room. rewrite pkt_of_set_timestamp.
  destruct (classify (pkt_of dp h)) eqn:Ec.
  - rewrite bool_decide_eq_false_2 by done. by rewrite app_nil_r.
  - rewrite bool_decide_eq_true_2 by done. cbn [andb].
    unfold rte_ring_sp_enqueue.
    change (hft_ring (rte_pktmbuf_refcnt_update h 1 (set_timestamp h ts dp)))
      with (hft_ring dp).
    change (ring_capacity (rte_pktmbuf_refcnt_update h 1 (set_timestamp h ts dp)))
      with (ring_capacity dp).
    destruct (Nat.ltb_spec (length (hft_ring dp)) (ring_capacity dp)) as [Hlt|Hge].
    + replace (0 <? ring_capacity dp - length (hft_ring dp))%nat with true
        by (symmetry; apply Nat.ltb_lt; lia).
      reflexivity.
    + replace (0 <? ring_capacity dp - length (hft_ring dp))%nat with false
        by (symmetry; apply Nat.ltb_ge; lia).
      cbn [fst snd]. change (-105 <? 0) with true. cbv iota.
      rewrite hft_ring_free. cbn [hft_ring log]. by rewrite app_nil_r.
  - rewrite bool_decide_eq_false_2 by done. by rewrite app_nil_r.
Qed.

Lemma is_hft_same_frame dp dp' h : same_frame dp dp' -> is_hft dp' h = is_hft dp h.
Proof. intros (_ & _ & _ & Hp). unfold is_hft. by rewrite Hp. Qed.

Lemma ingress_fold_ring ts (l : list handle) :
  forall dp k,
    let r := fold_left (ingress_packet ts) l (dp, k) in
    r.2 = k ++ l /\
    same_frame dp r.1 /\
    hft_ring r.1 = hft_ring dp ++ take (ring_room dp) (filter (fun h => is_hft dp h = true) l).
Proof.
  induction l as [|h l IH]; intros dp k; cbv zeta.
  - cbn [fold_left fst snd]. rewrite !app_nil_r. split; [done|].
    split; [apply same_frame_refl|]. by rewrite filter_nil, take_nil, app_nil_r.
  - change (fold_left (ingress_packet ts) (h :: l) (dp, k))
      with (fold_left (ingress_packet ts) l (ingress_packet ts (dp, k) h)).
    pose proof (ingress_packet_batch ts dp k h) as Hb.
    pose proof (ingress_packet_frame ts dp k h) as Hf.
    pose proof (ingress_packet_ring ts dp k h) as Hr.
    destruct (ingress_packet ts (dp, k) h) as [dp1 k1]. cbn [fst snd] in *.
    subst k1. destruct (IH dp1 (k ++ [h])) as (I1 & I2 & I3).
    split; [by rewrite I1, <- app_assoc|].
    split; [by eapply same_frame_trans|].
    assert (Hfil : filter (fun h0 => is_hft dp1 h0 = true) l
                   = filter (fun h0 => is_hft dp h0 = true) l).
    { apply list_filter_iff. intros x. by rewrite (is_hft_same_frame dp dp1). }
    assert (Hcap : ring_capacity dp1 = ring_capacity dp) by apply Hf.
    rewrite I3, Hfil. unfold ring_room in *. rewrite Hcap, Hr.
    rewrite filter_cons.
    destruct (is_hft dp h) eqn:Eh; cbn [andb].
    + rewrite decide_True by done.
      destruct (Nat.ltb_spec 0 (ring_capacity dp - length (hft_ring dp)))
        as [Hlt|Hge].
      * rewrite length_app. cbn [length].
        replace (ring_capacity dp - length (hft_ring dp))%nat
          with (S (ring_capacity dp - (length (hft_ring dp) + 1)))%nat by lia.
        cbn [take]. by rewrite <- app_assoc.
      * rewrite app_nil_r.
        replace (ring_capacity dp - length (hft_ring dp))%nat with 0%nat by lia.
        by rewrite !take_0.
    + rewrite decide_False by done. by rewrite app_nil_r.
Qed.

(** X22: the ingress half of one iteration of [lcore_forward_loop]
    keeps the arrival order and hides no packet from the kernel.  The
    HFT ring receives the packets of the burst that [classify] marks
    as HFT, in arrival order, as many as the ring has room for; the
    virtual port is offered every packet of the burst, HFT or not, in
    arrival order, and its queue receives those the driver accepts. *)
Theorem ingress_keeps_arrival_order (ts : Z) (pkts_burst : list handle)
    (virt_present : bool) (accepted : nat) (dp : dataplane) :
  let dp' := ingress ts pkts_burst virt_present accepted dp in
  hft_ring dp' =
    hft_ring dp
    ++ take (ring_room dp) (filter (fun h => is_hft dp h = true) pkts_burst)
  /\
  virt_txq dp' =
    virt_txq dp
    ++ (if virt_present then take accepted pkts_burst else []).
Proof.
  cbv zeta. unfold ingress, ingress_loop.
  destruct (ingress_fold_ring ts pkts_burst dp []) as (K & F & R).
  destruct (fold_left _ _ _) as [dp1 batch]. cbn [fst snd app] in *.
  subst batch. destruct F as (_ & Fv & _).
  unfold kernel_tx.
  destruct (Nat.ltb_spec 0 (length pkts_burst)) as [Hlen|Hlen].
  - destruct virt_present.
    + rewrite hft_ring_free_all, free_all_virt_txq. cbn [hft_ring virt_txq].
      rewrite Fv. split; [exact R|]. f_equal.
      destruct (Nat.le_gt_cases accepted (length pkts_burst)).
      * by rewrite Nat.min_l.
      * rewrite Nat.min_r by lia. by rewrite !take_ge by lia.
    + rewrite hft_ring_free_all, free_all_virt_txq, Fv.
      by rewrite app_nil_r.
  - destruct pkts_burst; [|cbn in Hlen; lia].
    rewrite R, Fv. rewrite filter_nil, !take_nil.
    split; [done|]. destruct virt_present; by rewrite app_nil_r.
Qed.

End ForwardingOrder.

(* ===================================================================== *)
(** ** Size and decoding of the UDP frame (network/udp_publisher.cpp)     *)
(* ===================================================================== *)

Module UdpFrame.
Import Bytes Memory Double ExchangeAdapter UdpPublisher.
Import OrderBookEngine (ExchangeId, exchange_code).

(** [sizeof(UdpMarketHeader)] and [sizeof(UdpPriceLevel)], both
    packed. *)
Definition sizeof_UdpMarketHeader : nat := 4 + 2 + 1 + 1 + 8 + 4 + 2 + 2.

Definition sizeof_UdpPriceLevel : nat := 8 + 8.

(** A level whose price and size bits are 64-bit values. *)
Definition level_in_range (l : PriceLevel) : Prop :=
  0 <= price_int l < 2 ^ 64 /\ 0 <= size l < 2 ^ 64.

(** A book whose symbol length and level counts fit the header
    fields. *)
Definition book_in_range (book : ParsedOrderBook) : Prop :=
  Z.of_nat (String.length (instrument book)) < 2 ^ 32 /\
  Z.of_nat (length (bids book)) < 2 ^ 16 /\
  Z.of_nat (length (asks book)) < 2 ^ 16 /\
  Forall level_in_range (bids book) /\ Forall level_in_range (asks book).

(** The book of the example above with another time stamp. *)
Definition book_example_later : ParsedOrderBook :=
  {| instrument := "BTC"; bids := [ {| price_int := 258; size := of_Z 1 |} ];
     asks := []; is_snapshot := true; timestamp_ms := 7 |}.

(** *** Properties *)

Lemma string_bytes_length s : length (string_bytes s) = String.length s.
Proof.
  unfold string_bytes. rewrite length_map.
  induction s as [|a s IH]; [done|]. cbn. by rewrite IH.
Qed.

Lemma string_bytes_are_bytes s : Forall is_byte (string_bytes s).
Proof.
  unfold string_bytes. apply Forall_map, Forall_forall. intros a _.
  unfold is_byte. pose proof (N_ascii_bounded a) as H. lia.
Qed.

Lemma flat_map_level_layout_bytes levels :
  Forall is_byte (flat_map level_layout levels).
Proof.
  induction levels as [|l levels IH]; [constructor|].
  cbn [flat_map]. apply Forall_app. split; [|exact IH].
  unfold level_layout. apply Forall_app.
  split; apply DpdkWebSocketClient.is_byte_be_bytes.
Qed.

(** X23: the buffer [serialize_and_send] hands to [sendto] holds the 24
    bytes of the header, every byte of the symbol and 16 bytes for
    each bid and each ask level, also where a length field of the
    header has wrapped; and each of its elements is a byte. *)
Theorem serialize_length (book : ParsedOrderBook) (venue : ExchangeId)
    (now_ns : Z) :
  length (serialize book venue now_ns) =
    (sizeof_UdpMarketHeader + String.length (instrument book)
     + sizeof_UdpPriceLevel * (length (bids book) + length (asks book)))%nat
  /\ Forall is_byte (serialize book venue now_ns).
Proof.
  rewrite serialize_layout. unfold frame_layout. split.
  - rewrite !length_app, !be_bytes_length, string_bytes_length,
      !levels_layout_length.
    cbn [length]. unfold sizeof_UdpMarketHeader, sizeof_UdpPriceLevel. lia.
  - apply Forall_app; split; [apply DpdkWebSocketClient.is_byte_be_bytes|].
    apply Forall_app; split; [apply DpdkWebSocketClient.is_byte_be_bytes|].
    apply Forall_app; split.
    { constructor; [|constructor]. by destruct (is_snapshot book). }
    apply Forall_app; split.
    { constructor; [|constructor]. by destruct venue. }
    apply Forall_app; split; [apply DpdkWebSocketClient.is_byte_be_bytes|].
    apply Forall_app; split; [apply DpdkWebSocketClient.is_byte_be_bytes|].
    apply Forall_app; split; [apply DpdkWebSocketClient.is_byte_be_bytes|].
    apply Forall_app; split; [apply DpdkWebSocketClient.is_byte_be_bytes|].
    apply Forall_app; split; [apply string_bytes_are_bytes|].
    apply Forall_app; split; apply flat_map_level_layout_bytes.
Qed.

Lemma be_bytes_inj n x y :
  0 <= x < 2 ^ (8 * Z.of_nat n) -> 0 <= y < 2 ^ (8 * Z.of_nat n) ->
  be_bytes n x = be_bytes n y -> x = y.
Proof.
  intros Hx Hy H. unfold be_bytes in H.
  apply (f_equal (@rev Z)) in H. rewrite !rev_involutive in H.
  apply (f_equal of_le_bytes) in H. rewrite !of_le_bytes_le_bytes in H.
  by rewrite !Z.mod_small in H.
Qed.

Lemma string_bytes_inj s t : string_bytes s = string_bytes t -> s = t.
Proof.
  unfold string_bytes. intros H.
  rewrite <- (string_of_list_ascii_of_string s),
          <- (string_of_list_ascii_of_string t).
  f_equal. revert H.
  generalize (list_ascii_of_string s) (list_ascii_of_string t).
  induction l as [|a l IH]; intros [|b l'] H; try done.
  cbn [map] in H. injection H as Hab Hl.
  apply N2Z.inj in Hab.
  rewrite <- (ascii_N_embedding a), <- (ascii_N_embedding b), Hab.
  f_equal. by apply IH.
Qed.

Lemma level_layout_inj l l' :
  level_in_range l -> level_in_range l' ->
  level_layout l = level_layout l' -> l = l'.
Proof.
  intros [Hp Hs] [Hp' Hs'] H. unfold level_layout in H.
  apply app_inj_1 in H as [H1 H2]; [|by rewrite !be_bytes_length].
  apply (be_bytes_inj 8) in H1; [|done..].
  apply (be_bytes_inj 8) in H2; [|done..].
  destruct l, l'. cbn in *. by subst.
Qed.

Lemma flat_map_level_layout_inj levels :
  forall levels' rest rest',
    length levels = length levels' ->
    Forall level_in_range levels -> Forall level_in_range levels' ->
    flat_map level_layout levels ++ rest
      = flat_map level_layout levels' ++ rest' ->
    levels = levels' /\ rest = rest'.
Proof.
  induction levels as [|l levels IH]; intros [|l' levels'] rest rest' Hlen Hr Hr' H;
    try done.
  cbn [flat_map] in H. rewrite <- !app_assoc in H.
  apply Forall_cons in Hr as [Hl Hr]. apply Forall_cons in Hr' as [Hl' Hr'].
  apply app_inj_1 in H as [H1 H2]; [|by rewrite !level_layout_length].
  apply level_layout_inj in H1; [|done..]. subst l'.
  destruct (IH levels' rest rest') as [-> ->]; try done.
  cbn in Hlen. lia.
Qed.

(** X24: the frame can be decoded.  Two books whose symbol length and
    level counts fit the header fields and whose prices and sizes are
    64-bit values, sent for venues and at clock readings within 64
    bits, give the same buffer only if they agree in symbol, bids,
    asks, the snapshot flag, venue and clock reading.  The book's own
    [timestamp_ms] is not in the frame. *)
Theorem serialize_injective (book book' : ParsedOrderBook)
    (venue venue' : ExchangeId) (now_ns now_ns' : Z) :
  book_in_range book -> book_in_range book' ->
  0 <= now_ns < 2 ^ 64 -> 0 <= now_ns' < 2 ^ 64 ->
  serialize book venue now_ns = serialize book' venue' now_ns' ->
  instrument book = instrument book' /\ bids book = bids book' /\
  asks book = asks book' /\ is_snapshot book = is_snapshot book' /\
  venue = venue' /\ now_ns = now_ns'.
Proof.
  intros (Hs & Hb & Ha & Rb & Ra) (Hs' & Hb' & Ha' & Rb' & Ra') Hn Hn' H.
  rewrite !serialize_layout in H. unfold frame_layout, u32, u16, u64 in H.
  rewrite !(Z.mod_small (Z.of_nat _)) in H by lia.
  rewrite !(Z.mod_small now_ns), !(Z.mod_small now_ns') in H by lia.
  apply app_inj_1 in H as [_ H]; [|done].
  apply app_inj_1 in H as [_ H]; [|done].
  apply app_inj_1 in H as [Hty H]; [|done].
  apply app_inj_1 in H as [Hv H]; [|done].
  apply app_inj_1 in H as [Hnow H]; [|by rewrite !be_bytes_length].
  apply app_inj_1 in H as [Hlen H]; [|by rewrite !be_bytes_length].
  apply app_inj_1 in H as [Hbc H]; [|by rewrite !be_bytes_length].
  apply app_inj_1 in H as [Hac H]; [|by rewrite !be_bytes_length].
  apply (be_bytes_inj 8) in Hnow; [|done..].
  apply (be_bytes_inj 4) in Hlen; [|lia..].
  apply (be_bytes_inj 2) in Hbc; [|lia..].
  apply (be_bytes_inj 2) in Hac; [|lia..].
  apply app_inj_1 in H as [Hsym H];
    [|rewrite !string_bytes_length; lia].
  apply string_bytes_inj in Hsym.
  apply flat_map_level_layout_inj in H as [Hbids H]; [|lia|done..].
  rewrite <- (app_nil_r (flat_map level_layout (asks book))) in H.
  rewrite <- (app_nil_r (flat_map level_layout (asks book'))) in H.
  apply flat_map_level_layout_inj in H as [Hasks _]; [|lia|done..].
  repeat split; try done.
  - injection Hty as Hty.
    by destruct (is_snapshot book), (is_snapshot book').
  - injection Hv as Hv. by destruct venue, venue'.
Qed.

Lemma book_example_in_range :
  book_in_range book_example /\ book_in_range book_example_later.
Proof.
  unfold book_in_range, book_example, book_example_later.
  cbn [instrument bids asks].
  split; (split; [by vm_compute|]); (split; [by vm_compute|]);
    (split; [by vm_compute|]); (split; [|constructor]);
    (constructor; [|constructor]); split; by vm_compute.
Defined.

Lemma serialize_injective_witness :
  (book_in_range book_example /\ book_in_range book_example_later) /\
  0 <= 5 < 2 ^ 64 /\
  serialize book_example OrderBookEngine.BYBIT 5
    = serialize book_example_later OrderBookEngine.BYBIT 5 /\
  bids book_example = bids book_example_later.
Proof.
  split; [exact book_example_in_range|]. split; [lia|]. split; [reflexivity|].
  apply (serialize_injective book_example book_example_later
           OrderBookEngine.BYBIT OrderBookEngine.BYBIT 5 5
           (proj1 book_example_in_range) (proj2 book_example_in_range)
           ltac:(lia) ltac:(lia) eq_refl).
Defined.

End UdpFrame.

(* ===================================================================== *)
(** ** OKX adapter (modules/exchange/okx_adapter.cpp)                     *)
(* ===================================================================== *)

Module OkxAdapter.
Import Double ExchangeAdapter BybitAdapter.

(** [arg_channel != "books-l2-tbt" && arg_channel != "books5" &&
    arg_channel != "books"], negated. *)
Definition book_channel (arg_channel : string) : bool :=
  negb (negb (String.eqb arg_channel "books-l2-tbt")
        && negb (String.eqb arg_channel "books5")
        && negb (String.eqb arg_channel "books")).

Section Parse.
(** [std::stod] and [std::stoull]: the value, or nothing when the call
    throws. *)
Variable stod : string -> option double.
Variable stoull : string -> option Z.

(** The body of [for (auto item : data)], which ends in [break]:
    whether it ran to its end, and [out_book] as it leaves it. *)
Definition parse_item (item : json) (out_book : ParsedOrderBook)
  : bool * ParsedOrderBook :=
  let '(ok, l) := push_side stod (field "bids" (Some item)) (bids out_book) in
  let out_book := set_bids l out_book in
  if negb ok then (false, out_book)
  else
    let '(ok, l) := push_side stod (field "asks" (Some item)) (asks out_book) in
    let out_book := set_asks l out_book in
    if negb ok then (false, out_book)
    else
      match get_string (field "ts" (Some item)) with
      | Some ts_str =>
          match stoull ts_str with
          | Some ts => (true, set_timestamp_ms ts out_book)
          | None => (false, out_book)
          end
      | None => (true, out_book)
      end.

(** [OkxAdapter::parse_orderbook_message], on the document the
    simdjson parser returned ([None] when it threw): the flag
    returned and [out_book] as the call leaves it. *)
Definition parse_orderbook_message (doc : option json)
    (out_book : ParsedOrderBook) : bool * ParsedOrderBook :=
  match doc with
  | None => (false, out_book)
  | Some _ =>
      let arg := field "arg" doc in
      match get_string (field "channel" arg) with
      | None => (false, out_book)
      | Some arg_channel =>
          if negb (String.eqb arg_channel "books-l2-tbt")
             && negb (String.eqb arg_channel "books5")
             && negb (String.eqb arg_channel "books")
          then (false, out_book)
          else
            match get_string (field "instId" arg) with
            | None => (false, out_book)
            | Some inst_id =>
                let out_book := set_instrument inst_id out_book in
                let out_book :=
                  match get_string (field "action" doc) with
                  | Some action =>
                      set_is_snapshot (String.eqb action "snapshot") out_book
                  | None =>
                      if String.eqb arg_channel "books5"
                      then set_is_snapshot true out_book
                      else set_is_snapshot false out_book
                  end in
                match field "data" doc with
                | None => (false, out_book)
                | Some (JArray []) => (true, out_book)
                | Some (JArray (item :: _)) => parse_item item out_book
                | Some _ => (false, out_book)
                end
            end
      end
  end.
End Parse.

(** *** Concrete messages *)

Definition stoull_examples (s : string) : option Z :=
  if String.eqb s "1597026383085" then Some 1597026383085 else None.

(** A [books5] push without [action], with two items in [data]. *)
Definition msg_books5 : json :=
  JObject [ ("arg", JObject [ ("channel", JString "books5");
                              ("instId", JString "BTC-USDT") ]);
            ("data",
             JArray [ JObject [ ("asks", JArray [JArray [JString "60001.0";
                                                         JString "0.5"]]);
                                ("bids", JArray [JArray [JString "60000.5";
                                                         JString "1.5"]]);
                                ("ts", JString "1597026383085") ];
                      JObject [ ("bids", JArray [JArray [JString "1.5";
                                                         JString "1.5"]]) ] ])
          ]%string.

(** *** Properties *)

Example parse_books5 :
  parse_orderbook_message stod_examples stoull_examples (Some msg_books5)
    blank_book =
    (true,
     {| instrument := "BTC-USDT";
        bids := [ {| price_int := 6000050000000; size := 0x3ff8000000000000 |} ];
        asks := [ {| price_int := 6000100000000; size := 0x3fe0000000000000 |} ];
        is_snapshot := true; timestamp_ms := 1597026383085 |}).
Proof. vm_compute. reflexivity. Qed.

(** The loop body succeeds exactly when both sides of the item, where
    present, convert, and its [ts], where it is a string, converts. *)
Lemma parse_item_ok stod stoull item out_book b :
  parse_item stod stoull item out_book = (true, b) <->
  exists new_bids new_asks ts,
    levels_of_side stod (field "bids" (Some item)) = Some new_bids /\
    levels_of_side stod (field "asks" (Some item)) = Some new_asks /\
    match get_string (field "ts" (Some item)) with
    | Some ts_str => stoull ts_str = Some ts
    | None => ts = timestamp_ms out_book
    end /\
    b = {| instrument := instrument out_book;
           bids := bids out_book ++ new_bids;
           asks := asks out_book ++ new_asks;
           is_snapshot := is_snapshot out_book;
           timestamp_ms := ts |}.
Proof.
  unfold parse_item.
  destruct (push_side_result stod (field "bids" (Some item)) (bids out_book))
    as [[lb Hb]|[lb Hb]]; rewrite Hb; cbv beta iota;
    cbn [negb asks bids set_bids set_asks].
  2:{ split; [done|]. intros (nb & na & ts & Hnb & _).
      assert (push_side stod (field "bids" (Some item)) (bids out_book)
              = (true, bids out_book ++ nb)) by (apply push_side_ok; eauto).
      congruence. }
  apply push_side_ok in Hb as (new_bids & Hnb & ->).
  destruct (push_side_result stod (field "asks" (Some item)) (asks out_book))
    as [[la Ha]|[la Ha]]; rewrite Ha; cbv beta iota;
    cbn [negb asks bids set_bids set_asks].
  2:{ split; [done|]. intros (nb & na & ts & _ & Hna & _).
      assert (push_side stod (field "asks" (Some item)) (asks out_book)
              = (true, asks out_book ++ na)) by (apply push_side_ok; eauto).
      congruence. }
  apply push_side_ok in Ha as (new_asks & Hna & ->).
  destruct (get_string (field "ts" (Some item))) as [ts_str|].
  - destruct (stoull ts_str) as [ts|] eqn:Ets.
    + split.
      * intros [= <-]. exists new_bids, new_asks, ts. by repeat split.
      * intros (nb & na & ts' & Hnb' & Hna' & Hts & ->).
        rewrite Hnb in Hnb'. rewrite Hna in Hna'.
        injection Hnb' as <-. injection Hna' as <-. injection Hts as <-.
        reflexivity.
    + split; [done|]. by intros (nb & na & ts' & _ & _ & Hts & _).
  - split.
    + intros [= <-]. exists new_bids, new_asks, (timestamp_ms out_book).
      by repeat split.
    + intros (nb & na & ts' & Hnb' & Hna' & -> & ->).
      rewrite Hnb in Hnb'. rewrite Hna in Hna'.
      injection Hnb' as <-. injection Hna' as <-. reflexivity.
Qed.

(** X26: [OkxAdapter::parse_orderbook_message] succeeds exactly on
    documents whose [arg.channel] is one of the strings
    "books-l2-tbt", "books5" and "books", whose [arg.instId] is a
    string and whose [data] is an array that is empty or whose first
    item converts: its [bids] and [asks], where present, are arrays of
    [[priceStr, sizeStr]] items that [stod] converts, and its [ts],
    where it is a string, is one that [stoull] converts.  It then sets
    the instrument to [arg.instId], [is_snapshot] to whether [action]
    is the string "snapshot" and, when [action] is absent, to whether
    the channel is "books5"; it appends the levels of the first item
    only, and sets the time stamp from its [ts].  Later items of
    [data] are never read. *)
Theorem parse_orderbook_message_first_item
    (stod : string -> option double) (stoull : string -> option Z)
    (doc : option json) (out_book b : ParsedOrderBook) :
  parse_orderbook_message stod stoull doc out_book = (true, b) <->
  exists arg_channel inst_id items new_bids new_asks ts,
    get_string (field "channel" (field "arg" doc)) = Some arg_channel /\
    book_channel arg_channel = true /\
    get_string (field "instId" (field "arg" doc)) = Some inst_id /\
    field "data" doc = Some (JArray items) /\
    match items with
    | [] => new_bids = [] /\ new_asks = [] /\ ts = timestamp_ms out_book
    | item :: _ =>
        levels_of_side stod (field "bids" (Some item)) = Some new_bids /\
        levels_of_side stod (field "asks" (Some item)) = Some new_asks /\
        match get_string (field "ts" (Some item)) with
        | Some ts_str => stoull ts_str = Some ts
        | None => ts = timestamp_ms out_book
        end
    end /\
    b = {| instrument := inst_id;
           bids := bids out_book ++ new_bids;
           asks := asks out_book ++ new_asks;
           is_snapshot :=
             match get_string (field "action" doc) with
             | Some action => String.eqb action "snapshot"
             | None => String.eqb arg_channel "books5"
             end;
           timestamp_ms := ts |}.
Proof.
  unfold parse_orderbook_message.
  destruct doc as [d|].
  2:{ split; [done|]. by intros (c & i & l & nb & na & ts & H & _). }
  destruct (get_string (field "channel" (field "arg" (Some d))))
    as [arg_channel|] eqn:Ec.
  2:{ split; [done|]. by intros (c & i & l & nb & na & ts & H & _). }
  destruct (negb (String.eqb arg_channel "books-l2-tbt")
            && negb (String.eqb arg_channel "books5")
            && negb (String.eqb arg_channel "books")) eqn:Eb.
  1:{ split; [done|].
      intros (c & i & l & nb & na & ts & [= <-] & H & _).
      unfold book_channel in H. by rewrite Eb in H. }
  assert (Hbc : book_channel arg_channel = true)
    by (unfold book_channel; by rewrite Eb).
  destruct (get_string (field "instId" (field "arg" (Some d))))
    as [inst_id|] eqn:Ei.
  2:{ split; [done|]. by intros (c & i & l & nb & na & ts & _ & _ & H & _). }
  cbv zeta.
  set (out1 :=
         match get_string (field "action" (Some d)) with
         | Some action =>
             set_is_snapshot (String.eqb action "snapshot")
               (set_instrument inst_id out_book)
         | None =>
             if String.eqb arg_channel "books5"
             then set_is_snapshot true (set_instrument inst_id out_book)
             else set_is_snapshot false (set_instrument inst_id out_book)
         end).
  assert (Hout1 : out1 =
            {| instrument := inst_id; bids := bids out_book;
               asks := asks out_book;
               is_snapshot :=
                 match get_string (field "action" (Some d)) with
                 | Some action => String.eqb action "snapshot"
                 | None => String.eqb arg_channel "books5"
                 end;
               timestamp_ms := timestamp_ms out_book |}).
  { unfold out1. destruct (get_string (field "action" (Some d))); [done|].
    by destruct (String.eqb arg_channel "books5"). }
  clearbody out1.
  destruct (field "data" (Some d)) as [data|] eqn:Ed.
  2:{ split; [done|]. by intros (c & i & l & nb & na & ts & _ & _ & _ & H & _). }
  destruct data as [| | | | | |items|];
    try (split; [done|];
         by intros (c & i & l & nb & na & ts & _ & _ & _ & H & _)).
  destruct items as [|item rest].
  - split.
    + intros [= <-]. exists arg_channel, inst_id, [], [], [], (timestamp_ms out_book).
      rewrite !app_nil_r. by repeat split.
    + intros (c & i & l & nb & na & ts & [= <-] & _ & [= <-] & [= <-]
              & (-> & -> & ->) & ->).
      by rewrite !app_nil_r, Hout1.
  - rewrite parse_item_ok, Hout1. cbn [instrument bids asks is_snapshot timestamp_ms].
    split.
    + intros (nb & na & ts & Hnb & Hna & Hts & ->).
      exists arg_channel, inst_id, (item :: rest), nb, na, ts. by repeat split.
    + intros (c & i & l & nb & na & ts & [= <-] & _ & [= <-] & [= <-]
              & (Hnb & Hna & Hts) & ->).
      exists nb, na, ts. by repeat split.
Qed.

End OkxAdapter.

(* ===================================================================== *)
(** ** Bybit messages and connection (exchange/bybit_adapter.cpp,
       exchange/bybit_connection.cpp)                                     *)
(* ===================================================================== *)

Module BybitConnection.
Import Double ExchangeAdapter BybitAdapter UdpPublisher.
Import OrderBookEngine (ExchangeId).

(** *** The adapter's other members *)

Definition get_bool (r : option json) : option bool :=
  match r with Some (JBool b) => Some b | _ => None end.

(** [BybitAdapter::is_ping_message], on the document its parser
    returned ([None] when it threw). *)
Definition is_ping_message (doc : option json) : bool :=
  match doc with
  | None => false
  | Some _ =>
      match get_string (field "op" doc) with
      | Some op =>
          let has_success :=
            match get_bool (field "success" doc) with
            | Some _ => true
            | None => false
            end in
          String.eqb op "ping" && negb has_success
      | None => false
      end
  end.

(** [BybitAdapter::is_subscription_response] *)
Definition is_subscription_response (doc : option json) : bool :=
  match doc with
  | None => false
  | Some _ =>
      match get_bool (field "success" doc), get_string (field "op" doc) with
      | Some success, Some op =>
          String.eqb op "subscribe" || String.eqb op "unsubscribe"
      | _, _ => false
      end
  end.

(** The double quote of the raw string literals. *)
Definition quote : string := String (ascii_of_nat 34) EmptyString.

(** [BybitAdapter::generate_subscribe_message]: the op and, as the one
    argument, the channel, a dot and the instrument. *)
Definition generate_subscribe_message (inst channel : string) : string :=
  ("{" ++ quote ++ "op" ++ quote ++ ":" ++ quote ++ "subscribe" ++ quote
   ++ "," ++ quote ++ "args" ++ quote ++ ":[" ++ quote
   ++ channel ++ "." ++ inst ++ quote ++ "]}")%string.

(** [BybitAdapter::generate_pong_message] *)
Definition generate_pong_message : string :=
  ("{" ++ quote ++ "op" ++ quote ++ ":" ++ quote ++ "pong" ++ quote ++ "}")%string.

(** *** The connection *)

Record Subscription := {
  instruments : list string;
  channel : string
}.

Record connection := {
  active_subscriptions_ : list Subscription
}.

(** What a member function does to the outside, in program order. *)
Inductive effect :=
| Send (msg : string)                (* ws_client_->send(msg) *)
| Sendto (d : datagram)              (* a sendto of the UDP publisher *)
| Callback (book : ParsedOrderBook). (* callback(book) *)

(** [BybitConnection::subscribe]; [connected] is what
    [ws_client_->is_connected()] returns. *)
Definition subscribe (connected : bool) (insts : list string) (ch : string)
    (c : connection) : list effect * connection :=
  let c :=
    {| active_subscriptions_ :=
         active_subscriptions_ c ++ [ {| instruments := insts; channel := ch |} ]
    |} in
  if negb connected then ([], c)
  else (map (fun inst => Send (generate_subscribe_message inst ch)) insts, c).

(** [BybitConnection::resubscribe] *)
Definition resubscribe (c : connection) : list effect :=
  flat_map
    (fun sub =>
       map (fun inst => Send (generate_subscribe_message inst (channel sub)))
           (instruments sub))
    (active_subscriptions_ c).

(** [ParsedOrderBook book;]: the string and the two vectors are empty;
    the flag and the time stamp are not initialised and hold what the
    stack held. *)
Definition local_book (stack_flag : bool) (stack_ts : Z) : ParsedOrderBook :=
  {| instrument := ""; bids := []; asks := []; is_snapshot := stack_flag;
     timestamp_ms := stack_ts |}.

Section Connection.
Variable stod : string -> option double.
Variable inet_pton : string -> option Z.

(** [BybitConnection::process_message], on the document the parsers
    of the adapter return for the message.  [udp_publisher_] is
    nothing for a null pointer, [callback] whether the function
    object is non-empty, [now_ns] the reading of the clock in
    [publish]. *)
Definition process_message (udp_publisher_ : option publisher)
    (callback : bool) (now_ns : Z) (stack_flag : bool) (stack_ts : Z)
    (doc : option json) : list effect :=
  if is_ping_message doc then
    let pong := generate_pong_message in
    if negb (String.length pong =? 0)%nat then [Send pong] else []
  else if is_subscription_response doc then []
  else
    let book := local_book stack_flag stack_ts in
    let '(ok, book) := parse_orderbook_message stod doc book in
    if ok then
      match udp_publisher_ with
      | Some p =>
          if is_initialized p
          then map Sendto (publish inet_pton p book OrderBookEngine.BYBIT now_ns)
          else []
      | None => []
      end
      ++ (if callback then [Callback book] else [])
    else [].
End Connection.

(** The calls of [subscribe] made on a connection, each with the
    state of the client at that time. *)
Definition subscribe_call : Type := bool * list string * string.

Definition do_subscribe (c : connection) (call : subscribe_call) : connection :=
  let '(connected, insts, ch) := call in (subscribe connected insts ch c).2.

(** *** Concrete messages *)

(** The second bid has a size that is no string. *)
Definition msg_bad_level : json :=
  JObject [ ("topic", JString "orderbook.50.BTCUSDT");
            ("type", JString "delta");
            ("data", JObject [ ("b", JArray [JArray [JString "60000.5"; JString "1.5"];
                                             JArray [JString "60001.0"; JInt64 1]]);
                               ("ts", JInt64 1702500000000) ]) ]%string.

(** A ping that also carries an order book topic. *)
Definition msg_ping_with_topic : json :=
  JObject [ ("op", JString "ping");
            ("topic", JString "orderbook.50.BTCUSDT");
            ("data", JObject []) ]%string.

(** *** Properties *)

Example generate_subscribe_message_example :
  generate_subscribe_message "BTCUSDT" "orderbook.50" =
    ("{" ++ quote ++ "op" ++ quote ++ ":" ++ quote ++ "subscribe" ++ quote
     ++ "," ++ quote ++ "args" ++ quote ++ ":[" ++ quote
     ++ "orderbook.50.BTCUSDT" ++ quote ++ "]}")%string.
Proof. reflexivity. Qed.

Example parse_bad_level :
  parse_orderbook_message stod_examples (Some msg_bad_level) blank_book =
    (false,
     {| instrument := "BTCUSDT";
        bids := [ {| price_int := 6000050000000; size := 0x3ff8000000000000 |} ];
        asks := []; is_snapshot := false; timestamp_ms := 0 |}).
Proof. vm_compute. reflexivity. Qed.

(** The loops only append. *)
Lemma push_levels_appends stod (items : list json) :
  forall levels, exists ls, (push_levels stod items levels).2 = levels ++ ls.
Proof.
  induction items as [|item rest IH]; intros levels; simpl.
  - exists []. by rewrite app_nil_r.
  - destruct (level_of_json stod item) as [lv|]; simpl.
    + destruct (IH (levels ++ [lv])) as [ls Hls].
      exists (lv :: ls). rewrite Hls. by rewrite <- app_assoc.
    + exists []. by rewrite app_nil_r.
Qed.

Lemma push_side_appends stod side levels :
  exists ls, (push_side stod side levels).2 = levels ++ ls.
Proof.
  unfold push_side.
  destruct side as [[| | | | | |items|]|];
    try (exists []; by rewrite app_nil_r).
  apply push_levels_appends.
Qed.

(** What a call of [parse_orderbook_message] can leave behind. *)
Lemma parse_orderbook_message_cases stod doc out_book :
  parse_orderbook_message stod doc out_book = (false, out_book) \/
  exists topic last_dot nb na,
    get_string (field "topic" doc) = Some topic /\
    rfind "." topic = Some last_dot /\
    instrument (parse_orderbook_message stod doc out_book).2
      = substr (last_dot + 1) topic /\
    is_snapshot (parse_orderbook_message stod doc out_book).2 =
      match get_string (field "type" doc) with
      | Some type => String.eqb type "snapshot"
      | None => false
      end /\
    bids (parse_orderbook_message stod doc out_book).2 = bids out_book ++ nb /\
    asks (parse_orderbook_message stod doc out_book).2 = asks out_book ++ na /\
    ((parse_orderbook_message stod doc out_book).1 = false ->
     timestamp_ms (parse_orderbook_message stod doc out_book).2
       = timestamp_ms out_book) /\
    ((parse_orderbook_message stod doc out_book).1 = true ->
     levels_of_side stod (field "b" (field "data" doc)) = Some nb /\
     levels_of_side stod (field "a" (field "data" doc)) = Some na /\
     timestamp_ms (parse_orderbook_message stod doc out_book).2 =
       match get_uint64 (field "ts" (field "data" doc)) with
       | Some ts => ts
       | None => timestamp_ms out_book
       end).
Proof.
  unfold parse_orderbook_message.
  destruct doc as [d|]; [|by left].
  destruct (get_string (field "topic" (Some d))) as [topic|] eqn:Et; [|by left].
  destruct (find "orderbook" topic) as [pos|] eqn:Ef; [|by left].
  destruct (rfind "." topic) as [last_dot|] eqn:Er; [|by left].
  right. exists topic, last_dot. cbv zeta.
  set (out1 := match get_string (field "type" (Some d)) with
               | Some type => set_is_snapshot (String.eqb type "snapshot")
                                (set_instrument (substr (last_dot + 1) topic) out_book)
               | None => set_is_snapshot false
                           (set_instrument (substr (last_dot + 1) topic) out_book)
               end).
  assert (Hout1 : out1 =
            {| instrument := substr (last_dot + 1) topic;
               bids := bids out_book; asks := asks out_book;
               is_snapshot :=
                 match get_string (field "type" (Some d)) with
                 | Some type => String.eqb type "snapshot"
                 | None => false
                 end;
               timestamp_ms := timestamp_ms out_book |}).
  { unfold out1. by destruct (get_string (field "type" (Some d))). }
  clearbody out1. subst out1.
  destruct (field "data" (Some d)) as [data|] eqn:Ed.
  2:{ exists [], []. cbn. rewrite !app_nil_r. by repeat split. }
  cbn [bids asks].
  destruct (push_side_appends stod (field "b" (Some data)) (bids out_book))
    as [nb Hnb].
  destruct (push_side stod (field "b" (Some data)) (bids out_book))
    as [[] lb] eqn:Hb; cbn [snd] in Hnb; subst lb; cbn [negb set_bids asks].
  2:{ exists nb, []. cbn. rewrite !app_nil_r. by repeat split. }
  apply push_side_ok in Hb as (nb' & Hlb & Happ).
  apply app_inv_head in Happ as ->.
  destruct (push_side_appends stod (field "a" (Some data)) (asks out_book))
    as [na Hna].
  destruct (push_side stod (field "a" (Some data)) (asks out_book))
    as [[] la] eqn:Ha; cbn [snd] in Hna; subst la; cbn [negb set_asks].
  2:{ exists nb', na. cbn. by repeat split. }
  apply push_side_ok in Ha as (na' & Hla & Happ).
  apply app_inv_head in Happ as ->.
  exists nb', na'.
  destruct (get_uint64 (field "ts" (Some data))); cbn; by repeat split.
Qed.

(** X27: a call of [parse_orderbook_message] that returns false may
    have changed [out_book].  It has removed no level: the bids and
    the asks are the ones the book had, followed by those converted
    before the failure; the time stamp is as it was; and either the
    book is untouched, or the instrument and the snapshot flag are
    already those of the message. *)
Theorem failed_parse_keeps_levels (stod : string -> option double)
    (doc : option json) (out_book b : ParsedOrderBook) :
  parse_orderbook_message stod doc out_book = (false, b) ->
  (exists nb na, bids b = bids out_book ++ nb /\ asks b = asks out_book ++ na) /\
  timestamp_ms b = timestamp_ms out_book /\
  (b = out_book \/
   exists topic last_dot,
     get_string (field "topic" doc) = Some topic /\
     rfind "." topic = Some last_dot /\
     instrument b = substr (last_dot + 1) topic /\
     is_snapshot b =
       match get_string (field "type" doc) with
       | Some type => String.eqb type "snapshot"
       | None => false
       end).
Proof.
  intros Hparse.
  destruct (parse_orderbook_message_cases stod doc out_book)
    as [H|(topic & last_dot & nb & na & Ht & Hr & Hi & Hs & Hb & Ha & Hts & _)].
  - rewrite H in Hparse. injection Hparse as <-.
    split; [exists [], []; by rewrite !app_nil_r|]. split; [done|by left].
  - rewrite Hparse in *. cbn [fst snd] in *.
    split; [by exists nb, na|]. split; [by apply Hts|].
    right. by exists topic, last_dot.
Qed.

Lemma failed_parse_keeps_levels_witness :
  parse_orderbook_message stod_examples (Some msg_bad_level) blank_book =
    (false,
     {| instrument := "BTCUSDT";
        bids := [ {| price_int := 6000050000000; size := 0x3ff8000000000000 |} ];
        asks := []; is_snapshot := false; timestamp_ms := 0 |})
  /\
  exists nb na,
    [ {| price_int := 6000050000000; size := 0x3ff8000000000000 |} ]
      = bids blank_book ++ nb /\
    [] = asks blank_book ++ na.
Proof.
  split; [exact parse_bad_level|].
  exact (proj1 (failed_parse_keeps_levels stod_examples (Some msg_bad_level)
                  blank_book _ parse_bad_level)).
Defined.

(** *** The instrument of a subscription *)

Lemma string_append_assoc (s1 s2 s3 : string) :
  ((s1 ++ s2) ++ s3 = s1 ++ (s2 ++ s3))%string.
Proof.
  induction s1 as [|a s1 IH]; [done|].
  change (String a ((s1 ++ s2) ++ s3) = String a (s1 ++ (s2 ++ s3)))%string.
  by rewrite IH.
Qed.

Lemma substr_0 s : substr 0 s = s.
Proof.
  unfold substr. rewrite Nat.sub_0_r.
  induction s as [|a s IH]; simpl; [done|by rewrite IH].
Qed.

Lemma substr_cons n a s : substr (S n) (String a s) = substr n s.
Proof. reflexivity. Qed.

Lemma substr_append s1 s n :
  substr (String.length s1 + n) (s1 ++ s) = substr n s.
Proof.
  induction s1 as [|a s1 IH]; [done|].
  rewrite <- IH. exact (substr_cons _ a (s1 ++ s)).
Qed.

Lemma rfind_append c s1 s i :
  rfind c s = Some i -> rfind c (s1 ++ s) = Some (String.length s1 + i)%nat.
Proof.
  intros H. induction s1 as [|a s1 IH]; [done|].
  change (match rfind c (s1 ++ s) with
          | Some j => Some (S j)
          | None => if Ascii.eqb a c then Some 0%nat else None
          end = Some (S (String.length s1 + i))).
  by rewrite IH.
Qed.

(** The last dot of [channel.inst] and the text behind it. *)
Lemma topic_last_dot ch inst :
  exists last_dot,
    rfind "." (ch ++ "." ++ inst) = Some last_dot /\
    substr (last_dot + 1) (ch ++ "." ++ inst) =
      match rfind "." inst with
      | Some i => substr (i + 1) inst
      | None => inst
      end.
Proof.
  change ("." ++ inst)%string with (String "." inst).
  destruct (rfind "." inst) as [i|] eqn:E.
  - exists (String.length ch + S i)%nat. split.
    + apply rfind_append. cbn [rfind]. by rewrite E.
    + rewrite <- Nat.add_assoc, substr_append. cbn [Nat.add].
      by rewrite substr_cons.
  - exists (String.length ch + 0)%nat. split.
    + apply rfind_append. cbn [rfind]. by rewrite E.
    + rewrite <- Nat.add_assoc, substr_append. cbn [Nat.add].
      by rewrite substr_cons, substr_0.
Qed.

(** X28: the instrument of a subscription comes back.  The one
    argument of the message [generate_subscribe_message] builds is the
    channel, a dot and the instrument; when a message with that topic
    parses, the instrument of the book is the text behind the last dot
    of the instrument subscribed to: the instrument itself when it
    holds no dot, and otherwise only its last component. *)
Theorem subscribed_instrument_is_parsed (stod : string -> option double)
    (doc : option json) (out_book b : ParsedOrderBook) (inst ch : string) :
  get_string (field "topic" doc) = Some (ch ++ "." ++ inst)%string ->
  parse_orderbook_message stod doc out_book = (true, b) ->
  generate_subscribe_message inst ch =
    ("{" ++ quote ++ "op" ++ quote ++ ":" ++ quote ++ "subscribe" ++ quote
     ++ "," ++ quote ++ "args" ++ quote ++ ":[" ++ quote
     ++ (ch ++ "." ++ inst) ++ quote ++ "]}")%string
  /\
  instrument b =
    match rfind "." inst with
    | Some i => substr (i + 1) inst
    | None => inst
    end.
Proof.
  intros Htopic Hparse. split.
  - unfold generate_subscribe_message.
    by rewrite !string_append_assoc.
  - destruct (parse_orderbook_message_cases stod doc out_book)
      as [H|(topic & last_dot & nb & na & Ht & Hr & Hi & _)].
    + by rewrite H in Hparse.
    + rewrite Hparse in Hi. cbn [snd] in Hi.
      rewrite Htopic in Ht. injection Ht as <-.
      destruct (topic_last_dot ch inst) as (d & Hd & Hsub).
      rewrite Hd in Hr. injection Hr as <-. by rewrite Hi, Hsub.
Qed.

Lemma subscribed_instrument_is_parsed_witness :
  get_string (field "topic" (Some msg_snapshot))
    = Some ("orderbook.50" ++ "." ++ "BTCUSDT")%string /\
  instrument (parse_orderbook_message stod_examples (Some msg_snapshot)
                blank_book).2 = "BTCUSDT"%string.
Proof.
  split; [reflexivity|].
  exact (proj2 (subscribed_instrument_is_parsed stod_examples
                  (Some msg_snapshot) blank_book _ "BTCUSDT" "orderbook.50"
                  eq_refl parse_snapshot)).
Defined.

(** *** One message *)

Lemma is_ping_not_subscription_response doc :
  is_ping_message doc = true -> is_subscription_response doc = false.
Proof.
  unfold is_ping_message, is_subscription_response.
  destruct doc as [d|]; [|done].
  destruct (get_string (field "op" (Some d))) as [op|]; [|done].
  destruct (get_bool (field "success" (Some d))); [|done].
  cbv zeta. by rewrite andb_false_r.
Qed.

(** X29: [process_message] treats a message as exactly one of a ping,
    a subscription response, an order book or nothing.  A ping is
    answered with the pong and with nothing else, also when it
    carries an order book; a subscription response has no effect; and
    any other message that parses is published, when the publisher is
    there and open, and handed to the callback, when there is one.
    The book published and handed over is the same, for venue BYBIT,
    and holds the levels of this message only: it is built afresh for
    every message.  Its time stamp is what the stack held when the
    message has none. *)
Theorem process_message_effects (stod : string -> option double)
    (inet_pton : string -> option Z) (udp_publisher_ : option publisher)
    (callback : bool) (now_ns : Z) (stack_flag : bool) (stack_ts : Z)
    (doc : option json) :
  let effects :=
    process_message stod inet_pton udp_publisher_ callback now_ns stack_flag
      stack_ts doc in
  (is_ping_message doc = true /\ is_subscription_response doc = false /\
   effects = [Send generate_pong_message])
  \/
  (is_ping_message doc = false /\ is_subscription_response doc = true /\
   effects = [])
  \/
  (is_ping_message doc = false /\ is_subscription_response doc = false /\
   ((parse_orderbook_message stod doc (local_book stack_flag stack_ts)).1
      = false /\ effects = []
    \/
    exists b,
      parse_orderbook_message stod doc (local_book stack_flag stack_ts)
        = (true, b) /\
      levels_of_side stod (field "b" (field "data" doc)) = Some (bids b) /\
      levels_of_side stod (field "a" (field "data" doc)) = Some (asks b) /\
      timestamp_ms b =
        match get_uint64 (field "ts" (field "data" doc)) with
        | Some ts => ts
        | None => stack_ts
        end /\
      effects =
        match udp_publisher_ with
        | Some p =>
            if is_initialized p
            then map Sendto
                   (publish inet_pton p b OrderBookEngine.BYBIT now_ns)
            else []
        | None => []
        end
        ++ (if callback then [Callback b] else []))).
Proof.
  cbv zeta. unfold process_message.
  destruct (is_ping_message doc) eqn:Eping.
  { left. split; [done|]. split; [|done].
    by apply is_ping_not_subscription_response. }
  right. destruct (is_subscription_response doc) eqn:Esub; [by left|].
  right. split; [done|]. split; [done|]. cbv zeta.
  destruct (parse_orderbook_message_cases stod doc (local_book stack_flag stack_ts))
    as [H|(topic & last_dot & nb & na & Ht & Hr & Hi & Hs & Hb & Ha & _ & Hok)].
  { left. by rewrite H. }
  destruct (parse_orderbook_message stod doc (local_book stack_flag stack_ts))
    as [[] b] eqn:Hparse; cbn [fst snd] in *; [|by left].
  right. exists b. destruct (Hok eq_refl) as (Hlb & Hla & Hts).
  cbn [bids asks local_book app] in Hb, Ha.
  split; [done|]. split; [by rewrite Hb|]. split; [by rewrite Ha|].
  split; [exact Hts|done].
Qed.

Example ping_with_topic_is_not_delivered :
  (parse_orderbook_message stod_examples (Some msg_ping_with_topic)
     blank_book).1 = true /\
  forall inet_pton p callback now_ns stack_flag stack_ts,
    process_message stod_examples inet_pton p callback now_ns stack_flag
      stack_ts (Some msg_ping_with_topic) = [Send generate_pong_message].
Proof. split; reflexivity. Qed.

(** *** Subscriptions *)

Lemma do_subscribe_subscriptions c call :
  active_subscriptions_ (do_subscribe c call) =
    active_subscriptions_ c
    ++ [ {| instruments := call.1.2; channel := call.2 |} ].
Proof.
  destruct call as [[connected insts] ch]. unfold do_subscribe, subscribe.
  cbn [fst snd]. by destruct connected.
Qed.

Lemma fold_do_subscribe calls :
  forall c,
    active_subscriptions_ (fold_left do_subscribe calls c) =
      active_subscriptions_ c
      ++ map (fun call => {| instruments := call.1.2; channel := call.2 |}) calls.
Proof.
  induction calls as [|call calls IH]; intros c; cbn [fold_left map].
  - by rewrite app_nil_r.
  - rewrite IH, do_subscribe_subscriptions, <- app_assoc. reflexivity.
Qed.

(** X30: no subscription is lost.  After any calls of [subscribe],
    made while the client was connected or not, [resubscribe] hands
    to the client one subscribe message for every instrument of every
    call, in the order of the calls and of their instruments: the
    messages the calls would have sent, had they all been made in
    connected state.  Nothing is left out for having been sent
    before, and a call made while disconnected sends nothing
    itself. *)
Theorem resubscribe_sends_every_subscription (calls : list subscribe_call) :
  let c := fold_left do_subscribe calls {| active_subscriptions_ := [] |} in
  resubscribe c =
    flat_map (fun call =>
                (subscribe true call.1.2 call.2
                   {| active_subscriptions_ := [] |}).1) calls
  /\
  forall insts ch c',
    (subscribe false insts ch c').1 = [] /\
    resubscribe (subscribe false insts ch c').2 =
      resubscribe c' ++ (subscribe true insts ch c').1.
Proof.
  cbv zeta. split.
  - unfold resubscribe. rewrite fold_do_subscribe. cbn [active_subscriptions_ app].
    induction calls as [|call calls IH]; [done|].
    cbn [map flat_map]. by rewrite IH.
  - intros insts ch c'. split; [done|].
    unfold resubscribe, subscribe. cbn [negb fst snd active_subscriptions_].
    rewrite flat_map_app. cbn [flat_map instruments channel]. by rewrite app_nil_r.
Qed.

End BybitConnection.
